(* ===== verification/_CoqProject ===== *)
-Q . S2P
Prelude.v
Enum.v
RingBuffer.v
Spsc.v
Accumulator.v
LogBuffer.v
Endian.v
KList.v
KQueue.v
FreeList.v
Bst.v
TsQueue.v
Pool.v
StateMachine.v
Notifier.v
EventFlag.v
Mutex.v
Monitor.v
TsLog.v
QueueRun.v
C11.v
DispatchQueue.v
Objects.v
FreeRtos.v
StateEventLoop.v
EventLoopRun.v
Dispatcher.v
Asyncio.v
AsyncioRun.v
AsyncioService.v
AsyncioGuarantees.v
AsyncioStop.v
Logger.v
Task.v
FreeRtosTask.v
Storage.v
TaskStore.v
