(* ===== verification/Prelude.v ===== *)
(** * cutils: a verified model of the library

    cutils is a C library of containers and concurrency components for embedded
    programs, with three ports (pthreads, C11 threads, FreeRTOS).  This development
    models its components one file each, translated from src/src and
    src/inc/cutils, and proves what they promise their clients.

    ** The parts and the files

    - [Prelude]: machine words, the [result] monad of faults, lists as C arrays,
      circular buffers, automation.
    - [RingBuffer] (ring_buffer.c/.h): the byte ring with 64-bit read and write
      offsets; writes, reads, peeks and range reads as the code does them, with
      its two-part copies.
    - [Accumulator] (accumulator.h): the sliding window of samples, with its
      macros for insertion, extraction, advance, iteration and peeking.
    - [LogBuffer] (log_buffer.c, ts_log_buffer.c): the text log over a ring, its
      escape-sequence filter, and in [Module TsLogBuffer] the thread-safe
      wrapper with its notification.
    - [Endian] (endian.c): byte swaps.
    - [KList] (klist.h), [KQueue] (kqueue.h), [FreeList] (free_list.h), [Bst]
      (bst.c): the intrusive structures, over an explicit store from addresses to
      links, so that aliasing and stale links are in the model.
    - [TsQueue] (pthread/ts_queue.h, shared with c11): the bounded blocking queue.
      It also states the interface [BoundedQueue] with [BoundedQueueLaws] that
      its clients are proved against, and implements it ([port_queue]).
    - [Pool] (pool.h): reference-counted blocks over any [BoundedQueue].
    - [StateMachine] (state_machine.c, state.h): client callbacks are functions
      on the machine, the states and the client's world.
    - [Notifier] (notifier.c): lists of [KList] whose blocks come from a [Pool].
    - [EventFlag] (pthread/event_flag.h, signal.h), [Mutex] (pthread/mutex.h):
      the other primitives of the ports; [C11] is what the C11 port has of its
      own (c11threads.h), and [FreeRtos] the FreeRTOS port over the kernel's calls,
      with a second instance of [BoundedQueue].
    - [Monitor]: objects that threads share behind a mutex, at the grain of single
      accesses.  [Monitored] with [MonitoredLaws] states what an object promises:
      its accesses make up the segments that the components' files are about;
      [monitor_refines] then takes any interleaving of accesses to a sequence of
      segments.  [TsLog] (ts_log_buffer.c) and [QueueRun] (pthread/ts_queue.h) are
      the instances.
    - [Objects]: the mutexes and condition variables inside the structs, over the
      creating and destroying operations of mutex.h, event_flag.h, signal.h,
      ts_queue.h, pool.h, ts_log_buffer.c, notifier.c and dispatch_queue.c.
    - [DispatchQueue] (dispatch_queue.c/.h): posters, the worker and the
      destroyer over a [Pool], a [BoundedQueue] and a signal.  [Dispatcher] states
      what its clients rely on as an interface, [Dispatcher] with [DispatcherLaws],
      and implements it with the dispatch queue.
    - [StateEventLoop] (state_event_loop.c/.h): its operations over a dispatch queue,
      machines, a notifier and an event pool, and the abstract event loop that they
      implement; [EventLoopRun] interleaves posters, the worker, listeners and the
      destroyer of the dispatch queue.
    - [Asyncio] (asyncio.c/.h): every function of the asynchronous I/O service, over
      two [Dispatcher]s and two pools; [AsyncioRun] interleaves threads that start and
      stop it, the workers and the senders, [AsyncioService] is the invariant of those
      runs, [AsyncioGuarantees] what it gives the clients, and [AsyncioStop] the same
      with a stop.
    - [Enum] (types.h): the functions that [DECLARE_ENUM] generates, and the tables of
      the library.  [Logger] (logger.c/.h): console logging and the prefixes that the
      components give it.
    - [Task] (pthread/task.c, c11/task.c, c11threads.h): creation over the codes of the
      thread library, the thread that reads its name while its creator still stores it,
      priorities, sleeping and ticks.  [FreeRtosTask] (freertos/task.c): the same over
      the kernel, and runs in which the kernel schedules the tasks.  [TaskStore]: the
      static stores of the three task.h.
    - [Storage] (the [..._STORE_DECL], [..._STORE_DEF] and [..._CREATE_PARAMS_INIT]
      macros of the headers): what they declare and fill in, over the layout rules of a
      C ABI, and that it is what the components' theorems ask their callers for.

    ** How the code is rendered

    A C integer is a [Z] with its wrap-around written out ([u8], [u32], [u64]).
    An operation that can fail an assertion, dereference NULL or leave an array
    returns a [result]; [OutOfFuel] is no behaviour of the program.  A struct is a
    record, mutated objects are threaded through the operations, and objects that
    alias each other live in a map from addresses.  A nullable pointer argument is
    an [option] or [0].  Callbacks are functions on the client's world, which the
    sections take as parameters.  Thread libraries, the clock and the FreeRTOS
    kernel are not in the repository: their outcomes are arguments, and where a
    theorem needs their behaviour it is a named hypothesis or class of laws
    ([posix_mutex], [KernelQueueLaws], [EventGroupLaws]).

    Concurrency is rendered by cutting each operation where it gives up or shares
    something: a call on a queue or a flag is the code it runs from owning the
    mutex until it waits or returns, and a run is an arbitrary sequence of such
    segments ([world_run], [flags_run], [dq_run], [cs_run], [sel_run], [aio_run],
    [task_run], [spsc_run]).  [Mutex] says when the library's mutex excludes, and
    for the queue and the log [Monitor] derives from it that threads which interleave
    their accesses make such segments; the flags and the notifier take that for
    granted.

    ** What the theorems show

    The properties are numbered in the order of their weight.

    - Components over others, under every interleaving: the state event loop refines
      an abstract loop that processes the posted events one after the other, and
      drains (C1, C17), with its start (C32); the dispatch queue
      makes each posted call once in order (C2) and its worker terminates (C18); the
      asynchronous service starts once (C5), transmits what it is sent in order (C3)
      and goes on receiving (C20), with what a release does (C33); when it is stopped it
      goes down and can be started again (C6), and the stop comes to its end (C19); the
      pool is a set of reference counts (C7, C39), the notifier a registry (C8), the
      state machine an automaton (C9).  What the storage macros declare is what these
      theorems ask for (C28 to C30).
    - Primitives: the blocking queue is linearizable (C4) and how its timed waits end
      (C31); flags lose no wake-up (C10), signals wake one waiter per send (C22),
      the mutex excludes at some times of day only (C23), and then the accesses of the
      queue and of the shared log serialize (C24, C25).  What a component leaves of its
      thread objects (C26).  The FreeRTOS flags agree with the others (C40).  A task that
      is created learns its name (C27), and what a creation comes to (C34).
    - Containers refine lists: the ring and the log a byte stream (C11, C16), the
      ring also between two threads (C12, C35) and without a memory fault whatever it
      is asked for (C21), the accumulator a window of the newest samples (C15), the
      lists and queues sequences of elements (C13, C36), the tree a sorted
      sequence (C14).
    - Names and lines: enumerations round-trip through their names (C37); what a log
      line shows and when it overruns its buffer (C38).

    The files have more theorems of these kinds, without a number: on the remaining
    operations of the containers, the byte swaps, the waits of the c11 port, the posting
    of an event in steps, the tasks of the FreeRTOS kernel ([freertos_tasks_run_once])
    and the stores of tasks ([task_store_layout]).

    Each of these theorems covers the failing branches, and several end with the input
    or the interleaving on which the code misbehaves.

    ** Bounds and fuel

    Loops over linked structures take fuel: a traversal needs one more unit than
    the list has elements, a tree operation one more than the height, which the
    theorems bound by the number of elements; the worker of the dispatch queue needs
    one more than there are queued items.  The offsets and counters of the rings
    and of the queue are 64 bits wide and never reset, so the theorems assume that
    a run does not bring them to [2^64]; [bq_ok n] counts the calls a queue can
    still serve.

    The runs of the state event loop and of the asynchronous service count the steps
    that the queues and dispatchers have to allow in the same way ([ready],
    [service_ready]).

    ** What is not modelled

    What a thread library or a kernel does with a thread, and what the
    components log apart from the prefixes.  The objects inside the POSIX attributes,
    and what becomes of a thread object that somebody still uses.  Code that the ports
    have word for word, as the queue and the runner of the c11 port, is modelled once,
    and the dispatch with a delay is compiled out.  Plain fields that two threads share, as
    [stream_stopped], are read and written as one step, where C11 has no meaning for
    a race.  The sessions of the asynchronous service have one stop, made when its start
    has returned; what overlapping starts and stops do is shown on examples and by the
    outcome of a stop ([asyncio_stop_outcome]).  Tests, build files and the vendored
    embUnit are not part of the library. *)
From stdpp Require Import base decidable list gmap.
From Stdlib Require Import ZArith Lia Strings.Byte.
#[global] Open Scope Z_scope.

(** ** Automation shared by the components *)

Create HintDb cutils discriminated.
Create Rewrite HintDb cutils_len.

(** Linear arithmetic over [/] and [mod]. *)
Ltac zmod := Z.div_mod_to_equations; first [lia | nia].

(** Split the boolean tests of the goal and of the hypotheses into
    arithmetic facts. *)
Ltac bdestr :=
  repeat match goal with
  | H : bool_decide _ = true |- _ => apply bool_decide_eq_true in H
  | H : bool_decide _ = false |- _ => apply bool_decide_eq_false in H
  | H : negb _ = true |- _ => apply negb_true_iff in H
  | H : negb _ = false |- _ => apply negb_false_iff in H
  | H : _ && _ = true |- _ => apply andb_true_iff in H; destruct H
  | H : _ || _ = false |- _ => apply orb_false_iff in H; destruct H
  | H : (_ <? _) = true |- _ => apply Z.ltb_lt in H
  | H : (_ <? _) = false |- _ => apply Z.ltb_ge in H
  | H : (_ <=? _) = true |- _ => apply Z.leb_le in H
  | H : (_ <=? _) = false |- _ => apply Z.leb_gt in H
  | H : (_ =? _) = true |- _ => apply Z.eqb_eq in H
  | H : (_ =? _) = false |- _ => apply Z.eqb_neq in H
  end.

(** ** Machine words

    A [w]-bit unsigned integer is a [Z] in [0 .. 2^w - 1]; every C operation
    that can wrap is written with the conversion that wraps it. *)

Definition u8 (x : Z) : Z := x mod 256.
Definition u16 (x : Z) : Z := x mod 65536.
Definition u32 (x : Z) : Z := x mod 4294967296.
Definition u64 (x : Z) : Z := x mod 18446744073709551616.

(** [int32_t] obtained from a 32-bit pattern. *)
Definition s32 (x : Z) : Z :=
  if u32 x <? 2147483648 then u32 x else u32 x - 4294967296.

Definition is_u8 (x : Z) : Prop := 0 <= x < 256.
Definition is_u16 (x : Z) : Prop := 0 <= x < 65536.
Definition is_u32 (x : Z) : Prop := 0 <= x < 4294967296.
Definition is_u64 (x : Z) : Prop := 0 <= x < 18446744073709551616.

Ltac words :=
  unfold is_u8, is_u16, is_u32, is_u64, u8, u16, u32, u64 in *; zmod.

Lemma u32_range x : is_u32 (u32 x).
Proof. words. Qed.

Lemma u64_range x : is_u64 (u64 x).
Proof. words. Qed.

Lemma u32_small x : is_u32 x -> u32 x = x.
Proof. words. Qed.

Lemma u64_small x : is_u64 x -> u64 x = x.
Proof. words. Qed.

Lemma u32_of_u64 x : u32 (u64 x) = u32 x.
Proof. words. Qed.

(** The 64-bit difference of two counters that are less than [2^32] apart
    survives the truncation to [uint32_t]. *)
Lemma u32_u64_diff a b :
  0 <= b - a < 4294967296 -> u32 (u64 (b - a)) = b - a.
Proof. intros H. rewrite u32_of_u64. apply u32_small. words. Qed.

#[export] Hint Resolve u32_range u64_range : cutils.

(** [MIN(a, b)] of types.h. *)
Definition c_min (a b : Z) : Z := if a <? b then a else b.

Lemma c_min_min a b : c_min a b = Z.min a b.
Proof. unfold c_min. destruct (a <? b) eqn:E; bdestr; lia. Qed.

(** [MAX(a, b)] of types.h. *)
Definition c_max (a b : Z) : Z := if a <? b then b else a.

(** ** Faults

    [CUTILS_ASSERT] and [CUTILS_ASSERTF] write through the null pointer when
    their condition is false, and [assert] calls [abort]; dereferencing NULL
    or an address outside every object is undefined, and so is initializing a thread
    object that is in use or using one that is not ([BadObject]).  An operation that can do
    one of these returns a [result].  [OutOfFuel] is not a behaviour of the
    program: a loop returns it when the bound on its iterations was too small,
    and the theorems show the bound that is enough. *)

Inductive fault : Set :=
  | AssertFailed
  | BadPointer
  | OutOfBounds
  | DivByZero
  | BadObject
  | OutOfFuel.

#[export] Instance fault_eq_dec : EqDecision fault.
Proof. solve_decision. Defined.

Inductive result (A : Type) : Type :=
  | Ok (a : A)
  | Err (f : fault).
Arguments Ok {A} a.
Arguments Err {A} f.

#[export] Instance result_ret : MRet result := @Ok.
#[export] Instance result_bind : MBind result :=
  fun A B k m => match m with Ok a => k a | Err f => Err f end.

Definition cassert (b : bool) : result unit :=
  if b then Ok tt else Err AssertFailed.

Declare Scope cutils_scope.
Delimit Scope cutils_scope with cutils.
Notation "'assert!' b ;; k" := (mbind (M := result) (fun _ : unit => k) (cassert b))
  (at level 100, b at level 99, k at level 200, right associativity) : cutils_scope.
#[global] Open Scope cutils_scope.

Lemma bind_ok {A B} (m : result A) (k : A -> result B) b :
  m ≫= k = Ok b <-> exists a, m = Ok a /\ k a = Ok b.
Proof.
  destruct m as [a|f]; cbn; split.
  - eauto.
  - by intros (a' & [= ->] & H).
  - done.
  - by intros (a' & H & _).
Qed.

Lemma cassert_ok b u : cassert b = Ok u <-> b = true.
Proof. destruct b; cbn; destruct u; split; done. Qed.

(** The [%] operator of C on unsigned operands. *)
Definition c_rem (a b : Z) : result Z :=
  if b =? 0 then Err DivByZero else Ok (a mod b).

Lemma c_rem_ok a b : b <> 0 -> c_rem a b = Ok (a mod b).
Proof. intros. unfold c_rem. by rewrite (proj2 (Z.eqb_neq _ _)). Qed.

(** Invert [Ok] equations through binds and assertions. *)
Ltac inv_ok :=
  repeat match goal with
  | H : Ok _ = Ok _ |- _ => injection H; clear H; intros; subst
  | H : Err _ = Ok _ |- _ => discriminate H
  | H : Ok _ = Err _ |- _ => discriminate H
  | H : _ ≫= _ = Ok _ |- _ =>
      apply bind_ok in H; let a := fresh "a" in destruct H as (a & ? & H); cbn in H
  | H : cassert _ = Ok _ |- _ => apply cassert_ok in H
  end.

(** [uint8_t] cells of a buffer. *)
#[export] Instance byte_inhabited : Inhabited byte := populate x00.
#[export] Instance byte_eq_dec : EqDecision byte := Byte.byte_eq_dec.

(** ** Lists indexed by [Z] *)

Section zlist.
Context {A : Type}.
Implicit Types (l : list A) (i n : Z).

Definition zlen l : Z := Z.of_nat (length l).

Definition zslice l i n : list A := take (Z.to_nat n) (drop (Z.to_nat i) l).

(** [memcpy(&dst[doff], &src[soff], n)] over whole objects: a range that
    leaves one of them is a fault. *)
Definition memcpy (dst : list A) (doff : Z) (src : list A) (soff n : Z) : result (list A) :=
  if bool_decide (0 <= doff /\ 0 <= soff /\ 0 <= n /\
                  doff + n <= zlen dst /\ soff + n <= zlen src) then
    Ok (take (Z.to_nat doff) dst ++ zslice src soff n ++ drop (Z.to_nat (doff + n)) dst)
  else Err OutOfBounds.

(** [l[i]] and [l[i] = x] of an array: an index outside it is a fault. *)
Definition load_at l i : result A :=
  if i <? 0 then Err OutOfBounds else
  match l !! Z.to_nat i with Some x => Ok x | None => Err OutOfBounds end.

Definition store_at l i (x : A) : result (list A) :=
  if bool_decide (0 <= i < zlen l) then Ok (<[Z.to_nat i := x]> l) else Err OutOfBounds.

Lemma store_at_eq l i x : 0 <= i < zlen l -> store_at l i x = Ok (<[Z.to_nat i := x]> l).
Proof. intros. unfold store_at. by rewrite bool_decide_true. Qed.

Lemma load_at_eq l i x : 0 <= i -> l !! Z.to_nat i = Some x -> load_at l i = Ok x.
Proof.
  intros Hi Hl. unfold load_at. rewrite (proj2 (Z.ltb_ge _ _)) by done. by rewrite Hl.
Qed.

Lemma zlen_nonneg l : 0 <= zlen l.
Proof. unfold zlen. lia. Qed.

Lemma zlen_nil : zlen (@nil A) = 0.
Proof. done. Qed.

Lemma zlen_cons x l : zlen (x :: l) = zlen l + 1.
Proof. unfold zlen. cbn [length]. lia. Qed.

Lemma zlen_app l1 l2 : zlen (l1 ++ l2) = zlen l1 + zlen l2.
Proof. unfold zlen. rewrite length_app. lia. Qed.

Lemma zlen_take l n : 0 <= n -> zlen (take (Z.to_nat n) l) = Z.min n (zlen l).
Proof. intros. unfold zlen. rewrite length_take. lia. Qed.

Lemma zlen_drop l n : 0 <= n <= zlen l -> zlen (drop (Z.to_nat n) l) = zlen l - n.
Proof. unfold zlen. intros. rewrite length_drop. lia. Qed.

Lemma zlen_zslice l i n :
  0 <= i -> 0 <= n -> i + n <= zlen l -> zlen (zslice l i n) = n.
Proof. unfold zlen, zslice. intros. rewrite length_take, length_drop. lia. Qed.

Lemma zslice_lookup l i n (k : nat) :
  0 <= i -> (k < Z.to_nat n)%nat -> zslice l i n !! k = l !! (Z.to_nat i + k)%nat.
Proof. intros. unfold zslice. rewrite lookup_take_lt by lia. by rewrite lookup_drop. Qed.

Lemma zslice_0 l n : zlen l <= n -> zslice l 0 n = l.
Proof. unfold zlen, zslice. intros. change (Z.to_nat 0) with 0%nat. rewrite drop_0. apply take_ge. lia. Qed.

Lemma memcpy_eq dst doff src soff n :
  0 <= doff -> 0 <= soff -> 0 <= n -> doff + n <= zlen dst -> soff + n <= zlen src ->
  memcpy dst doff src soff n =
    Ok (take (Z.to_nat doff) dst ++ zslice src soff n ++ drop (Z.to_nat (doff + n)) dst).
Proof. intros. unfold memcpy. by rewrite bool_decide_true by lia. Qed.

Lemma memcpy_eq0 dst src soff n :
  0 <= soff -> 0 <= n <= zlen dst -> soff + n <= zlen src ->
  memcpy dst 0 src soff n = Ok (zslice src soff n ++ drop (Z.to_nat n) dst).
Proof.
  intros. rewrite memcpy_eq by lia. change (Z.to_nat 0) with 0%nat.
  by rewrite take_0, Z.add_0_l.
Qed.

Lemma memcpy_ok dst doff src soff n :
  0 <= doff -> 0 <= soff -> 0 <= n -> doff + n <= zlen dst -> soff + n <= zlen src ->
  exists dst', memcpy dst doff src soff n = Ok dst'.
Proof. intros. rewrite memcpy_eq by lia. eauto. Qed.

Lemma memcpy_len dst doff src soff n dst' :
  memcpy dst doff src soff n = Ok dst' -> length dst' = length dst.
Proof.
  unfold memcpy. case_bool_decide as Hb; [|done]. intros [= <-].
  unfold zlen in Hb. unfold zslice. rewrite !length_app, !length_take, !length_drop. lia.
Qed.

(** What [memcpy] leaves in each cell. *)
Lemma memcpy_lookup dst doff src soff n dst' (j : nat) :
  memcpy dst doff src soff n = Ok dst' ->
  dst' !! j = if decide (doff <= Z.of_nat j < doff + n)
              then src !! Z.to_nat (soff + (Z.of_nat j - doff)) else dst !! j.
Proof.
  unfold memcpy. case_bool_decide as Hb; [|done]. intros [= <-].
  destruct Hb as (H1 & H2 & H3 & H4 & H5). unfold zlen in *.
  case_decide as Hd.
  - rewrite lookup_app_r by (rewrite length_take; lia).
    rewrite lookup_app_l by (unfold zslice; rewrite !length_take, length_drop; lia).
    rewrite length_take, zslice_lookup by lia. f_equal. lia.
  - destruct (decide (Z.of_nat j < doff)).
    + rewrite lookup_app_l by (rewrite length_take; lia).
      by rewrite lookup_take_lt by lia.
    + rewrite lookup_app_r by (rewrite length_take; lia).
      rewrite lookup_app_r by (unfold zslice; rewrite !length_take, length_drop; lia).
      unfold zslice. rewrite !length_take, length_drop, lookup_drop. f_equal. lia.
Qed.

Lemma memcpy_empty dst doff src soff :
  0 <= doff <= zlen dst -> 0 <= soff <= zlen src -> memcpy dst doff src soff 0 = Ok dst.
Proof.
  intros. unfold memcpy. rewrite bool_decide_true by lia. unfold zslice.
  rewrite Z.add_0_r. change (Z.to_nat 0) with 0%nat. rewrite take_0. cbn [app].
  by rewrite take_drop.
Qed.
End zlist.

#[export] Hint Rewrite @length_app @length_take @length_drop @length_insert @length_replicate
  @length_fmap @length_seq @length_nil : cutils_len.

Ltac lens := unfold zlen in *; autorewrite with cutils_len in *; cbn [length] in *; try lia.

(** ** Suffixes *)

(** The last [n] elements of a list. *)
Definition lastn {A} (n : nat) (l : list A) : list A := drop (length l - n) l.

Lemma lastn_app_lastn {A} n (l1 l2 : list A) : lastn n (lastn n l1 ++ l2) = lastn n (l1 ++ l2).
Proof.
  unfold lastn. set (k := (length l1 - n)%nat).
  assert (E : l1 ++ l2 = take k l1 ++ (drop k l1 ++ l2)) by by rewrite app_assoc, take_drop.
  rewrite E, (drop_app_ge (take k l1)) by (rewrite !length_app, length_take, length_drop; lia).
  f_equal. rewrite !length_app, length_take, !length_drop. lia.
Qed.

Lemma lastn_ge {A} n (l : list A) : (length l <= n)%nat -> lastn n l = l.
Proof. intros. unfold lastn. by replace (length l - n)%nat with 0%nat by lia. Qed.

(** ** Circular windows

    The ring buffer, the accumulator, the log buffer and the thread-safe queue
    all keep a window of a fixed array that wraps around its end. *)

(** The non-linear step behind every wrap-around: reducing a sum that crosses
    the end of the array at most once. *)
Lemma mod_wrap_once a m :
  0 < m -> 0 <= a < 2 * m -> a mod m = if a <? m then a else a - m.
Proof.
  intros. destruct (a <? m) eqn:E; bdestr.
  - apply Z.mod_small. lia.
  - symmetry. apply Z.mod_unique with (q := 1); lia.
Qed.

Lemma mod_neg_once a m : - m <= a < 0 -> a mod m = a + m.
Proof. intros. symmetry. apply Z.mod_unique with (q := -1); lia. Qed.

(** Distances on a circle: two indices less than [m] apart have different
    residues. *)
Lemma mod_window s k m n :
  0 < m -> 0 <= k < m -> 0 <= n -> n <= m ->
  ((s + k) mod m - s) mod m = k.
Proof.
  intros. rewrite Zminus_mod_idemp_l. replace (s + k - s) with k by lia.
  apply Z.mod_small. lia.
Qed.

Section circ.
Context {A : Type} `{!Inhabited A}.
Implicit Types (data xs src : list A) (s : Z) (n : nat).

(** The [n] cells that follow position [s], wrapping at the end. *)
Definition circ data s n : list A :=
  (fun i : nat => data !!! Z.to_nat ((s + Z.of_nat i) mod zlen data)) <$> seq 0 n.

(** The array after storing [xs] from position [s] on, wrapping. *)
Definition circ_put data s xs : list A :=
  imap (fun j x => let k := (Z.of_nat j - s) mod zlen data in
                   if k <? zlen xs then xs !!! Z.to_nat k else x) data.

Lemma circ_length data s n : length (circ data s n) = n.
Proof. unfold circ. by rewrite length_fmap, length_seq. Qed.

Lemma circ_lookup data s n (i : nat) :
  (0 < length data)%nat -> (i < n)%nat ->
  circ data s n !! i = data !! Z.to_nat ((s + Z.of_nat i) mod zlen data).
Proof.
  intros Hd Hi. unfold circ. rewrite list_lookup_fmap, lookup_seq_lt by done. cbn.
  symmetry. apply list_lookup_lookup_total_lt.
  pose proof (Z.mod_pos_bound (s + Z.of_nat i) (zlen data)). unfold zlen in *. lia.
Qed.

Lemma circ_app data s n1 n2 :
  circ data s (n1 + n2) = circ data s n1 ++ circ data (s + Z.of_nat n1) n2.
Proof.
  unfold circ. rewrite seq_app, fmap_app. f_equal.
  replace (seq (0 + n1) n2) with (Nat.add n1 <$> seq 0 n2)
    by (rewrite fmap_add_seq; f_equal; lia).
  rewrite <- list_fmap_compose.
  apply list_fmap_ext. intros i x _. cbn. do 3 f_equal. lia.
Qed.

Lemma circ_nil data s : circ data s 0 = [].
Proof. done. Qed.

Lemma circ_mod data s n : circ data (s mod zlen data) n = circ data s n.
Proof.
  unfold circ. apply list_fmap_ext. intros i x _. do 2 f_equal.
  by rewrite Zplus_mod_idemp_l.
Qed.

Lemma circ_cong data s s' n :
  s mod zlen data = s' mod zlen data -> circ data s n = circ data s' n.
Proof. intros H. by rewrite <- circ_mod, H, circ_mod. Qed.

Lemma circ_take data s n (k : nat) : take k (circ data s n) = circ data s (Nat.min k n).
Proof.
  unfold circ. rewrite <- fmap_take, take_seq. done.
Qed.

Lemma circ_drop data s n (k : nat) :
  drop k (circ data s n) = circ data (s + Z.of_nat k) (n - k).
Proof.
  destruct (decide (k <= n)%nat) as [Hk|Hk].
  - replace n with (k + (n - k))%nat at 1 by lia. rewrite circ_app.
    rewrite drop_app_length'; [done|]. by rewrite circ_length.
  - rewrite drop_ge by (rewrite circ_length; lia).
    replace (n - k)%nat with 0%nat by lia. done.
Qed.

(** A window that does not reach the end is a slice... *)
Lemma circ_slice data s n :
  0 <= s -> s + Z.of_nat n <= zlen data -> circ data s n = zslice data s (Z.of_nat n).
Proof.
  intros. apply list_eq. intros i. destruct (decide (i < n)%nat) as [Hi|Hi].
  - rewrite circ_lookup, zslice_lookup by lens.
    rewrite Z.mod_small by lia. f_equal. lia.
  - rewrite !lookup_ge_None_2; [done| |rewrite circ_length; lia].
    unfold zslice. lens.
Qed.

(** ... and one that crosses it is two slices. *)
Lemma circ_slice2 data s n :
  0 <= s < zlen data -> Z.of_nat n <= zlen data -> zlen data <= s + Z.of_nat n ->
  circ data s n = zslice data s (zlen data - s) ++
                  zslice data 0 (Z.of_nat n - (zlen data - s)).
Proof.
  intros. replace n with (Z.to_nat (zlen data - s) + (n - Z.to_nat (zlen data - s)))%nat by lia.
  rewrite circ_app. f_equal.
  - rewrite circ_slice by lia. f_equal. lia.
  - rewrite (circ_cong _ _ 0).
    + rewrite circ_slice by lia. f_equal. lia.
    + replace (s + _) with (0 + 1 * zlen data) by lia. by rewrite Z_mod_plus_full.
Qed.

Lemma circ_put_length data s xs : length (circ_put data s xs) = length data.
Proof. unfold circ_put. by rewrite length_imap. Qed.

Lemma circ_put_lookup data s xs (j : nat) :
  (j < length data)%nat ->
  circ_put data s xs !! j =
    if decide ((Z.of_nat j - s) mod zlen data < zlen xs)
    then xs !! Z.to_nat ((Z.of_nat j - s) mod zlen data) else data !! j.
Proof.
  intros Hj. unfold circ_put. rewrite list_lookup_imap.
  destruct (data !! j) as [x|] eqn:E; [|apply lookup_ge_None in E; lia]. cbn.
  pose proof (Z.mod_pos_bound (Z.of_nat j - s) (zlen data)).
  case_decide as Hd.
  - rewrite (proj2 (Z.ltb_lt _ _)) by done.
    symmetry. apply list_lookup_lookup_total_lt. lens.
  - by rewrite (proj2 (Z.ltb_ge _ _)) by lia.
Qed.

Lemma circ_put_mod data s xs : circ_put data (s mod zlen data) xs = circ_put data s xs.
Proof.
  unfold circ_put. apply imap_ext. intros j x _. by rewrite Zminus_mod_idemp_r.
Qed.

Lemma circ_put_nil data s : circ_put data s [] = data.
Proof.
  apply list_eq. intros j. destruct (decide (j < length data)%nat).
  - rewrite circ_put_lookup by done. rewrite zlen_nil. rewrite decide_False; [done|].
    pose proof (Z.mod_pos_bound (Z.of_nat j - s) (zlen data)). lens.
  - rewrite !lookup_ge_None_2; [done|lia|rewrite circ_put_length; lia].
Qed.

(** Appending behind a window: the window keeps its content and grows by
    what was stored. *)
Lemma circ_put_append data s n xs :
  (0 < length data)%nat -> (n + length xs <= length data)%nat ->
  circ (circ_put data (s + Z.of_nat n) xs) s (n + length xs) = circ data s n ++ xs.
Proof.
  intros Hd Hn. apply list_eq. intros i.
  destruct (decide (i < n + length xs)%nat) as [Hi|Hi]; last first.
  { rewrite !lookup_ge_None_2; [done| |rewrite circ_length; lia].
    rewrite length_app, circ_length. lia. }
  rewrite circ_lookup by (rewrite ?circ_put_length; lia).
  unfold zlen at 1. rewrite circ_put_length. fold (zlen data).
  pose proof (Z.mod_pos_bound (s + Z.of_nat i) (zlen data)) as Hb.
  rewrite circ_put_lookup by lens. rewrite Z2Nat.id by lens.
  rewrite Zminus_mod_idemp_l.
  destruct (decide (i < n)%nat) as [Hin|Hin].
  - rewrite lookup_app_l by (rewrite circ_length; lia).
    rewrite circ_lookup by lia.
    rewrite mod_neg_once by lens. rewrite decide_False by lens. done.
  - rewrite lookup_app_r by (rewrite circ_length; lia). rewrite circ_length.
    replace (s + Z.of_nat i - (s + Z.of_nat n)) with (Z.of_nat i - Z.of_nat n) by lia.
    rewrite Z.mod_small by lens. rewrite decide_True by lens. f_equal. lia.
Qed.

(** The single [memcpy] of a store that does not wrap. *)
Lemma circ_put_memcpy1 data s src (n : Z) :
  0 <= s -> 0 <= n <= zlen src -> s + n <= zlen data ->
  memcpy data s src 0 n = Ok (circ_put data s (take (Z.to_nat n) src)).
Proof.
  intros. destruct (memcpy_ok data s src 0 n) as [d Hd]; [lia..|].
  rewrite Hd. f_equal. apply list_eq. intros j.
  destruct (decide (j < length data)%nat) as [Hj|Hj]; last first.
  { rewrite !lookup_ge_None_2; [done|rewrite circ_put_length; lia|].
    rewrite (memcpy_len _ _ _ _ _ _ Hd). lia. }
  rewrite (memcpy_lookup _ _ _ _ _ _ _ Hd), circ_put_lookup by done.
  rewrite zlen_take, Z.min_l by lia.
  destruct (decide (s <= Z.of_nat j)) as [Hs|Hs].
  - rewrite Z.mod_small by lens. repeat case_decide; try lia; [|done].
    rewrite lookup_take_lt by lens. f_equal; lia.
  - rewrite mod_neg_once by lens.
    rewrite !decide_False by lens. done.
Qed.

(** The two [memcpy] calls of a store that wraps. *)
Lemma circ_put_memcpy2 data s src (n : Z) :
  0 <= s < zlen data -> 0 <= n <= zlen src -> n <= zlen data -> zlen data - s <= n ->
  (memcpy data s src 0 (zlen data - s) ≫= fun d =>
   memcpy d 0 src (zlen data - s) (n - (zlen data - s))) =
  Ok (circ_put data s (take (Z.to_nat n) src)).
Proof.
  intros. destruct (memcpy_ok data s src 0 (zlen data - s)) as [d1 Hc1]; [lia..|].
  rewrite Hc1. cbn. pose proof (memcpy_len _ _ _ _ _ _ Hc1) as L1.
  destruct (memcpy_ok d1 0 src (zlen data - s) (n - (zlen data - s))) as [d2 Hc2]; [lens..|].
  rewrite Hc2. f_equal. apply list_eq. intros j.
  destruct (decide (j < length data)%nat) as [Hj|Hj]; last first.
  { rewrite !lookup_ge_None_2; [done|rewrite circ_put_length; lia|].
    rewrite (memcpy_len _ _ _ _ _ _ Hc2). lia. }
  rewrite (memcpy_lookup _ _ _ _ _ _ _ Hc2), (memcpy_lookup _ _ _ _ _ _ _ Hc1),
    circ_put_lookup by done.
  rewrite zlen_take, Z.min_l by lia.
  destruct (decide (s <= Z.of_nat j)) as [Hs|Hs].
  - rewrite Z.mod_small by lens. repeat case_decide; try lens.
    rewrite lookup_take_lt by lens. f_equal; lens.
  - rewrite mod_neg_once by lens.
    repeat case_decide; try lens; try done.
    rewrite lookup_take_lt by lens. f_equal; lens.
Qed.

(** Reading a window out into [dst]: one [memcpy] when it does not wrap... *)
Lemma circ_copy1 data s dst (n : Z) :
  0 <= s -> 0 <= n <= zlen dst -> s + n <= zlen data ->
  memcpy dst 0 data s n = Ok (circ data s (Z.to_nat n) ++ drop (Z.to_nat n) dst).
Proof.
  intros. rewrite memcpy_eq0 by lia. rewrite circ_slice by lia. by rewrite Z2Nat.id by lia.
Qed.

(** ... and two when it does. *)
Lemma circ_copy2 data s dst (n : Z) :
  0 <= s < zlen data -> n <= zlen data -> zlen data - s <= n -> n <= zlen dst ->
  (memcpy dst 0 data s (zlen data - s) ≫= fun d =>
   memcpy d (zlen data - s) data 0 (n - (zlen data - s))) =
  Ok (circ data s (Z.to_nat n) ++ drop (Z.to_nat n) dst).
Proof.
  intros. rewrite memcpy_eq0 by lia. cbn -[memcpy zslice].
  rewrite memcpy_eq; try lia; last first.
  { rewrite zlen_app, zlen_zslice, zlen_drop by lia. lens. }
  f_equal. rewrite circ_slice2 by lia. rewrite Z2Nat.id, <- app_assoc by lia.
  f_equal; [|f_equal].
  - rewrite take_app_length'; [done|]. unfold zslice. lens.
  - rewrite drop_app_ge by (unfold zslice; lens). rewrite drop_drop. f_equal.
    unfold zslice. lens.
Qed.

(** A single-cell store. *)
Lemma circ_put_insert data s (x : A) :
  0 <= s < zlen data -> <[Z.to_nat s := x]> data = circ_put data s [x].
Proof.
  intros. apply list_eq. intros j.
  destruct (decide (j < length data)%nat) as [Hj|Hj]; last first.
  { rewrite !lookup_ge_None_2; [done|rewrite circ_put_length; lia|].
    rewrite length_insert. lia. }
  rewrite circ_put_lookup by done.
  destruct (decide (s <= Z.of_nat j)) as [Hs|Hs].
  - rewrite Z.mod_small by lens.
    destruct (decide (Z.of_nat j = s)) as [<-|].
    + rewrite Nat2Z.id, list_lookup_insert_eq by done.
      rewrite decide_True by lens. by rewrite Z.sub_diag.
    + rewrite list_lookup_insert_ne, decide_False by lens. done.
  - rewrite list_lookup_insert_ne by lia.
    rewrite mod_neg_once, decide_False by lens. done.
Qed.
End circ.

#[export] Hint Rewrite @circ_length @circ_put_length : cutils_len.

(** ** Counting *)

(** Distinct keys of a map are no more than its size. *)
Lemma nodup_keys_size {A} (m : gmap Z A) l :
  NoDup l -> (forall x, x ∈ l -> is_Some (m !! x)) -> (length l <= base.size m)%nat.
Proof.
  intros Hnd Hl. rewrite <- (size_list_to_set (C := gset Z) l) by done.
  rewrite <- size_dom. apply subseteq_size. intros x Hx.
  apply elem_of_list_to_set in Hx. apply elem_of_dom. auto.
Qed.
