(* ===== verification/Enum.v ===== *)
(** The enumerations of inc/cutils/types.h: [DECLARE_ENUM] makes a type, a function
    from its values to their names and one back, from a list of enumerators.

    A text is the list of its characters in front of the terminator.  The tables of
    the library's enumerations are here; the components give their enumerations as
    inductive types, whose order is that of the tables. *)
From S2P Require Import Prelude.
From stdpp Require Import base list.
From Stdlib Require Import ZArith Lia Strings.String Strings.Ascii.
Local Open Scope Z_scope.

(** ** Texts *)

Fixpoint chars (s : string) : list Z :=
  match s with
  | EmptyString => []
  | String c s => Z.of_nat (nat_of_ascii c) :: chars s
  end.

Fixpoint strcmp (a b : list Z) : Z :=
  match a, b with
  | [], [] => 0
  | [], c :: _ => - u8 c
  | c :: _, [] => u8 c
  | c :: a, d :: b => if u8 c =? u8 d then strcmp a b else u8 c - u8 d
  end.

(** The characters of a text. *)
Definition is_text (s : list Z) : Prop := Forall (fun c => 0 < c < 256) s.

Lemma strcmp_eq a b : is_text a -> is_text b -> (strcmp a b =? 0) = bool_decide (a = b).
Proof.
  intros Ha. revert b. induction Ha as [|c a Hc Ha IH]; intros [|d b] Hb; cbn.
  - done.
  - apply Forall_cons in Hb as [Hd _]. rewrite bool_decide_eq_false_2 by done. apply Z.eqb_neq. words.
  - rewrite bool_decide_eq_false_2 by done. apply Z.eqb_neq. words.
  - apply Forall_cons in Hb as [Hd Hb].
    assert (u8 c = c) as -> by words. assert (u8 d = d) as -> by words.
    destruct (c =? d) eqn:E; bdestr.
    + subst d. rewrite IH by done. apply bool_decide_ext. split; congruence.
    + rewrite bool_decide_eq_false_2 by congruence. apply Z.eqb_neq. lia.
Qed.

Lemma chars_text s : Forall (fun c => c <> 0) (chars s) -> is_text (chars s).
Proof.
  induction s as [|c s IH]; cbn; [constructor|]. intros [Hc Hs]%Forall_cons.
  constructor; [|by apply IH]. pose proof (nat_ascii_bounded c). lia.
Qed.

(** ** The generated functions *)

(** An enumerator's name, and the value that it is assigned, if any. *)
Definition enum_def : Set := list (list Z * option Z).

(** The enumerators with their values: one more than the one before unless it is
    assigned. *)
Fixpoint enumerators (next : Z) (def : enum_def) : list (list Z * Z) :=
  match def with
  | [] => []
  | (name, assign) :: def =>
      let v := default next assign in (name, v) :: enumerators (v + 1) def
  end.

Definition ENUM_VALUE (def : enum_def) : list (list Z * Z) := enumerators 0 def.

(** A [switch] over the values, and the tests of a text against the names. *)
Fixpoint ENUM_CASE (l : list (list Z * Z)) (blah : Z) : list Z :=
  match l with
  | [] => []
  | (name, v) :: l => if blah =? v then name else ENUM_CASE l blah
  end.

Fixpoint ENUM_STRCMP (l : list (list Z * Z)) (str : list Z) : Z :=
  match l with
  | [] => 0
  | (name, v) :: l => if strcmp str name =? 0 then v else ENUM_STRCMP l str
  end.

Definition get_string (def : enum_def) (blah : Z) : list Z := ENUM_CASE (ENUM_VALUE def) blah.

Definition get_value (def : enum_def) (str : list Z) : Z := ENUM_STRCMP (ENUM_VALUE def) str.

(** The tables of the library. *)
Definition plain (names : list string) : enum_def := (fun s => (chars s, None)) <$> names.

Definition STREAM_TX_SEND_STATUS : enum_def :=
  plain ["StreamTxSendSuccess"; "StreamTxSendHeaderFail"; "StreamTxSendMessageFail";
         "StreamTxInterfaceInError"]%string.

Definition ASYNCIO_INIT_STATE_E : enum_def :=
  plain ["AsyncioUninitialized"; "AsyncioUninitializing"; "AsyncioInitializing";
         "AsyncioInitialized"]%string.

Definition LOG_BUF_NOTIF : enum_def := plain ["LB_FULL"; "LB_ALMOST_FULL"; "LB_EMPTY"]%string.

(** ** What they do *)

(** What the compiler requires: the names are identifiers, different from each
    other, and so are the values, since they label one [switch]. *)
Record enum_ok (def : enum_def) : Prop := {
  eo_text : Forall is_text def.*1;
  eo_names : NoDup def.*1;
  eo_values : NoDup (ENUM_VALUE def).*2
}.

Lemma enumerators_names def next : (enumerators next def).*1 = def.*1.
Proof. revert next. induction def as [|[name a] def IH]; intros next; [done|]. cbn. by rewrite IH. Qed.

Lemma enum_case_found l name v :
  NoDup l.*2 -> (name, v) ∈ l -> ENUM_CASE l v = name.
Proof.
  induction l as [|[n w] l IH]; intros Hnd Hin; [by apply elem_of_nil in Hin|]. cbn.
  apply NoDup_cons in Hnd as [Hw Hnd]. apply elem_of_cons in Hin as [[= -> ->]|Hin].
  - by rewrite Z.eqb_refl.
  - rewrite (proj2 (Z.eqb_neq v w)); [by apply IH|]. intros ->. apply Hw. by apply (list_elem_of_fmap_2 snd) in Hin.
Qed.

Lemma enum_case_other l v : v ∉ l.*2 -> ENUM_CASE l v = [].
Proof.
  induction l as [|[n w] l IH]; intros Hv; [done|]. cbn in *. apply not_elem_of_cons in Hv as [Hne Hv].
  rewrite (proj2 (Z.eqb_neq v w)) by done. by apply IH.
Qed.

Lemma enum_strcmp_found l name v :
  Forall is_text l.*1 -> NoDup l.*1 -> (name, v) ∈ l -> ENUM_STRCMP l name = v.
Proof.
  induction l as [|[n w] l IH]; intros Ht Hnd Hin; [by apply elem_of_nil in Hin|]. cbn in *.
  apply NoDup_cons in Hnd as [Hw Hnd]. pose proof Ht as Ht0. apply Forall_cons in Ht as [Hn Ht].
  apply elem_of_cons in Hin as [[= -> ->]|Hin].
  - by rewrite strcmp_eq, bool_decide_eq_true_2.
  - apply (list_elem_of_fmap_2 fst) in Hin as Hname. cbn in Hname.
    rewrite Forall_forall in Ht. rewrite strcmp_eq by auto.
    rewrite bool_decide_eq_false_2 by (intros ->; done). apply IH; [by apply Forall_forall|done|done].
Qed.

Lemma enum_strcmp_other l str :
  Forall is_text l.*1 -> is_text str -> str ∉ l.*1 -> ENUM_STRCMP l str = 0.
Proof.
  induction l as [|[n w] l IH]; intros Ht Hs Hv; [done|]. cbn in *.
  apply Forall_cons in Ht as [Hn Ht]. apply not_elem_of_cons in Hv as [Hne Hv].
  rewrite strcmp_eq, bool_decide_eq_false_2 by done. by apply IH.
Qed.

(** Without assignments the values are the positions. *)
Lemma enumerators_plain names next i s :
  names !! i = Some s -> enumerators next (plain names) !! i = Some (chars s, next + Z.of_nat i).
Proof.
  revert next i. induction names as [|n names IH]; intros next i Hi; [done|].
  destruct i as [|i]; cbn in *.
  - injection Hi as ->. do 2 f_equal. lia.
  - rewrite (IH _ _ Hi). do 2 f_equal. lia.
Qed.

Lemma plain_values names next :
  (enumerators next (plain names)).*2 = seqZ next (Z.of_nat (List.length names)).
Proof.
  revert next. induction names as [|n names IH]; intros next; [done|].
  cbn [plain fmap list_fmap enumerators default snd List.length]. fold (plain names).
  rewrite seqZ_cons by lia. cbn. unfold plain in IH. rewrite IH. do 2 f_equal; lia.
Qed.

(** C37: the names and the values of an enumeration.  Every enumerator's value is
    turned into its name and back; a value without an enumerator has the empty
    name; a text that names no enumerator has the value 0, so that in an
    enumeration without assignments it cannot be told from the first
    enumerator's name. *)
Theorem enum_round_trip def :
  enum_ok def ->
  (forall name v, (name, v) ∈ ENUM_VALUE def ->
     get_string def v = name /\ get_value def name = v /\
     get_value def (get_string def v) = v /\ get_string def (get_value def name) = name) /\
  (forall v, v ∉ (ENUM_VALUE def).*2 -> get_string def v = []) /\
  (forall str, is_text str -> str ∉ def.*1 -> get_value def str = 0) /\
  (forall first names str, def = plain (first :: names) -> is_text str -> str ∉ def.*1 ->
     get_string def (get_value def str) = chars first).
Proof.
  intros [Ht Hnd Hv]. unfold get_string, get_value, ENUM_VALUE in *.
  rewrite <- (enumerators_names def 0) in Ht, Hnd |- *. split_and!.
  - intros name v Hin. pose proof (enum_case_found _ _ _ Hv Hin) as H1.
    pose proof (enum_strcmp_found _ _ _ Ht Hnd Hin) as H2. split_and!; [done|done| |]; congruence.
  - intros v. apply enum_case_other.
  - intros str. by apply enum_strcmp_other.
  - intros first names str -> Hs Hn. rewrite (enum_strcmp_other _ str) by done. done.
Qed.

Lemma enum_round_trip_witness :
  get_string ASYNCIO_INIT_STATE_E 2 = chars "AsyncioInitializing" /\
  get_value ASYNCIO_INIT_STATE_E (get_string ASYNCIO_INIT_STATE_E 2) = 2 /\
  get_string ASYNCIO_INIT_STATE_E 4 = [] /\
  get_string ASYNCIO_INIT_STATE_E (get_value ASYNCIO_INIT_STATE_E (chars "Started")) =
    chars "AsyncioUninitialized".
Proof.
  destruct (enum_round_trip ASYNCIO_INIT_STATE_E) as (H1 & H2 & H3 & H4).
  { split; [|by apply (bool_decide_unpack _)|by apply (bool_decide_unpack _)].
    repeat constructor; vm_compute; congruence. }
  assert ((chars "AsyncioInitializing", 2) ∈ ENUM_VALUE ASYNCIO_INIT_STATE_E) as Hin
    by (apply (bool_decide_unpack _); reflexivity).
  split; [exact (proj1 (H1 _ _ Hin))|]. split; [exact (proj1 (proj2 (proj2 (H1 _ _ Hin))))|].
  split; [apply H2; apply (bool_decide_unpack _); reflexivity|].
  apply (H4 "AsyncioUninitialized"%string
    ["AsyncioUninitializing"; "AsyncioInitializing"; "AsyncioInitialized"]%string); [reflexivity| |].
  - repeat constructor; vm_compute; congruence.
  - apply (bool_decide_unpack _). reflexivity.
Defined.
