(* ===== verification/RingBuffer.v ===== *)
(** The byte ring buffer of src/ring_buffer.c and inc/cutils/ring_buffer.h.

    [read_offset] and [write_offset] are 64-bit counters that only grow; the
    array position of a counter is its residue modulo [size].  The public
    ranges are 32-bit, so every range is built from a truncated counter.  A
    region that the code returns as a pointer into [buffer->data] is its offset
    in that array.  Observers are data: an operation returns the notifications
    it makes (which callback, with which context and range), since the code
    makes the call after its last access to the buffer. *)
From S2P Require Import Prelude.
From stdpp Require Import list.
From Stdlib Require Import ZArith Lia Strings.Byte.
Local Open Scope Z_scope.

(** ** Data *)

Record data_range_t := { dr_location : Z; dr_length : Z }.

Definition make_data_range (loc len : Z) : data_range_t :=
  {| dr_location := u32 loc; dr_length := u32 len |}.

Definition location_in_data_range (loc : Z) (range : data_range_t) : bool :=
  negb (loc <? dr_location range) && (u32 (loc - dr_location range) <? dr_length range).

Definition max_data_range (range : data_range_t) : Z :=
  u32 (dr_location range + dr_length range).

(** [data] is [None] for NULL, or the offset in the ring's array. *)
Record buffer_data_t := { bd_data : option Z; bd_length : Z }.

Record ring_buffer_data_t := {
  entryCount : Z;
  total_bytes : Z;
  rd_data0 : buffer_data_t;
  rd_data1 : buffer_data_t
}.

(** A callback is named by its address, a context by its address. *)
Record ring_buffer_t := {
  rb_size : Z;
  read_offset : Z;
  write_offset : Z;
  rb_data : list byte;
  rb_ctx : Z;
  on_data_read_at_range : option Z;
  on_data_written_at_range : option Z
}.

Record notification := { n_callback : Z; n_ctx : Z; n_range : data_range_t }.

(** [buffer] and [data] of the creation parameters are nullable pointers. *)
Record ring_buffer_create_params_t := {
  rp_buffer : option ring_buffer_t;
  rp_data : option (list byte);
  rp_size_in_bytes : Z
}.

Definition set_offsets (rb : ring_buffer_t) (r w : Z) : ring_buffer_t :=
  {| rb_size := rb_size rb; read_offset := r; write_offset := w; rb_data := rb_data rb;
     rb_ctx := rb_ctx rb; on_data_read_at_range := on_data_read_at_range rb;
     on_data_written_at_range := on_data_written_at_range rb |}.

Definition set_storage (rb : ring_buffer_t) (d : list byte) (size : Z) : ring_buffer_t :=
  {| rb_size := size; read_offset := read_offset rb; write_offset := write_offset rb;
     rb_data := d; rb_ctx := rb_ctx rb; on_data_read_at_range := on_data_read_at_range rb;
     on_data_written_at_range := on_data_written_at_range rb |}.

Definition set_observers (rb : ring_buffer_t) (ctx : Z) (on_read on_write : option Z)
  : ring_buffer_t :=
  {| rb_size := rb_size rb; read_offset := read_offset rb; write_offset := write_offset rb;
     rb_data := rb_data rb; rb_ctx := ctx; on_data_read_at_range := on_read;
     on_data_written_at_range := on_write |}.

(** ** Operations *)

(** The object left in [params->buffer] (if there is one) and whether it is
    returned; a NULL data pointer is an array without cells. *)
Definition create_ring_buffer (params : ring_buffer_create_params_t)
  : option ring_buffer_t * bool :=
  match rp_buffer params with
  | None => (None, false)
  | Some buffer =>
      match rp_data params with
      | None => (Some (set_storage buffer [] (rb_size buffer)), false)
      | Some d => (Some (set_storage buffer d (rp_size_in_bytes params)), true)
      end
  end.

Definition ring_buffer_get_bytes_available_for_read (rb : ring_buffer_t) : Z :=
  u32 (u64 (write_offset rb - read_offset rb)).

Definition ring_buffer_get_bytes_available_for_write (rb : ring_buffer_t) : Z :=
  u32 (rb_size rb - ring_buffer_get_bytes_available_for_read rb).

Definition ring_buffer_is_empty (rb : ring_buffer_t) : bool :=
  ring_buffer_get_bytes_available_for_read rb =? 0.

Definition ring_buffer_is_full (rb : ring_buffer_t) : bool :=
  ring_buffer_get_bytes_available_for_write rb =? 0.

Definition ring_buffer_get_total_range (rb : ring_buffer_t) : data_range_t :=
  make_data_range (read_offset rb) (rb_size rb).

Definition ring_buffer_get_current_data_range (rb : ring_buffer_t) : data_range_t :=
  make_data_range (read_offset rb) (ring_buffer_get_bytes_available_for_read rb).

Definition ring_buffer_get_size (rb : ring_buffer_t) : Z := rb_size rb.

Definition ring_buffer_reset_at_offset (rb : ring_buffer_t) (offset : Z) : ring_buffer_t :=
  set_offsets rb offset offset.

Definition ring_buffer_release (rb : ring_buffer_t) : ring_buffer_t :=
  ring_buffer_reset_at_offset rb 0.

Definition bufferReadOffsetWithOffset (rb : ring_buffer_t) (offset : Z) : result Z :=
  x ← c_rem (u64 (read_offset rb + offset)) (rb_size rb); mret (u32 x).

Definition bufferWriteOffset (rb : ring_buffer_t) : result Z :=
  x ← c_rem (write_offset rb) (rb_size rb); mret (u32 x).

Definition notify (cb : option Z) (ctx : Z) (range : data_range_t) : list notification :=
  match cb with
  | Some f => [{| n_callback := f; n_ctx := ctx; n_range := range |}]
  | None => []
  end.

Definition ring_buffer_write_data (rb : ring_buffer_t) (data : list byte) (size : Z)
  : result (ring_buffer_t * Z * list notification) :=
  if ring_buffer_is_full rb || (size =? 0) then mret (rb, 0, []) else
  file_write_offset ← bufferWriteOffset rb;
  let bytes_to_write := c_min size (ring_buffer_get_bytes_available_for_write rb) in
  let remaining_write_bytes := u32 (rb_size rb - file_write_offset) in
  stored ←
    (if remaining_write_bytes <? bytes_to_write then
       d ← memcpy (rb_data rb) file_write_offset data 0 remaining_write_bytes;
       memcpy d 0 data remaining_write_bytes (u32 (bytes_to_write - remaining_write_bytes))
     else
       let bytes_to_copy := if bytes_to_write <? size then bytes_to_write else size in
       memcpy (rb_data rb) file_write_offset data 0 bytes_to_copy);
  let range_read := make_data_range (write_offset rb) bytes_to_write in
  let rb' := set_offsets (set_storage rb stored (rb_size rb))
               (read_offset rb) (u64 (write_offset rb + bytes_to_write)) in
  mret (rb', bytes_to_write, notify (on_data_written_at_range rb) (rb_ctx rb) range_read).

Definition no_region : buffer_data_t := {| bd_data := None; bd_length := 0 |}.

Definition empty_data : ring_buffer_data_t :=
  {| entryCount := 0; total_bytes := 0; rd_data0 := no_region; rd_data1 := no_region |}.

(** The regions for [bytes_to_read] bytes from array position [off]. *)
Definition read_regions (off bytes_to_read remaining_read_bytes : Z) : ring_buffer_data_t :=
  if remaining_read_bytes <? bytes_to_read then
    {| entryCount := 2; total_bytes := bytes_to_read;
       rd_data0 := {| bd_data := Some off; bd_length := remaining_read_bytes |};
       rd_data1 := {| bd_data := Some 0; bd_length := u32 (bytes_to_read - remaining_read_bytes) |} |}
  else
    {| entryCount := 1; total_bytes := bytes_to_read;
       rd_data0 := {| bd_data := Some off; bd_length := bytes_to_read |};
       rd_data1 := no_region |}.

Definition ring_buffer_get_data_at_range (rb : ring_buffer_t) (requested_range : data_range_t)
    (peek : bool) : result (ring_buffer_t * ring_buffer_data_t * list notification) :=
  let current_range := ring_buffer_get_current_data_range rb in
  if ring_buffer_is_empty rb ||
     negb (location_in_data_range (dr_location requested_range) current_range)
  then mret (rb, empty_data, []) else
  let update_read_offset := negb peek in
  let move_offset := u32 (dr_location requested_range - dr_location current_range) in
  file_read_offset ← bufferReadOffsetWithOffset rb move_offset;
  let bytes_to_read := c_min (dr_length requested_range) (dr_length current_range) in
  let remaining_read_bytes := u32 (rb_size rb - file_read_offset) in
  let data := read_regions file_read_offset bytes_to_read remaining_read_bytes in
  assert! bytes_to_read =? u32 (bd_length (rd_data0 data) + bd_length (rd_data1 data)) ;;
  assert! u32 (dr_location current_range + move_offset) =? dr_location requested_range ;;
  assert! u32 (dr_location requested_range + bytes_to_read) <=? max_data_range current_range ;;
  let range_read := make_data_range (dr_location requested_range) bytes_to_read in
  let rb' := if update_read_offset
             then set_offsets rb (u64 (read_offset rb + bytes_to_read)) (write_offset rb)
             else rb in
  mret (rb', data, notify (on_data_read_at_range rb) (rb_ctx rb) range_read).

Definition ring_buffer_get_data (rb : ring_buffer_t) (length : Z) (peek : bool)
  : result (ring_buffer_t * ring_buffer_data_t * list notification) :=
  let read_range := make_data_range (read_offset rb) length in
  ring_buffer_get_data_at_range rb read_range peek.

Definition ring_buffer_clear_data (rb : ring_buffer_t) (length : Z) : ring_buffer_t :=
  let current_range := ring_buffer_get_current_data_range rb in
  let bytes_to_clear := c_min length (dr_length current_range) in
  set_offsets rb (u64 (read_offset rb + bytes_to_clear)) (write_offset rb).

Definition ring_buffer_set_callback_context (rb : ring_buffer_t) (ctx : Z) : ring_buffer_t :=
  set_observers rb ctx (on_data_read_at_range rb) (on_data_written_at_range rb).

Definition ring_buffer_get_callback_context (rb : ring_buffer_t) : Z := rb_ctx rb.

Definition ring_buffer_set_on_read_callback (rb : ring_buffer_t) (cb : option Z)
  : ring_buffer_t := set_observers rb (rb_ctx rb) cb (on_data_written_at_range rb).

Definition ring_buffer_set_on_write_callback (rb : ring_buffer_t) (cb : option Z)
  : ring_buffer_t := set_observers rb (rb_ctx rb) (on_data_read_at_range rb) cb.

(** The three values stored through the output pointers, each a [uint32_t]. *)
Definition ring_buffer_get_offsets (rb : ring_buffer_t) : Z * Z * Z :=
  (rb_size rb, u32 (read_offset rb), u32 (write_offset rb)).

(** [memcpy] from a region of the ring's array. *)
Definition copy_region (storage : list byte) (r : buffer_data_t) (dst : list byte) (doff : Z)
  : result (list byte) :=
  match bd_data r with
  | Some off => memcpy dst doff storage off (bd_length r)
  | None => Err BadPointer
  end.

Definition copy_ring_data_to_buffer (storage : list byte) (d : ring_buffer_data_t)
    (dst : list byte) : result (list byte) :=
  if entryCount d =? 0 then mret dst else
  dst1 ← copy_region storage (rd_data0 d) dst 0;
  if entryCount d =? 2 then copy_region storage (rd_data1 d) dst1 (bd_length (rd_data0 d))
  else mret dst1.

(** ** Invariant and abstraction *)

(** The array has [size] cells, the counters are ordered 64-bit values and at
    most [size] bytes are held. *)
Record rb_wf (rb : ring_buffer_t) : Prop := {
  wf_size : 0 < rb_size rb < 4294967296;
  wf_cells : zlen (rb_data rb) = rb_size rb;
  wf_read : 0 <= read_offset rb;
  wf_order : read_offset rb <= write_offset rb;
  wf_write : is_u64 (write_offset rb);
  wf_held : write_offset rb - read_offset rb <= rb_size rb
}.

Definition held (rb : ring_buffer_t) : Z := write_offset rb - read_offset rb.

(** The bytes in the buffer, oldest first. *)
Definition contents (rb : ring_buffer_t) : list byte :=
  circ (rb_data rb) (read_offset rb) (Z.to_nat (held rb)).

Lemma contents_length rb : rb_wf rb -> zlen (contents rb) = held rb.
Proof. intros []. unfold contents, held in *. lens. Qed.

Section facts.
Context (rb : ring_buffer_t) (WF : rb_wf rb).

Lemma avail_read_eq : ring_buffer_get_bytes_available_for_read rb = held rb.
Proof.
  destruct WF. unfold ring_buffer_get_bytes_available_for_read, held.
  apply u32_u64_diff. lia.
Qed.

Lemma avail_write_eq : ring_buffer_get_bytes_available_for_write rb = rb_size rb - held rb.
Proof.
  unfold ring_buffer_get_bytes_available_for_write. rewrite avail_read_eq.
  destruct WF. unfold held in *. words.
Qed.

Lemma is_empty_eq : ring_buffer_is_empty rb = (held rb =? 0).
Proof. unfold ring_buffer_is_empty. by rewrite avail_read_eq. Qed.

Lemma is_full_eq : ring_buffer_is_full rb = (rb_size rb =? held rb).
Proof.
  unfold ring_buffer_is_full. rewrite avail_write_eq.
  destruct (rb_size rb =? held rb) eqn:E; bdestr; [apply Z.eqb_eq|apply Z.eqb_neq]; lia.
Qed.

Lemma mod_size_range x : 0 <= x mod rb_size rb < rb_size rb.
Proof. destruct WF. apply Z.mod_pos_bound. lia. Qed.

Lemma write_pos_eq : bufferWriteOffset rb = Ok (write_offset rb mod rb_size rb).
Proof.
  pose proof (mod_size_range (write_offset rb)). destruct WF.
  unfold bufferWriteOffset. rewrite c_rem_ok by lia. cbn. f_equal. apply u32_small. words.
Qed.

Lemma read_pos_eq off :
  0 <= off -> is_u64 (read_offset rb + off) ->
  bufferReadOffsetWithOffset rb off = Ok ((read_offset rb + off) mod rb_size rb).
Proof.
  intros. pose proof (mod_size_range (read_offset rb + off)). destruct WF.
  unfold bufferReadOffsetWithOffset. rewrite (u64_small (_ + _)) by done.
  rewrite c_rem_ok by lia. cbn. f_equal. apply u32_small. words.
Qed.
End facts.

(** The stores of [ring_buffer_write_data], both branches. *)
Lemma write_store rb (data : list byte) n :
  rb_wf rb -> 0 < n <= rb_size rb -> n <= zlen data ->
  let f := write_offset rb mod rb_size rb in
  (if u32 (rb_size rb - f) <? n then
     d ← memcpy (rb_data rb) f data 0 (u32 (rb_size rb - f));
     memcpy d 0 data (u32 (rb_size rb - f)) (u32 (n - u32 (rb_size rb - f)))
   else memcpy (rb_data rb) f data 0 n) =
  Ok (circ_put (rb_data rb) (write_offset rb) (take (Z.to_nat n) data)).
Proof.
  intros WF Hn Hd f. pose proof (mod_size_range rb WF (write_offset rb)).
  destruct WF. subst f. rewrite (u32_small (_ - _)) by words.
  rewrite <- (circ_put_mod _ (write_offset rb)). rewrite wf_cells0.
  destruct (_ <? _) eqn:E; bdestr.
  - rewrite (u32_small (n - _)) by words.
    pose proof (circ_put_memcpy2 (rb_data rb) (write_offset rb mod rb_size rb) data n) as P.
    rewrite wf_cells0 in P. apply P; lia.
  - apply circ_put_memcpy1; lia.
Qed.

(** The state after [n] bytes of [data] are appended. *)
Definition appended (rb : ring_buffer_t) (data : list byte) (n : Z) : ring_buffer_t :=
  set_offsets
    (set_storage rb (circ_put (rb_data rb) (write_offset rb) (take (Z.to_nat n) data)) (rb_size rb))
    (read_offset rb) (write_offset rb + n).

Lemma appended_wf rb data n :
  rb_wf rb -> 0 <= n <= rb_size rb - held rb -> is_u64 (write_offset rb + n) ->
  rb_wf (appended rb data n).
Proof.
  intros [] ? ?. unfold held in *. constructor; cbn; try lia; try done. lens.
Qed.

Lemma appended_contents rb data n :
  rb_wf rb -> 0 <= n <= rb_size rb - held rb -> n <= zlen data ->
  contents (appended rb data n) = contents rb ++ take (Z.to_nat n) data.
Proof.
  intros [] ? ?. unfold contents, held in *. cbn.
  replace (write_offset rb) with
    (read_offset rb + Z.of_nat (Z.to_nat (write_offset rb - read_offset rb))) at 1 by lia.
  rewrite <- (circ_put_append _ _ _ (take (Z.to_nat n) data)) by lens.
  f_equal. lens.
Qed.

(** Writing: full functional description, with the invariant. *)
Lemma write_data_eq rb data size :
  rb_wf rb -> is_u32 size -> size <= zlen data ->
  let n := Z.min size (rb_size rb - held rb) in
  is_u64 (write_offset rb + n) ->
  ring_buffer_write_data rb data size =
    Ok (appended rb data n, n,
        if n =? 0 then []
        else notify (on_data_written_at_range rb) (rb_ctx rb)
               (make_data_range (write_offset rb) n)).
Proof.
  intros WF Hs Hd n Hw. unfold ring_buffer_write_data.
  rewrite is_full_eq, avail_write_eq, c_min_min by done. fold n.
  assert (Hh : 0 <= held rb <= rb_size rb) by (destruct WF; unfold held; lia).
  destruct ((rb_size rb =? held rb) || (size =? 0)) eqn:E.
  - assert (n = 0) as -> by (unfold is_u32 in *; apply orb_true_iff in E as [E|E]; bdestr; lia).
    unfold appended. change (Z.to_nat 0) with 0%nat. rewrite take_0, circ_put_nil, Z.add_0_r.
    destruct rb; done.
  - bdestr. assert (0 < n) by (unfold is_u32 in *; lia).
    rewrite write_pos_eq by done. cbn -[memcpy u32 u64].
    assert ((if n <? size then n else size) = n) as -> by (destruct (n <? size) eqn:E'; bdestr; lia).
    rewrite write_store by (try done; lia).
    rewrite (proj2 (Z.eqb_neq n 0)) by lia. cbn. rewrite (u64_small (_ + _)) by done. done.
Qed.

(** The bytes a region of the ring's array designates. *)
Definition region_bytes (storage : list byte) (r : buffer_data_t) : list byte :=
  match bd_data r with
  | Some off => zslice storage off (bd_length r)
  | None => []
  end.

Definition data_bytes (storage : list byte) (d : ring_buffer_data_t) : list byte :=
  region_bytes storage (rd_data0 d) ++ region_bytes storage (rd_data1 d).

(** The regions cover the window of [n] bytes from counter [c]. *)
Lemma read_regions_bytes rb c n :
  rb_wf rb -> 0 <= n <= rb_size rb ->
  let f := c mod rb_size rb in
  let d := read_regions f n (u32 (rb_size rb - f)) in
  data_bytes (rb_data rb) d = circ (rb_data rb) c (Z.to_nat n) /\
  u32 (bd_length (rd_data0 d) + bd_length (rd_data1 d)) = n /\ total_bytes d = n.
Proof.
  intros WF Hn f d. pose proof (mod_size_range rb WF c) as Hf. subst d. destruct WF.
  unfold read_regions. rewrite (u32_small (rb_size rb - _)) by (subst f; words).
  rewrite <- circ_mod, wf_cells0. fold f. unfold data_bytes, region_bytes.
  destruct (_ <? n) eqn:E; bdestr; cbn.
  - rewrite (u32_small (n - _)) by (subst f; words). split; [|split; [|done]].
    + rewrite circ_slice2 by lia. rewrite wf_cells0, Z2Nat.id by lia. done.
    + rewrite u32_small by words. lia.
  - split; [|split; [|done]].
    + rewrite app_nil_r, circ_slice by lia. by rewrite Z2Nat.id by lia.
    + rewrite Z.add_0_r. apply u32_small. words.
Qed.

Lemma contents_window rb k n :
  rb_wf rb -> 0 <= k -> 0 <= n -> k + n <= held rb ->
  circ (rb_data rb) (read_offset rb + k) (Z.to_nat n) =
  take (Z.to_nat n) (drop (Z.to_nat k) (contents rb)).
Proof.
  intros [] ? ? ?. unfold contents, held in *. rewrite circ_drop, circ_take.
  rewrite Z2Nat.id by lia. f_equal. lia.
Qed.

Lemma current_range_eq rb :
  rb_wf rb ->
  ring_buffer_get_current_data_range rb =
    {| dr_location := u32 (read_offset rb); dr_length := held rb |}.
Proof.
  intros WF. unfold ring_buffer_get_current_data_range, make_data_range.
  rewrite avail_read_eq by done. f_equal. apply u32_small. destruct WF.
  unfold held, is_u32. lia.
Qed.

(** The outcome of [ring_buffer_get_data_at_range] for a location whose
    distance from the (truncated) read counter is [k], [k] less than the bytes
    held: the last assertion decides it. *)
Lemma get_data_at_range_eq rb loc len peek k :
  rb_wf rb -> is_u32 loc -> is_u32 len -> 0 <= k < held rb ->
  loc = u32 (read_offset rb) + k ->
  let n := Z.min len (held rb) in
  let f := (read_offset rb + k) mod rb_size rb in
  ring_buffer_get_data_at_range rb {| dr_location := loc; dr_length := len |} peek =
    if u32 (loc + n) <=? u32 (u32 (read_offset rb) + held rb) then
      Ok (if peek then rb else set_offsets rb (read_offset rb + n) (write_offset rb),
          read_regions f n (u32 (rb_size rb - f)),
          notify (on_data_read_at_range rb) (rb_ctx rb) (make_data_range loc n))
    else Err AssertFailed.
Proof.
  intros WF Hloc Hlen Hk Heq n f. unfold ring_buffer_get_data_at_range.
  rewrite current_range_eq, is_empty_eq by done. cbn -[u32 u64].
  pose proof WF as [].
  assert (Hh : held rb <= rb_size rb) by done. clear wf_held0.
  assert (Hr : read_offset rb + held rb = write_offset rb) by (unfold held; lia).
  rewrite (proj2 (Z.eqb_neq (held rb) 0)) by lia. cbn -[u32 u64].
  unfold location_in_data_range. cbn -[u32 u64].
  pose proof (u32_range (read_offset rb)) as Hu.
  rewrite (u32_small (loc - _)) by words.
  rewrite (proj2 (Z.ltb_ge loc _)) by lia.
  rewrite (proj2 (Z.ltb_lt (loc - _) _)) by lia. cbn -[u32 u64].
  replace (loc - u32 (read_offset rb)) with k by lia.
  rewrite (read_pos_eq rb WF k) by (unfold is_u64 in *; lia). cbn -[u32 u64].
  rewrite c_min_min. fold n f.
  destruct (read_regions_bytes rb (read_offset rb + k) n WF) as (_ & Hsum & _);
    [unfold is_u32 in *; lia|]. fold f in Hsum. rewrite Hsum, Z.eqb_refl. cbn -[u32 u64].
  rewrite (u32_small (u32 (read_offset rb) + k)) by (unfold is_u32 in *; lia).
  rewrite (proj2 (Z.eqb_eq _ loc)) by lia. cbn -[u32 u64].
  unfold max_data_range. cbn -[u32 u64].
  destruct (_ <=? _); [|done]. cbn -[u32 u64].
  rewrite (u64_small (read_offset rb + n)) by (unfold is_u64 in *; unfold is_u32 in *; lia).
  by destruct peek.
Qed.

(** Advancing the read counter by [n] bytes that are held. *)
Lemma advance_wf rb n :
  rb_wf rb -> 0 <= n <= held rb -> rb_wf (set_offsets rb (read_offset rb + n) (write_offset rb)).
Proof. intros [] ?. unfold held in *. constructor; cbn; try lia; done. Qed.

Lemma advance_contents rb n :
  rb_wf rb -> 0 <= n <= held rb ->
  contents (set_offsets rb (read_offset rb + n) (write_offset rb)) =
  drop (Z.to_nat n) (contents rb).
Proof.
  intros WF Hn. unfold contents at 2. rewrite circ_drop, Z2Nat.id by lia.
  unfold contents, held in *. cbn. f_equal. lia.
Qed.

(** Counters below [2^32]: the 32-bit ranges are exact. *)
Definition counters_fit (rb : ring_buffer_t) : Prop := write_offset rb < 4294967296.

Lemma get_data_eq rb len peek :
  rb_wf rb -> counters_fit rb -> is_u32 len -> 0 < held rb ->
  let n := Z.min len (held rb) in
  let f := read_offset rb mod rb_size rb in
  ring_buffer_get_data rb len peek =
    Ok (if peek then rb else set_offsets rb (read_offset rb + n) (write_offset rb),
        read_regions f n (u32 (rb_size rb - f)),
        notify (on_data_read_at_range rb) (rb_ctx rb) (make_data_range (read_offset rb) n)).
Proof.
  intros WF Hf Hlen Hh n f. unfold ring_buffer_get_data. unfold counters_fit in Hf.
  pose proof WF as [].
  assert (Hr : read_offset rb + held rb = write_offset rb) by (unfold held; lia).
  unfold make_data_range at 1.
  rewrite (u32_small len) by done. rewrite (u32_small (read_offset rb)) by words.
  rewrite (get_data_at_range_eq rb (read_offset rb) len peek 0);
    try done; try (rewrite ?u32_small; words); try lia.
  fold n. rewrite Z.add_0_r. fold f.
  rewrite (u32_small (read_offset rb)), (u32_small (_ + n)), (u32_small (_ + held rb)) by words.
  by rewrite (proj2 (Z.leb_le _ _)) by lia.
Qed.

(** Copying the returned regions out of the array. *)
Lemma copy_regions_eq rb c n dst :
  rb_wf rb -> 0 < n <= rb_size rb -> n <= zlen dst ->
  let f := c mod rb_size rb in
  copy_ring_data_to_buffer (rb_data rb) (read_regions f n (u32 (rb_size rb - f))) dst =
    Ok (circ (rb_data rb) c (Z.to_nat n) ++ drop (Z.to_nat n) dst).
Proof.
  intros WF Hn Hd f. pose proof (mod_size_range rb WF c) as Hf.
  rewrite <- circ_mod. destruct WF. rewrite wf_cells0. fold f. fold f in Hf.
  unfold read_regions. rewrite (u32_small (rb_size rb - f)) by words.
  destruct (_ <? n) eqn:E; bdestr; unfold copy_ring_data_to_buffer, copy_region;
    cbn [entryCount rd_data0 rd_data1 bd_data bd_length Z.eqb].
  - rewrite (u32_small (n - _)) by words.
    pose proof (circ_copy2 (rb_data rb) f dst n) as P. rewrite wf_cells0 in P. apply P; lia.
  - by rewrite circ_copy1 by lia.
Qed.

(** ** Streams of operations *)

(** What a client does with the buffer: offer bytes, take bytes out (copying
    the returned regions), look at bytes without taking them. *)
Inductive rb_op : Type :=
  | OpWrite (data : list byte)
  | OpRead (len : Z)
  | OpPeek (len : Z).

Definition rb_op_ok (op : rb_op) : Prop :=
  match op with
  | OpWrite data => is_u32 (zlen data)
  | OpRead len | OpPeek len => is_u32 len
  end.

Definition op_offered (op : rb_op) : Z :=
  match op with OpWrite data => zlen data | _ => 0 end.

(** One client operation: the buffer after it, the bytes it put in and the
    bytes it took out. *)
Definition rb_step (rb : ring_buffer_t) (op : rb_op)
  : result (ring_buffer_t * list byte * list byte) :=
  match op with
  | OpWrite data =>
      r ← ring_buffer_write_data rb data (zlen data);
      let '(rb', n, _) := r in mret (rb', take (Z.to_nat n) data, [])
  | OpRead len =>
      r ← ring_buffer_get_data rb len false;
      let '(rb', d, _) := r in
      out ← copy_ring_data_to_buffer (rb_data rb) d (replicate (Z.to_nat (total_bytes d)) x00);
      mret (rb', [], out)
  | OpPeek len =>
      r ← ring_buffer_get_data rb len true;
      let '(rb', _, _) := r in mret (rb', [], [])
  end.

Fixpoint rb_run (rb : ring_buffer_t) (ops : list rb_op)
  : result (ring_buffer_t * list byte * list byte) :=
  match ops with
  | [] => mret (rb, [], [])
  | op :: ops' =>
      r ← rb_step rb op;
      let '(rb1, i1, o1) := r in
      r' ← rb_run rb1 ops';
      let '(rb2, i2, o2) := r' in mret (rb2, i1 ++ i2, o1 ++ o2)
  end.

Lemma get_data_empty rb len peek :
  rb_wf rb -> held rb = 0 -> ring_buffer_get_data rb len peek = Ok (rb, empty_data, []).
Proof.
  intros WF H. unfold ring_buffer_get_data, ring_buffer_get_data_at_range.
  rewrite is_empty_eq by done. by rewrite H.
Qed.

Lemma rb_step_ok rb op :
  rb_wf rb -> write_offset rb + op_offered op < 4294967296 -> rb_op_ok op ->
  exists rb' ins outs, rb_step rb op = Ok (rb', ins, outs) /\ rb_wf rb' /\
    contents rb ++ ins = outs ++ contents rb' /\
    write_offset rb' <= write_offset rb + op_offered op.
Proof.
  intros WF Hb Hok.
  assert (Hh : 0 <= held rb <= rb_size rb) by (destruct WF; unfold held; lia).
  assert (Hr : 0 <= read_offset rb <= write_offset rb) by (by destruct WF).
  destruct op as [data|len|len]; cbn [op_offered rb_op_ok rb_step] in *.
  - rewrite write_data_eq; [|done..|unfold is_u64, is_u32 in *; lia]. cbn.
    do 3 eexists. split; [done|]. split; [|split].
    + apply appended_wf; try done; words.
    + cbn. symmetry. apply appended_contents; try done; unfold is_u32 in *; lia.
    + cbn. lia.
  - destruct (decide (held rb = 0)) as [H0|H0].
    { rewrite get_data_empty by done. cbn. exists rb, [], []. rewrite app_nil_r.
      split_and!; try done; lia. }
    rewrite get_data_eq by (try done; unfold counters_fit; lia). cbn [mbind result_bind].
    set (n := Z.min len (held rb)). destruct (decide (n = 0)) as [Hn|Hn].
    { rewrite Hn. unfold read_regions. rewrite (proj2 (Z.ltb_ge _ 0)); last first.
      { apply u32_range. }
      cbn [total_bytes]. unfold copy_ring_data_to_buffer, copy_region. cbn -[memcpy].
      pose proof (mod_size_range rb WF (read_offset rb)).
      rewrite memcpy_empty; [|done|destruct WF; lia]. cbn.
      do 3 eexists. split; [done|]. rewrite Z.add_0_r.
      destruct rb; cbn in *. rewrite app_nil_r. split_and!; try done; lia. }
    rewrite (proj2 (proj2 (read_regions_bytes rb (read_offset rb) n WF ltac:(unfold is_u32 in *; lia)))).
    rewrite copy_regions_eq; [|done|unfold is_u32 in *; lia|unfold is_u32 in *; lens].
    rewrite drop_ge by lens. rewrite app_nil_r. cbn.
    do 3 eexists. split; [done|].
    assert (0 <= n <= held rb) by (unfold is_u32 in *; lia).
    split; [by apply advance_wf|]. split; [|cbn; lia].
    rewrite advance_contents by done. rewrite app_nil_r.
    pose proof (contents_window rb 0 n WF) as P. rewrite Z.add_0_r in P.
    rewrite P by lia. change (Z.to_nat 0) with 0%nat. rewrite drop_0. by rewrite take_drop.
  - destruct (decide (held rb = 0)) as [H0|H0].
    { rewrite get_data_empty by done. cbn. exists rb, [], []. rewrite app_nil_r.
      split_and!; try done; lia. }
    rewrite get_data_eq by (try done; unfold counters_fit; lia). cbn.
    exists rb, [], []. rewrite app_nil_r. split_and!; try done; lia.
Qed.

(** ** Every call of the interface *)

(** A call with its arguments; a read copies the regions that it returns. *)
Inductive rb_call : Type :=
  | CallWrite (data : list byte) (size : Z)
  | CallGetRange (requested_range : data_range_t) (peek : bool)
  | CallGet (length : Z) (peek : bool)
  | CallClear (length : Z)
  | CallReset (offset : Z)
  | CallRelease
  | CallObserve (ctx : Z) (on_read on_write : option Z).

(** The arguments have their types, and a write has the bytes it announces. *)
Definition call_typed (c : rb_call) : Prop :=
  match c with
  | CallWrite data size => is_u32 size /\ size <= zlen data
  | CallGetRange r _ => is_u32 (dr_location r) /\ is_u32 (dr_length r)
  | CallGet length _ | CallClear length => is_u32 length
  | CallReset offset => is_u32 offset
  | CallRelease | CallObserve _ _ _ => True
  end.

Definition call_offered (c : rb_call) : Z := match c with CallWrite _ size => size | _ => 0 end.

Definition copied_out (rb : ring_buffer_t) (r : result (ring_buffer_t * ring_buffer_data_t * list notification))
  : result ring_buffer_t :=
  r ← r;
  let '(rb', d, _) := r in
  _ ← copy_ring_data_to_buffer (rb_data rb) d (replicate (Z.to_nat (total_bytes d)) x00);
  mret rb'.

Definition rb_call_step (rb : ring_buffer_t) (c : rb_call) : result ring_buffer_t :=
  match c with
  | CallWrite data size => r ← ring_buffer_write_data rb data size; mret (fst (fst r))
  | CallGetRange r peek => copied_out rb (ring_buffer_get_data_at_range rb r peek)
  | CallGet length peek => copied_out rb (ring_buffer_get_data rb length peek)
  | CallClear length => mret (ring_buffer_clear_data rb length)
  | CallReset offset => mret (ring_buffer_reset_at_offset rb offset)
  | CallRelease => mret (ring_buffer_release rb)
  | CallObserve ctx on_read on_write =>
      mret (ring_buffer_set_on_write_callback
              (ring_buffer_set_on_read_callback (ring_buffer_set_callback_context rb ctx) on_read) on_write)
  end.

Fixpoint rb_calls (rb : ring_buffer_t) (cs : list rb_call) : result ring_buffer_t :=
  match cs with [] => mret rb | c :: cs => rb ← rb_call_step rb c; rb_calls rb cs end.

(** What a step keeps, and how far it moves the writer's counter. *)
Definition call_kept (rb : ring_buffer_t) (c : rb_call) (rb' : ring_buffer_t) : Prop :=
  rb_wf rb' /\ rb_size rb' = rb_size rb /\
  write_offset rb' <= Z.max (write_offset rb) 4294967295 + call_offered c.

Lemma copy_read_ok rb c n :
  rb_wf rb -> 0 <= n <= rb_size rb ->
  exists out, copy_ring_data_to_buffer (rb_data rb) (read_regions (c mod rb_size rb) n (u32 (rb_size rb - c mod rb_size rb)))
    (replicate (Z.to_nat n) x00) = Ok out.
Proof.
  intros WF Hn. pose proof (mod_size_range rb WF c). destruct (decide (n = 0)) as [->|Hz].
  - unfold read_regions. rewrite (proj2 (Z.ltb_ge _ 0)) by apply u32_range.
    unfold copy_ring_data_to_buffer, copy_region. cbn -[memcpy].
    rewrite memcpy_empty; [by eexists|done|destruct WF; lia].
  - rewrite copy_regions_eq by (try done; try lia; lens). by eexists.
Qed.

(** A read of any range: nothing, the bytes, or a failed assertion. *)
Lemma get_range_typed rb r peek :
  rb_wf rb -> is_u32 (dr_location r) -> is_u32 (dr_length r) ->
  match copied_out rb (ring_buffer_get_data_at_range rb r peek) with
  | Ok rb' => call_kept rb (CallGetRange r peek) rb'
  | Err f => f = AssertFailed
  end.
Proof.
  intros WF Hloc Hlen. pose proof (current_range_eq rb WF) as Hcr. unfold call_kept. cbn [call_offered].
  assert (Hh : 0 <= held rb <= rb_size rb) by (destruct WF; unfold held; lia).
  destruct r as [loc len]. cbn [dr_location dr_length] in *.
  destruct (decide (0 <= loc - u32 (read_offset rb) < held rb)) as [Hk|Hk].
  - rewrite (get_data_at_range_eq rb loc len peek (loc - u32 (read_offset rb))) by (try done; lia).
    destruct (_ <=? _); [|done]. unfold copied_out. cbn [mbind result_bind].
    set (c := read_offset rb + (loc - u32 (read_offset rb))). set (n := Z.min len (held rb)).
    assert (Hn : 0 <= n <= held rb) by (unfold is_u32 in *; lia).
    rewrite (proj2 (proj2 (read_regions_bytes rb c n WF ltac:(lia)))).
    destruct (copy_read_ok rb c n WF) as (out & ->); [lia|]. cbn [mbind result_bind mret result_ret].
    destruct peek; [split_and!; try done; lia|]. split_and!; [by apply advance_wf|done|cbn; lia].
  - unfold ring_buffer_get_data_at_range. rewrite Hcr. cbn [dr_location dr_length].
    unfold location_in_data_range. cbn [dr_location dr_length].
    assert (ring_buffer_is_empty rb || negb (negb (loc <? u32 (read_offset rb)) && (u32 (loc - u32 (read_offset rb)) <? held rb)) = true) as ->.
    { apply orb_true_iff. right. apply negb_true_iff, andb_false_iff. pose proof (u32_range (read_offset rb)).
      destruct (loc <? u32 (read_offset rb)) eqn:E; [by left|right]. bdestr. apply Z.ltb_ge.
      rewrite u32_small by (unfold is_u32 in *; lia). lia. }
    cbn. split_and!; try done; lia.
Qed.

Lemma clear_eq rb len :
  rb_wf rb -> is_u32 len ->
  ring_buffer_clear_data rb len = set_offsets rb (read_offset rb + Z.min len (held rb)) (write_offset rb).
Proof.
  intros WF Hlen. unfold ring_buffer_clear_data. rewrite current_range_eq by done. cbn -[u64].
  rewrite c_min_min, u64_small; [done|]. destruct WF. unfold held, is_u64, is_u32 in *. lia.
Qed.

Lemma reset_wf rb off : rb_wf rb -> is_u32 off -> rb_wf (ring_buffer_reset_at_offset rb off).
Proof. intros [] ?. constructor; cbn; try done; unfold is_u32, is_u64 in *; lia. Qed.

Lemma rb_call_typed rb c :
  rb_wf rb -> call_typed c -> Z.max (write_offset rb) 4294967295 + call_offered c < 2 ^ 64 ->
  match rb_call_step rb c with Ok rb' => call_kept rb c rb' | Err f => f = AssertFailed end.
Proof.
  intros WF Ht Hb. assert (Hh : 0 <= held rb <= rb_size rb) by (destruct WF; unfold held; lia).
  unfold call_kept. destruct c as [data size|r peek|len peek|len|off| |ctx f g]; cbn [rb_call_step call_typed call_offered] in *.
  - destruct Ht as [Hs Hd]. assert (0 <= write_offset rb) by (destruct WF; lia). unfold is_u32 in Hs.
    rewrite write_data_eq; [|done..|unfold is_u64; lia]. cbn [mbind result_bind mret result_ret fst].
    split_and!; [apply appended_wf; try done; unfold is_u64; lia|done|cbn; lia].
  - destruct Ht. by apply (get_range_typed rb r peek).
  - apply (get_range_typed rb (make_data_range (read_offset rb) len) peek WF); apply u32_range.
  - cbn. rewrite clear_eq by done. unfold is_u32 in Ht. split_and!; [apply advance_wf; try done; lia|done|cbn; lia].
  - cbn. split_and!; [by apply reset_wf|done|cbn; unfold is_u32 in *; lia].
  - cbn. split_and!; [by apply reset_wf|done|cbn; lia].
  - cbn. split_and!; [by destruct WF; constructor|done|cbn; lia].
Qed.

(** ** Properties *)

(** Writing never leaves the array and never fails: of [size] offered
    bytes exactly the first [min(size, free space)] are appended behind the
    bytes already held, their number is returned, the invariant is kept, the
    reader's counter is untouched, and the write observer is told the range
    written exactly when something was written. *)
Theorem ring_buffer_write_data_appends rb data size :
  rb_wf rb -> is_u32 size -> size <= zlen data -> write_offset rb + size < 2 ^ 64 ->
  exists rb' n ns,
    ring_buffer_write_data rb data size = Ok (rb', n, ns) /\
    n = Z.min size (rb_size rb - zlen (contents rb)) /\
    rb_wf rb' /\ contents rb' = contents rb ++ take (Z.to_nat n) data /\
    read_offset rb' = read_offset rb /\ write_offset rb' = write_offset rb + n /\
    ns = (if n =? 0 then []
          else notify (on_data_written_at_range rb) (rb_ctx rb)
                 (make_data_range (write_offset rb) n)).
Proof.
  intros WF Hs Hd Hw. rewrite contents_length by done.
  assert (0 <= held rb <= rb_size rb) by (destruct WF; unfold held; lia).
  assert (0 <= write_offset rb) by (destruct WF; lia).
  set (n := Z.min size (rb_size rb - held rb)).
  assert (is_u64 (write_offset rb + n)) by (unfold is_u64, is_u32 in *; lia).
  exists (appended rb data n), n. eexists. split; [by apply write_data_eq|].
  split; [done|]. unfold is_u32 in *. split; [apply appended_wf; try done; lia|].
  split; [apply appended_contents; try done; lia|]. done.
Qed.

(** While the counters are below 2^32, [ring_buffer_get_data] returns
    regions that [copy_ring_data_to_buffer] turns into exactly the oldest
    [min(length, held)] bytes; with [peek] the buffer is unchanged, without it
    exactly those bytes are removed, and no assertion fails. *)
Theorem ring_buffer_get_data_takes_oldest rb len peek dst :
  rb_wf rb -> counters_fit rb -> is_u32 len -> 0 < len -> contents rb <> [] ->
  let n := Z.min len (zlen (contents rb)) in
  n <= zlen dst ->
  exists rb' d ns,
    ring_buffer_get_data rb len peek = Ok (rb', d, ns) /\ total_bytes d = n /\
    copy_ring_data_to_buffer (rb_data rb) d dst =
      Ok (take (Z.to_nat n) (contents rb) ++ drop (Z.to_nat n) dst) /\
    rb_wf rb' /\
    contents rb' = (if peek then contents rb else drop (Z.to_nat n) (contents rb)) /\
    ns = notify (on_data_read_at_range rb) (rb_ctx rb) (make_data_range (read_offset rb) n).
Proof.
  intros WF Hf Hlen Hpos Hne. rewrite contents_length by done. intros n Hdst.
  assert (Hh : 0 < held rb).
  { rewrite <- contents_length by done. destruct (contents rb); [done|lens]. }
  assert (held rb <= rb_size rb) by (by destruct WF). assert (0 < n <= held rb) by lia.
  do 3 eexists. split; [by apply get_data_eq|]. fold n.
  split; [apply (read_regions_bytes rb (read_offset rb) n WF); lia|]. split.
  - rewrite copy_regions_eq by (try done; lia). do 2 f_equal.
    pose proof (contents_window rb 0 n WF) as P. rewrite Z.add_0_r in P.
    rewrite P by lia. done.
  - destruct peek; [done|]. split; [apply advance_wf; try done; lia|].
    split; [apply advance_contents; try done; lia|done].
Qed.


(** Reading at a location [k] bytes behind the oldest one.  If the
    requested length (cut to the bytes held) still fits behind the location,
    the bytes [k .. k+n) are returned, but a consuming read then drops the
    {e first} [n] bytes of the buffer, not the ones it returned; if it does not
    fit, the code does not return the shorter available part: its last
    assertion fails. *)
Theorem ring_buffer_get_data_at_range_outcome rb k len peek :
  rb_wf rb -> write_offset rb + rb_size rb < 4294967296 -> is_u32 len ->
  0 <= k < zlen (contents rb) ->
  let req := {| dr_location := read_offset rb + k; dr_length := len |} in
  let n := Z.min len (zlen (contents rb)) in
  match ring_buffer_get_data_at_range rb req peek with
  | Ok (rb', d, _) =>
      k + n <= zlen (contents rb) /\
      data_bytes (rb_data rb) d = take (Z.to_nat n) (drop (Z.to_nat k) (contents rb)) /\
      contents rb' = (if peek then contents rb else drop (Z.to_nat n) (contents rb))
  | Err f => f = AssertFailed /\ zlen (contents rb) < k + n
  end.
Proof.
  intros WF Hf Hlen. rewrite contents_length by done. intros Hk req n.
  pose proof WF as [].
  assert (Hr : read_offset rb + held rb = write_offset rb) by (unfold held; lia).
  assert (Hs : held rb <= rb_size rb) by done.
  assert (Hu : u32 (read_offset rb) = read_offset rb) by (apply u32_small; words).
  unfold req. rewrite (get_data_at_range_eq rb _ len peek k); try done; [|words|lia].
  fold n. rewrite Hu, (u32_small (_ + held rb)) by words.
  assert (0 <= n <= held rb) by (unfold is_u32 in *; lia).
  destruct (decide (k + n <= held rb)) as [Hfit|Hfit].
  - rewrite u32_small by words. rewrite (proj2 (Z.leb_le _ _)) by lia.
    split; [done|]. split.
    + rewrite (proj1 (read_regions_bytes rb _ n WF ltac:(lia))).
      apply contents_window; try done; lia.
    + destruct peek; [done|]. apply advance_contents; try done; lia.
  - rewrite u32_small by words. rewrite (proj2 (Z.leb_gt _ _)) by lia. split; [done|lia].
Qed.

(** The 32-bit ranges break once the counters pass 2^32: when the held
    bytes straddle a multiple of 2^32 (the truncated end of the current range
    is smaller than its start) and the requested bytes lie before it, reading
    fails the code's own assertion although the bytes are there. *)
Theorem ring_buffer_get_data_fails_at_4GiB rb len peek :
  rb_wf rb -> is_u32 len -> 0 < len -> 0 < zlen (contents rb) ->
  u32 (read_offset rb) + Z.min len (zlen (contents rb)) < 4294967296 ->
  4294967296 <= u32 (read_offset rb) + zlen (contents rb) ->
  ring_buffer_get_data rb len peek = Err AssertFailed.
Proof.
  intros WF Hlen Hpos. rewrite contents_length by done. intros Hh Hlo Hhi.
  assert (held rb <= rb_size rb) by (by destruct WF).
  assert (rb_size rb < 4294967296) by (destruct WF; lia).
  pose proof (u32_range (read_offset rb)) as Hu.
  unfold ring_buffer_get_data, make_data_range. rewrite (u32_small len) by done.
  rewrite (get_data_at_range_eq rb _ len peek 0); try done; try lia.
  rewrite (u32_small (_ + Z.min _ _)) by (unfold is_u32 in *; lia).
  assert (u32 (u32 (read_offset rb) + held rb) = u32 (read_offset rb) + held rb - 4294967296) as ->
    by (unfold is_u32 in *; unfold u32 at 1; rewrite mod_wrap_once by lia;
        by rewrite (proj2 (Z.ltb_ge _ _)) by lia).
  by rewrite (proj2 (Z.leb_gt _ _)) by (unfold is_u32 in *; lia).
Qed.

(** [ring_buffer_clear_data] drops the oldest [min(length, held)] bytes and
    [ring_buffer_reset_at_offset] empties the buffer, whatever it held; both
    keep the invariant. *)
Theorem ring_buffer_clear_and_reset rb len off :
  rb_wf rb -> is_u32 len -> is_u32 off ->
  (rb_wf (ring_buffer_clear_data rb len) /\
   contents (ring_buffer_clear_data rb len) = drop (Z.to_nat len) (contents rb)) /\
  (rb_wf (ring_buffer_reset_at_offset rb off) /\
   contents (ring_buffer_reset_at_offset rb off) = [] /\
   ring_buffer_get_bytes_available_for_write (ring_buffer_reset_at_offset rb off) = rb_size rb).
Proof.
  intros WF Hlen Hoff. assert (Hh : 0 <= held rb) by (destruct WF; unfold held; lia). split.
  - rewrite clear_eq by done. set (n := Z.min len (held rb)).
    assert (Hn : 0 <= n <= held rb) by (unfold is_u32 in *; lia).
    split; [by apply advance_wf|]. rewrite advance_contents by done.
    destruct (decide (len <= held rb)).
    + by replace n with len by lia.
    + replace n with (held rb) by lia. pose proof (contents_length rb WF).
      rewrite !drop_ge by lens. done.
  - pose proof (reset_wf rb off WF Hoff) as WF'.
    split; [done|]. split.
    + unfold contents, held. cbn. by rewrite Z.sub_diag.
    + rewrite avail_write_eq by done. unfold held. cbn. lia.
Qed.

(** C21: Typing: no sequence of calls of the interface, whatever ranges, lengths and
    offsets they ask for, leaves the array, follows a null pointer or divides by zero,
    and the copies of what they return do not either; the buffer is well-formed after
    them, unless an assertion of a read has stopped the program.  The counters start
    again at a reset and must not reach 2^64. *)
Theorem ring_buffer_calls_typed rb cs :
  rb_wf rb -> Forall call_typed cs ->
  Z.max (write_offset rb) 4294967295 + foldr (fun c s => call_offered c + s) 0 cs < 2 ^ 64 ->
  match rb_calls rb cs with
  | Ok rb' => rb_wf rb' /\ rb_size rb' = rb_size rb
  | Err f => f = AssertFailed
  end.
Proof.
  revert rb. induction cs as [|c cs IH]; intros rb WF Ht Hb; cbn [rb_calls foldr] in *; [done|].
  inversion_clear Ht as [|? ? Hc Hcs].
  assert (0 <= foldr (fun c s => call_offered c + s) 0 cs).
  { clear -Hcs. induction Hcs as [|c l Hc _ IHl]; [done|]. destruct c; cbn in *; unfold is_u32 in *; lia. }
  pose proof (rb_call_typed rb c WF Hc ltac:(lia)) as Hs.
  destruct (rb_call_step rb c) as [rb1|f]; [|done]. destruct Hs as (WF1 & Hsz & Hw). cbn [mbind result_bind].
  assert (0 <= call_offered c) by (destruct c; cbn in *; unfold is_u32 in *; lia).
  pose proof (IH rb1 WF1 Hcs ltac:(lia)) as Hr. by destruct (rb_calls rb1 cs); rewrite <- ?Hsz.
Qed.

(** ** Witnesses *)

(** Three bytes held in an array of four, wrapped around its end. *)
Definition ex_rb : ring_buffer_t :=
  {| rb_size := 4; read_offset := 6; write_offset := 9; rb_data := [x43; x00; x41; x42];
     rb_ctx := 7; on_data_read_at_range := Some 1; on_data_written_at_range := Some 2 |}.

(** The same buffer after 4 GiB less two bytes have been read. *)
Definition ex_rb_4GiB : ring_buffer_t :=
  {| rb_size := 4; read_offset := 4294967294; write_offset := 4294967297;
     rb_data := [x43; x00; x41; x42]; rb_ctx := 0;
     on_data_read_at_range := None; on_data_written_at_range := None |}.

Lemma ex_rb_wf : rb_wf ex_rb.
Proof. constructor; cbn; unfold is_u64; (lia || done). Qed.

Lemma ex_rb_4GiB_wf : rb_wf ex_rb_4GiB.
Proof. constructor; cbn; unfold is_u64; (lia || done). Qed.

Lemma ring_buffer_write_data_appends_witness :
  exists rb', ring_buffer_write_data ex_rb [x44; x45] 2 =
    Ok (rb', 1, [{| n_callback := 2; n_ctx := 7; n_range := make_data_range 9 1 |}]) /\
  contents rb' = [x41; x42; x43; x44].
Proof.
  destruct (ring_buffer_write_data_appends ex_rb [x44; x45] 2) as (rb' & n & ns & H & Hn & _ & Hc & _ & _ & Hns);
    [exact ex_rb_wf|unfold is_u32; lia|vm_compute; discriminate|vm_compute; reflexivity|].
  change (n = 1) in Hn. subst n. exists rb'. rewrite H, Hns, Hc. split; reflexivity.
Defined.

Lemma ring_buffer_get_data_takes_oldest_witness :
  exists rb' d ns, ring_buffer_get_data ex_rb 2 false = Ok (rb', d, ns) /\
    copy_ring_data_to_buffer (rb_data ex_rb) d [x00; x00] = Ok [x41; x42] /\
    contents rb' = [x43].
Proof.
  destruct (ring_buffer_get_data_takes_oldest ex_rb 2 false [x00; x00])
    as (rb' & d & ns & H & _ & Hcp & _ & Hc & _);
    [exact ex_rb_wf|reflexivity|unfold is_u32; lia|lia|discriminate|vm_compute; discriminate|].
  exists rb', d, ns. rewrite Hcp, Hc. split; [exact H|split; reflexivity].
Defined.


Lemma ring_buffer_get_data_at_range_outcome_witness :
  exists rb' d ns,
    ring_buffer_get_data_at_range ex_rb {| dr_location := 7; dr_length := 2 |} false =
      Ok (rb', d, ns) /\
    data_bytes (rb_data ex_rb) d = [x42; x43] /\ contents rb' = [x43].
Proof.
  pose proof (ring_buffer_get_data_at_range_outcome ex_rb 1 2 false ex_rb_wf
    ltac:(reflexivity) ltac:(unfold is_u32; lia) ltac:(vm_compute; split; [discriminate|reflexivity])) as H.
  cbv zeta in H. change (read_offset ex_rb + 1) with 7 in H.
  destruct (ring_buffer_get_data_at_range ex_rb _ false) as [[[rb' d] ns]|f] eqn:E;
    [|discriminate E].
  destruct H as (_ & Hd & Hc). exists rb', d, ns. split; [reflexivity|]. split; [exact Hd|exact Hc].
Defined.

Lemma ring_buffer_get_data_fails_at_4GiB_witness :
  contents ex_rb_4GiB = [x41; x42; x43] /\
  ring_buffer_get_data ex_rb_4GiB 1 false = Err AssertFailed.
Proof.
  split; [reflexivity|].
  apply ring_buffer_get_data_fails_at_4GiB;
    [exact ex_rb_4GiB_wf|unfold is_u32; lia|lia|vm_compute; reflexivity|vm_compute; reflexivity
    |vm_compute; discriminate].
Defined.

Lemma ring_buffer_clear_and_reset_witness :
  contents (ring_buffer_clear_data ex_rb 2) = [x43] /\
  contents (ring_buffer_reset_at_offset ex_rb 5) = [].
Proof.
  destruct (ring_buffer_clear_and_reset ex_rb 2 5) as [[_ H1] [_ [H2 _]]];
    [exact ex_rb_wf|unfold is_u32; lia|unfold is_u32; lia|].
  split; [rewrite H1; reflexivity|exact H2].
Defined.

Lemma ring_buffer_calls_typed_witness :
  exists rb', rb_calls ex_rb
    [CallGetRange {| dr_location := 7; dr_length := 2 |} false; CallWrite [x44; x45; x46; x47] 4; CallGet 9 true;
     CallReset 3; CallObserve 1 None None; CallWrite [x48] 1; CallClear 8; CallRelease] = Ok rb' /\
    rb_wf rb'.
Proof.
  pose proof (ring_buffer_calls_typed ex_rb
    [CallGetRange {| dr_location := 7; dr_length := 2 |} false; CallWrite [x44; x45; x46; x47] 4; CallGet 9 true;
     CallReset 3; CallObserve 1 None None; CallWrite [x48] 1; CallClear 8; CallRelease] ex_rb_wf) as H.
  destruct (rb_calls ex_rb _) as [rb'|f] eqn:E; [|vm_compute in E; discriminate E].
  exists rb'. split; [reflexivity|]. apply H.
  - repeat constructor; vm_compute; (discriminate || reflexivity || (split; (discriminate || reflexivity))).
  - vm_compute. reflexivity.
Defined.
