(* ===== verification/Spsc.v ===== *)
(** The ring buffer shared by one thread that writes and one that reads, as the
    comments of src/ring_buffer.c promise.

    The two offsets are sequentially consistent atomics: an operation is cut before
    every access to the offset that the other thread moves, and a [memcpy] into or out
    of the array is one step per byte, in any order.  A thread's own offset cannot
    change behind its back, so reading it is no step. *)
From S2P Require Import Prelude RingBuffer.
From stdpp Require Import list.
From Stdlib Require Import ZArith Lia Strings.Byte.
Local Open Scope Z_scope.

(** ** The two threads *)

(** [ring_buffer_write_data]: after the test for a full buffer; in [memcpy], with the
    stores that are left, cell and byte. *)
Inductive writer : Type :=
  | WIdle
  | WAvail (data : list byte)
  | WStores (stores : list (Z * byte)) (data : list byte) (bytes_to_write : Z).

(** A reader looks at the data, copies it out and clears it, or it reads with [peek]
    false, which clears the data before it is copied. *)
Inductive read_mode : Type := PeekCopyClear | ReadThenCopy.

(** [ring_buffer_get_data] before its first and its second look at the writer's
    offset, and before it moves its own; the loads that are left of
    [copy_ring_data_to_buffer], index and cell; [ring_buffer_clear_data] before its
    look and before its move.  [dst] is the reader's array. *)
Inductive reader : Type :=
  | RIdle
  | RRange (m : read_mode) (length : Z) (dst : list byte)
  | REmpty (m : read_mode) (requested_range current_range : data_range_t) (dst : list byte)
  | RMove (data : ring_buffer_data_t) (dst : list byte)
  | RLoads (m : read_mode) (loads : list (Z * Z)) (dst : list byte) (bytes_to_read : Z)
  | RClear (dst : list byte) (bytes_to_read : Z)
  | RAdvance (dst : list byte) (bytes_to_read bytes_to_clear : Z).

(** What the writer has published, what its calls returned, and what the reader has
    taken out, one list per call. *)
Record spsc_world := {
  buf : ring_buffer_t;
  wr : writer;
  rd : reader;
  published : list byte;
  written : list Z;
  taken : list (list byte)
}.

(** ** Steps of the writer *)

Definition region_stores (pos : Z) (bytes : list byte) : list (Z * byte) :=
  imap (fun i b => (pos + Z.of_nat i, b)) bytes.

(** [ring_buffer_write_data] between its second look at the reader's offset and its
    first store. *)
Definition write_plan (rb : ring_buffer_t) (data : list byte) : result writer :=
  file_write_offset ← bufferWriteOffset rb;
  let size := zlen data in
  let bytes_to_write := c_min size (ring_buffer_get_bytes_available_for_write rb) in
  let remaining_write_bytes := u32 (rb_size rb - file_write_offset) in
  let stores :=
    if remaining_write_bytes <? bytes_to_write then
      region_stores file_write_offset (zslice data 0 remaining_write_bytes) ++
      region_stores 0 (zslice data remaining_write_bytes (u32 (bytes_to_write - remaining_write_bytes)))
    else
      let bytes_to_copy := if bytes_to_write <? size then bytes_to_write else size in
      region_stores file_write_offset (zslice data 0 bytes_to_copy) in
  mret (WStores stores data bytes_to_write).

Definition with_cells (rb : ring_buffer_t) (cells : list byte) : ring_buffer_t :=
  set_storage rb cells (rb_size rb).

Definition publish (rb : ring_buffer_t) (n : Z) : ring_buffer_t :=
  set_offsets rb (read_offset rb) (u64 (write_offset rb + n)).

Definition set_writer (w : spsc_world) (rb : ring_buffer_t) (pc : writer) : spsc_world :=
  {| buf := rb; wr := pc; rd := rd w; published := published w; written := written w; taken := taken w |}.

Definition write_returns (w : spsc_world) (rb : ring_buffer_t) (data : list byte) (n : Z) : spsc_world :=
  {| buf := rb; wr := WIdle; rd := rd w; published := published w ++ zslice data 0 n;
     written := written w ++ [n]; taken := taken w |}.

Definition write_call (w : spsc_world) (data : list byte) : spsc_world :=
  if ring_buffer_is_full (buf w) || (zlen data =? 0) then write_returns w (buf w) data 0
  else set_writer w (buf w) (WAvail data).

(** [pick] is the store that comes next. *)
Definition writer_step (w : spsc_world) (pick : nat) : result spsc_world :=
  match wr w with
  | WIdle => Ok w
  | WAvail data => pc ← write_plan (buf w) data; Ok (set_writer w (buf w) pc)
  | WStores [] data n => Ok (write_returns w (publish (buf w) n) data n)
  | WStores stores data n =>
      match stores !! pick with
      | None => Ok w
      | Some (pos, b) =>
          cells ← store_at (rb_data (buf w)) pos b;
          Ok (set_writer w (with_cells (buf w) cells) (WStores (delete pick stores) data n))
      end
  end.

(** ** Steps of the reader *)

(** [ring_buffer_get_data_at_range] behind the test for an empty buffer. *)
Definition read_located (rb : ring_buffer_t) (requested_range current_range : data_range_t)
  : result ring_buffer_data_t :=
  if negb (location_in_data_range (dr_location requested_range) current_range) then mret empty_data else
  let move_offset := u32 (dr_location requested_range - dr_location current_range) in
  file_read_offset ← bufferReadOffsetWithOffset rb move_offset;
  let bytes_to_read := c_min (dr_length requested_range) (dr_length current_range) in
  let remaining_read_bytes := u32 (rb_size rb - file_read_offset) in
  let data := read_regions file_read_offset bytes_to_read remaining_read_bytes in
  assert! bytes_to_read =? u32 (bd_length (rd_data0 data) + bd_length (rd_data1 data)) ;;
  assert! u32 (dr_location current_range + move_offset) =? dr_location requested_range ;;
  assert! u32 (dr_location requested_range + bytes_to_read) <=? max_data_range current_range ;;
  mret data.

Definition region_loads (doff : Z) (r : buffer_data_t) : result (list (Z * Z)) :=
  match bd_data r with
  | Some off => Ok ((fun i : nat => (doff + Z.of_nat i, off + Z.of_nat i)) <$> seq 0 (Z.to_nat (bd_length r)))
  | None => Err BadPointer
  end.

(** The loads of [copy_ring_data_to_buffer]. *)
Definition copy_plan (d : ring_buffer_data_t) : result (list (Z * Z)) :=
  if entryCount d =? 0 then mret [] else
  l0 ← region_loads 0 (rd_data0 d);
  if entryCount d =? 2 then l1 ← region_loads (bd_length (rd_data0 d)) (rd_data1 d); mret (l0 ++ l1)
  else mret l0.

Definition set_reader (w : spsc_world) (pc : reader) : spsc_world :=
  {| buf := buf w; wr := wr w; rd := pc; published := published w; written := written w; taken := taken w |}.

(** The reader moves its offset by [n], and is done if it has copied its data. *)
Definition move_reader (w : spsc_world) (n : Z) (pc : reader) : spsc_world :=
  {| buf := set_offsets (buf w) (u64 (read_offset (buf w) + n)) (write_offset (buf w)); wr := wr w; rd := pc;
     published := published w; written := written w; taken := taken w |}.

Definition add_taken (w : spsc_world) (l : list byte) : spsc_world :=
  {| buf := buf w; wr := wr w; rd := rd w; published := published w; written := written w;
     taken := taken w ++ [l] |}.

Definition start_copy (w : spsc_world) (m : read_mode) (d : ring_buffer_data_t) (dst : list byte)
  : result spsc_world :=
  loads ← copy_plan d; Ok (set_reader w (RLoads m loads dst (total_bytes d))).

Definition reader_step (w : spsc_world) (pick : nat) : result spsc_world :=
  let rb := buf w in
  match rd w with
  | RIdle => Ok w
  | RRange m length dst =>
      Ok (set_reader w (REmpty m (make_data_range (read_offset rb) length)
                          (ring_buffer_get_current_data_range rb) dst))
  | REmpty m requested current dst =>
      if ring_buffer_is_empty rb then start_copy w m empty_data dst
      else
        d ← read_located rb requested current;
        match m with
        | ReadThenCopy => if entryCount d =? 0 then start_copy w m d dst else Ok (set_reader w (RMove d dst))
        | PeekCopyClear => start_copy w m d dst
        end
  | RMove d dst => start_copy (move_reader w (total_bytes d) RIdle) ReadThenCopy d dst
  | RLoads m [] dst n =>
      match m with
      | PeekCopyClear => Ok (set_reader w (RClear dst n))
      | ReadThenCopy => Ok (add_taken (set_reader w RIdle) (zslice dst 0 n))
      end
  | RLoads m loads dst n =>
      match loads !! pick with
      | None => Ok w
      | Some (i, pos) =>
          b ← load_at (rb_data rb) pos;
          dst ← store_at dst i b;
          Ok (set_reader w (RLoads m (delete pick loads) dst n))
      end
  | RClear dst n =>
      Ok (set_reader w (RAdvance dst n (c_min n (dr_length (ring_buffer_get_current_data_range rb)))))
  | RAdvance dst n k => Ok (add_taken (move_reader w k RIdle) (zslice dst 0 n))
  end.

(** ** Runs *)

Inductive spsc_event : Type :=
  | EWrite (data : list byte)
  | ERead (m : read_mode) (length : Z) (dst : list byte)
  | EWriter (pick : nat)
  | EReader (pick : nat).

(** An event that its thread cannot make has no effect. *)
Definition spsc_step (w : spsc_world) (ev : spsc_event) : result spsc_world :=
  match ev with
  | EWrite data => match wr w with WIdle => Ok (write_call w data) | _ => Ok w end
  | ERead m length dst => match rd w with RIdle => Ok (set_reader w (RRange m length dst)) | _ => Ok w end
  | EWriter pick => writer_step w pick
  | EReader pick => reader_step w pick
  end.

Fixpoint spsc_run (w : spsc_world) (evs : list spsc_event) : result spsc_world :=
  match evs with [] => Ok w | ev :: evs => w ← spsc_step w ev; spsc_run w evs end.

Definition new_spsc (rb : ring_buffer_t) : spsc_world :=
  {| buf := rb; wr := WIdle; rd := RIdle; published := []; written := []; taken := [] |}.

(** What is offered is as long as an [uint32_t] says, and a reader's array has room
    for what it asks for. *)
Definition ev_ok (ev : spsc_event) : Prop :=
  match ev with
  | EWrite data => is_u32 (zlen data)
  | ERead m length dst => m = PeekCopyClear /\ is_u32 length /\ length <= zlen dst
  | _ => True
  end.

Definition ev_offered (ev : spsc_event) : Z := match ev with EWrite data => zlen data | _ => 0 end.

(** The bytes that events may still publish. *)
Definition offered (evs : list spsc_event) : Z := foldr (fun ev s => ev_offered ev + s) 0 evs.

(** ** The plans, by distance from an offset *)

Definition ring_stores (size c : Z) (bytes : list byte) : list (Z * byte) :=
  imap (fun i b => ((c + Z.of_nat i) mod size, b)) bytes.

Definition ring_loads (size c : Z) (n : nat) : list (Z * Z) :=
  (fun i : nat => (Z.of_nat i, (c + Z.of_nat i) mod size)) <$> seq 0 n.

(** A region of the array that starts at the offset [c] and does not wrap. *)
Lemma region_position size c i :
  0 < size -> 0 <= i < size - c mod size -> c mod size + i = (c + i) mod size.
Proof.
  intros Hs Hi. pose proof (Z.mod_pos_bound c size Hs). rewrite <- Zplus_mod_idemp_l. symmetry. apply Z.mod_small. lia.
Qed.

(** Behind the end of the array it goes on at its start. *)
Lemma region_wraps size c i :
  0 < size -> 0 <= i < size -> i = (c + (size - c mod size + i)) mod size.
Proof.
  intros Hs Hi. pose proof (Z.mod_pos_bound c size Hs).
  rewrite <- Zplus_mod_idemp_l. replace (c mod size + (size - c mod size + i)) with (i + 1 * size) by lia.
  rewrite Z.mod_add by lia. symmetry. by apply Z.mod_small.
Qed.

Lemma region_stores_ring size c bytes :
  0 < size -> zlen bytes <= size - c mod size -> region_stores (c mod size) bytes = ring_stores size c bytes.
Proof.
  intros Hs Hn. apply imap_ext. intros i b Hi. apply lookup_lt_Some in Hi.
  rewrite region_position; [done|done|unfold zlen in *; lia].
Qed.

Lemma ring_stores_app size c l1 l2 :
  ring_stores size c (l1 ++ l2) = ring_stores size c l1 ++ ring_stores size (c + zlen l1) l2.
Proof.
  unfold ring_stores. rewrite imap_app. f_equal. apply imap_ext. intros i b _. cbn. unfold zlen.
  by rewrite Nat2Z.inj_add, Z.add_assoc.
Qed.

Lemma region_stores_wrapped size c bytes :
  0 < size -> zlen bytes <= size ->
  region_stores 0 bytes = ring_stores size (c + (size - c mod size)) bytes.
Proof.
  intros Hs Hn. apply imap_ext. intros i b Hi. apply lookup_lt_Some in Hi. f_equal.
  rewrite <- Z.add_assoc, <- region_wraps; [done|done|unfold zlen in *; lia].
Qed.

Section plans.
Context (rb : ring_buffer_t) (WF : rb_wf rb).

(** The free cells, and the cells that are held. *)
Lemma write_plan_eq data :
  is_u32 (zlen data) ->
  let n := Z.min (zlen data) (rb_size rb - held rb) in
  write_plan rb data = Ok (WStores (ring_stores (rb_size rb) (write_offset rb) (zslice data 0 n)) data n).
Proof.
  intros Hd n. pose proof (mod_size_range rb WF (write_offset rb)) as Hm. pose proof (wf_size _ WF) as Hs.
  assert (Hn : 0 <= n <= rb_size rb) by (destruct WF; unfold held, is_u32 in *; lia).
  unfold write_plan. rewrite write_pos_eq, avail_write_eq, c_min_min by done. fold n. cbn [mbind result_bind].
  rewrite (u32_small (_ - _)) by (unfold is_u32; lia). do 2 f_equal.
  assert ((if n <? zlen data then n else zlen data) = n) as -> by (destruct (n <? zlen data) eqn:E; bdestr; lia).
  destruct (_ <? n) eqn:E; bdestr.
  - set (k := rb_size rb - write_offset rb mod rb_size rb) in *. rewrite (u32_small (n - k)) by (unfold is_u32; lia).
    assert (zslice data 0 n = zslice data 0 k ++ zslice data k (n - k)) as ->.
    { unfold zslice. change (Z.to_nat 0) with 0%nat. rewrite !drop_0, take_take_drop. f_equal. lia. }
    assert (zlen (zslice data 0 k) = k) as Hk by (apply zlen_zslice; lia).
    rewrite ring_stores_app, Hk, region_stores_ring by lia. f_equal.
    apply region_stores_wrapped; [lia|]. rewrite zlen_zslice; lia.
  - apply region_stores_ring; [lia|]. rewrite zlen_zslice; lia.
Qed.

Lemma copy_plan_eq c n :
  0 <= n <= rb_size rb ->
  let f := c mod rb_size rb in
  copy_plan (read_regions f n (u32 (rb_size rb - f))) = Ok (ring_loads (rb_size rb) c (Z.to_nat n)).
Proof.
  intros Hn f. pose proof (mod_size_range rb WF c) as Hm. pose proof (wf_size _ WF) as Hs. fold f in Hm.
  rewrite (u32_small (_ - _)) by (unfold is_u32; lia). unfold read_regions, copy_plan, region_loads.
  destruct (_ <? n) eqn:E; bdestr; cbn.
  - rewrite (u32_small (_ - _)) by (unfold is_u32; lia). f_equal. set (k := rb_size rb - f) in *. unfold ring_loads.
    replace (Z.to_nat n) with (Z.to_nat k + Z.to_nat (n - k))%nat by lia. rewrite seq_app, fmap_app. f_equal.
    + apply list_fmap_ext. intros i j Hj. apply lookup_seq in Hj as [-> Hj]. cbn. f_equal.
      apply region_position; [lia|]. subst k f. lia.
    + replace (seq (0 + Z.to_nat k) (Z.to_nat (n - k))) with (Nat.add (Z.to_nat k) <$> seq 0 (Z.to_nat (n - k)))
        by (rewrite fmap_add_seq; f_equal; lia).
      rewrite <- list_fmap_compose. apply list_fmap_ext.
      intros i j Hj. apply lookup_seq in Hj as [-> Hj]. cbn.
      rewrite Nat2Z.inj_add, Z2Nat.id by lia. f_equal. apply region_wraps; lia.
  - do 2 f_equal. unfold ring_loads. apply list_fmap_ext. intros i j Hj. apply lookup_seq in Hj as [-> Hj]. cbn.
    f_equal. apply region_position; [lia|]. subst f. lia.
Qed.
End plans.

(** ** The invariant *)

(** The cell at distance [i] from the offset [c]. *)
Abbreviation cell_at rb c i := (Z.to_nat ((c + i) mod rb_size rb)).

(** Every byte of [data] is stored behind the writer's offset, or will be. *)
Record storing (rb : ring_buffer_t) (bytes : list byte) (stores : list (Z * byte)) : Prop := {
  st_planned : forall p, p ∈ stores -> exists i b, bytes !! i = Some b /\
    p = ((write_offset rb + Z.of_nat i) mod rb_size rb, b);
  st_done : forall i b, bytes !! i = Some b ->
    ((write_offset rb + Z.of_nat i) mod rb_size rb, b) ∈ stores \/
    rb_data rb !! cell_at rb (write_offset rb) (Z.of_nat i) = Some b
}.

(** The first [n] bytes of [dst] are the oldest ones of the buffer, or will be. *)
Record loading (rb : ring_buffer_t) (dst : list byte) (n : Z) (loads : list (Z * Z)) : Prop := {
  ld_planned : forall p, p ∈ loads -> exists i : nat, Z.of_nat i < n /\
    p = (Z.of_nat i, (read_offset rb + Z.of_nat i) mod rb_size rb);
  ld_done : forall i : nat, Z.of_nat i < n ->
    (Z.of_nat i, (read_offset rb + Z.of_nat i) mod rb_size rb) ∈ loads \/ dst !! i = contents rb !! i
}.

Definition writer_inv (rb : ring_buffer_t) (pc : writer) : Prop :=
  match pc with
  | WIdle => True
  | WAvail data => is_u32 (zlen data)
  | WStores stores data n =>
      is_u32 (zlen data) /\ 0 <= n <= rb_size rb - held rb /\ n <= zlen data /\
      storing rb (zslice data 0 n) stores
  end.

Definition reader_inv (rb : ring_buffer_t) (pc : reader) : Prop :=
  match pc with
  | RIdle => True
  | RRange m len dst => m = PeekCopyClear /\ is_u32 len /\ len <= zlen dst
  | REmpty m requested current dst =>
      m = PeekCopyClear /\ exists len h, is_u32 len /\ len <= zlen dst /\ 0 <= h <= held rb /\
        requested = {| dr_location := read_offset rb; dr_length := len |} /\
        current = {| dr_location := read_offset rb; dr_length := h |}
  | RMove _ _ => False
  | RLoads m loads dst n => m = PeekCopyClear /\ 0 <= n <= held rb /\ n <= zlen dst /\ loading rb dst n loads
  | RClear dst n => 0 <= n <= held rb /\ n <= zlen dst /\ loading rb dst n []
  | RAdvance dst n k => k = n /\ 0 <= n <= held rb /\ n <= zlen dst /\ loading rb dst n []
  end.

(** The most that the writer's call will publish. *)
Definition in_flight (pc : writer) : Z :=
  match pc with WIdle => 0 | WAvail data => zlen data | WStores _ data _ => zlen data end.

(** [more]: what the events to come may offer. *)
Record spsc_inv (start : list byte) (more : Z) (w : spsc_world) : Prop := {
  sp_wf : rb_wf (buf w);
  sp_bound : write_offset (buf w) + in_flight (wr w) + more < 4294967296;
  sp_more : 0 <= more;
  sp_stream : start ++ published w = concat (taken w) ++ contents (buf w);
  sp_count : zlen (published w) = foldr Z.add 0 (written w);
  sp_writer : writer_inv (buf w) (wr w);
  sp_reader : reader_inv (buf w) (rd w)
}.

(** ** Cells *)

Lemma cell_inj size c i j :
  0 < size -> 0 <= i < size -> 0 <= j < size -> (c + i) mod size = (c + j) mod size -> i = j.
Proof.
  intros Hs Hi Hj E. assert (((c + i) mod size - c) mod size = ((c + j) mod size - c) mod size) as H by by rewrite E.
  rewrite !(mod_window c _ size size) in H by lia. done.
Qed.

Lemma contents_cell rb i :
  rb_wf rb -> 0 <= i < held rb -> contents rb !! Z.to_nat i = rb_data rb !! cell_at rb (read_offset rb) i.
Proof.
  intros WF Hi. pose proof WF as []. unfold contents. rewrite circ_lookup by (unfold zlen in *; lia).
  by rewrite Z2Nat.id, wf_cells by lia.
Qed.

Section cells.
Context (rb : ring_buffer_t) (WF : rb_wf rb).

Lemma set_cell_wf pos b : rb_wf (with_cells rb (<[pos := b]> (rb_data rb))).
Proof. destruct WF. split; cbn; try done. by unfold zlen; rewrite length_insert. Qed.

(** A store behind the writer's offset is not seen by the reader. *)
Lemma store_free_cell i b :
  0 <= i < rb_size rb - held rb ->
  contents (with_cells rb (<[cell_at rb (write_offset rb) i := b]> (rb_data rb))) = contents rb.
Proof.
  intros Hi. set (rb' := with_cells _ _). assert (rb_wf rb') as WF' by apply set_cell_wf.
  assert (held rb' = held rb) as Hh by done. pose proof (contents_length rb WF) as Hl.
  pose proof (contents_length rb' WF') as Hl'. apply list_eq. intros j.
  destruct (decide (Z.of_nat j < held rb)) as [Hj|Hj].
  - rewrite <- (Nat2Z.id j), !contents_cell by (done || lia). cbn.
    rewrite list_lookup_insert_ne; [done|]. intros E. destruct WF. unfold held in *.
    pose proof (Z.mod_pos_bound (write_offset rb + i) (rb_size rb)).
    pose proof (Z.mod_pos_bound (read_offset rb + Z.of_nat j) (rb_size rb)).
    apply Z2Nat.inj in E; [|lia..].
    replace (write_offset rb + i) with (read_offset rb + (write_offset rb - read_offset rb + i)) in E by lia.
    apply cell_inj in E; lia.
  - rewrite !lookup_ge_None_2; [done|unfold zlen in *; lia..].
Qed.

Lemma store_in_array i b :
  store_at (rb_data rb) ((write_offset rb + i) mod rb_size rb) b =
  Ok (<[cell_at rb (write_offset rb) i := b]> (rb_data rb)).
Proof.
  pose proof (mod_size_range rb WF (write_offset rb + i)). destruct WF. apply store_at_eq. lia.
Qed.

(** The bytes that the writer publishes follow those that are held. *)
Lemma published_contents data n :
  0 <= n <= rb_size rb - held rb -> n <= zlen data -> is_u64 (write_offset rb + n) ->
  storing rb (zslice data 0 n) [] ->
  rb_wf (publish rb n) /\ contents (publish rb n) = contents rb ++ zslice data 0 n.
Proof.
  intros Hn Hd Hu [_ Hst]. assert (Hp : publish rb n = set_offsets rb (read_offset rb) (write_offset rb + n))
    by (unfold publish; by rewrite u64_small).
  assert (rb_wf (publish rb n)) as WF' by (rewrite Hp; destruct WF; unfold held in *; split; cbn; try done; lia).
  split; [done|]. pose proof (contents_length rb WF) as Hl. pose proof (contents_length _ WF') as Hl'.
  assert (held (publish rb n) = held rb + n) as Hh by (rewrite Hp; unfold held; cbn; lia).
  assert (0 <= held rb) as H0 by (destruct WF; unfold held; lia).
  assert (zlen (zslice data 0 n) = n) as Hz by (apply zlen_zslice; lia).
  apply list_eq. intros j. destruct (decide (Z.of_nat j < held rb + n)) as [Hj|Hj].
  - rewrite <- (Nat2Z.id j), contents_cell by (done || lia). rewrite Hp. cbn.
    destruct (decide (Z.of_nat j < held rb)).
    + rewrite lookup_app_l by (unfold zlen in *; lia). by rewrite contents_cell by (done || lia).
    + rewrite lookup_app_r by (unfold zlen in *; lia).
      destruct (lookup_lt_is_Some_2 (zslice data 0 n) (Z.to_nat (Z.of_nat j) - length (contents rb))) as [b Hb];
        [unfold zlen in *; lia|]. rewrite Hb. destruct (Hst _ _ Hb) as [[]%elem_of_nil|<-]. do 3 f_equal.
      unfold held, zlen in *. lia.
  - rewrite !lookup_ge_None_2; [done|rewrite length_app|]; unfold zlen in *; lia.
Qed.
End cells.

(** ** Each thread leaves the other's half of the invariant alone *)

Lemma reader_inv_mono rb rb' pc l :
  rb_wf rb -> rb_size rb' = rb_size rb -> read_offset rb' = read_offset rb -> held rb <= held rb' ->
  contents rb' = contents rb ++ l -> reader_inv rb pc -> reader_inv rb' pc.
Proof.
  intros WF Hs Hr Hh Hc.
  assert (forall dst n loads, n <= held rb -> loading rb dst n loads -> loading rb' dst n loads) as Hload.
  { intros dst n loads Hn [H1 H2]. pose proof (contents_length rb WF) as Hl. split; rewrite Hs, Hr; [done|].
    intros i Hi. destruct (H2 i Hi) as [?|E]; [by left|right].
    rewrite Hc, lookup_app_l by (unfold zlen in *; lia). done. }
  destruct pc; cbn; try done; rewrite ?Hr.
  - intros (-> & len & h & ? & ? & ? & ? & ?). split; [done|]. exists len, h. split_and!; (done || lia).
  - intros (-> & ? & ? & Hld). split_and!; try done; try lia; apply Hload; [lia|done].
  - intros (? & ? & Hld). split_and!; try done; try lia; apply Hload; [lia|done].
  - intros (-> & ? & ? & Hld). split_and!; try done; try lia; apply Hload; [lia|done].
Qed.

Lemma writer_inv_mono rb rb' pc :
  rb_size rb' = rb_size rb -> write_offset rb' = write_offset rb -> rb_data rb' = rb_data rb ->
  held rb' <= held rb -> writer_inv rb pc -> writer_inv rb' pc.
Proof.
  intros Hs Hw Hd Hh. destruct pc; cbn; try done. intros (? & ? & ? & [H1 H2]).
  split_and!; (done || lia || idtac). by split; rewrite ?Hs, ?Hw, ?Hd.
Qed.

(** ** The steps of the writer *)

Lemma storing_start rb bytes : storing rb bytes (ring_stores (rb_size rb) (write_offset rb) bytes).
Proof.
  split.
  - intros p Hp. apply list_elem_of_lookup in Hp as [i Hi]. unfold ring_stores in Hi.
    rewrite list_lookup_imap in Hi. destruct (bytes !! i) as [b|] eqn:Hb; [|done].
    injection Hi as <-. by exists i, b.
  - intros i b Hb. left. apply list_elem_of_lookup. exists i. unfold ring_stores.
    by rewrite list_lookup_imap, Hb.
Qed.

(** The store [pick] is made. *)
Lemma storing_store rb bytes stores pick pos b :
  rb_wf rb -> zlen bytes <= rb_size rb - held rb -> storing rb bytes stores ->
  stores !! pick = Some (pos, b) ->
  exists i, 0 <= i < rb_size rb - held rb /\ pos = (write_offset rb + i) mod rb_size rb /\
    storing (with_cells rb (<[cell_at rb (write_offset rb) i := b]> (rb_data rb))) bytes (delete pick stores).
Proof.
  intros WF Hn [H1 H2] Hp. pose proof WF as [].
  assert (0 <= held rb) as Hh0 by (unfold held; lia).
  destruct (H1 _ (list_elem_of_lookup_2 _ _ _ Hp)) as (i & b' & Hi & [= -> ->]).
  assert (Hin : forall j x, bytes !! j = Some x -> 0 <= Z.of_nat j < rb_size rb - held rb).
  { intros j x Hj. apply lookup_lt_Some in Hj. unfold zlen in *. lia. }
  exists (Z.of_nat i). split; [by eapply Hin|]. split; [done|]. split; cbn.
  - intros p Hp'. apply H1. rewrite (delete_Permutation _ _ _ Hp). by right.
  - intros j x Hj. destruct (decide (j = i)) as [->|Hne].
    { right. rewrite Hi in Hj. injection Hj as <-. apply list_lookup_insert_eq.
      pose proof (mod_size_range rb WF (write_offset rb + Z.of_nat i)). unfold zlen in *. lia. }
    assert ((write_offset rb + Z.of_nat j) mod rb_size rb <> (write_offset rb + Z.of_nat i) mod rb_size rb) as Hpos.
    { intros E. pose proof (Hin _ _ Hi). pose proof (Hin _ _ Hj). apply cell_inj in E; lia. }
    destruct (H2 j x Hj) as [Hs|Hs].
    + left. rewrite (delete_Permutation _ _ _ Hp) in Hs. apply elem_of_cons in Hs as [[= E _]|Hs]; [|done].
      by destruct Hpos.
    + right. rewrite list_lookup_insert_ne; [done|].
      pose proof (mod_size_range rb WF (write_offset rb + Z.of_nat i)).
      pose proof (mod_size_range rb WF (write_offset rb + Z.of_nat j)).
      intros E. apply Z2Nat.inj in E; [congruence|lia..].
Qed.

Lemma spsc_inv_less start more more' w : 0 <= more' <= more -> spsc_inv start more w -> spsc_inv start more' w.
Proof. intros H [? ? ? ? ? ? ?]. split; try done; lia. Qed.

Lemma write_call_ok start more w data :
  spsc_inv start (zlen data + more) w -> 0 <= more -> is_u32 (zlen data) -> wr w = WIdle ->
  spsc_inv start more (write_call w data).
Proof.
  intros [H1 H2 H3 H4 H5 H6 H7] Hm Hd Hw. rewrite Hw in H2, H6. cbn in H2. unfold write_call.
  destruct (_ || _); split; cbn; try done; try lia.
  - unfold is_u32 in Hd. lia.
  - by rewrite app_nil_r.
  - rewrite app_nil_r, foldr_app. cbn. by rewrite H5.
Qed.

Lemma foldr_add_snoc l n : foldr Z.add 0 (l ++ [n]) = foldr Z.add 0 l + n.
Proof. induction l as [|x l IH]; cbn; [lia|]. rewrite IH. lia. Qed.

Lemma writer_step_ok start more w pick :
  spsc_inv start more w -> exists w', writer_step w pick = Ok w' /\ spsc_inv start more w'.
Proof.
  intros Hi. pose proof Hi as [H1 H2 H3 H4 H5 H6 H7]. pose proof (sp_wf _ _ _ Hi) as WF.
  assert (Hh : 0 <= held (buf w) <= rb_size (buf w)) by (destruct WF; unfold held; lia).
  assert (Hw0 : 0 <= write_offset (buf w)) by (destruct WF; lia).
  unfold writer_step. destruct (wr w) as [|data|stores data n] eqn:Hwr; cbn in H2, H6.
  - by exists w.
  - rewrite write_plan_eq by done. cbn. eexists. split; [reflexivity|]. split; cbn; try done.
    unfold is_u32 in H6. split_and!; try done; try lia. apply storing_start.
  - destruct H6 as (Hd & Hn & Hnd & Hst). destruct stores as [|s stores].
    + destruct (published_contents (buf w) WF data n) as [WF' Hc]; [done|done|unfold is_u64, is_u32 in *; lia|done|].
      eexists. split; [reflexivity|]. split; cbn; try done.
      * unfold is_u64, is_u32 in *. rewrite u64_small by (unfold is_u64; lia). lia.
      * by rewrite Hc, !app_assoc, H4.
      * rewrite zlen_app, zlen_zslice, foldr_add_snoc by lia. lia.
      * eapply reader_inv_mono; [exact WF|done|done| |exact Hc|done].
        unfold held, publish. cbn. rewrite u64_small by (unfold is_u64, is_u32 in *; lia). lia.
    + destruct ((s :: stores) !! pick) as [[pos b]|] eqn:Hp; [|by exists w].
      assert (zlen (zslice data 0 n) <= rb_size (buf w) - held (buf w)) as Hz by (rewrite zlen_zslice; lia).
      destruct (storing_store (buf w) _ _ _ _ _ WF Hz Hst Hp) as (i & Hir & -> & Hst').
      rewrite store_in_array by done. cbn [mbind result_bind]. eexists. split; [reflexivity|].
      pose proof (store_free_cell (buf w) WF i b Hir) as Hc.
      split; cbn -[delete]; try done.
      * by apply set_cell_wf.
      * by rewrite Hc.
      * eapply (reader_inv_mono (buf w) _ _ []); [exact WF|done|done|done|by rewrite app_nil_r|done].
Qed.

(** ** The steps of the reader *)

Lemma read_located_eq rb len h :
  rb_wf rb -> write_offset rb < 4294967296 -> is_u32 len -> 0 <= h <= held rb ->
  read_located rb {| dr_location := read_offset rb; dr_length := len |}
    {| dr_location := read_offset rb; dr_length := h |} =
  Ok (if h =? 0 then empty_data
      else let f := read_offset rb mod rb_size rb in read_regions f (Z.min len h) (u32 (rb_size rb - f))).
Proof.
  intros WF Hw Hlen Hh. pose proof WF as []. unfold read_located, location_in_data_range.
  cbn [dr_location dr_length]. rewrite Z.ltb_irrefl, Z.sub_diag. cbn [negb andb].
  rewrite (u32_small 0) by words. destruct (h =? 0) eqn:E; bdestr.
  - subst h. by rewrite Z.ltb_irrefl.
  - rewrite (proj2 (Z.ltb_lt 0 h)) by lia. cbn [negb].
    rewrite read_pos_eq by (done || unfold is_u64; lia). rewrite Z.add_0_r. cbn [mbind result_bind].
    rewrite c_min_min. set (n := Z.min len h).
    destruct (read_regions_bytes rb (read_offset rb) n WF) as (_ & Hsum & _); [unfold is_u32, held in *; lia|].
    cbv zeta in Hsum. rewrite Hsum, Z.eqb_refl. cbn [cassert mbind result_bind].
    unfold max_data_range. cbn [dr_location dr_length]. unfold is_u32, held in *.
    rewrite (u32_small (read_offset rb)), (u32_small (read_offset rb + n)), (u32_small (read_offset rb + h))
      by (unfold is_u32; subst n; lia).
    rewrite Z.eqb_refl. cbn [cassert mbind result_bind].
    by rewrite (proj2 (Z.leb_le _ _)) by (subst n; lia).
Qed.

Lemma loading_start rb dst n : 0 <= n -> loading rb dst n (ring_loads (rb_size rb) (read_offset rb) (Z.to_nat n)).
Proof.
  intros Hn. unfold ring_loads. split.
  - intros p (i & -> & Hi)%list_elem_of_fmap. apply elem_of_seq in Hi. exists i. split; [lia|done].
  - intros i Hi. left. apply list_elem_of_fmap. exists i. split; [done|]. apply elem_of_seq. lia.
Qed.

Lemma loading_none rb dst : loading rb dst 0 [].
Proof. exact (loading_start rb dst 0 (Z.le_refl 0)). Qed.

(** The load [pick] is made. *)
Lemma loading_load rb dst n loads pick i pos :
  rb_wf rb -> n <= held rb -> n <= zlen dst -> loading rb dst n loads -> loads !! pick = Some (i, pos) ->
  exists b, load_at (rb_data rb) pos = Ok b /\ store_at dst i b = Ok (<[Z.to_nat i := b]> dst) /\
    loading rb (<[Z.to_nat i := b]> dst) n (delete pick loads).
Proof.
  intros WF Hn Hd [H1 H2] Hp. pose proof (mod_size_range rb WF) as Hm. pose proof WF as [].
  destruct (H1 _ (list_elem_of_lookup_2 _ _ _ Hp)) as (k & Hk & [= -> ->]). specialize (Hm (read_offset rb + Z.of_nat k)).
  destruct (lookup_lt_is_Some_2 (rb_data rb) (cell_at rb (read_offset rb) (Z.of_nat k))) as [b Hb];
    [unfold zlen in *; lia|].
  exists b. split; [apply load_at_eq; [lia|done]|]. rewrite store_at_eq by lia. rewrite Nat2Z.id. split; [done|].
  assert (contents rb !! k = Some b) as Hc by (rewrite <- (Nat2Z.id k), contents_cell by (done || lia); done).
  split.
  - intros p Hp'. apply H1. rewrite (delete_Permutation _ _ _ Hp). by right.
  - intros j Hj. destruct (decide (j = k)) as [->|Hne].
    + right. rewrite list_lookup_insert_eq by (unfold zlen in *; lia). done.
    + rewrite list_lookup_insert_ne by done. destruct (H2 j Hj) as [Hin|?]; [left|by right].
      rewrite (delete_Permutation _ _ _ Hp) in Hin. apply elem_of_cons in Hin as [[= E _]|Hin]; [lia|done].
Qed.

(** What is copied is what is cleared. *)
Lemma loaded_bytes rb dst n :
  rb_wf rb -> 0 <= n <= held rb -> n <= zlen dst -> loading rb dst n [] ->
  zslice dst 0 n = take (Z.to_nat n) (contents rb).
Proof.
  intros WF Hn Hd [_ H]. pose proof (contents_length rb WF) as Hl. apply list_eq. intros i.
  destruct (decide (Z.of_nat i < n)) as [Hi|Hi].
  - rewrite zslice_lookup, lookup_take_lt by lia. change (Z.to_nat 0 + i)%nat with i.
    by destruct (H i Hi) as [[]%elem_of_nil|].
  - assert (zlen (zslice dst 0 n) = n) by (apply zlen_zslice; lia).
    rewrite !lookup_ge_None_2; [done|rewrite length_take|]; unfold zlen in *; lia.
Qed.

Lemma read_call_ok start more w len dst :
  spsc_inv start more w -> is_u32 len -> len <= zlen dst -> rd w = RIdle ->
  spsc_inv start more (set_reader w (RRange PeekCopyClear len dst)).
Proof. intros [? ? ? ? ? ? ?] Hl Hd Hr. by split. Qed.

Lemma set_reader_ok start more w pc :
  spsc_inv start more w -> reader_inv (buf w) pc -> spsc_inv start more (set_reader w pc).
Proof. intros [? ? ? ? ? ? ?] Hr. by split. Qed.

(** The reader moves its offset over what it has copied. *)
Lemma advance_ok start more w dst n :
  spsc_inv start more w -> 0 <= n <= held (buf w) -> n <= zlen dst -> loading (buf w) dst n [] ->
  spsc_inv start more (add_taken (move_reader w n RIdle) (zslice dst 0 n)).
Proof.
  intros Hi Hn Hd Hld. pose proof Hi as [WF H2 H3 H4 H5 H6 H7]. pose proof (loaded_bytes _ _ _ WF Hn Hd Hld) as Hz.
  assert (u64 (read_offset (buf w) + n) = read_offset (buf w) + n) as Hu
    by (destruct WF; unfold held in *; apply u64_small; unfold is_u64 in *; lia).
  split; cbn; rewrite ?Hu; try done.
  - by apply advance_wf.
  - rewrite concat_app, advance_contents, Hz, H4 by done. cbn. by rewrite app_nil_r, <- app_assoc, take_drop.
  - apply (writer_inv_mono (buf w)); try done. unfold held. cbn. lia.
Qed.

Lemma reader_step_ok start more w pick :
  spsc_inv start more w -> exists w', reader_step w pick = Ok w' /\ spsc_inv start more w'.
Proof.
  intros Hi. pose proof Hi as [WF H2 H3 H4 H5 H6 H7]. assert (0 <= in_flight (wr w)) as Hp0.
  { destruct (wr w); cbn in *; unfold is_u32 in *; lia. }
  assert (write_offset (buf w) < 4294967296) as Hw by lia. pose proof WF as [].
  assert (held (buf w) <= rb_size (buf w)) as Hsz by done.
  unfold reader_step. destruct (rd w) as [|m len dst|m req cur dst|d dst|m loads dst n|dst n|dst n k] eqn:Hr; cbn in H7.
  - by exists w.
  - destruct H7 as (-> & Hl & Hd). eexists. split; [reflexivity|]. apply set_reader_ok; [done|]. split; [done|].
    exists len, (held (buf w)). rewrite current_range_eq by done. unfold make_data_range.
    rewrite !u32_small by (unfold is_u32 in *; lia). split_and!; try done; unfold held; lia.
  - destruct H7 as (-> & len & h & Hl & Hd & Hh & -> & ->).
    destruct (ring_buffer_is_empty (buf w)).
    { eexists. split; [reflexivity|]. apply set_reader_ok; [done|]. cbn. split_and!; try done; try lia; try apply loading_none.
      unfold is_u32 in *; lia. }
    rewrite read_located_eq by done. cbn [mbind result_bind]. unfold start_copy. destruct (h =? 0) eqn:E; bdestr.
    { eexists. split; [reflexivity|]. apply set_reader_ok; [done|]. cbn. split_and!; try done; try lia; try apply loading_none.
      unfold is_u32 in *; lia. }
    cbv zeta. set (n := Z.min len h). assert (0 <= n <= held (buf w)) as Hn by (unfold is_u32 in *; lia).
    rewrite copy_plan_eq by (done || lia).
    rewrite (proj2 (proj2 (read_regions_bytes (buf w) (read_offset (buf w)) n WF ltac:(lia)))).
    eexists. split; [reflexivity|]. apply set_reader_ok; [done|]. split_and!; try done; try lia.
    apply loading_start. lia.
  - done.
  - destruct H7 as (-> & Hn & Hd & Hld). destruct loads as [|l loads].
    + eexists. split; [reflexivity|]. by apply set_reader_ok.
    + destruct ((l :: loads) !! pick) as [[i pos]|] eqn:Hp; [|by exists w].
      destruct (loading_load (buf w) dst n _ _ _ _ WF (proj2 Hn) Hd Hld Hp) as (b & -> & Hs & Hld'). cbn [mbind result_bind].
      rewrite Hs. cbn [mbind result_bind]. eexists. split; [reflexivity|]. apply set_reader_ok; [done|].
      split_and!; try done; try lia. unfold zlen in *. by rewrite length_insert.
  - destruct H7 as (Hn & Hd & Hld). eexists. split; [reflexivity|]. apply set_reader_ok; [done|].
    rewrite current_range_eq, c_min_min by done. cbn [dr_length]. split_and!; try done; lia.
  - destruct H7 as (-> & Hn & Hd & Hld). eexists. split; [reflexivity|]. by apply advance_ok.
Qed.

Lemma offered_cons ev evs : offered (ev :: evs) = ev_offered ev + offered evs.
Proof. done. Qed.

Lemma ev_offered_nonneg ev : 0 <= ev_offered ev.
Proof. destruct ev; cbn; unfold zlen; lia. Qed.

Lemma offered_nonneg evs : 0 <= offered evs.
Proof.
  induction evs as [|ev evs IH]; [done|]. rewrite offered_cons. pose proof (ev_offered_nonneg ev). lia.
Qed.

Lemma offered_app evs1 evs2 : offered (evs1 ++ evs2) = offered evs1 + offered evs2.
Proof. induction evs1 as [|ev evs1 IH]; [done|]. cbn [app]. rewrite !offered_cons, IH. lia. Qed.

Lemma spsc_step_ok start more w ev :
  spsc_inv start (ev_offered ev + more) w -> 0 <= more -> ev_ok ev ->
  exists w', spsc_step w ev = Ok w' /\ spsc_inv start more w'.
Proof.
  intros Hi H0 Hev. pose proof (ev_offered_nonneg ev) as H1.
  destruct ev as [data|m len dst|pick|pick]; cbn in *.
  - destruct (wr w) eqn:Hw; try (exists w; split; [done|]; eapply spsc_inv_less, Hi; lia).
    eexists. split; [reflexivity|]. by apply write_call_ok.
  - destruct Hev as (-> & ? & ?).
    destruct (rd w) eqn:Hr; try (exists w; split; [done|]; eapply spsc_inv_less, Hi; lia).
    eexists. split; [reflexivity|]. by apply read_call_ok.
  - by apply writer_step_ok.
  - by apply reader_step_ok.
Qed.

Lemma spsc_run_inv start evs more w :
  spsc_inv start (offered evs + more) w -> Forall ev_ok evs -> 0 <= more ->
  exists w', spsc_run w evs = Ok w' /\ spsc_inv start more w'.
Proof.
  intros Hi Hok Hm. revert w Hi. induction Hok as [|ev evs Hev Hok IH]; intros w Hi; cbn [spsc_run]; [by exists w|].
  pose proof (offered_nonneg evs). rewrite offered_cons, <- Z.add_assoc in Hi.
  destruct (spsc_step_ok start _ w ev Hi ltac:(lia) Hev) as (w1 & -> & Hi1). by apply IH.
Qed.

Lemma spsc_run_ok start evs w :
  spsc_inv start (offered evs) w -> Forall ev_ok evs ->
  exists w', spsc_run w evs = Ok w' /\ spsc_inv start 0 w'.
Proof. intros Hi Hok. apply spsc_run_inv; [by rewrite Z.add_0_r|done|done]. Qed.

(** ** Progress

    The effective steps that a call needs, each its thread's own. *)

Definition writer_left (pc : writer) : nat :=
  match pc with WIdle => 0 | WAvail data => S (S (length data)) | WStores stores _ _ => S (length stores) end.

(** An event that moves the writer's call: there is always a store 0. *)
Definition writer_moves (ev : spsc_event) : bool := match ev with EWriter 0 => true | _ => false end.

Definition no_write (ev : spsc_event) : bool := match ev with EWrite _ => false | _ => true end.

Lemma reader_keeps_writer w w' pick : reader_step w pick = Ok w' -> wr w' = wr w.
Proof.
  unfold reader_step, start_copy. destruct (rd w) as [|m len dst|m req cur dst|d dst|m loads dst n|dst n|dst n k].
  all: try by intros [= <-].
  - destruct (ring_buffer_is_empty _); [by intros [= <-]|]. intros H. inv_ok.
    destruct m; [by inv_ok|]. by destruct (_ =? 0); inv_ok.
  - intros H. by inv_ok.
  - destruct loads; [by destruct m; intros [= <-]|]. destruct (_ !! _) as [[i pos]|]; [|by intros [= <-]].
    intros H. by inv_ok.
Qed.

Lemma writer_step_left w w' pick :
  writer_inv (buf w) (wr w) -> rb_wf (buf w) -> writer_step w pick = Ok w' ->
  (writer_left (wr w') <= writer_left (wr w) - (if pick then 1 else 0))%nat.
Proof.
  intros Hi WF. unfold writer_step. destruct (wr w) as [|data|[|s stores] data n] eqn:Hw.
  - intros [= <-]. rewrite Hw. by destruct pick.
  - cbn in Hi. rewrite write_plan_eq by done. intros [= <-]. cbn. unfold ring_stores. rewrite length_imap.
    unfold zslice. rewrite length_take, length_drop. destruct pick; lia.
  - intros [= <-]. cbn. destruct pick; lia.
  - destruct ((s :: stores) !! pick) as [[pos b]|] eqn:Hp.
    + intros H. inv_ok. cbn -[delete]. rewrite length_delete by by eexists. cbn. destruct pick; lia.
    + intros [= <-]. rewrite Hw. cbn. destruct pick; [done|lia].
Qed.

Lemma writer_progress start evs w w' :
  spsc_inv start (offered evs) w -> Forall ev_ok evs -> Forall no_write evs -> spsc_run w evs = Ok w' ->
  (writer_left (wr w') <= writer_left (wr w) - length (List.filter writer_moves evs))%nat.
Proof.
  intros Hi Hok Hn. revert w Hi. induction Hok as [|ev evs Hev Hok IH]; intros w Hi Hr; cbn in Hr.
  { injection Hr as <-. cbn. lia. }
  inversion Hn as [|? ? Hnw Hn']; subst. rewrite offered_cons in Hi.
  destruct (spsc_step_ok start (offered evs) w ev Hi (offered_nonneg evs) Hev) as (w2 & Hst & Hi2). rewrite Hst in Hr. cbn in Hr.
  specialize (IH Hn' _ Hi2 Hr). pose proof Hi as [WF _ _ _ _ Hwr _].
  destruct ev as [data|m len dst|pick|pick]; cbn in *; [done| | |].
  - assert (wr w2 = wr w) as E by (destruct (rd w); by injection Hst as <-). by rewrite <- E.
  - pose proof (writer_step_left _ _ _ Hwr WF Hst) as Hl. destruct pick; cbn in *; lia.
  - rewrite <- (reader_keeps_writer _ _ _ Hst). done.
Qed.

(** ** A thread alone

    The steps of one thread, nobody else running, make up the operation. *)

Fixpoint store_all (cells : list byte) (stores : list (Z * byte)) : result (list byte) :=
  match stores with
  | [] => Ok cells
  | (pos, b) :: stores => cells ← store_at cells pos b; store_all cells stores
  end.

Fixpoint load_all (cells dst : list byte) (loads : list (Z * Z)) : result (list byte) :=
  match loads with
  | [] => Ok dst
  | (i, pos) :: loads => b ← load_at cells pos; dst ← store_at dst i b; load_all cells dst loads
  end.

Lemma store_all_app cells s1 s2 : store_all cells (s1 ++ s2) = (c ← store_all cells s1; store_all c s2).
Proof.
  revert cells. induction s1 as [|[pos b] s1 IH]; intros cells; [done|]. cbn. destruct (store_at _ _ _); [apply IH|done].
Qed.

Lemma load_all_app cells dst l1 l2 : load_all cells dst (l1 ++ l2) = (d ← load_all cells dst l1; load_all cells d l2).
Proof.
  revert dst. induction l1 as [|[i pos] l1 IH]; intros dst; [done|]. cbn. destruct (load_at _ _); [|done]. cbn.
  destruct (store_at _ _ _); [apply IH|done].
Qed.

(** The bytes of a region one after the other are a [memcpy]. *)
Lemma store_region cells pos bytes :
  0 <= pos -> pos + zlen bytes <= zlen cells ->
  store_all cells (region_stores pos bytes) = memcpy cells pos bytes 0 (zlen bytes).
Proof.
  revert cells pos. induction bytes as [|b bytes IH]; intros cells pos Hp Hl.
  - cbn. rewrite memcpy_empty; [done|unfold zlen in *; cbn in *; lia|done].
  - unfold region_stores. cbn [imap]. rewrite zlen_cons in *. cbn [store_all]. rewrite Z.add_0_r.
    pose proof (zlen_nonneg bytes). rewrite store_at_eq by lia. cbn [mbind result_bind].
    assert (imap ((fun i b0 => (pos + Z.of_nat i, b0)) ∘ S) bytes = region_stores (pos + 1) bytes) as ->.
    { apply imap_ext. intros i x _. cbn. f_equal. lia. }
    assert (zlen (<[Z.to_nat pos:=b]> cells) = zlen cells) as Hz by (unfold zlen; by rewrite length_insert).
    rewrite IH, !memcpy_eq by (rewrite ?Hz, ?zlen_cons; lia). f_equal.
    rewrite !zslice_0 by (rewrite ?zlen_cons; lia). unfold zlen in *.
    rewrite insert_take_drop by lia. replace (Z.to_nat (pos + 1)) with (S (Z.to_nat pos)) by lia.
    rewrite take_app_ge by (rewrite length_take; lia). rewrite length_take_le by lia.
    replace (S (Z.to_nat pos) - Z.to_nat pos)%nat with 1%nat by lia. cbn [take].
    rewrite drop_app_ge by (rewrite length_take; lia). rewrite length_take_le by lia.
    rewrite take_0, <- app_assoc. f_equal. cbn [app]. do 2 f_equal.
    replace (Z.to_nat (pos + 1 + Z.of_nat (length bytes)) - Z.to_nat pos)%nat with (S (length bytes)) by lia.
    cbn [drop]. rewrite drop_drop. f_equal. lia.
Qed.

Lemma store_slice cells pos data soff n :
  0 <= pos -> 0 <= soff -> 0 <= n -> pos + n <= zlen cells -> soff + n <= zlen data ->
  store_all cells (region_stores pos (zslice data soff n)) = memcpy cells pos data soff n.
Proof.
  intros. assert (zlen (zslice data soff n) = n) as Hz by by apply zlen_zslice.
  rewrite store_region, !memcpy_eq by (rewrite ?Hz; lia). rewrite Hz, zslice_0 by lia. done.
Qed.

Lemma loads_are_stores cells dst loads stores :
  Forall2 (fun p q => fst p = fst q /\ load_at cells (snd p) = Ok (snd q)) loads stores ->
  load_all cells dst loads = store_all dst stores.
Proof.
  intros H. revert dst. induction H as [|[i pos] [j b] l s [E Hl] H IH]; intros dst; [done|]. cbn in *. subst j.
  rewrite Hl. cbn. destruct (store_at dst i b); [apply IH|done].
Qed.

Lemma load_region cells dst doff off n :
  0 <= doff -> 0 <= off -> 0 <= n -> doff + n <= zlen dst -> off + n <= zlen cells ->
  load_all cells dst ((fun i : nat => (doff + Z.of_nat i, off + Z.of_nat i)) <$> seq 0 (Z.to_nat n)) =
  memcpy dst doff cells off n.
Proof.
  intros. rewrite <- store_slice by lia. apply loads_are_stores, Forall2_same_length_lookup.
  assert (zlen (zslice cells off n) = n) as Hz by by apply zlen_zslice.
  split; [unfold region_stores; rewrite length_imap, length_fmap, length_seq; unfold zlen in *; lia|].
  intros i p q Hp Hq. unfold region_stores in Hq. rewrite list_lookup_fmap in Hp. rewrite list_lookup_imap in Hq.
  destruct (seq _ _ !! i) as [k|] eqn:Hk; [|done]. apply lookup_seq in Hk as [-> Hk].
  destruct (zslice _ _ _ !! i) as [b|] eqn:Hb; [|done]. injection Hp as <-. injection Hq as <-. cbn.
  split; [done|]. rewrite zslice_lookup in Hb by lia. apply load_at_eq; [lia|]. rewrite <- Hb. f_equal. lia.
Qed.

(** Alone, a thread makes what is left of its [memcpy] in order. *)
Lemma writer_runs w stores data n cells evs :
  wr w = WStores stores data n -> store_all (rb_data (buf w)) stores = Ok cells ->
  spsc_run w (replicate (length stores) (EWriter 0) ++ evs) =
  spsc_run (set_writer w (with_cells (buf w) cells) (WStores [] data n)) evs.
Proof.
  revert w. induction stores as [|[pos b] stores IH]; intros w Hw Hs; cbn in Hs.
  - injection Hs as <-. destruct w as [[] ?]; cbn in *; by subst.
  - cbn [length replicate app spsc_run spsc_step]. unfold writer_step. rewrite Hw. cbn [lookup list_lookup].
    destruct (store_at _ pos b) as [c|] eqn:Hc; [|done]. cbn in *. rewrite IH with (w := set_writer _ _ _); cbn; done.
Qed.

Lemma reader_runs w m loads dst dst' n evs :
  rd w = RLoads m loads dst n -> load_all (rb_data (buf w)) dst loads = Ok dst' ->
  spsc_run w (replicate (length loads) (EReader 0) ++ evs) = spsc_run (set_reader w (RLoads m [] dst' n)) evs.
Proof.
  revert w dst. induction loads as [|[i pos] loads IH]; intros w dst Hw Hs; cbn in Hs.
  - injection Hs as <-. destruct w; cbn in *; by subst.
  - cbn [length replicate app spsc_run spsc_step]. unfold reader_step. rewrite Hw. cbn [lookup list_lookup].
    destruct (load_at _ pos) as [b|] eqn:Hb; [|done]. cbn in *. destruct (store_at _ i b) as [d|] eqn:Hd; [|done].
    cbn in *. rewrite IH with (w := set_reader _ _) (dst := d); cbn; done.
Qed.

Lemma plan_stores rb data :
  rb_wf rb -> is_u32 (zlen data) -> 0 < zlen data -> held rb < rb_size rb ->
  let n := Z.min (zlen data) (rb_size rb - held rb) in
  exists stores, write_plan rb data = Ok (WStores stores data n) /\
    store_all (rb_data rb) stores = Ok (circ_put (rb_data rb) (write_offset rb) (take (Z.to_nat n) data)).
Proof.
  intros WF Hd Hd0 Hh n. pose proof (mod_size_range rb WF (write_offset rb)) as Hm. pose proof WF as [].
  assert (0 < n <= rb_size rb) as Hn by (unfold held in *; lia).
  rewrite <- (write_store rb data n) by (done || lia). unfold write_plan.
  rewrite write_pos_eq, avail_write_eq, c_min_min by done. fold n. cbn [mbind result_bind].
  eexists. split; [reflexivity|]. rewrite (u32_small (rb_size rb - _)) by (unfold is_u32; lia).
  destruct (_ <? n) eqn:E; bdestr.
  - rewrite (u32_small (n - _)) by (unfold is_u32; lia). rewrite store_all_app, store_slice by lia.
    destruct (memcpy _ _ _ _ _) as [c|] eqn:Hc; [|done]. apply memcpy_len in Hc. cbn [mbind result_bind].
    apply store_slice; unfold zlen in *; lia.
  - assert ((if n <? zlen data then n else zlen data) = n) as -> by (destruct (n <? zlen data) eqn:E'; bdestr; lia).
    apply store_slice; lia.
Qed.

Lemma plan_loads rb c n dst :
  rb_wf rb -> 0 <= n <= rb_size rb -> n <= zlen dst ->
  let f := c mod rb_size rb in
  let d := read_regions f n (u32 (rb_size rb - f)) in
  exists loads, copy_plan d = Ok loads /\
    load_all (rb_data rb) dst loads = copy_ring_data_to_buffer (rb_data rb) d dst.
Proof.
  intros WF Hn Hd f d. pose proof (mod_size_range rb WF c) as Hm. fold f in Hm. pose proof WF as []. subst d.
  rewrite (u32_small (rb_size rb - _)) by (unfold is_u32; lia).
  unfold read_regions, copy_plan, region_loads, copy_ring_data_to_buffer, copy_region.
  destruct (_ <? n) eqn:E; bdestr; cbn -[memcpy]; (eexists; split; [reflexivity|]).
  - rewrite (u32_small (n - _)) by (unfold is_u32; lia). rewrite load_all_app.
    change (fun i : nat => (Z.of_nat i, f + Z.of_nat i)) with (fun i : nat => (0 + Z.of_nat i, f + Z.of_nat i)).
    rewrite load_region by lia. destruct (memcpy _ _ _ _ _) as [c1|] eqn:Hc; [|done]. apply memcpy_len in Hc.
    cbn [mbind result_bind]. apply (load_region _ _ _ 0); unfold zlen in *; lia.
  - change (fun i : nat => (Z.of_nat i, f + Z.of_nat i)) with (fun i : nat => (0 + Z.of_nat i, f + Z.of_nat i)).
    rewrite load_region by lia. by destruct (memcpy _ _ _ _ _).
Qed.

(** [ring_buffer_get_data] by its parts. *)
Lemma get_data_located rb len peek :
  ring_buffer_get_data rb len peek =
  if ring_buffer_is_empty rb then Ok (rb, empty_data, []) else
  d ← read_located rb (make_data_range (read_offset rb) len) (ring_buffer_get_current_data_range rb);
  Ok (if (entryCount d =? 0) || peek then rb
      else set_offsets rb (u64 (read_offset rb + total_bytes d)) (write_offset rb),
      d,
      if entryCount d =? 0 then []
      else notify (on_data_read_at_range rb) (rb_ctx rb) (make_data_range (u32 (read_offset rb)) (total_bytes d))).
Proof.
  unfold ring_buffer_get_data, ring_buffer_get_data_at_range, read_located.
  destruct (ring_buffer_is_empty rb); [done|]. cbn [orb]. destruct (negb _); [done|].
  destruct (bufferReadOffsetWithOffset _ _); [|done]. cbn [mbind result_bind].
  repeat (destruct (cassert _); cbn [mbind result_bind]); try done.
  cbn [mret result_ret]. unfold read_regions. destruct (_ <? _); cbn; by destruct peek.
Qed.

Lemma write_alone rb data :
  rb_wf rb -> is_u32 (zlen data) -> write_offset rb + zlen data < 4294967296 ->
  exists k rb' n ns, ring_buffer_write_data rb data (zlen data) = Ok (rb', n, ns) /\
    spsc_run (new_spsc rb) (EWrite data :: replicate k (EWriter 0)) =
      Ok (write_returns (new_spsc rb) rb' data n).
Proof.
  intros WF Hd Hb. pose proof WF as []. assert (0 <= held rb <= rb_size rb) as Hh by (unfold held; lia).
  destruct (decide (held rb < rb_size rb /\ 0 < zlen data)) as [[Hr Hd0]|Hn].
  - destruct (plan_stores rb data WF Hd Hd0 Hr) as (stores & Hp & Hs). set (n := Z.min _ _) in *.
    assert (is_u64 (write_offset rb + n)) as Hu by (unfold is_u64; lia).
    exists (S (length stores + 1)), (appended rb data n), n. eexists.
    split; [apply write_data_eq; [done|done|lia|done]|]. cbn [replicate spsc_run spsc_step wr new_spsc mbind result_bind].
    unfold write_call. cbn [buf new_spsc]. rewrite is_full_eq by done.
    rewrite (proj2 (Z.eqb_neq (rb_size rb) (held rb))), (proj2 (Z.eqb_neq (zlen data) 0)) by lia.
    cbn [orb mbind result_bind]. unfold writer_step at 1. cbn [wr set_writer buf]. rewrite Hp.
    cbn [mbind result_bind]. rewrite replicate_add. erewrite writer_runs; [|done|exact Hs].
    cbn. unfold publish. cbn. rewrite u64_small by done. done.
  - exists 0%nat. eexists rb, 0, []. unfold ring_buffer_write_data. cbn. unfold write_call. cbn. rewrite is_full_eq by done.
    assert ((rb_size rb =? held rb) || (zlen data =? 0) = true) as ->; [|done].
    apply orb_true_iff. unfold is_u32 in Hd. destruct (decide (held rb < rb_size rb)); [right|left]; apply Z.eqb_eq; lia.
Qed.

(** What the reader's steps come to once the regions are known. *)
Lemma reads_on w m d dst dst' loads :
  copy_plan d = Ok loads -> load_all (rb_data (buf w)) dst loads = Ok dst' -> rd w = RLoads m loads dst (total_bytes d) ->
  exists k, spsc_run w (replicate k (EReader 0)) =
    Ok (match m with
        | PeekCopyClear => add_taken (move_reader w (c_min (total_bytes d)
                             (dr_length (ring_buffer_get_current_data_range (buf w)))) RIdle) (zslice dst' 0 (total_bytes d))
        | ReadThenCopy => add_taken (set_reader w RIdle) (zslice dst' 0 (total_bytes d))
        end).
Proof.
  intros Hp Hl Hr. destruct m.
  - exists (length loads + 3)%nat. rewrite replicate_add. by rewrite (reader_runs w PeekCopyClear loads dst dst' (total_bytes d)).
  - exists (length loads + 1)%nat. rewrite replicate_add. by rewrite (reader_runs w ReadThenCopy loads dst dst' (total_bytes d)).
Qed.

(** The regions that the reader finds can be copied. *)
Lemma regions_copied rb len h dst :
  rb_wf rb -> write_offset rb < 4294967296 -> is_u32 len -> len <= zlen dst -> 0 <= h <= held rb ->
  exists d loads dst', read_located rb {| dr_location := read_offset rb; dr_length := len |}
      {| dr_location := read_offset rb; dr_length := h |} = Ok d /\
    copy_plan d = Ok loads /\ load_all (rb_data rb) dst loads = Ok dst' /\
    copy_ring_data_to_buffer (rb_data rb) d dst = Ok dst'.
Proof.
  intros WF Hw Hlen Hd Hh. rewrite read_located_eq by done. destruct (h =? 0) eqn:E; bdestr.
  { by exists empty_data, [], dst. }
  cbv zeta. set (n := Z.min len h). pose proof WF as []. assert (0 <= n <= rb_size rb) as Hn.
  { unfold is_u32, held in *. lia. }
  destruct (plan_loads rb (read_offset rb) n dst WF Hn ltac:(lia)) as (loads & Hp & Hl). cbv zeta in Hp, Hl.
  destruct (decide (n = 0)) as [H0|H0].
  - rewrite H0 in *. pose proof (copy_plan_eq rb WF (read_offset rb) 0 ltac:(lia)) as H. cbv zeta in H.
    rewrite Hp in H. injection H as ->. eexists _, [], dst. split_and!; [reflexivity|done|done|by rewrite <- Hl].
  - rewrite copy_regions_eq in Hl by (done || lia). eexists _, loads, _. split_and!; [reflexivity|done|exact Hl|].
    apply copy_regions_eq; (done || lia).
Qed.

(** The first two steps of a reader whose buffer nobody else touches. *)
Lemma reads_begin rb m len dst k :
  spsc_run (new_spsc rb) (ERead m len dst :: replicate (S (S k)) (EReader 0)) =
  (w ← (if ring_buffer_is_empty rb then start_copy (new_spsc rb) m empty_data dst else
        d ← read_located rb (make_data_range (read_offset rb) len) (ring_buffer_get_current_data_range rb);
        match m with
        | ReadThenCopy => if entryCount d =? 0 then start_copy (new_spsc rb) m d dst
                          else Ok (set_reader (new_spsc rb) (RMove d dst))
        | PeekCopyClear => start_copy (new_spsc rb) m d dst
        end);
   spsc_run w (replicate k (EReader 0))).
Proof. done. Qed.

Lemma read_alone rb m len dst :
  rb_wf rb -> counters_fit rb -> is_u32 len -> len <= zlen dst ->
  let peek := match m with PeekCopyClear => true | ReadThenCopy => false end in
  exists k rb' d ns dst', ring_buffer_get_data rb len peek = Ok (rb', d, ns) /\
    copy_ring_data_to_buffer (rb_data rb) d dst = Ok dst' /\
    spsc_run (new_spsc rb) (ERead m len dst :: replicate k (EReader 0)) =
      Ok {| buf := if peek then ring_buffer_clear_data rb' (total_bytes d) else rb'; wr := WIdle; rd := RIdle;
            published := []; written := []; taken := [zslice dst' 0 (total_bytes d)] |}.
Proof.
  intros WF Hf Hlen Hd peek. pose proof WF as []. unfold counters_fit in Hf.
  assert (0 <= held rb <= rb_size rb) as Hh by (unfold held; lia).
  assert (make_data_range (read_offset rb) len = {| dr_location := read_offset rb; dr_length := len |}) as Hreq
    by (unfold make_data_range; rewrite !u32_small by (unfold is_u32 in *; lia); done).
  assert (ring_buffer_get_current_data_range rb = {| dr_location := read_offset rb; dr_length := held rb |}) as Hcur
    by (rewrite current_range_eq, u32_small by (done || unfold is_u32 in *; lia); done).
  destruct (regions_copied rb len (held rb) dst WF Hf Hlen Hd ltac:(lia)) as (d & loads & dst' & Hloc & Hp & Hl & Hc).
  pose proof (reads_begin rb m len dst) as Hrun. rewrite get_data_located. rewrite Hreq, Hcur, Hloc in *.
  destruct (ring_buffer_is_empty rb) eqn:He; [|destruct (entryCount d =? 0) eqn:Hd0; [|destruct m]].
  - destruct (reads_on (set_reader (new_spsc rb) (RLoads m [] dst 0)) m empty_data dst dst [] eq_refl eq_refl eq_refl)
      as (k & Hk). exists (S (S k)). eexists _, _, _, dst. split_and!; [reflexivity|done|].
    rewrite Hrun. cbn in Hk |- *. rewrite Hk. subst peek. by destruct m.
  - destruct (reads_on (set_reader (new_spsc rb) (RLoads m loads dst (total_bytes d))) m d dst dst' loads Hp Hl eq_refl)
      as (k & Hk). exists (S (S k)). eexists _, d, _, dst'. split_and!; [reflexivity|done|].
    rewrite Hrun. cbn [mbind result_bind]. unfold start_copy. rewrite Hp, ?Hd0.
    destruct m; cbn [mbind result_bind]; by rewrite Hk.
  - destruct (reads_on (set_reader (new_spsc rb) (RLoads PeekCopyClear loads dst (total_bytes d))) PeekCopyClear d dst
      dst' loads Hp Hl eq_refl) as (k & Hk). exists (S (S k)). eexists _, d, _, dst'. split_and!; [reflexivity|done|].
    rewrite Hrun. cbn [mbind result_bind]. unfold start_copy. rewrite Hp. cbn [mbind result_bind]. by rewrite Hk, Hd0.
  - set (rb' := set_offsets rb (u64 (read_offset rb + total_bytes d)) (write_offset rb)).
    destruct (reads_on (set_reader (new_spsc rb') (RLoads ReadThenCopy loads dst (total_bytes d))) ReadThenCopy d dst
      dst' loads Hp Hl eq_refl) as (k & Hk). exists (S (S (S k))). eexists _, d, _, dst'. split_and!; [reflexivity|done|].
    rewrite Hrun. cbn [mbind result_bind]. rewrite Hd0. cbn [mbind result_bind replicate spsc_run spsc_step]. unfold reader_step. cbn [rd set_reader].
    unfold start_copy. rewrite Hp. cbn [mbind result_bind]. exact Hk.
Qed.

(** ** Properties *)

(** C12: one thread writes and another looks, copies and clears, in any interleaving
    of their accesses to the offsets and of the single bytes of their copies: while
    less than 4 GiB go through the buffer nothing faults, no assertion fails, and what
    the reader has copied out, with what the buffer holds, is what it held at first
    with what the writer has published, byte for byte and in order.  The writer
    publishes as many bytes as its calls return. *)
Theorem spsc_stream rb evs :
  rb_wf rb -> Forall ev_ok evs -> write_offset rb + offered evs < 4294967296 ->
  exists w, spsc_run (new_spsc rb) evs = Ok w /\ rb_wf (buf w) /\
    contents rb ++ published w = concat (taken w) ++ contents (buf w) /\
    zlen (published w) = foldr Z.add 0 (written w).
Proof.
  intros WF Hok Hb. destruct (spsc_run_ok (contents rb) evs (new_spsc rb)) as (w & Hw & [? _ _ ? ? _ _]); [|done|].
  - split; cbn; try done; [lia|apply offered_nonneg|by rewrite app_nil_r].
  - by exists w.
Qed.

(** C35: the steps of a thread that runs alone make up its operation: those of the
    writer [ring_buffer_write_data], those of the reader [ring_buffer_get_data], the
    copy of the regions, and [ring_buffer_clear_data] if it only looked. *)
Theorem spsc_alone rb data m len dst :
  rb_wf rb -> is_u32 (zlen data) -> write_offset rb + zlen data < 4294967296 -> is_u32 len -> len <= zlen dst ->
  let peek := match m with PeekCopyClear => true | ReadThenCopy => false end in
  (exists k rb' n ns, ring_buffer_write_data rb data (zlen data) = Ok (rb', n, ns) /\
     spsc_run (new_spsc rb) (EWrite data :: replicate k (EWriter 0)) =
       Ok {| buf := rb'; wr := WIdle; rd := RIdle; published := zslice data 0 n; written := [n]; taken := [] |}) /\
  (exists k rb' d ns dst', ring_buffer_get_data rb len peek = Ok (rb', d, ns) /\
     copy_ring_data_to_buffer (rb_data rb) d dst = Ok dst' /\
     spsc_run (new_spsc rb) (ERead m len dst :: replicate k (EReader 0)) =
       Ok {| buf := if peek then ring_buffer_clear_data rb' (total_bytes d) else rb'; wr := WIdle; rd := RIdle;
             published := []; written := []; taken := [zslice dst' 0 (total_bytes d)] |}).
Proof.
  intros WF Hd Hb Hlen Hdst peek. split; [by apply write_alone|].
  apply read_alone; try done. unfold counters_fit. pose proof (zlen_nonneg data). lia.
Qed.

(** The writer waits for nobody: whatever the reader does in between, a call has
    returned after two more steps of its own than it has bytes, less once it stores. *)
Theorem spsc_writer_wait_free rb evs1 evs2 w1 :
  rb_wf rb -> Forall ev_ok (evs1 ++ evs2) -> write_offset rb + offered (evs1 ++ evs2) < 4294967296 ->
  spsc_run (new_spsc rb) evs1 = Ok w1 -> Forall no_write evs2 ->
  (writer_left (wr w1) <= length (List.filter writer_moves evs2))%nat ->
  exists w2, spsc_run w1 evs2 = Ok w2 /\ wr w2 = WIdle.
Proof.
  intros WF Hok Hb Hr1 Hn Hleft. apply Forall_app in Hok as [Hok1 Hok2].
  assert (spsc_inv (contents rb) (offered evs2) w1) as Hi.
  { destruct (spsc_run_inv (contents rb) evs1 (offered evs2) (new_spsc rb)) as (w & Hw & Hi); [|done| |].
    - split; cbn; try done; [|apply Z.add_nonneg_nonneg; apply offered_nonneg|by rewrite app_nil_r].
      rewrite offered_app in Hb. lia.
    - apply offered_nonneg.
    - rewrite Hr1 in Hw. by injection Hw as ->. }
  destruct (spsc_run_ok _ _ _ Hi Hok2) as (w2 & Hw2 & _). exists w2. split; [done|].
  pose proof (writer_progress _ _ _ _ Hi Hok2 Hn Hw2) as Hl.
  destruct (wr w2) as [|?|[|? ?] ? ?]; cbn in Hl; (done || lia).
Qed.

(** ** Witnesses *)

(** The buffer of RingBuffer with three of four bytes held, the free cell being
    written while two bytes are read, in reverse order. *)
Definition ex_spsc_events : list spsc_event :=
  [EWrite [x44; x45]; ERead PeekCopyClear 2 [x00; x00]; EWriter 0; EReader 0; EReader 0; EReader 1; EWriter 0;
   EReader 0; EWriter 0; EReader 0; EReader 0; EReader 0; EWrite [x45; x46]; EWriter 0; EWriter 1; EWriter 0;
   EWriter 0].

Lemma spsc_stream_witness :
  exists w, spsc_run (new_spsc ex_rb) ex_spsc_events = Ok w /\ taken w = [[x41; x42]] /\ written w = [1; 2] /\
    contents ex_rb ++ published w = concat (taken w) ++ contents (buf w).
Proof.
  destruct (spsc_stream ex_rb ex_spsc_events) as (w & Hw & _ & Hc & _).
  - exact ex_rb_wf.
  - repeat constructor; vm_compute; (discriminate || reflexivity).
  - vm_compute. reflexivity.
  - exists w. split; [exact Hw|]. vm_compute in Hw. injection Hw as <-. split; [reflexivity|].
    split; [reflexivity|exact Hc].
Defined.

Lemma spsc_alone_witness :
  exists k w, spsc_run (new_spsc ex_rb) (ERead PeekCopyClear 2 [x00; x00] :: replicate k (EReader 0)) = Ok w /\
    taken w = [[x41; x42]] /\ contents (buf w) = [x43].
Proof.
  destruct (spsc_alone ex_rb [x44] PeekCopyClear 2 [x00; x00]) as (_ & k & rb' & d & ns & dst' & Hg & Hc & Hr).
  - exact ex_rb_wf.
  - vm_compute. split; [discriminate|reflexivity].
  - vm_compute. reflexivity.
  - vm_compute. split; [discriminate|reflexivity].
  - vm_compute. discriminate.
  - exists k. eexists. split; [exact Hr|]. vm_compute in Hg. injection Hg as <- <- <-.
    vm_compute in Hc. injection Hc as <-. split; reflexivity.
Defined.

(** A read that is no look gives the bytes up before they are copied: the writer
    overwrites the oldest of them. *)
Lemma read_then_copy_overwritten :
  taken <$> match spsc_run (new_spsc ex_rb)
    [ERead ReadThenCopy 2 [x00; x00]; EReader 0; EReader 0; EReader 0;
     EWrite [x44; x45]; EWriter 0; EWriter 0; EWriter 0; EWriter 0; EReader 0; EReader 0; EReader 0] with
  | Ok w => Some w | Err _ => None end = Some [[x45; x42]] /\
  contents ex_rb = [x41; x42; x43].
Proof. by split. Qed.
