(* ===== verification/Accumulator.v ===== *)
(** The byte accumulator of inc/cutils/accumulator.h.

    A circular array of [total_buffer_size] bytes with an [in] and an [out]
    index; one cell stays free, so [in = out] means empty.  An insertion that
    does not fit drops the oldest bytes.  The handle is never NULL here: every
    function dereferences it unconditionally. *)
From S2P Require Import Prelude.
From stdpp Require Import list.
From Stdlib Require Import ZArith Lia Strings.Byte.
Local Open Scope Z_scope.

(** ** Data *)

Record accumulator_t := {
  acc_buf : list byte;
  total_buffer_size : Z;
  acc_in : Z;
  acc_out : Z
}.

(** [acc] is the control block in [params->acc], [None] for NULL. *)
Record accumulator_create_params_t := {
  ap_acc : option accumulator_t;
  ap_buf : list byte;
  ap_buf_size : Z
}.

(** ** Operations *)

Definition accumulator_iterator_init (p_acc : accumulator_t) : Z := acc_out p_acc.

Definition accumulator_iterator_valid (p_acc : accumulator_t) (iterator : Z) : bool :=
  negb (acc_in p_acc =? acc_out p_acc) && negb (iterator =? acc_in p_acc).

(** The new iterator and the result. *)
Definition accumulator_iterator_next (p_acc : accumulator_t) (iterator : Z) : result (Z * bool) :=
  if accumulator_iterator_valid p_acc iterator then
    i ← c_rem (u32 (iterator + 1)) (total_buffer_size p_acc); mret (i, true)
  else mret (iterator, false).

Definition accumulator_create (params : option accumulator_create_params_t)
  : result accumulator_t :=
  match params with
  | Some p =>
      match ap_acc p with
      | Some _ => mret {| acc_buf := ap_buf p; total_buffer_size := ap_buf_size p;
                          acc_in := 0; acc_out := 0 |}
      | None => Err AssertFailed
      end
  | None => Err AssertFailed
  end.

Definition set_in_out (p_acc : accumulator_t) (buf : list byte) (i o : Z) : accumulator_t :=
  {| acc_buf := buf; total_buffer_size := total_buffer_size p_acc; acc_in := i; acc_out := o |}.

Definition accumulator_clear (acc : accumulator_t) : accumulator_t :=
  set_in_out acc (acc_buf acc) 0 0.

Definition accumulator_bytes_left (p_acc : accumulator_t) : Z :=
  let retval :=
    if acc_out p_acc <=? acc_in p_acc
    then u32 (total_buffer_size p_acc - u32 (acc_in p_acc - acc_out p_acc))
    else u32 (acc_out p_acc - acc_in p_acc) in
  u32 (retval - 1).

Definition accumulator_bytes_contained_from (p_acc : accumulator_t) (iter : Z) : Z :=
  if iter <=? acc_in p_acc
  then u32 (acc_in p_acc - iter)
  else u32 (total_buffer_size p_acc - u32 (iter - acc_in p_acc)).

(** The new iterator and the result. *)
Definition accumulator_iterator_advance (p_acc : accumulator_t) (iterator size : Z)
  : result (Z * bool) :=
  if size <=? accumulator_bytes_contained_from p_acc iterator then
    i ← c_rem (u32 (iterator + size)) (total_buffer_size p_acc);
    mret (if negb (i =? acc_in p_acc) then (i, true) else (iterator, false))
  else mret (iterator, false).

Definition accumulator_bytes_contained (p_acc : accumulator_t) : Z :=
  accumulator_bytes_contained_from p_acc (acc_out p_acc).

(** [out = (out + size) % total_buffer_size] *)
Definition move_out (p_acc : accumulator_t) (size : Z) : result accumulator_t :=
  o ← c_rem (u32 (acc_out p_acc + size)) (total_buffer_size p_acc);
  mret (set_in_out p_acc (acc_buf p_acc) (acc_in p_acc) o).

Definition accumulator_insert (p_acc : accumulator_t) (buf : list byte) (size : Z)
  : result (accumulator_t * bool) :=
  let bytes_left := accumulator_bytes_left p_acc in
  if size <? total_buffer_size p_acc then
    p_acc ← (if bytes_left <? size then move_out p_acc (u32 (size - bytes_left)) else mret p_acc);
    let bytes_left := if bytes_left <? size then accumulator_bytes_left p_acc else bytes_left in
    if size <=? bytes_left then
      let i := acc_in p_acc in
      let total := total_buffer_size p_acc in
      stored ←
        (if total <? u32 (i + size) then
           let remaining := u32 (size - u32 (total - i)) in
           d ← memcpy (acc_buf p_acc) i buf 0 (u32 (total - i));
           memcpy d 0 buf (u32 (total - i)) remaining
         else memcpy (acc_buf p_acc) i buf 0 size);
      i' ← c_rem (u32 (i + size)) total;
      mret (set_in_out p_acc stored i' (acc_out p_acc), true)
    else mret (p_acc, false)
  else mret (p_acc, false).

(** The copy out of the array that peek and peek_at share: [size] bytes from
    index [from] into [dst]. *)
Definition copy_out (p_acc : accumulator_t) (from : Z) (dst : list byte) (size : Z)
  : result (list byte) :=
  let total := total_buffer_size p_acc in
  if total <? u32 (from + size) then
    let remaining := u32 (size - u32 (total - from)) in
    d ← memcpy dst 0 (acc_buf p_acc) from (u32 (total - from));
    memcpy d (u32 (total - from)) (acc_buf p_acc) 0 remaining
  else memcpy dst 0 (acc_buf p_acc) from size.

(** The destination after the call and the result. *)
Definition accumulator_peek (p_acc : accumulator_t) (dst : list byte) (size : Z)
  : result (list byte * bool) :=
  let bytes_contained := accumulator_bytes_contained p_acc in
  if size <=? bytes_contained then
    d ← copy_out p_acc (acc_out p_acc) dst size; mret (d, true)
  else mret (dst, false).

Definition accumulator_extract (p_acc : accumulator_t) (dst : list byte) (size : Z)
  : result (accumulator_t * list byte * bool) :=
  r ← accumulator_peek p_acc dst size;
  let '(d, ok) := r in
  if (ok : bool) then (p_acc' ← move_out p_acc size; Ok (p_acc', d, true))
  else Ok (p_acc, d, false).

Definition accumulator_advance (p_acc : accumulator_t) (size : Z)
  : result (accumulator_t * bool) :=
  let retval := false in
  let size := if u32 (total_buffer_size p_acc - 1) <? size
              then u32 (total_buffer_size p_acc - 1) else size in
  p_acc' ← move_out p_acc size; mret (p_acc', retval).

(** The destination after the call and the number of bytes copied. *)
Definition accumulator_peek_at (p_acc : accumulator_t) (iter : Z) (dst : list byte) (size : Z)
  : result (list byte * Z) :=
  if total_buffer_size p_acc <=? iter then mret (dst, 0) else
  let bytes_contained := accumulator_bytes_contained_from p_acc iter in
  let size := if bytes_contained <? size then bytes_contained else size in
  d ← copy_out p_acc iter dst size; mret (d, size).

(** ** Invariant and abstraction *)

(** Indices inside an array of at most 2^31 bytes, so that [in + size] cannot
    wrap. *)
Record acc_wf (a : accumulator_t) : Prop := {
  acc_wf_total : 0 < total_buffer_size a <= 2147483648;
  acc_wf_cells : zlen (acc_buf a) = total_buffer_size a;
  acc_wf_in : 0 <= acc_in a < total_buffer_size a;
  acc_wf_out : 0 <= acc_out a < total_buffer_size a
}.

Definition contained_from (a : accumulator_t) (iter : Z) : Z :=
  (acc_in a - iter) mod total_buffer_size a.

(** The bytes between an iterator and [in]. *)
Definition bytes_from (a : accumulator_t) (iter : Z) : list byte :=
  circ (acc_buf a) iter (Z.to_nat (contained_from a iter)).

(** The bytes held, oldest first. *)
Definition acc_contents (a : accumulator_t) : list byte := bytes_from a (acc_out a).

Section facts.
Context (a : accumulator_t) (WF : acc_wf a).

Lemma contained_range iter : 0 <= contained_from a iter < total_buffer_size a.
Proof. destruct WF. apply Z.mod_pos_bound. lia. Qed.

Lemma contained_cases iter :
  0 <= iter < total_buffer_size a ->
  contained_from a iter =
    if iter <=? acc_in a then acc_in a - iter else total_buffer_size a - (iter - acc_in a).
Proof.
  intros. destruct WF. unfold contained_from. destruct (_ <=? _) eqn:E; bdestr.
  - apply Z.mod_small. lia.
  - rewrite mod_neg_once; lia.
Qed.

Lemma bytes_contained_from_eq iter :
  0 <= iter < total_buffer_size a ->
  accumulator_bytes_contained_from a iter = contained_from a iter.
Proof.
  intros. rewrite contained_cases by done. unfold accumulator_bytes_contained_from.
  destruct WF. destruct (_ <=? _) eqn:E; bdestr; words.
Qed.

Lemma bytes_contained_eq : accumulator_bytes_contained a = zlen (acc_contents a).
Proof.
  pose proof (contained_range (acc_out a)).
  unfold accumulator_bytes_contained. rewrite bytes_contained_from_eq by (by destruct WF).
  unfold acc_contents, bytes_from. lens.
Qed.

Lemma acc_contents_length : zlen (acc_contents a) = contained_from a (acc_out a).
Proof.
  pose proof (contained_range (acc_out a)). unfold acc_contents, bytes_from. lens.
Qed.

Lemma bytes_left_eq :
  accumulator_bytes_left a = total_buffer_size a - 1 - zlen (acc_contents a).
Proof.
  rewrite acc_contents_length, contained_cases by (by destruct WF).
  unfold accumulator_bytes_left. destruct WF. destruct (_ <=? _) eqn:E; bdestr; words.
Qed.

Lemma add_index_eq i size :
  0 <= i < total_buffer_size a -> 0 <= size < 2147483648 ->
  c_rem (u32 (i + size)) (total_buffer_size a) = Ok ((i + size) mod total_buffer_size a).
Proof.
  intros. destruct WF. rewrite c_rem_ok by lia. by rewrite u32_small by words.
Qed.

Lemma index_range x : 0 <= x mod total_buffer_size a < total_buffer_size a.
Proof. destruct WF. apply Z.mod_pos_bound. lia. Qed.
End facts.

(** Moving an index [k] bytes forward inside the bytes it precedes. *)
Lemma contained_advance a iter k :
  acc_wf a -> 0 <= k <= contained_from a iter ->
  contained_from a ((iter + k) mod total_buffer_size a) = contained_from a iter - k.
Proof.
  intros WF Hk. pose proof (contained_range a WF iter). unfold contained_from in *.
  rewrite Zminus_mod_idemp_r.
  replace (acc_in a - (iter + k)) with (acc_in a - iter - k) by lia.
  rewrite <- Zminus_mod_idemp_l. apply Z.mod_small. lia.
Qed.

Lemma bytes_from_advance a iter k :
  acc_wf a -> 0 <= k <= contained_from a iter ->
  bytes_from a ((iter + k) mod total_buffer_size a) = drop (Z.to_nat k) (bytes_from a iter).
Proof.
  intros WF Hk. unfold bytes_from. rewrite contained_advance by done.
  rewrite circ_drop, Z2Nat.id by lia. rewrite <- (acc_wf_cells a WF), circ_mod.
  f_equal. lia.
Qed.

(** The accumulator with [out] moved by [k] bytes. *)
Definition moved (a : accumulator_t) (k : Z) : accumulator_t :=
  set_in_out a (acc_buf a) (acc_in a) ((acc_out a + k) mod total_buffer_size a).

Lemma move_out_eq a k :
  acc_wf a -> 0 <= k < 2147483648 -> move_out a k = Ok (moved a k).
Proof.
  intros WF Hk. unfold move_out. rewrite add_index_eq by (try done; by destruct WF). done.
Qed.

Lemma moved_wf a k : acc_wf a -> acc_wf (moved a k).
Proof.
  intros WF. pose proof (index_range a WF (acc_out a + k)). destruct WF.
  constructor; cbn; done.
Qed.

Lemma moved_contents a k :
  acc_wf a -> 0 <= k <= zlen (acc_contents a) ->
  acc_contents (moved a k) = drop (Z.to_nat k) (acc_contents a).
Proof.
  intros WF Hk. rewrite acc_contents_length in Hk by done. unfold acc_contents.
  rewrite <- bytes_from_advance by done. done.
Qed.

(** The store of [accumulator_insert], both branches. *)
Lemma insert_store a buf size :
  acc_wf a -> 0 <= size < total_buffer_size a -> size <= zlen buf ->
  (if total_buffer_size a <? u32 (acc_in a + size) then
     d ← memcpy (acc_buf a) (acc_in a) buf 0 (u32 (total_buffer_size a - acc_in a));
     memcpy d 0 buf (u32 (total_buffer_size a - acc_in a))
       (u32 (size - u32 (total_buffer_size a - acc_in a)))
   else memcpy (acc_buf a) (acc_in a) buf 0 size) =
  Ok (circ_put (acc_buf a) (acc_in a) (take (Z.to_nat size) buf)).
Proof.
  intros [] Hs Hb. rewrite (u32_small (acc_in a + size)) by words.
  rewrite (u32_small (total_buffer_size a - acc_in a)) by words.
  destruct (_ <? _) eqn:E; bdestr.
  - rewrite (u32_small (size - _)) by words.
    pose proof (circ_put_memcpy2 (acc_buf a) (acc_in a) buf size) as P.
    rewrite acc_wf_cells0 in P. apply P; lia.
  - apply circ_put_memcpy1; lia.
Qed.

(** The accumulator after a store of [size] bytes that fit. *)
Definition stored (a : accumulator_t) (buf : list byte) (size : Z) : accumulator_t :=
  set_in_out a (circ_put (acc_buf a) (acc_in a) (take (Z.to_nat size) buf))
    ((acc_in a + size) mod total_buffer_size a) (acc_out a).

Lemma stored_wf a buf size : acc_wf a -> acc_wf (stored a buf size).
Proof.
  intros WF. pose proof (index_range a WF (acc_in a + size)). destruct WF.
  constructor; cbn; try done. lens.
Qed.

Lemma stored_contents a buf size :
  acc_wf a -> 0 <= size <= zlen buf ->
  zlen (acc_contents a) + size < total_buffer_size a ->
  acc_contents (stored a buf size) = acc_contents a ++ take (Z.to_nat size) buf.
Proof.
  intros WF Hs. rewrite acc_contents_length by done. intros Hfit.
  pose proof (contained_range a WF (acc_out a)) as Hc.
  set (c := contained_from a (acc_out a)) in *.
  assert (Hin : acc_in a mod total_buffer_size a = (acc_out a + c) mod total_buffer_size a).
  { unfold c, contained_from. rewrite Zplus_mod_idemp_r. f_equal. lia. }
  assert (Hc' : contained_from (stored a buf size) (acc_out a) = c + size).
  { unfold contained_from. cbn. rewrite Zminus_mod_idemp_l.
    replace (acc_in a + size - acc_out a) with (acc_in a - acc_out a + size) by lia.
    rewrite <- Zplus_mod_idemp_l. fold (contained_from a (acc_out a)). fold c.
    apply Z.mod_small. lia. }
  unfold acc_contents, bytes_from. cbn [acc_out stored set_in_out]. rewrite Hc'. fold c.
  cbn [acc_buf stored set_in_out]. pose proof (acc_wf_cells a WF) as Hcells.
  rewrite <- circ_put_mod, Hcells, Hin, <- Hcells, circ_put_mod.
  replace (acc_out a + c) with (acc_out a + Z.of_nat (Z.to_nat c)) by lia.
  rewrite <- circ_put_append by lens. f_equal. lens.
Qed.

(** Insertion of a chunk smaller than the array. *)
Lemma insert_eq a buf size :
  acc_wf a -> 0 <= size < total_buffer_size a -> size <= zlen buf ->
  let over := Z.max 0 (zlen (acc_contents a) + size - (total_buffer_size a - 1)) in
  accumulator_insert a buf size = Ok (stored (moved a over) buf size, true) /\
  acc_wf (stored (moved a over) buf size) /\
  acc_contents (stored (moved a over) buf size) =
    drop (Z.to_nat over) (acc_contents a) ++ take (Z.to_nat size) buf.
Proof.
  intros WF Hs Hb over. pose proof (acc_contents_length a WF) as Hlen.
  pose proof (contained_range a WF (acc_out a)) as Hr. rewrite <- Hlen in Hr.
  assert (Hover : 0 <= over <= zlen (acc_contents a)) by lia.
  assert (WF' : acc_wf (moved a over)) by by apply moved_wf.
  assert (Hmc := moved_contents a over WF Hover).
  assert (Hml : zlen (acc_contents (moved a over)) = zlen (acc_contents a) - over).
  { rewrite Hmc. unfold zlen in *. rewrite length_drop. lia. }
  split; [|split].
  - unfold accumulator_insert. rewrite bytes_left_eq by done.
    rewrite (proj2 (Z.ltb_lt size _)) by lia.
    assert ((if total_buffer_size a - 1 - zlen (acc_contents a) <? size
             then move_out a (u32 (size - (total_buffer_size a - 1 - zlen (acc_contents a))))
             else mret a) = Ok (moved a over)) as ->.
    { destruct WF. destruct (_ <? _) eqn:E; bdestr.
      - rewrite u32_small by words. rewrite move_out_eq by (try constructor; try done; lia).
        do 2 f_equal. lia.
      - assert (over = 0) as -> by lia. unfold moved. rewrite Z.add_0_r, Z.mod_small by lia.
        by destruct a. }
    cbn [mbind result_bind]. rewrite bytes_left_eq by done. rewrite Hml.
    cbn [total_buffer_size moved set_in_out].
    assert ((size <=? (if total_buffer_size a - 1 - zlen (acc_contents a) <? size
      then total_buffer_size a - 1 - (zlen (acc_contents a) - over)
      else total_buffer_size a - 1 - zlen (acc_contents a))) = true) as ->.
    { apply Z.leb_le. destruct (_ <? _) eqn:E; bdestr; lia. }
    pose proof (insert_store (moved a over) buf size WF' Hs Hb) as P.
    cbn [total_buffer_size moved set_in_out acc_in acc_buf] in P |- *. rewrite P.
    cbn [mbind result_bind].
    pose proof (add_index_eq a WF (acc_in a) size) as Q. rewrite Q; [done|by destruct WF|].
    destruct WF. lia.
  - by apply stored_wf.
  - rewrite stored_contents; [by rewrite Hmc|done|lia|]. rewrite Hml. cbn. lia.
Qed.

(** The copy that peek and peek_at share. *)
Lemma copy_out_eq a from dst n :
  acc_wf a -> 0 <= from < total_buffer_size a -> 0 <= n < total_buffer_size a ->
  n <= zlen dst ->
  copy_out a from dst n = Ok (circ (acc_buf a) from (Z.to_nat n) ++ drop (Z.to_nat n) dst).
Proof.
  intros [] Hf Hn Hd. unfold copy_out. rewrite (u32_small (from + n)) by words.
  rewrite (u32_small (total_buffer_size a - from)) by words.
  destruct (_ <? _) eqn:E; bdestr.
  - rewrite (u32_small (n - _)) by words.
    pose proof (circ_copy2 (acc_buf a) from dst n) as P. rewrite acc_wf_cells0 in P. apply P; lia.
  - apply circ_copy1; lia.
Qed.

Lemma bytes_from_prefix a iter n :
  0 <= n <= contained_from a iter ->
  circ (acc_buf a) iter (Z.to_nat n) = take (Z.to_nat n) (bytes_from a iter).
Proof. intros. unfold bytes_from. rewrite circ_take. f_equal. lia. Qed.

Lemma peek_eq a dst size :
  acc_wf a -> 0 <= size <= zlen dst ->
  accumulator_peek a dst size =
    if size <=? zlen (acc_contents a)
    then Ok (take (Z.to_nat size) (acc_contents a) ++ drop (Z.to_nat size) dst, true)
    else Ok (dst, false).
Proof.
  intros WF Hs. unfold accumulator_peek. rewrite bytes_contained_eq by done.
  pose proof (acc_contents_length a WF) as Hl. pose proof (contained_range a WF (acc_out a)).
  destruct (_ <=? _) eqn:E; bdestr; [|done].
  rewrite copy_out_eq; [|done|by destruct WF|lia|lia]. cbn.
  by rewrite bytes_from_prefix by lia.
Qed.

(** ** Properties *)

(** Inserting never leaves the array and keeps the invariant; a chunk
    smaller than the array is stored completely behind the bytes held, and only
    as many of the oldest bytes are dropped as exceed the capacity
    [total_buffer_size - 1]; a chunk that is not smaller is refused without any
    effect. *)
Theorem accumulator_insert_keeps_newest a buf size :
  acc_wf a -> is_u32 size -> size <= zlen buf ->
  exists a' ok, accumulator_insert a buf size = Ok (a', ok) /\ acc_wf a' /\
    total_buffer_size a' = total_buffer_size a /\
    ok = bool_decide (size < total_buffer_size a) /\
    acc_contents a' =
      (if ok then
         drop (Z.to_nat (zlen (acc_contents a) + size - (total_buffer_size a - 1)))
           (acc_contents a) ++ take (Z.to_nat size) buf
       else acc_contents a).
Proof.
  intros WF Hs Hb. unfold is_u32 in Hs.
  destruct (decide (size < total_buffer_size a)) as [Hlt|Hge].
  - destruct (insert_eq a buf size WF ltac:(lia) Hb) as (H & WF' & HC).
    do 2 eexists. split; [exact H|]. split; [done|]. split; [done|].
    rewrite bool_decide_true by done. split; [done|]. rewrite HC. do 2 f_equal. lia.
  - exists a, false. rewrite bool_decide_false by done. split_and!; try done.
    unfold accumulator_insert. by rewrite (proj2 (Z.ltb_ge _ _)) by lia.
Qed.

(** The code's view of a stream: one insertion per chunk. *)
Fixpoint insert_all (a : accumulator_t) (chunks : list (list byte)) : result accumulator_t :=
  match chunks with
  | [] => Ok a
  | c :: cs => r ← accumulator_insert a c (zlen c); insert_all (fst r) cs
  end.

(** C15. A window over a stream: inserting any chunks, each smaller than the
    array, one after the other leaves exactly the last [total_buffer_size - 1]
    bytes of everything that was held or inserted. *)
Theorem accumulator_window_of_stream a chunks :
  acc_wf a -> Forall (fun c => zlen c < total_buffer_size a) chunks ->
  exists a', insert_all a chunks = Ok a' /\ acc_wf a' /\
    acc_contents a' =
      lastn (Z.to_nat (total_buffer_size a - 1)) (acc_contents a ++ concat chunks).
Proof.
  revert a. induction chunks as [|c cs IH]; intros a WF Hc; cbn [insert_all concat].
  - exists a. rewrite app_nil_r. split_and!; try done. symmetry. apply lastn_ge.
    pose proof (acc_contents_length a WF). pose proof (contained_range a WF (acc_out a)).
    unfold zlen in *. lia.
  - inversion Hc as [|? ? Hc1 Hcs]; subst.
    pose proof (zlen_nonneg c) as Hz. pose proof (acc_wf_total a WF) as Ht.
    destruct (insert_eq a c (zlen c) WF ltac:(lia) ltac:(lia)) as (-> & WF' & HC).
    cbn [mbind result_bind fst].
    edestruct IH as (a' & Ha' & WF'' & HC'); [exact WF'|exact Hcs|].
    exists a'. split; [done|]. split; [done|]. rewrite HC', HC. cbn [total_buffer_size stored moved set_in_out].
    rewrite (take_ge c) by (unfold zlen; lia).
    pose proof (acc_contents_length a WF). pose proof (contained_range a WF (acc_out a)).
    rewrite <- drop_app_le by (unfold zlen in *; lia). rewrite app_assoc.
    rewrite <- (lastn_app_lastn _ (acc_contents a ++ c)). do 2 f_equal.
    unfold lastn. f_equal. rewrite length_app. unfold zlen in *. lia.
Qed.

(** Peeking copies the oldest [size] bytes and extracting also removes
    them, exactly when that many are held; otherwise both report failure and
    change nothing. *)
Theorem accumulator_extract_oldest a dst size :
  acc_wf a -> 0 <= size <= zlen dst ->
  let enough := size <=? zlen (acc_contents a) in
  let dst' := if enough then take (Z.to_nat size) (acc_contents a) ++ drop (Z.to_nat size) dst
              else dst in
  accumulator_peek a dst size = Ok (dst', enough) /\
  exists a', accumulator_extract a dst size = Ok (a', dst', enough) /\ acc_wf a' /\
    acc_contents a' = if enough then drop (Z.to_nat size) (acc_contents a) else acc_contents a.
Proof.
  intros WF Hs enough dst'. unfold accumulator_extract. rewrite peek_eq by done.
  unfold dst', enough. pose proof (acc_contents_length a WF).
  pose proof (contained_range a WF (acc_out a)). pose proof (acc_wf_total a WF).
  destruct (_ <=? _) eqn:E; bdestr; (split; [done|]); cbn.
  - exists (moved a size). rewrite move_out_eq by (try done; lia). cbn.
    split; [done|]. split; [by apply moved_wf|]. apply moved_contents; try done; lia.
  - by exists a.
Qed.

(** [accumulator_advance] always reports [false], also when it moved.  It
    removes the oldest [size] bytes if that many are held; but it does not stop
    at the newest byte: advancing past it makes [out] overtake [in], and the
    accumulator then claims to hold [total_buffer_size] minus the excess. *)
Theorem accumulator_advance_outcome a size :
  acc_wf a -> is_u32 size ->
  let k := Z.min size (total_buffer_size a - 1) in
  exists a', accumulator_advance a size = Ok (a', false) /\ acc_wf a' /\
    (k <= zlen (acc_contents a) ->
       acc_contents a' = drop (Z.to_nat k) (acc_contents a)) /\
    (zlen (acc_contents a) < k ->
       accumulator_bytes_contained a' = total_buffer_size a - (k - zlen (acc_contents a))).
Proof.
  intros WF Hs k. pose proof (acc_contents_length a WF) as Hl.
  pose proof (contained_range a WF (acc_out a)) as Hc. pose proof (acc_wf_total a WF).
  assert (Hk : 0 <= k < total_buffer_size a) by (unfold is_u32 in *; lia).
  exists (moved a k). split; [|split; [by apply moved_wf|split]].
  - unfold accumulator_advance. rewrite (u32_small (_ - 1)) by words.
    assert ((if total_buffer_size a - 1 <? size then total_buffer_size a - 1 else size) = k) as ->
      by (destruct (_ <? _) eqn:E; bdestr; lia).
    by rewrite move_out_eq by (try done; lia).
  - intros. apply moved_contents; try done; lia.
  - intros Hlt. rewrite bytes_contained_eq by by apply moved_wf.
    rewrite acc_contents_length by by apply moved_wf. rewrite Hl in *.
    unfold contained_from in *. cbn. rewrite Zminus_mod_idemp_r.
    replace (acc_in a - (acc_out a + k)) with (acc_in a - acc_out a - k) by lia.
    rewrite <- Zminus_mod_idemp_l, mod_neg_once by lia. lia.
Qed.

(** [k] steps of [accumulator_iterator_next]. *)
Fixpoint iterate_next (a : accumulator_t) (iter : Z) (k : nat) : result (Z * bool) :=
  match k with
  | O => Ok (iter, true)
  | S k' => r ← accumulator_iterator_next a iter;
            if (snd r : bool) then iterate_next a (fst r) k' else Ok r
  end.

Lemma iterator_next_eq a iter :
  acc_wf a -> 0 <= iter < total_buffer_size a ->
  0 < contained_from a iter <= zlen (acc_contents a) ->
  accumulator_iterator_next a iter = Ok ((iter + 1) mod total_buffer_size a, true).
Proof.
  intros WF Hi Hc. unfold accumulator_iterator_next, accumulator_iterator_valid.
  rewrite acc_contents_length in Hc by done.
  assert (acc_in a <> acc_out a).
  { intros E. unfold contained_from in Hc. rewrite E, Z.sub_diag, Zmod_0_l in Hc. lia. }
  assert (iter <> acc_in a).
  { intros ->. unfold contained_from in Hc. rewrite Z.sub_diag, Zmod_0_l in Hc. lia. }
  rewrite !(proj2 (Z.eqb_neq _ _)) by done. cbn [negb andb].
  by rewrite add_index_eq by (try done; lia).
Qed.

Lemma iterate_next_eq a k iter :
  acc_wf a -> 0 <= iter < total_buffer_size a ->
  Z.of_nat k <= contained_from a iter <= zlen (acc_contents a) ->
  iterate_next a iter k = Ok ((iter + Z.of_nat k) mod total_buffer_size a, true).
Proof.
  intros WF. revert iter. induction k as [|k IH]; intros iter Hi Hk; cbn [iterate_next].
  - rewrite Z.add_0_r, Z.mod_small by done. done.
  - rewrite iterator_next_eq by (try done; lia). cbn [mbind result_bind fst snd].
    rewrite IH.
    + rewrite Zplus_mod_idemp_l. do 3 f_equal. lia.
    + by apply index_range.
    + rewrite contained_advance by (try done; lia). lia.
Qed.

(** Iterating: [k] steps from the initial iterator, for any [k] up to the
    number of bytes held, succeed; the iterator is valid exactly while a byte
    is left, and [accumulator_peek_at] there copies the bytes [k ..] (as many as
    requested and held). *)
Theorem accumulator_iterate_and_peek_at a k dst size :
  acc_wf a -> Z.of_nat k <= zlen (acc_contents a) -> 0 <= size <= zlen dst ->
  exists iter, iterate_next a (accumulator_iterator_init a) k = Ok (iter, true) /\
    accumulator_iterator_valid a iter = bool_decide (Z.of_nat k < zlen (acc_contents a)) /\
    accumulator_bytes_contained_from a iter = zlen (acc_contents a) - Z.of_nat k /\
    let n := Z.min size (zlen (acc_contents a) - Z.of_nat k) in
    accumulator_peek_at a iter dst size =
      Ok (take (Z.to_nat n) (drop k (acc_contents a)) ++ drop (Z.to_nat n) dst, n).
Proof.
  intros WF Hk Hs. pose proof (acc_contents_length a WF) as Hl.
  pose proof (contained_range a WF (acc_out a)) as Hc. pose proof (acc_wf_out a WF).
  exists ((acc_out a + Z.of_nat k) mod total_buffer_size a).
  set (iter := (acc_out a + Z.of_nat k) mod total_buffer_size a).
  assert (Hi : 0 <= iter < total_buffer_size a) by by apply index_range.
  assert (Hci : contained_from a iter = zlen (acc_contents a) - Z.of_nat k).
  { unfold iter. rewrite contained_advance by (try done; lia). lia. }
  assert (Hbf : accumulator_bytes_contained_from a iter = zlen (acc_contents a) - Z.of_nat k)
    by by rewrite bytes_contained_from_eq.
  unfold accumulator_iterator_init.
  split; [apply iterate_next_eq; try done; lia|]. split; [|split; [done|]].
  - unfold accumulator_iterator_valid. pose proof (acc_wf_in a WF) as Hin.
    pose proof (contained_cases a WF iter Hi) as Hcc.
    pose proof (contained_cases a WF (acc_out a) ltac:(lia)) as Hco.
    case_bool_decide; [apply andb_true_iff; split; apply negb_true_iff, Z.eqb_neq|
                       apply andb_false_iff; right; apply negb_false_iff, Z.eqb_eq];
      intros; destruct (iter <=? acc_in a) eqn:E1, (acc_out a <=? acc_in a) eqn:E2; bdestr; lia.
  - set (n := Z.min size (zlen (acc_contents a) - Z.of_nat k)). unfold accumulator_peek_at. rewrite (proj2 (Z.leb_gt _ _)) by lia. rewrite Hbf.
    assert ((if zlen (acc_contents a) - Z.of_nat k <? size
             then zlen (acc_contents a) - Z.of_nat k else size) = n) as ->
      by (unfold n; destruct (_ <? _) eqn:E; bdestr; lia).
    rewrite copy_out_eq by (try done; lia). cbn.
    rewrite bytes_from_prefix by lia. do 4 f_equal. unfold iter.
    rewrite bytes_from_advance by (try done; lia). by rewrite Nat2Z.id.
Qed.

(** ** Witnesses *)

(** Four bytes held in an array of six, wrapped around its end. *)
Definition ex_acc : accumulator_t :=
  {| acc_buf := [x43; x44; x00; x00; x41; x42]; total_buffer_size := 6;
     acc_in := 2; acc_out := 4 |}.

Lemma ex_acc_wf : acc_wf ex_acc.
Proof. constructor; cbn; (lia || done). Qed.

Lemma accumulator_insert_keeps_newest_witness :
  exists a', accumulator_insert ex_acc [x50; x51; x52] 3 = Ok (a', true) /\
    acc_contents a' = [x43; x44; x50; x51; x52].
Proof.
  destruct (accumulator_insert_keeps_newest ex_acc [x50; x51; x52] 3) as (a' & ok & H & _ & _ & Hok & HC);
    [exact ex_acc_wf|unfold is_u32; lia|vm_compute; discriminate|].
  change (ok = true) in Hok. subst ok. exists a'. split; [exact H|]. rewrite HC. reflexivity.
Defined.

Lemma accumulator_window_of_stream_witness :
  exists a', insert_all ex_acc [[x50; x51; x52]; [x53]] = Ok a' /\
    acc_contents a' = [x44; x50; x51; x52; x53].
Proof.
  destruct (accumulator_window_of_stream ex_acc [[x50; x51; x52]; [x53]]) as (a' & H & _ & HC);
    [exact ex_acc_wf|repeat constructor|].
  exists a'. split; [exact H|]. rewrite HC. reflexivity.
Defined.

Lemma accumulator_extract_oldest_witness :
  exists a', accumulator_extract ex_acc [x00; x00; x00] 3 = Ok (a', [x41; x42; x43], true) /\
    acc_contents a' = [x44].
Proof.
  destruct (accumulator_extract_oldest ex_acc [x00; x00; x00] 3) as (_ & a' & H & _ & HC);
    [exact ex_acc_wf|vm_compute; split; discriminate|].
  exists a'. split; [exact H|]. rewrite HC. reflexivity.
Defined.

Lemma accumulator_advance_outcome_witness :
  exists a', accumulator_advance ex_acc 5 = Ok (a', false) /\
    zlen (acc_contents ex_acc) = 4 /\ accumulator_bytes_contained a' = 5.
Proof.
  destruct (accumulator_advance_outcome ex_acc 5) as (a' & H & _ & _ & HC);
    [exact ex_acc_wf|unfold is_u32; lia|].
  exists a'. split; [exact H|]. split; [reflexivity|]. apply HC. vm_compute. reflexivity.
Defined.

Lemma accumulator_iterate_and_peek_at_witness :
  exists iter, iterate_next ex_acc (accumulator_iterator_init ex_acc) 1 = Ok (iter, true) /\
    accumulator_peek_at ex_acc iter [x00; x00] 2 = Ok ([x42; x43], 2).
Proof.
  destruct (accumulator_iterate_and_peek_at ex_acc 1 [x00; x00] 2) as (iter & H & _ & _ & HP);
    [exact ex_acc_wf|vm_compute; discriminate|vm_compute; split; discriminate|].
  exists iter. split; [exact H|]. exact HP.
Defined.
