(* ===== verification/LogBuffer.v ===== *)
(** The character log buffer of src/log_buffer.c and its thread-safe wrapper of
    src/ts_log_buffer.c.

    A circular array of [bufferSize] characters with a [head] and a [tail]
    index, one cell always free; when it is full the oldest character goes.
    Pushed text is filtered: ANSI escape sequences and carriage returns are
    dropped, and so is NUL.  A [char] is the integer it stands for. *)
From S2P Require Import Prelude.
From stdpp Require Import list.
From Stdlib Require Import ZArith Lia.
Local Open Scope Z_scope.



(** ** Data *)

Record log_buffer_t := {
  p_buffer : list Z;
  isInit : bool;
  bufferSize : Z;
  head : Z;
  tail : Z;
  in_escape_sequence : bool
}.

Definition set_cells (pLb : log_buffer_t) (cells : list Z) (h t : Z) : log_buffer_t :=
  {| p_buffer := cells; isInit := isInit pLb; bufferSize := bufferSize pLb;
     head := h; tail := t; in_escape_sequence := in_escape_sequence pLb |}.

Definition set_escape (pLb : log_buffer_t) (b : bool) : log_buffer_t :=
  {| p_buffer := p_buffer pLb; isInit := isInit pLb; bufferSize := bufferSize pLb;
     head := head pLb; tail := tail pLb; in_escape_sequence := b |}.

(** ** Operations *)

Definition is_letter (c : Z) : bool :=
  (97 <=? c) && (c <=? 122) || (65 <=? c) && (c <=? 90).

(** The buffer after the character and whether it is filtered out. *)
Definition log_buffer_filter_character (pLb : log_buffer_t) (character : Z)
  : log_buffer_t * bool :=
  if character =? 0x1b then (set_escape pLb true, true)
  else if in_escape_sequence pLb then
    (if is_letter character then set_escape pLb false else pLb, true)
  else (pLb, 0xd =? character).

(** [pLb] is the control block ([None] for NULL) with whatever it holds. *)
Definition log_buffer_init (pLb : option log_buffer_t) (pBuffer : option (list Z)) (size : Z)
  : option log_buffer_t * bool :=
  match pLb, pBuffer with
  | Some lb, Some cells =>
      if size =? 0 then (Some lb, false) else
      (Some {| p_buffer := cells; isInit := true; bufferSize := size; head := 0; tail := 0;
               in_escape_sequence := in_escape_sequence lb |}, true)
  | _, _ => (pLb, false)
  end.

(** [((i + 1) < bufferSize) ? (i + 1) : 0] *)
Definition next_index (pLb : log_buffer_t) (i : Z) : Z :=
  if u32 (i + 1) <? bufferSize pLb then u32 (i + 1) else 0.

Definition log_buffer_char_push (pLb : log_buffer_t) (item : Z) : result log_buffer_t :=
  if item =? 0 then Ok pLb else
  cells ← store_at (p_buffer pLb) (head pLb) item;
  let h := next_index pLb (head pLb) in
  let t := if h =? tail pLb then next_index pLb (tail pLb) else tail pLb in
  Ok (set_cells pLb cells h t).

(** The loop of [log_buffer_push] over the characters it reads. *)
Fixpoint push_chars (pLb : log_buffer_t) (chars : list Z) : result log_buffer_t :=
  match chars with
  | [] => Ok pLb
  | character :: rest =>
      let '(lb1, filtered) := log_buffer_filter_character pLb character in
      lb2 ← (if filtered then Ok lb1 else log_buffer_char_push lb1 character);
      push_chars lb2 rest
  end.

Definition log_buffer_push (pLb : log_buffer_t) (pString : option (list Z)) (stringSize : Z)
  : result (log_buffer_t * bool) :=
  match pString with
  | Some s =>
      if isInit pLb && (stringSize <? bufferSize pLb) then
        if zlen s <? stringSize then Err OutOfBounds else
        lb ← push_chars pLb (take (Z.to_nat stringSize) s); Ok (lb, true)
      else Ok (pLb, false)
  | None => Ok (pLb, false)
  end.

(** The buffer after the call, and the character popped if the call returns true. *)
Definition log_buffer_char_pop (pLb : log_buffer_t) : result (log_buffer_t * option Z) :=
  if negb (head pLb =? tail pLb) then
    c ← load_at (p_buffer pLb) (tail pLb);
    Ok (set_cells pLb (p_buffer pLb) (head pLb) (next_index pLb (tail pLb)), Some c)
  else Ok (pLb, None).

Definition log_buffer_is_empty (pLb : log_buffer_t) : bool :=
  if isInit pLb then head pLb =? tail pLb else false.

Definition log_buffer_clear (pLb : log_buffer_t) : log_buffer_t :=
  if isInit pLb then set_cells pLb (p_buffer pLb) 0 0 else pLb.

(** The total and the two values stored through the output pointers. *)
Definition log_buffer_current_size (pLb : log_buffer_t) : Z * Z * Z :=
  let ibytes := if tail pLb <? head pLb then u32 (head pLb - tail pLb)
                else if head pLb <? tail pLb then u32 (bufferSize pLb - tail pLb) else 0 in
  let rbytes := if tail pLb <? head pLb then 0
                else if head pLb <? tail pLb then head pLb else 0 in
  (u32 (ibytes + rbytes), ibytes, rbytes).

Definition LOG_MAX_LINE_LENGTH : Z := 512.

Definition log_buffer_lines_from_size (size : Z) : Z :=
  u32 (1 + u32 (size - 1) / LOG_MAX_LINE_LENGTH).

(** ** Invariant and abstraction *)

Record lb_wf (lb : log_buffer_t) : Prop := {
  lb_wf_init : isInit lb = true;
  lb_wf_size : 0 < bufferSize lb < 4294967296;
  lb_wf_cells : zlen (p_buffer lb) = bufferSize lb;
  lb_wf_head : 0 <= head lb < bufferSize lb;
  lb_wf_tail : 0 <= tail lb < bufferSize lb
}.

Definition lb_held (lb : log_buffer_t) : Z := (head lb - tail lb) mod bufferSize lb.

Definition lb_contents (lb : log_buffer_t) : list Z :=
  circ (p_buffer lb) (tail lb) (Z.to_nat (lb_held lb)).

Lemma lb_held_range lb : lb_wf lb -> 0 <= lb_held lb < bufferSize lb.
Proof. intros []. apply Z.mod_pos_bound. lia. Qed.

Lemma lb_contents_length lb : lb_wf lb -> zlen (lb_contents lb) = lb_held lb.
Proof. intros WF. pose proof (lb_held_range lb WF). unfold lb_contents. lens. Qed.

Lemma next_index_eq lb i :
  lb_wf lb -> 0 <= i < bufferSize lb -> next_index lb i = (i + 1) mod bufferSize lb.
Proof.
  intros [] Hi. unfold next_index. rewrite (u32_small (i + 1)) by words.
  destruct (_ <? _) eqn:E; bdestr.
  - symmetry. apply Z.mod_small. lia.
  - replace (i + 1) with (bufferSize lb) by lia. by rewrite Z_mod_same_full.
Qed.

Lemma lb_index_range lb x : lb_wf lb -> 0 <= x mod bufferSize lb < bufferSize lb.
Proof. intros []. apply Z.mod_pos_bound. lia. Qed.

(** Moving the tail [k] characters forward. *)
Lemma lb_advance lb k :
  lb_wf lb -> 0 <= k <= lb_held lb ->
  let lb' := set_cells lb (p_buffer lb) (head lb) ((tail lb + k) mod bufferSize lb) in
  lb_wf lb' /\ lb_contents lb' = drop (Z.to_nat k) (lb_contents lb).
Proof.
  intros WF Hk lb'. pose proof (lb_held_range lb WF) as Hr. split.
  { pose proof (lb_index_range lb (tail lb + k) WF). destruct WF. by constructor. }
  assert (Hh : lb_held lb' = lb_held lb - k).
  { unfold lb_held in *. cbn. rewrite Zminus_mod_idemp_r.
    replace (head lb - (tail lb + k)) with (head lb - tail lb - k) by lia.
    rewrite <- Zminus_mod_idemp_l. apply Z.mod_small. lia. }
  unfold lb_contents. rewrite Hh, circ_drop, Z2Nat.id by lia. cbn.
  rewrite <- (lb_wf_cells lb WF), circ_mod. f_equal. lia.
Qed.

(** The window that ends behind the stored character. *)
Lemma char_push_window lb c :
  lb_wf lb -> zlen (circ_put (p_buffer lb) (head lb) [c]) = bufferSize lb /\
  circ (circ_put (p_buffer lb) (head lb) [c]) (tail lb) (Z.to_nat (lb_held lb) + 1) = lb_contents lb ++ [c].
Proof.
  intros WF. pose proof (lb_held_range lb WF) as Hr. split; [destruct WF; lens|].
  assert (Hhead : head lb mod bufferSize lb = (tail lb + lb_held lb) mod bufferSize lb)
    by (unfold lb_held; rewrite Zplus_mod_idemp_r; f_equal; lia).
  unfold lb_contents. rewrite <- circ_put_mod, (lb_wf_cells lb WF), Hhead, <- (lb_wf_cells lb WF), circ_put_mod.
  replace (tail lb + lb_held lb) with (tail lb + Z.of_nat (Z.to_nat (lb_held lb))) by lia.
  apply (circ_put_append _ _ _ [c]); destruct WF; lens.
Qed.

Lemma held_succ_mod lb :
  ((head lb + 1) mod bufferSize lb - tail lb) mod bufferSize lb = (lb_held lb + 1) mod bufferSize lb.
Proof. unfold lb_held. rewrite Zminus_mod_idemp_l, Zplus_mod_idemp_l. f_equal. lia. Qed.

(** The head reaches the tail exactly where the log holds as much as it can. *)
Lemma head_meets_tail lb :
  lb_wf lb -> (head lb + 1) mod bufferSize lb = tail lb <-> lb_held lb = bufferSize lb - 1.
Proof.
  intros WF. pose proof (lb_held_range lb WF) as Hr. pose proof (held_succ_mod lb) as Hm.
  pose proof (lb_index_range lb (head lb + 1) WF) as Hh. pose proof (lb_wf_tail lb WF) as Ht. split.
  - intros E. rewrite E, Z.sub_diag, Zmod_0_l in Hm.
    destruct (decide (lb_held lb + 1 < bufferSize lb)); [rewrite Z.mod_small in Hm by lia|]; lia.
  - intros E. rewrite E in Hm. replace (bufferSize lb - 1 + 1) with (bufferSize lb) in Hm by lia.
    rewrite Z_mod_same_full in Hm. destruct (decide (tail lb <= (head lb + 1) mod bufferSize lb)).
    + rewrite Z.mod_small in Hm by lia. lia.
    + rewrite mod_neg_once in Hm by lia. lia.
Qed.

(** Storing one character: the newest [bufferSize - 1] remain. *)
Lemma char_push_eq lb c :
  lb_wf lb -> c <> 0 ->
  exists lb', log_buffer_char_push lb c = Ok lb' /\ lb_wf lb' /\
    bufferSize lb' = bufferSize lb /\ in_escape_sequence lb' = in_escape_sequence lb /\
    lb_contents lb' = lastn (Z.to_nat (bufferSize lb - 1)) (lb_contents lb ++ [c]).
Proof.
  intros WF Hc. pose proof (lb_held_range lb WF) as Hr. pose proof (lb_contents_length lb WF) as Hl.
  pose proof (head_meets_tail lb WF) as Hfull. pose proof (held_succ_mod lb) as Hm.
  destruct (char_push_window lb c WF) as [Hcells Hwin]. pose proof (lb_index_range lb (head lb + 1) WF) as Hh.
  unfold log_buffer_char_push. rewrite (proj2 (Z.eqb_neq c 0)) by done.
  rewrite store_at_eq by (destruct WF; lia). cbn [mbind result_bind].
  rewrite !next_index_eq by (done || by destruct WF). rewrite circ_put_insert by (destruct WF; lia).
  set (h := (head lb + 1) mod bufferSize lb) in *. set (n := lb_held lb) in *.
  destruct (h =? tail lb) eqn:E; bdestr; (eexists; split; [done|split_and!; try done]).
  - pose proof (lb_index_range lb (tail lb + 1) WF). destruct WF. by constructor.
  - (* full: the oldest character goes *)
    pose proof (proj1 Hfull E) as Hn. unfold lb_contents at 1, lb_held. cbn.
    assert (Hd : (h - (tail lb + 1) mod bufferSize lb) mod bufferSize lb = n).
    { rewrite Zminus_mod_idemp_r. replace (h - (tail lb + 1)) with (h - tail lb - 1) by lia.
      rewrite <- Zminus_mod_idemp_l, Hm, Zminus_mod_idemp_l.
      replace (n + 1 - 1) with n by lia. apply Z.mod_small. lia. }
    rewrite Hd, <- Hwin. unfold lastn. rewrite circ_length, circ_drop, <- Hcells, circ_mod. f_equal; lia.
  - destruct WF. by constructor.
  - unfold lb_contents at 1, lb_held. cbn. rewrite Hm, Z.mod_small by lia.
    rewrite lastn_ge by (lens; lens). rewrite <- Hwin. f_equal. lia.
Qed.

(** ** What is visible in a text

    The reference for the filter: an escape sequence is ESC and everything up
    to and including the next letter (or up to the end of the text); of the
    characters outside, carriage returns and NULs are dropped. *)
Inductive visible : list Z -> list Z -> Prop :=
  | vis_nil : visible [] []
  | vis_plain c s o :
      c <> 0x1b -> c <> 0xd -> c <> 0 -> visible s o -> visible (c :: s) (c :: o)
  | vis_drop c s o : c = 0xd \/ c = 0 -> visible s o -> visible (c :: s) o
  | vis_escape body l s o :
      Forall (fun c => is_letter c = false) body -> is_letter l = true ->
      visible s o -> visible (0x1b :: body ++ l :: s) o
  | vis_unfinished body :
      Forall (fun c => is_letter c = false) body -> visible (0x1b :: body) [].

(** The filter as one pass over the text, from a given escape flag. *)
Fixpoint strip (esc : bool) (s : list Z) : list Z :=
  match s with
  | [] => []
  | c :: s' =>
      if c =? 0x1b then strip true s'
      else if esc then strip (negb (is_letter c)) s'
      else if (c =? 0xd) || (c =? 0) then strip false s' else c :: strip false s'
  end.

Lemma strip_escaped body s :
  Forall (fun c => is_letter c = false) body -> strip true (body ++ s) = strip true s.
Proof.
  induction 1 as [|c body Hc _ IH]; cbn; [done|].
  destruct (c =? 27); [done|]. by rewrite Hc.
Qed.

Lemma strip_letter l s : is_letter l = true -> strip true (l :: s) = strip false s.
Proof.
  intros Hl. cbn. destruct (l =? 27) eqn:E; bdestr; [by subst l|]. by rewrite Hl.
Qed.

Lemma strip_visible s o : visible s o -> strip false s = o.
Proof.
  induction 1 as [|c s o H1 H2 H3 _ IH|c s o Hc _ IH|body l s o Hb Hl _ IH|body Hb].
  - done.
  - cbn. rewrite !(proj2 (Z.eqb_neq c _)) by done. cbn. by rewrite IH.
  - cbn. destruct Hc as [-> | ->]; done.
  - change (strip true (body ++ l :: s) = o). rewrite strip_escaped by done.
    by rewrite strip_letter.
  - change (strip true body = []). rewrite <- (app_nil_r body). by rewrite strip_escaped.
Qed.

(** Every text has a visible part. *)
Lemma visible_strip s : visible s (strip false s).
Proof.
  induction s as [s IH] using (induction_ltof1 _ length). unfold ltof in IH.
  destruct s as [|c s]; [constructor|].
  destruct (decide (c = 0x1b)) as [->|Hc].
  - change (visible (27 :: s) (strip true s)).
    assert (Hs : Forall (fun c => is_letter c = false) s \/
      exists body l s', s = body ++ l :: s' /\
        Forall (fun c => is_letter c = false) body /\ is_letter l = true).
    { clear IH. induction s as [|d s IHs]; [by left; constructor|].
      destruct (is_letter d) eqn:Hd.
      - right. by exists [], d, s.
      - destruct IHs as [IHs|(body & l & s' & -> & Hb & Hl)].
        + left. by constructor.
        + right. exists (d :: body), l, s'. split_and!; try done. by constructor. }
    destruct Hs as [Hs|(body & l & s' & -> & Hb & Hl)].
    + pose proof (strip_escaped s [] Hs) as E. rewrite app_nil_r in E. rewrite E.
      by apply vis_unfinished.
    + rewrite strip_escaped, strip_letter by done. apply vis_escape; try done.
      apply IH. cbn. rewrite length_app. cbn. lia.
  - cbn. rewrite (proj2 (Z.eqb_neq c 27)) by done.
    destruct ((c =? 0xd) || (c =? 0)) eqn:E.
    + apply vis_drop; [apply orb_true_iff in E as [E|E]; bdestr; lia|]. apply IH. cbn. lia.
    + bdestr. apply vis_plain; try done. apply IH. cbn. lia.
Qed.

(** ** The push loop *)

(** The escape flag after a text. *)
Fixpoint escape_after (esc : bool) (s : list Z) : bool :=
  match s with
  | [] => esc
  | c :: s' => escape_after (if c =? 0x1b then true else esc && negb (is_letter c)) s'
  end.

Lemma set_escape_wf lb b :
  lb_wf lb -> lb_wf (set_escape lb b) /\ lb_contents (set_escape lb b) = lb_contents lb.
Proof. intros []. split; [by constructor|done]. Qed.

Lemma filter_eq lb c :
  log_buffer_filter_character lb c =
    (set_escape lb (if c =? 0x1b then true else in_escape_sequence lb && negb (is_letter c)),
     (c =? 0x1b) || in_escape_sequence lb || (c =? 0xd)).
Proof.
  unfold log_buffer_filter_character. rewrite (Z.eqb_sym 13 c).
  destruct lb as [? ? ? ? ? []]; destruct (c =? 27), (is_letter c), (c =? 13); done.
Qed.

Lemma push_chars_eq s lb :
  lb_wf lb ->
  exists lb', push_chars lb s = Ok lb' /\ lb_wf lb' /\ bufferSize lb' = bufferSize lb /\
    in_escape_sequence lb' = escape_after (in_escape_sequence lb) s /\
    lb_contents lb' =
      lastn (Z.to_nat (bufferSize lb - 1))
        (lb_contents lb ++ strip (in_escape_sequence lb) s).
Proof.
  revert lb. induction s as [|c s IH]; intros lb WF; cbn [push_chars strip escape_after].
  - exists lb. rewrite app_nil_r. split_and!; try done.
    pose proof (lb_contents_length lb WF). pose proof (lb_held_range lb WF).
    rewrite lastn_ge; [done|]. unfold zlen in *. lia.
  - rewrite filter_eq.
    set (esc := if c =? 27 then true else in_escape_sequence lb && negb (is_letter c)).
    destruct (set_escape_wf lb esc WF) as [WF1 HC1]. set (lb1 := set_escape lb esc) in *.
    destruct ((c =? 27) || in_escape_sequence lb || (c =? 13)) eqn:Hf.
    + cbn [mbind result_bind]. destruct (IH lb1 WF1) as (lb' & P1 & P2 & P3 & P4 & P5).
      exists lb'. split_and!; try done. rewrite P5, HC1. cbn. do 2 f_equal.
      unfold esc. destruct (c =? 27) eqn:E1; [done|].
      destruct (in_escape_sequence lb); [done|]. cbn in *. by rewrite Hf.
    + apply orb_false_iff in Hf as [[Hf1 Hf2]%orb_false_iff Hf3].
      assert (Hesc0 : esc = false) by (unfold esc; by rewrite Hf1, Hf2).
      assert (Hin1 : in_escape_sequence lb1 = false) by done.
      rewrite Hf1, Hf2, Hf3, Hesc0. cbn [orb].
      destruct (decide (c = 0)) as [->|Hc0].
      * unfold log_buffer_char_push. cbn [Z.eqb mbind result_bind].
        destruct (IH lb1 WF1) as (lb' & P1 & P2 & P3 & P4 & P5). rewrite Hin1, HC1 in *.
        by exists lb'.
      * rewrite (proj2 (Z.eqb_neq c 0)) by done.
        destruct (char_push_eq lb1 c WF1 Hc0) as (lb2 & -> & WF2 & Hsz & Hesc & HC2).
        cbn [mbind result_bind].
        destruct (IH lb2 WF2) as (lb' & P1 & P2 & P3 & P4 & P5).
        rewrite Hesc, Hin1 in *. exists lb'. rewrite P3, Hsz. split_and!; try done.
        rewrite P5, HC2, Hsz, HC1. cbn [bufferSize lb1 set_escape].
        by rewrite lastn_app_lastn, <- app_assoc.
Qed.

Lemma strip_app esc s1 s2 :
  strip esc (s1 ++ s2) = strip esc s1 ++ strip (escape_after esc s1) s2.
Proof.
  revert esc. induction s1 as [|c s1 IH]; intros esc; [done|]. cbn.
  destruct (c =? 27), esc, (is_letter c); cbn; rewrite ?IH; try done;
    destruct ((c =? 13) || (c =? 0)); cbn; by rewrite ?IH.
Qed.

Lemma escape_after_app esc s1 s2 :
  escape_after esc (s1 ++ s2) = escape_after (escape_after esc s1) s2.
Proof. revert esc. induction s1 as [|c s1 IH]; intros esc; [done|]. cbn. apply IH. Qed.

Lemma push_eq lb s size :
  lb_wf lb -> 0 <= size <= zlen s -> size < bufferSize lb ->
  exists lb', log_buffer_push lb (Some s) size = Ok (lb', true) /\ lb_wf lb' /\
    bufferSize lb' = bufferSize lb /\
    in_escape_sequence lb' = escape_after (in_escape_sequence lb) (take (Z.to_nat size) s) /\
    lb_contents lb' =
      lastn (Z.to_nat (bufferSize lb - 1))
        (lb_contents lb ++ strip (in_escape_sequence lb) (take (Z.to_nat size) s)).
Proof.
  intros WF Hs Hlt. unfold log_buffer_push.
  rewrite (lb_wf_init lb WF), (proj2 (Z.ltb_lt size _)) by done. cbn [andb].
  rewrite (proj2 (Z.ltb_ge _ _)) by lia.
  destruct (push_chars_eq (take (Z.to_nat size) s) lb WF) as (lb' & -> & H). by exists lb'.
Qed.

(** One push per text, as a logger does. *)
Fixpoint push_all (lb : log_buffer_t) (texts : list (list Z)) : result log_buffer_t :=
  match texts with
  | [] => Ok lb
  | s :: ss => r ← log_buffer_push lb (Some s) (zlen s); push_all (fst r) ss
  end.

(** ** Properties of the log buffer *)

(** C16. Whatever texts are pushed, each shorter than the buffer, no store
    leaves the array, the invariant is kept, and the log holds exactly the
    last [bufferSize - 1] characters of what it held followed by the visible
    part of all the texts together: an escape sequence that is cut by the end
    of one push is still removed by the next. *)
Theorem log_buffer_holds_visible_text lb texts o :
  lb_wf lb -> in_escape_sequence lb = false ->
  Forall (fun s => zlen s < bufferSize lb) texts -> visible (concat texts) o ->
  exists lb', push_all lb texts = Ok lb' /\ lb_wf lb' /\
    lb_contents lb' = lastn (Z.to_nat (bufferSize lb - 1)) (lb_contents lb ++ o).
Proof.
  intros WF Hesc Hs <-%strip_visible. rewrite <- Hesc. clear Hesc. revert lb WF Hs.
  induction texts as [|s texts IH]; intros lb WF Hs; cbn [push_all concat].
  - exists lb. cbn. rewrite app_nil_r. split_and!; try done. symmetry. apply lastn_ge.
    pose proof (lb_contents_length lb WF). pose proof (lb_held_range lb WF).
    unfold zlen in *. lia.
  - inversion Hs as [|? ? Hs1 Hss]; subst. pose proof (zlen_nonneg s).
    destruct (push_eq lb s (zlen s) WF ltac:(lia) Hs1) as (lb1 & -> & WF1 & Hsz & He & HC).
    cbn [mbind result_bind fst]. rewrite take_ge in He, HC by (unfold zlen; lia).
    destruct (IH lb1 WF1) as (lb' & Hp & WF' & HC'); [by rewrite Hsz|].
    exists lb'. split; [done|]. split; [done|].
    rewrite HC', Hsz, HC, He, lastn_app_lastn, strip_app. by rewrite app_assoc.
Qed.

(** Reading the log: a pop returns the oldest character and removes it,
    and fails exactly when the log is empty; [log_buffer_current_size] is the
    number of characters held and its two chunks, from [tail] and from the
    start of the array, are the log in order. *)
Theorem log_buffer_pop_and_size lb :
  lb_wf lb ->
  (match lb_contents lb with
   | [] => log_buffer_char_pop lb = Ok (lb, None) /\ log_buffer_is_empty lb = true
   | c :: rest =>
       log_buffer_is_empty lb = false /\
       exists lb', log_buffer_char_pop lb = Ok (lb', Some c) /\ lb_wf lb' /\ lb_contents lb' = rest
   end) /\
  (let '(n, ibytes, rbytes) := log_buffer_current_size lb in
   n = zlen (lb_contents lb) /\
   lb_contents lb = zslice (p_buffer lb) (tail lb) ibytes ++ zslice (p_buffer lb) 0 rbytes).
Proof.
  intros WF. pose proof (lb_held_range lb WF) as Hr.
  pose proof (lb_contents_length lb WF) as Hl. split.
  - destruct (lb_contents lb) as [|c rest] eqn:HC.
    + assert (Hht : head lb = tail lb).
      { rewrite zlen_nil in Hl. unfold lb_held in Hl. destruct WF.
        destruct (decide (tail lb <= head lb));
          [rewrite Z.mod_small in Hl by lia|rewrite mod_neg_once in Hl by lia]; lia. }
      unfold log_buffer_char_pop, log_buffer_is_empty.
      by rewrite (lb_wf_init lb WF), Hht, Z.eqb_refl.
    + rewrite zlen_cons in Hl. pose proof (zlen_nonneg rest).
      assert (Hht : head lb <> tail lb).
      { intros E. unfold lb_held in Hl. rewrite E, Z.sub_diag, Zmod_0_l in Hl. lia. }
      unfold log_buffer_char_pop, log_buffer_is_empty.
      rewrite (lb_wf_init lb WF), (proj2 (Z.eqb_neq _ _)) by done. cbn [negb].
      split; [done|]. destruct (lb_advance lb 1 WF) as [WF' HC']; [lia|].
      assert (Hc : p_buffer lb !! Z.to_nat (tail lb) = Some c).
      { assert (lb_contents lb !! 0%nat = Some c) as Hx by by rewrite HC.
        unfold lb_contents in Hx. rewrite circ_lookup in Hx by (destruct WF; lens).
        rewrite Z.add_0_r, (lb_wf_cells lb WF), Z.mod_small in Hx; [done|by destruct WF]. }
      rewrite (load_at_eq _ _ c) by (done || (destruct WF; lia)). cbn [mbind result_bind].
      eexists. split; [done|]. rewrite next_index_eq by (done || (destruct WF; lia)).
      split; [done|]. rewrite HC', HC. done.
  - unfold log_buffer_current_size. rewrite Hl. unfold lb_contents, lb_held in *. destruct WF.
    destruct (tail lb <? head lb) eqn:E1; [|destruct (head lb <? tail lb) eqn:E2]; bdestr.
    + rewrite !(u32_small (head lb - tail lb)), u32_small by words. rewrite Z.mod_small by lia.
      split; [lia|]. rewrite circ_slice by lia. rewrite Z2Nat.id by lia. by rewrite app_nil_r.
    + rewrite (u32_small (bufferSize lb - tail lb)), u32_small by words.
      rewrite mod_neg_once in * by lia. split; [lia|].
      rewrite circ_slice2 by lia. rewrite lb_wf_cells0, Z2Nat.id by lia. do 2 f_equal. lia.
    + replace (head lb) with (tail lb) by lia. by rewrite Z.sub_diag, Zmod_0_l.
Qed.

(** The number of lines a text of [n] characters takes. *)
Lemma lines_from_size_eq n :
  0 < n < 4294967296 -> log_buffer_lines_from_size n = (n + 511) / 512.
Proof.
  intros. unfold log_buffer_lines_from_size, LOG_MAX_LINE_LENGTH. words.
Qed.

(** ** The thread-safe wrapper (src/ts_log_buffer.c)

    The wrapper's accesses to the buffer lie between [mutex_lock] and
    [mutex_unlock]; an operation returns the sequence of lock operations and
    client callbacks it makes.  Callbacks are named by their address. *)
Module TsLogBuffer.

Inductive ts_log_buffer_notfication_e : Set := LB_FULL | LB_ALMOST_FULL | LB_EMPTY.

Inductive ts_event : Type :=
  | EvLock
  | EvUnlock
  | EvNotify (fn : Z) (notif : ts_log_buffer_notfication_e) (private : Z).

Record ts_log_buffer_t := {
  lb : log_buffer_t;
  fn : option Z;
  private : Z
}.

Definition set_lb (p : ts_log_buffer_t) (b : log_buffer_t) : ts_log_buffer_t :=
  {| lb := b; fn := fn p; private := private p |}.

(** [mutex_created] is what [mutex_new] returns. *)
Definition ts_log_buffer_init (pLb : option ts_log_buffer_t) (mutex_created : bool)
    (pBuffer : option (list Z)) (size : Z) : option ts_log_buffer_t * bool :=
  match pLb with
  | Some p =>
      if mutex_created then
        match log_buffer_init (Some (lb p)) pBuffer size with
        | (Some b, retval) => (Some (set_lb p b), retval)
        | (None, retval) => (Some p, retval)
        end
      else (Some p, false)
  | None => (None, false)
  end.

Definition ts_log_buffer_push (p_ts_log : ts_log_buffer_t) (string : option (list Z))
    (string_size : Z) : result (ts_log_buffer_t * list ts_event) :=
  if isInit (lb p_ts_log) then
    r ← log_buffer_push (lb p_ts_log) string string_size;
    let p := set_lb p_ts_log (fst r) in
    let used_lines := log_buffer_lines_from_size (fst (fst (log_buffer_current_size (lb p)))) in
    let max_lines := u32 (log_buffer_lines_from_size (bufferSize (lb p)) - 1) in
    let diff := s32 (max_lines - used_lines) in
    let notification :=
      match fn p with
      | Some f =>
          if (0 <? diff) && (diff <? 3) then [EvNotify f LB_ALMOST_FULL (private p)]
          else if diff <=? 0 then [EvNotify f LB_FULL (private p)] else []
      | None => []
      end in
    Ok (p, [EvLock; EvUnlock] ++ notification)
  else Ok (p_ts_log, [EvLock; EvUnlock]).

Definition ts_log_buffer_install_notifications (p_ts_log : ts_log_buffer_t) (f : option Z)
    (priv : Z) : ts_log_buffer_t * list ts_event :=
  ({| lb := lb p_ts_log; fn := f; private := priv |}, [EvLock; EvUnlock]).

Definition ts_log_buffer_current_size (p_lb : option ts_log_buffer_t) : Z * list ts_event :=
  match p_lb with
  | Some p => (fst (fst (log_buffer_current_size (lb p))), [EvLock; EvUnlock])
  | None => (0, [])
  end.

(** Whom a push notifies, and of what, decided after the mutex is
    released.  With a callback installed and [n > 0] characters in the log
    afterwards, the lines left are [(bufferSize - 1) / 512 - ceil(n / 512)]:
    none or fewer reports LB_FULL, one or two LB_ALMOST_FULL, more nothing.  If
    the log is empty afterwards (an empty text, or one that is all filtered
    out), the line count of size 0 wraps around and LB_FULL is reported. *)
Theorem ts_log_buffer_push_notifies p s size :
  lb_wf (lb p) -> 0 <= size <= zlen s ->
  exists p' note, ts_log_buffer_push p (Some s) size = Ok (p', [EvLock; EvUnlock] ++ note) /\
    lb_wf (lb p') /\
    let n := zlen (lb_contents (lb p')) in
    let left := (bufferSize (lb p) - 1) / 512 - (n + 511) / 512 in
    note = match fn p with
           | None => []
           | Some f =>
               if (n =? 0) || (left <=? 0) then [EvNotify f LB_FULL (private p)]
               else if left <? 3 then [EvNotify f LB_ALMOST_FULL (private p)] else []
           end.
Proof.
  intros WF Hs. unfold ts_log_buffer_push. rewrite (lb_wf_init _ WF).
  assert (exists b' ok, log_buffer_push (lb p) (Some s) size = Ok (b', ok) /\ lb_wf b' /\
            bufferSize b' = bufferSize (lb p)) as (b' & ok & -> & WF' & Hsz).
  { destruct (decide (size < bufferSize (lb p))) as [Hlt|Hge].
    - destruct (push_eq (lb p) s size WF Hs Hlt) as (b' & H & WF' & Hsz & _). by exists b', true.
    - exists (lb p), false. split; [|done]. unfold log_buffer_push.
      by rewrite (lb_wf_init _ WF), (proj2 (Z.ltb_ge size _)) by lia. }
  cbn [mbind result_bind fst]. do 2 eexists. split; [done|]. split; [done|].
  cbn [lb set_lb fn private]. rewrite Hsz.
  destruct (log_buffer_pop_and_size b' WF') as [_ Hcs].
  destruct (log_buffer_current_size b') as [[n ib] rb]. destruct Hcs as [-> _]. cbn [fst].
  set (n := zlen (lb_contents b')).
  assert (Hn : 0 <= n < bufferSize (lb p)).
  { unfold n. rewrite lb_contents_length, <- Hsz by done. by apply lb_held_range. }
  assert (Hsize : 0 < bufferSize (lb p) < 4294967296) by by destruct WF.
  destruct (fn p) as [f|]; [|done].
  rewrite (lines_from_size_eq (bufferSize _)) by done.
  rewrite (u32_small ((_ + 511) / 512 - 1)) by words.
  destruct (n =? 0) eqn:En; bdestr.
  - rewrite En. change (log_buffer_lines_from_size 0) with 8388608.
    assert (Hd : s32 ((bufferSize (lb p) + 511) / 512 - 1 - 8388608) < 0).
    { unfold s32. destruct (_ <? _) eqn:E; bdestr; words. }
    rewrite (proj2 (Z.ltb_ge 0 _)), (proj2 (Z.leb_le _ 0)) by lia. done.
  - rewrite lines_from_size_eq by lia.
    assert (Hd : s32 ((bufferSize (lb p) + 511) / 512 - 1 - (n + 511) / 512) =
                 (bufferSize (lb p) - 1) / 512 - (n + 511) / 512).
    { unfold s32. destruct (_ <? _) eqn:E; bdestr; words. }
    rewrite Hd. set (left := (bufferSize (lb p) - 1) / 512 - (n + 511) / 512). cbn [orb].
    destruct (left <=? 0) eqn:E; bdestr; [by rewrite (proj2 (Z.ltb_ge 0 _)) by lia|].
    rewrite (proj2 (Z.ltb_lt 0 _)) by lia. cbn [andb]. by destruct (left <? 3).
Qed.

End TsLogBuffer.

(** ** Witnesses *)

Definition ex_lb : log_buffer_t :=
  {| p_buffer := [67; 0; 65; 66]; isInit := true; bufferSize := 4; head := 1; tail := 2;
     in_escape_sequence := false |}.

Lemma ex_lb_wf : lb_wf ex_lb.
Proof. constructor; cbn; (lia || done). Qed.

(** [ESC\[3] at the end of one push, [1mD\r] in the next. *)
Lemma log_buffer_holds_visible_text_witness :
  exists lb', push_all ex_lb [[27; 91; 51]; [49; 109; 13]; [68]] = Ok lb' /\
    lb_contents lb' = [66; 67; 68].
Proof.
  destruct (log_buffer_holds_visible_text ex_lb [[27; 91; 51]; [49; 109; 13]; [68]] [68])
    as (lb' & H & _ & HC).
  - exact ex_lb_wf.
  - reflexivity.
  - repeat constructor.
  - apply (vis_escape [91; 51; 49] 109 [13; 68] [68]); [repeat constructor|reflexivity|].
    apply vis_drop; [left; reflexivity|]. apply vis_plain; try discriminate. constructor.
  - exists lb'. split; [exact H|]. rewrite HC. reflexivity.
Defined.

Lemma log_buffer_pop_and_size_witness :
  log_buffer_current_size ex_lb = (3, 2, 1) /\
  exists lb', log_buffer_char_pop ex_lb = Ok (lb', Some 65) /\ lb_contents lb' = [66; 67].
Proof.
  destruct (log_buffer_pop_and_size ex_lb ex_lb_wf) as [[_ (lb' & H & _ & HC)] _].
  split; [reflexivity|]. exists lb'. split; [exact H|exact HC].
Defined.

(** A text that is filtered out leaves an empty log that reports LB_FULL. *)
Lemma ts_log_buffer_push_notifies_witness :
  exists p', TsLogBuffer.ts_log_buffer_push
      {| TsLogBuffer.lb := log_buffer_clear ex_lb; TsLogBuffer.fn := Some 1;
         TsLogBuffer.private := 2 |} (Some [13]) 1 =
    Ok (p', [TsLogBuffer.EvLock; TsLogBuffer.EvUnlock;
             TsLogBuffer.EvNotify 1 TsLogBuffer.LB_FULL 2]) /\
  lb_contents (TsLogBuffer.lb p') = [].
Proof.
  destruct (TsLogBuffer.ts_log_buffer_push_notifies
      {| TsLogBuffer.lb := log_buffer_clear ex_lb; TsLogBuffer.fn := Some 1;
         TsLogBuffer.private := 2 |} [13] 1) as (p' & note & H & _ & Hn).
  - constructor; cbn; (lia || done).
  - vm_compute. split; discriminate.
  - assert (Hp : Ok (p', [TsLogBuffer.EvLock; TsLogBuffer.EvUnlock] ++ note) =
      Ok (TsLogBuffer.set_lb {| TsLogBuffer.lb := log_buffer_clear ex_lb;
            TsLogBuffer.fn := Some 1; TsLogBuffer.private := 2 |} (log_buffer_clear ex_lb),
          [TsLogBuffer.EvLock; TsLogBuffer.EvUnlock; TsLogBuffer.EvNotify 1 TsLogBuffer.LB_FULL 2]))
      by (rewrite <- H; reflexivity).
    injection Hp as -> _. eexists. split; [rewrite H, Hn; reflexivity|reflexivity].
Defined.
