(* ===== verification/Endian.v ===== *)
(** Byte swapping: src/endian.c and inc/cutils/endian.h.

    The C expressions are kept as bit operations on words; the operands are
    promoted as C promotes them ([uint16_t] to [int], which cannot overflow
    here) and every result is truncated to its type.  [byteswap64] writes the
    two halves of a union, so its result depends on the byte order of the
    host, which is an argument. *)
From S2P Require Import Prelude.
From stdpp Require Import list.
From Stdlib Require Import ZArith Lia.
Local Open Scope Z_scope.

(** ** Operations *)

Definition byteswap16 (x : Z) : Z :=
  u16 (Z.lor (Z.shiftl x 8) (Z.shiftr x 8)).

Definition byteswap32 (x : Z) : Z :=
  Z.lxor
    (Z.shiftr
       (Z.land (Z.lxor x (Z.lor (Z.shiftr x 16) (u32 (Z.shiftl x 16)))) 0xFF00FFFF) 8)
    (Z.lor (Z.shiftr x 8) (u32 (Z.shiftl x 24))).

(** The union of [uint64_t ull] and [uint32_t ul[2]]: which half of [ull] the
    word [ul[0]] is depends on the host. *)
Inductive byte_order : Set := LittleEndian | BigEndian.

Definition union_ull (host : byte_order) (ul0 ul1 : Z) : Z :=
  match host with
  | LittleEndian => Z.lor ul0 (Z.shiftl ul1 32)
  | BigEndian => Z.lor ul1 (Z.shiftl ul0 32)
  end.

Definition byteswap64 (host : byte_order) (x : Z) : Z :=
  let ul0 := u32 (Z.shiftr x 32) in
  let ul1 := u32 (Z.land x 0xffffffff) in
  union_ull host (byteswap32 ul0) (byteswap32 ul1).

(** ** Reference: the bytes of a word, least significant first *)

Definition word_byte (x : Z) (i : nat) : Z := Z.land (Z.shiftr x (8 * Z.of_nat i)) 255.

Definition word_bytes (n : nat) (x : Z) : list Z := word_byte x <$> seq 0 n.

(** ** Bits *)

Lemma mod_pow2_bit a n i : 0 <= n -> 0 <= i ->
  Z.testbit (a mod 2 ^ n) i = (i <? n) && Z.testbit a i.
Proof.
  intros Hn Hi. destruct (i <? n) eqn:E; bdestr; cbn.
  - by apply Z.mod_pow2_bits_low.
  - apply Z.mod_pow2_bits_high. lia.
Qed.

Lemma u16_bit a i : 0 <= i -> Z.testbit (u16 a) i = (i <? 16) && Z.testbit a i.
Proof. intros. change (u16 a) with (a mod 2 ^ 16). apply mod_pow2_bit; lia. Qed.

Lemma u32_bit a i : 0 <= i -> Z.testbit (u32 a) i = (i <? 32) && Z.testbit a i.
Proof. intros. change (u32 a) with (a mod 2 ^ 32). apply mod_pow2_bit; lia. Qed.

Lemma high_bit x n i : 0 <= x < 2 ^ n -> n <= i -> Z.testbit x i = false.
Proof.
  intros Hx Hi. destruct (Z.lt_ge_cases n 0).
  - rewrite Z.pow_neg_r in Hx by lia. lia.
  - replace x with (x mod 2 ^ n) by (apply Z.mod_small; lia).
    apply Z.mod_pow2_bits_high. lia.
Qed.

(** Compute the bits of a word expression at a concrete index: push [testbit]
    to the variable [x], evaluate the indices, drop the bits outside [x] (whose
    bits from [n] on are clear by [Hx]), and decide the rest. *)
Ltac bits x n Hx :=
  repeat first
    [ rewrite Z.lor_spec | rewrite Z.lxor_spec | rewrite Z.land_spec
    | rewrite u32_bit by lia | rewrite u16_bit by lia
    | rewrite Z.shiftr_spec by lia | rewrite Z.shiftl_spec by lia ];
  repeat match goal with
  | |- context [Z.testbit x ?e] =>
      let e' := eval vm_compute in e in
      lazymatch e' with e => fail | _ => change e with e' end
  end;
  repeat match goal with
  | |- context [Z.testbit x (Z.neg ?p)] => rewrite (Z.testbit_neg_r x (Z.neg p)) by lia
  | |- context [Z.testbit x (Zpos ?p)] => rewrite (high_bit x n (Zpos p) Hx) by lia
  end;
  repeat match goal with
  | |- context [Z.testbit x ?e] => destruct (Z.testbit x e)
  end;
  reflexivity.

(** Split [0 <= i < n] into its [n] cases. *)
Ltac upto i n :=
  let rec go k :=
    lazymatch eval vm_compute in (k <? n) with
    | true => destruct (Z.eq_dec i k) as [->|];
        [|let k' := eval vm_compute in (k + 1) in go k']
    | false => exfalso; lia
    end in
  go 0.

(** Two words below [2^n] are equal if their [n] bits are. *)
Lemma word_ext n x y : 0 <= n -> 0 <= x < 2 ^ n -> 0 <= y < 2 ^ n ->
  (forall i, 0 <= i < n -> Z.testbit x i = Z.testbit y i) -> x = y.
Proof.
  intros Hn Hx Hy H. apply Z.bits_inj'. intros i Hi.
  destruct (Z.lt_ge_cases i n); [auto|]. by rewrite !(high_bit _ n).
Qed.

Lemma word_range n x : 0 <= x -> 0 <= n ->
  (forall i, n <= i -> Z.testbit x i = false) -> 0 <= x < 2 ^ n.
Proof.
  intros Hx Hn H. split; [done|]. destruct (Z.eq_dec x 0) as [->|]; [lia|].
  apply Z.log2_lt_pow2; [lia|]. apply Z.nle_gt. intros Hl.
  pose proof (Z.bit_log2 x ltac:(lia)) as Hb. rewrite H in Hb; done.
Qed.

Lemma word_byte_bit x i j : 0 <= j ->
  Z.testbit (word_byte x i) j = (j <? 8) && Z.testbit x (8 * Z.of_nat i + j).
Proof.
  intros Hj. unfold word_byte. rewrite Z.land_spec, Z.shiftr_spec by lia.
  change 255 with (Z.ones 8). rewrite Z.testbit_ones by lia.
  rewrite (Z.add_comm j). destruct (j <? 8) eqn:E; bdestr.
  - rewrite (proj2 (Z.leb_le 0 j)) by lia. cbn. apply andb_true_r.
  - rewrite andb_false_r, andb_false_r. done.
Qed.

Lemma word_bytes_length n x : length (word_bytes n x) = n.
Proof. unfold word_bytes. by rewrite length_fmap, length_seq. Qed.

Lemma word_bytes_lookup n x i : (i < n)%nat ->
  word_bytes n x !! i = Some (word_byte x i).
Proof.
  intros. unfold word_bytes. rewrite list_lookup_fmap, lookup_seq_lt by done. done.
Qed.

(** A word whose bytes mirror those of [x] has the reversed byte list. *)
Lemma word_bytes_rev n x y :
  (forall i j, (i < n)%nat -> 0 <= j < 8 ->
     Z.testbit y (8 * Z.of_nat i + j) = Z.testbit x (8 * Z.of_nat (n - S i) + j)) ->
  word_bytes n y = reverse (word_bytes n x).
Proof.
  intros H. apply list_eq_same_length with n.
  - rewrite length_reverse. apply word_bytes_length.
  - apply word_bytes_length.
  - intros i a b Hi Ha Hb.
    rewrite word_bytes_lookup in Ha by done.
    rewrite reverse_lookup, word_bytes_length, word_bytes_lookup in Hb
      by (rewrite ?word_bytes_length; lia).
    injection Ha as <-. injection Hb as <-. apply Z.bits_inj'. intros j Hj.
    rewrite !word_byte_bit by done. destruct (j <? 8) eqn:E; bdestr; [|done].
    cbn. apply H; lia.
Qed.

(** ** The bits of the swapped words *)

Lemma byteswap16_bit x i : is_u16 x -> 0 <= i < 16 ->
  Z.testbit (byteswap16 x) i = Z.testbit x (8 * (1 - i / 8) + i mod 8).
Proof. intros Hx Hi. unfold byteswap16. upto i 16; bits x 16 Hx. Qed.

Lemma byteswap32_bit x i : is_u32 x -> 0 <= i < 32 ->
  Z.testbit (byteswap32 x) i = Z.testbit x (8 * (3 - i / 8) + i mod 8).
Proof. intros Hx Hi. unfold byteswap32. upto i 32; bits x 32 Hx. Qed.

Lemma byteswap16_range x : is_u16 (byteswap16 x).
Proof. unfold byteswap16. words. Qed.

Lemma byteswap32_range x : is_u32 x -> is_u32 (byteswap32 x).
Proof.
  intros Hx. pose proof (u32_range (Z.shiftl x 24)) as Hr. apply (word_range 32); [|lia|].
  - unfold byteswap32. apply Z.lxor_nonneg. split; intros _.
    + apply Z.lor_nonneg. split; [apply Z.shiftr_nonneg|]; words.
    + apply Z.shiftr_nonneg, Z.land_nonneg. right. lia.
  - intros i Hi. unfold byteswap32.
    rewrite Z.lxor_spec, Z.lor_spec, !Z.shiftr_spec, Z.land_spec, u32_bit by lia.
    rewrite (high_bit 0xFF00FFFF 32), (high_bit x 32 (i + 8) Hx) by lia.
    rewrite andb_false_r. destruct (i <? 32) eqn:E; bdestr; [lia|done].
Qed.

Lemma union_ull_bit a b i : is_u32 a -> is_u32 b -> 0 <= i < 64 ->
  Z.testbit (union_ull LittleEndian a b) i =
    if i <? 32 then Z.testbit a i else Z.testbit b (i - 32).
Proof.
  intros Ha Hb Hi. cbn. rewrite Z.lor_spec, Z.shiftl_spec by lia.
  destruct (i <? 32) eqn:E; bdestr.
  - rewrite (Z.testbit_neg_r b) by lia. apply orb_false_r.
  - by rewrite (high_bit a 32 i Ha).
Qed.

Lemma byteswap64_bit host x i : is_u64 x -> 0 <= i < 64 ->
  Z.testbit (byteswap64 host x) i =
    match host with
    | LittleEndian => Z.testbit x (8 * (7 - i / 8) + i mod 8)
    | BigEndian =>
        Z.testbit x (if i <? 32 then 8 * (3 - i / 8) + i mod 8
                     else 8 * (11 - i / 8) + i mod 8)
    end.
Proof.
  intros Hx Hi. unfold byteswap64.
  set (hi := u32 (Z.shiftr x 32)). set (lo := u32 (Z.land x 0xffffffff)).
  assert (Hh : forall j, 0 <= j < 32 -> Z.testbit hi j = Z.testbit x (32 + j)).
  { intros j Hj. unfold hi. rewrite u32_bit, Z.shiftr_spec by lia.
    rewrite (proj2 (Z.ltb_lt j 32)), Z.add_comm by lia. done. }
  assert (Hl : forall j, 0 <= j < 32 -> Z.testbit lo j = Z.testbit x j).
  { intros j Hj. unfold lo. rewrite u32_bit, Z.land_spec by lia.
    change 0xffffffff with (Z.ones 32). rewrite Z.testbit_ones by lia.
    rewrite (proj2 (Z.ltb_lt j 32)), (proj2 (Z.leb_le 0 j)) by lia.
    cbn. apply andb_true_r. }
  pose proof (byteswap32_range hi (u32_range _)). pose proof (byteswap32_range lo (u32_range _)).
  destruct host; [|change (union_ull BigEndian ?a ?b) with (union_ull LittleEndian b a)];
    rewrite union_ull_bit by done; destruct (i <? 32) eqn:E; bdestr;
    rewrite byteswap32_bit by (apply u32_range || lia);
    rewrite ?Hh, ?Hl by zmod; f_equal; zmod.
Qed.

Lemma byteswap64_range host x : is_u64 x -> is_u64 (byteswap64 host x).
Proof.
  intros Hx. unfold byteswap64.
  set (hi := byteswap32 _). set (lo := byteswap32 (u32 (Z.land _ _))).
  assert (Hhi : is_u32 hi) by (apply byteswap32_range, u32_range).
  assert (Hlo : is_u32 lo) by (apply byteswap32_range, u32_range).
  assert (Hu : forall a b, is_u32 a -> is_u32 b -> is_u64 (union_ull LittleEndian a b)).
  { intros a b Ha Hb. apply (word_range 64); [|lia|].
    - apply Z.lor_nonneg. split; [|apply Z.shiftl_nonneg]; words.
    - intros i Hi. cbn. rewrite Z.lor_spec, Z.shiftl_spec by lia.
      by rewrite (high_bit a 32 i Ha), (high_bit b 32 (i - 32) Hb) by lia. }
  destruct host; [by apply Hu|]. by apply (Hu lo hi).
Qed.

(** ** Properties *)

(** [byteswap16] and [byteswap32] reverse the bytes of their argument,
    stay within their width, and undo themselves. *)
Theorem byteswap16_32_reverse_bytes x :
  (is_u16 x ->
     is_u16 (byteswap16 x) /\ word_bytes 2 (byteswap16 x) = reverse (word_bytes 2 x) /\
     byteswap16 (byteswap16 x) = x) /\
  (is_u32 x ->
     is_u32 (byteswap32 x) /\ word_bytes 4 (byteswap32 x) = reverse (word_bytes 4 x) /\
     byteswap32 (byteswap32 x) = x).
Proof.
  split; intros Hx; split_and!.
  - apply byteswap16_range.
  - apply word_bytes_rev. intros i j Hi Hj.
    rewrite byteswap16_bit by (done || lia). f_equal. zmod.
  - apply (word_ext 16); [lia|apply byteswap16_range|done|]. intros i Hi.
    rewrite !byteswap16_bit by (done || apply byteswap16_range || zmod). f_equal. zmod.
  - by apply byteswap32_range.
  - apply word_bytes_rev. intros i j Hi Hj.
    rewrite byteswap32_bit by (done || lia). f_equal. zmod.
  - apply (word_ext 32); [lia|by apply byteswap32_range, byteswap32_range|done|].
    intros i Hi.
    rewrite !byteswap32_bit by (done || (by apply byteswap32_range) || zmod). f_equal. zmod.
Qed.

(** [byteswap64] reverses the eight bytes on a little-endian host.  On a
    big-endian host the union puts the halves the other way round: each
    half is reversed in its place.  On both it undoes itself. *)
Theorem byteswap64_reverses_bytes host x :
  is_u64 x ->
  word_bytes 8 (byteswap64 host x) =
    match host with
    | LittleEndian => reverse (word_bytes 8 x)
    | BigEndian => reverse (take 4 (word_bytes 8 x)) ++ reverse (drop 4 (word_bytes 8 x))
    end /\
  is_u64 (byteswap64 host x) /\ byteswap64 host (byteswap64 host x) = x.
Proof.
  intros Hx. split_and!.
  - destruct host.
    + apply word_bytes_rev. intros i j Hi Hj.
      rewrite byteswap64_bit by (done || lia). cbn -[Z.mul Z.div Z.add Z.sub].
      f_equal. zmod.
    + assert (Hb : forall i k, (i < 8)%nat -> k = (if (i <? 4)%nat then 3 - i else 11 - i)%nat ->
        word_byte (byteswap64 BigEndian x) i = word_byte x k).
      { intros i k Hi ->. apply Z.bits_inj'. intros j Hj. rewrite !word_byte_bit by done.
        destruct (j <? 8) eqn:E; bdestr; [|done]. cbn [andb].
        rewrite byteswap64_bit by (done || lia). f_equal.
        destruct (8 * Z.of_nat i + j <? 32) eqn:E1, (i <? 4)%nat eqn:E2; bdestr;
          rewrite ?Nat.ltb_lt, ?Nat.ltb_ge in E2; zmod. }
      unfold word_bytes. cbn [seq fmap list_fmap].
      repeat match goal with
      | |- context [word_byte (byteswap64 BigEndian x) ?i] =>
          rewrite (Hb i _ ltac:(lia) eq_refl)
      end. reflexivity.
  - by apply byteswap64_range.
  - apply (word_ext 64); [lia|by apply byteswap64_range, byteswap64_range|done|].
    intros i Hi.
    assert (Hr : is_u64 (byteswap64 host x)) by by apply byteswap64_range.
    rewrite byteswap64_bit by done. destruct host.
    + rewrite byteswap64_bit by (done || zmod). f_equal. zmod.
    + destruct (i <? 32) eqn:E; bdestr; rewrite byteswap64_bit by (done || zmod);
        case_match eqn:E2; bdestr; first [f_equal; zmod | exfalso; zmod].
Qed.

(** ** Witnesses *)

Lemma byteswap16_32_reverse_bytes_witness :
  byteswap16 (byteswap16 0x1234) = 0x1234 /\ byteswap16 0x1234 = 0x3412 /\
  byteswap32 (byteswap32 0x12345678) = 0x12345678 /\ byteswap32 0x12345678 = 0x78563412.
Proof.
  destruct (byteswap16_32_reverse_bytes 0x1234) as [H _].
  destruct (byteswap16_32_reverse_bytes 0x12345678) as [_ H'].
  split; [apply H; split; [discriminate|reflexivity]|]. split; [reflexivity|].
  split; [apply H'; split; [discriminate|reflexivity]|reflexivity].
Defined.

Lemma byteswap64_reverses_bytes_witness :
  word_bytes 8 (byteswap64 LittleEndian 0x0102030405060708) =
    reverse (word_bytes 8 0x0102030405060708) /\
  byteswap64 BigEndian 0x0102030405060708 = 0x0403020108070605.
Proof.
  split; [|reflexivity].
  apply (byteswap64_reverses_bytes LittleEndian 0x0102030405060708).
  split; [discriminate|reflexivity].
Defined.
