(* ===== verification/KList.v ===== *)
(** The intrusive doubly linked list of inc/cutils/klist.h.

    A list is its head (or tail) pointer; the links live in the elements.  The
    store maps the address of every element to its links, NULL is 0, and an
    access to an address outside the store is a fault.  Each macro is a function
    of the store and of the lvalues it reads, and returns the store and the
    lvalues it assigns.  [seg] relates a chain of links to the list of its
    addresses. *)
From S2P Require Import Prelude.
From stdpp Require Import list gmap.
From Stdlib Require Import ZArith Lia.
Local Open Scope Z_scope.

(** ** Data *)

Record KListElem := { prev : Z; next : Z }.

#[export] Instance KListElem_eq_dec : EqDecision KListElem.
Proof. solve_decision. Defined.

Abbreviation heap := (gmap Z KListElem).

Definition unlinked : KListElem := {| prev := 0; next := 0 |}.

(** [p->prev], [p->next] as values and as assignments. *)
Definition deref (h : heap) (p : Z) : result KListElem :=
  match h !! p with Some e => Ok e | None => Err BadPointer end.

Definition set_prev (h : heap) (p v : Z) : result heap :=
  e ← deref h p; Ok (<[p := {| prev := v; next := next e |}]> h).

Definition set_next (h : heap) (p v : Z) : result heap :=
  e ← deref h p; Ok (<[p := {| prev := prev e; next := v |}]> h).

(** ** Macros *)

Definition KLIST_HEAD_INIT (h : heap) (pHead : Z) : result heap :=
  if pHead =? 0 then Ok h
  else h1 ← set_next h pHead 0; set_prev h1 pHead 0.

Definition KLIST_TAIL_INIT (h : heap) (pTail : Z) : result heap :=
  if pTail =? 0 then Ok h
  else h1 ← set_next h pTail 0; set_prev h1 pTail 0.

Definition KLIST_HEAD_PREPEND (h : heap) (pHead pItem : Z) : result (heap * Z) :=
  if pItem =? 0 then Ok (h, pHead)
  else
    h' ← (if pHead =? 0 then Ok h
          else h1 ← set_prev h pHead pItem;
               h2 ← set_prev h1 pItem 0;
               set_next h2 pItem pHead);
    Ok (h', pItem).

(** The store, the head and the popped item. *)
Definition KLIST_HEAD_POP (h : heap) (pHead : Z) : result (heap * Z * Z) :=
  if pHead =? 0 then Ok (h, pHead, 0)
  else
    e ← deref h pHead;
    h1 ← set_prev h pHead 0;
    h2 ← set_next h1 pHead 0;
    Ok (h2, next e, pHead).

Definition KLIST_TAIL_APPEND (h : heap) (pTail pItem : Z) : result (heap * Z) :=
  if pItem =? 0 then Ok (h, pTail)
  else
    h' ← (if pTail =? 0 then Ok h
          else h1 ← set_next h pTail pItem;
               h2 ← set_next h1 pItem 0;
               set_prev h2 pItem pTail);
    Ok (h', pItem).

Definition KLIST_REMOVE_ELEM (h : heap) (pEl : Z) : result heap :=
  if pEl =? 0 then Ok h
  else
    e ← deref h pEl;
    h1 ← (if next e =? 0 then Ok h else set_prev h (next e) (prev e));
    e1 ← deref h1 pEl;
    h2 ← (if prev e1 =? 0 then Ok h1 else set_next h1 (prev e1) (next e1));
    h3 ← set_prev h2 pEl 0;
    set_next h3 pEl 0.

Definition KLIST_HEAD_REMOVE_ELEM (h : heap) (pHead pElem : Z) : result (heap * Z) :=
  pHead' ← (if pHead =? pElem then e ← deref h pElem; Ok (next e) else Ok pHead);
  h' ← KLIST_REMOVE_ELEM h pElem;
  Ok (h', pHead').

Definition KLIST_TAIL_REMOVE_ELEM (h : heap) (pTail pElem : Z) : result (heap * Z) :=
  pTail' ← (if pTail =? pElem then e ← deref h pElem; Ok (prev e) else Ok pTail);
  h' ← KLIST_REMOVE_ELEM h pElem;
  Ok (h', pTail').

(** A handler gets the element and may change the store and its own state. *)
Section foreach.
Context {W : Type}.

Fixpoint KLIST_HEAD_FOREACH (fuel : nat) (fnHandler : Z -> heap * W -> result (heap * W))
    (pElem : Z) (s : heap * W) : result (heap * W) :=
  match fuel with
  | O => Err OutOfFuel
  | S fuel =>
      if pElem =? 0 then Ok s
      else
        e ← deref (fst s) pElem;
        s' ← fnHandler pElem s;
        KLIST_HEAD_FOREACH fuel fnHandler (next e) s'
  end.

(** [pRetElem] keeps its value when no element satisfies the predicate. *)
Fixpoint KLIST_HEAD_FIND_FIRST (fuel : nat)
    (fnHandler : Z -> heap * W -> result (heap * W * bool))
    (pElem pRetElem : Z) (s : heap * W) : result (heap * W * Z) :=
  match fuel with
  | O => Err OutOfFuel
  | S fuel =>
      if pElem =? 0 then Ok (s, pRetElem)
      else
        e ← deref (fst s) pElem;
        r ← fnHandler pElem s;
        if (snd r : bool) then Ok (fst r, pElem)
        else KLIST_HEAD_FIND_FIRST fuel fnHandler (next e) pRetElem (fst r)
  end.
End foreach.

(** ** Chains of links *)

(** The head of a chain that continues at [nx]; the last element of one that
    started after [pv]. *)
Definition first (nx : Z) (l : list Z) : Z := match l with [] => nx | a :: _ => a end.
Definition final (pv : Z) (l : list Z) : Z := default pv (last l).

(** The elements at the addresses [l] are linked in this order, both ways;
    the first one's [prev] is [pv] and the last one's [next] is [nx]. *)
Fixpoint seg (h : heap) (pv : Z) (l : list Z) (nx : Z) : Prop :=
  match l with
  | [] => True
  | a :: l' =>
      a <> 0 /\ h !! a = Some {| prev := pv; next := first nx l' |} /\ seg h a l' nx
  end.

Lemma final_cons pv a l : final pv (a :: l) = final a l.
Proof. unfold final. rewrite last_cons. by destruct (last l). Qed.

Lemma final_snoc pv l a : final pv (l ++ [a]) = a.
Proof. unfold final. by rewrite last_snoc. Qed.

Lemma first_app nx l1 l2 : first nx (l1 ++ l2) = first (first nx l2) l1.
Proof. by destruct l1. Qed.

Lemma seg_app h pv l1 l2 nx :
  seg h pv (l1 ++ l2) nx <-> seg h pv l1 (first nx l2) /\ seg h (final pv l1) l2 nx.
Proof.
  revert pv. induction l1 as [|a l1 IH]; intros pv; cbn.
  - unfold final. cbn. tauto.
  - rewrite IH, first_app, final_cons. tauto.
Qed.

Lemma seg_frame h h' pv l nx :
  (forall a, a ∈ l -> h' !! a = h !! a) -> seg h pv l nx -> seg h' pv l nx.
Proof.
  revert pv. induction l as [|a l IH]; intros pv Hf; [done|]. cbn. intros (? & Ha & Hs).
  split_and!; [done| |].
  - rewrite Hf by set_solver. done.
  - apply IH; [|done]. intros. apply Hf. set_solver.
Qed.

Lemma seg_insert h pv l nx a e : a ∉ l -> seg h pv l nx -> seg (<[a := e]> h) pv l nx.
Proof.
  intros Ha. apply seg_frame. intros b Hb. apply lookup_insert_ne. set_solver.
Qed.

Lemma seg_lookup h pv l nx a : seg h pv l nx -> a ∈ l -> a <> 0 /\ is_Some (h !! a).
Proof.
  revert pv. induction l as [|b l IH]; intros pv; [set_solver|]. cbn.
  intros (? & Hb & Hs) [->|Hin]%elem_of_cons; eauto.
Qed.

Lemma seg_no_null h pv l nx : seg h pv l nx -> 0 ∉ l.
Proof. intros Hs Hin. by destruct (seg_lookup _ _ _ _ _ Hs Hin). Qed.

Lemma first_null h pv l : seg h pv l 0 -> first 0 l = 0 <-> l = [].
Proof. destruct l; cbn; [done|]. intros (? & _). split; done. Qed.

Lemma final_elem pv l : l <> [] -> final pv l ∈ l.
Proof.
  destruct l as [|a l _] using rev_ind; [done|]. intros _. rewrite final_snoc. set_solver.
Qed.

Lemma final_null h pv l nx : seg h pv l nx -> final 0 l = 0 <-> l = [].
Proof.
  intros Hs. split; [|by intros ->]. intros Hf. destruct (decide (l = [])) as [|Hl]; [done|].
  apply (final_elem 0) in Hl. rewrite Hf in Hl. by apply seg_no_null in Hs.
Qed.

(** Change the link that enters, or the link that leaves, a chain. *)
Lemma seg_enter h pv pv' a l nx :
  a ∉ l -> seg h pv (a :: l) nx ->
  seg (<[a := {| prev := pv'; next := first nx l |}]> h) pv' (a :: l) nx.
Proof.
  intros Ha (? & Hl & Hs). cbn. split_and!; [done|by rewrite lookup_insert_eq|].
  by apply seg_insert.
Qed.

Lemma seg_leave h pv l a nx nx' :
  a ∉ l -> seg h pv (l ++ [a]) nx ->
  seg (<[a := {| prev := final pv l; next := nx' |}]> h) pv (l ++ [a]) nx'.
Proof.
  rewrite !seg_app. cbn. intros Ha (Hs & ? & Hl & _). split_and!; [|done|by rewrite lookup_insert_eq|done].
  by apply seg_insert.
Qed.

Lemma seg_last h pv l a nx :
  seg h pv (l ++ [a]) nx ->
  a <> 0 /\ h !! a = Some {| prev := final pv l; next := nx |}.
Proof. rewrite seg_app. cbn. tauto. Qed.

(** ** What each macro does to a chain *)

Lemma deref_eq h p e : h !! p = Some e -> deref h p = Ok e.
Proof. unfold deref. by intros ->. Qed.

Lemma set_prev_eq h p e v :
  h !! p = Some e -> set_prev h p v = Ok (<[p := {| prev := v; next := next e |}]> h).
Proof. intros. unfold set_prev. by rewrite (deref_eq _ _ e). Qed.

Lemma set_next_eq h p e v :
  h !! p = Some e -> set_next h p v = Ok (<[p := {| prev := prev e; next := v |}]> h).
Proof. intros. unfold set_next. by rewrite (deref_eq _ _ e). Qed.

(** Two heaps agree outside a set of elements. *)
Definition same_outside (l : list Z) (h h' : heap) : Prop :=
  forall x, x ∉ l -> h' !! x = h !! x.

Lemma same_outside_refl l h : same_outside l h h.
Proof. done. Qed.

Lemma same_outside_trans l h1 h2 h3 :
  same_outside l h1 h2 -> same_outside l h2 h3 -> same_outside l h1 h3.
Proof. intros H1 H2 x Hx. rewrite H2, H1; done. Qed.

Lemma same_outside_mono l l' h h' : l ⊆ l' -> same_outside l h h' -> same_outside l' h h'.
Proof. intros Hl H x Hx. apply H. set_solver. Qed.

Lemma same_outside_insert l h h' a e :
  a ∈ l -> same_outside l h h' -> same_outside l h (<[a := e]> h').
Proof. intros Ha H x Hx. rewrite lookup_insert_ne by set_solver. by apply H. Qed.

#[export] Hint Resolve same_outside_refl same_outside_insert : cutils.

(** Run one store access whose element is known. *)
Ltac heap_lookup :=
  repeat first
    [ rewrite lookup_insert_eq
    | rewrite lookup_insert_ne by (congruence || set_solver) ].

Ltac heap_step :=
  first
    [ erewrite deref_eq by (heap_lookup; eassumption || reflexivity)
    | erewrite set_prev_eq by (heap_lookup; eassumption || reflexivity)
    | erewrite set_next_eq by (heap_lookup; eassumption || reflexivity) ]; cbn.

(** [KLIST_HEAD_PREPEND] puts the item in front.  On an empty list it leaves the
    item's links alone, so the chain goes wherever they point. *)
Lemma klist_head_prepend_seg h pv l nx a e :
  l <> [] -> NoDup l -> a ∉ l -> a <> 0 -> h !! a = Some e ->
  seg h pv l nx ->
  exists h', KLIST_HEAD_PREPEND h (first nx l) a = Ok (h', a) /\
    seg h' 0 (a :: l) nx /\ same_outside (a :: l) h h'.
Proof.
  intros Hl Hnd Ha Ha0 Hh Hs. destruct l as [|b l]; [done|]. cbn in *.
  destruct Hs as (Hb0 & Hb & Hs). apply NoDup_cons in Hnd as [Hbl Hnd].
  assert (b <> a) by set_solver.
  unfold KLIST_HEAD_PREPEND. rewrite !(proj2 (Z.eqb_neq _ _)) by done.
  do 3 heap_step. eexists. split; [reflexivity|]. split_and!; try done.
  - by rewrite lookup_insert_eq.
  - heap_lookup. done.
  - repeat apply seg_insert; set_solver.
  - repeat apply same_outside_insert; done || set_solver +.
Qed.

Lemma klist_head_prepend_empty h a :
  a <> 0 -> KLIST_HEAD_PREPEND h 0 a = Ok (h, a).
Proof. intros. unfold KLIST_HEAD_PREPEND. by rewrite (proj2 (Z.eqb_neq _ _)). Qed.

(** Prepending to any list, if the item's [next] is clear when it is empty. *)
Lemma klist_head_prepend_any h pv l a e :
  NoDup l -> a ∉ l -> a <> 0 -> h !! a = Some e -> (l = [] -> next e = 0) -> seg h pv l 0 ->
  exists h1, KLIST_HEAD_PREPEND h (first 0 l) a = Ok (h1, a) /\
    (exists pv1, seg h1 pv1 (a :: l) 0) /\ same_outside (a :: l) h h1.
Proof.
  intros Hnd Ha Ha0 Hh He Hs. destruct (decide (l = [])) as [->|Hl].
  - exists h. cbn. rewrite klist_head_prepend_empty by done. split_and!; [done| |done].
    exists (prev e). specialize (He eq_refl). destruct e as [p n]; cbn in *. subst. done.
  - destruct (klist_head_prepend_seg h pv l 0 a e) as (h1 & ? & ? & ?); eauto.
Qed.

(** [KLIST_HEAD_POP] detaches the head; the next element keeps its link back to
    it. *)
Lemma klist_head_pop_seg h pv l nx a :
  a ∉ l -> seg h pv (a :: l) nx ->
  exists h', KLIST_HEAD_POP h a = Ok (h', first nx l, a) /\
    seg h' a l nx /\ h' !! a = Some unlinked /\ same_outside [a] h h'.
Proof.
  cbn. intros Ha (Ha0 & Hh & Hs). unfold KLIST_HEAD_POP.
  rewrite (proj2 (Z.eqb_neq _ _)) by done. do 3 heap_step.
  eexists. split; [reflexivity|]. split_and!.
  - by repeat apply seg_insert.
  - by rewrite lookup_insert_eq.
  - repeat apply same_outside_insert; done || set_solver +.
Qed.

Lemma klist_tail_append_seg h pv l a e :
  l <> [] -> NoDup l -> a ∉ l -> a <> 0 -> h !! a = Some e -> seg h pv l 0 ->
  exists h', KLIST_TAIL_APPEND h (final 0 l) a = Ok (h', a) /\
    seg h' pv (l ++ [a]) 0 /\ same_outside (l ++ [a]) h h'.
Proof.
  intros Hl Hnd Ha Ha0 Hh Hs. destruct l as [|t l _] using rev_ind; [done|].
  rewrite final_snoc. apply NoDup_app in Hnd as (_ & Hnd & _).
  destruct (seg_last _ _ _ _ _ Hs) as [Ht0 Ht].
  assert (Htl : t ∉ l) by set_solver. assert (t <> a) by set_solver.
  unfold KLIST_TAIL_APPEND. rewrite !(proj2 (Z.eqb_neq _ _)) by done.
  do 3 heap_step. eexists. split; [reflexivity|]. split.
  - apply (seg_leave _ _ _ _ _ a) in Hs; [|done]. rewrite seg_app, final_snoc. cbn.
    split_and!; [|done|by rewrite lookup_insert_eq|done].
    do 2 (apply seg_insert; [set_solver|]). exact Hs.
  - repeat apply same_outside_insert; done || set_solver +.
Qed.

(** [KLIST_REMOVE_ELEM] joins the two neighbours (when there are any); the [prev] of the
    head matters only when the head itself is removed. *)
Lemma klist_remove_elem_at h pv l1 a l2 :
  NoDup (l1 ++ a :: l2) -> seg h pv (l1 ++ a :: l2) 0 -> (l1 = [] -> pv = 0) ->
  exists h', KLIST_REMOVE_ELEM h a = Ok h' /\
    seg h' pv (l1 ++ l2) 0 /\ h' !! a = Some unlinked /\
    same_outside (l1 ++ a :: l2) h h'.
Proof.
  intros Hnd Hs Hpv. apply NoDup_app in Hnd as (Hnd1 & Hd & Hnd2).
  apply NoDup_cons in Hnd2 as [Hal2 Hnd2].
  assert (Hal1 : a ∉ l1) by set_solver.
  rewrite seg_app in Hs. cbn in Hs. destruct Hs as (Hs1 & Ha0 & Ha & Hs2).
  unfold KLIST_REMOVE_ELEM. rewrite (proj2 (Z.eqb_neq a 0)) by done. heap_step.
  (* the element after [a] *)
  assert (exists h1, (if first 0 l2 =? 0 then Ok h else set_prev h (first 0 l2) (final pv l1)) = Ok h1 /\
      seg h1 (final pv l1) l2 0 /\ same_outside l2 h h1) as (h1 & -> & Hs2' & Hf1).
  { destruct l2 as [|b l2]; cbn in *; [eauto with cutils|].
    destruct Hs2 as (Hb0 & Hb & Hs2). rewrite (proj2 (Z.eqb_neq b 0)) by done.
    heap_step. eexists. split; [reflexivity|]. apply NoDup_cons in Hnd2 as [Hb2 Hnd2].
    split_and!; [done|by rewrite lookup_insert_eq|by apply seg_insert|].
    apply same_outside_insert; [set_solver +|done]. }
  assert (Ha1 : h1 !! a = Some {| prev := final pv l1; next := first 0 l2 |})
    by (rewrite Hf1; done).
  apply (seg_frame h h1) in Hs1; [|intros x Hx; apply Hf1; set_solver].
  cbn. heap_step.
  (* the element before [a] *)
  assert (exists h2, (if final pv l1 =? 0 then Ok h1 else set_next h1 (final pv l1) (first 0 l2)) = Ok h2 /\
      seg h2 pv l1 (first 0 l2) /\ same_outside l1 h1 h2) as (h2 & -> & Hs1' & Hf2).
  { destruct l1 as [|t l1 _] using rev_ind; [rewrite (Hpv eq_refl); cbn; eauto with cutils|].
    rewrite final_snoc in *. destruct (seg_last _ _ _ _ _ Hs1) as [Ht0 Ht].
    rewrite (proj2 (Z.eqb_neq t 0)) by done. heap_step. eexists. split; [reflexivity|].
    apply NoDup_app in Hnd1 as (_ & Hnd1 & _). assert (t ∉ l1) by set_solver.
    split; [by eapply seg_leave|]. apply same_outside_insert; [set_solver +|done]. }
  assert (Ha2 : h2 !! a = Some {| prev := final pv l1; next := first 0 l2 |})
    by (rewrite Hf2; done).
  apply (seg_frame h1 h2) in Hs2'; [|intros x Hx; apply Hf2; set_solver].
  cbn. do 2 heap_step. eexists. split; [reflexivity|]. split_and!.
  - rewrite seg_app. split; repeat apply seg_insert; done.
  - by rewrite lookup_insert_eq.
  - repeat apply same_outside_insert; [set_solver +..|].
    eapply same_outside_trans; [eapply same_outside_mono, Hf1; set_solver|].
    eapply same_outside_mono, Hf2. set_solver.
Qed.

Lemma klist_remove_elem_seg h l1 a l2 :
  NoDup (l1 ++ a :: l2) -> seg h 0 (l1 ++ a :: l2) 0 ->
  exists h', KLIST_REMOVE_ELEM h a = Ok h' /\
    seg h' 0 (l1 ++ l2) 0 /\ h' !! a = Some unlinked /\
    same_outside (l1 ++ a :: l2) h h'.
Proof. intros Hnd Hs. by apply klist_remove_elem_at. Qed.

(** ** Visiting *)

(** What [KLIST_HEAD_FOREACH] follows: only the [next] links. *)
Fixpoint next_chain (h : heap) (l : list Z) (nx : Z) : Prop :=
  match l with
  | [] => True
  | a :: l' => a <> 0 /\ next <$> h !! a = Some (first nx l') /\ next_chain h l' nx
  end.

Lemma seg_next_chain h pv l nx : seg h pv l nx -> next_chain h l nx.
Proof.
  revert pv. induction l as [|a l IH]; intros pv; cbn; [done|].
  intros (? & Ha & Hs). rewrite Ha. eauto.
Qed.

Lemma next_chain_frame h h' l nx :
  (forall y, y ∈ l -> next <$> h' !! y = next <$> h !! y) ->
  next_chain h l nx -> next_chain h' l nx.
Proof.
  induction l as [|a l IH]; cbn; [done|]. intros Hf (? & Ha & Hc). split_and!; [done| |].
  - rewrite Hf by set_solver. done.
  - apply IH; [|done]. intros. apply Hf. set_solver.
Qed.

(** The reference: apply a handler along a list, stopping at a fault. *)
Fixpoint visit {S} (fn : Z -> S -> result S) (l : list Z) (s : S) : result S :=
  match l with
  | [] => Ok s
  | a :: l' => s' ← fn a s; visit fn l' s'
  end.

Fixpoint visit_until {S} (fn : Z -> S -> result (S * bool)) (l : list Z) (dflt : Z) (s : S)
  : result (S * Z) :=
  match l with
  | [] => Ok (s, dflt)
  | a :: l' =>
      r ← fn a s;
      if (snd r : bool) then Ok (fst r, a) else visit_until fn l' dflt (fst r)
  end.

(** A handler may do anything to the element it gets, and to the [prev] links of
    the others, but must leave the [next] links of the others alone (removing
    the visited element from the list does: the element before it has been
    passed). *)
Definition keeps_next (l : list Z) (x : Z) (h h' : heap) : Prop :=
  forall y, y ∈ l -> y <> x -> next <$> h' !! y = next <$> h !! y.

Lemma next_chain_step {W} a l (s s' : heap * W) :
  a ∉ l -> next_chain (fst s) l 0 -> keeps_next (a :: l) a (fst s) (fst s') ->
  next_chain (fst s') l 0.
Proof.
  intros Ha Hc Hk. eapply next_chain_frame, Hc. intros y Hy.
  apply Hk; [by right|]. set_solver + Ha Hy.
Qed.

Lemma klist_foreach_visit {W} fuel l (fn : Z -> heap * W -> result (heap * W)) (s : heap * W) :
  (length l < fuel)%nat -> NoDup l -> next_chain (fst s) l 0 ->
  (forall x s s', x ∈ l -> fn x s = Ok s' -> keeps_next l x (fst s) (fst s')) ->
  KLIST_HEAD_FOREACH fuel fn (first 0 l) s = visit fn l s.
Proof.
  intros Hfuel Hnd. revert s fuel Hfuel.
  induction l as [|a l IH]; intros s [|fuel] Hfuel Hc Hfn; cbn [length] in Hfuel; try lia; [done|].
  apply NoDup_cons in Hnd as [Ha Hnd]. destruct Hc as (Ha0 & Hh & Hc).
  apply fmap_Some in Hh as (e & Hh & He).
  cbn [KLIST_HEAD_FOREACH first visit].
  rewrite (proj2 (Z.eqb_neq a 0)), (deref_eq _ _ e) by done. cbn [mbind result_bind].
  destruct (fn a s) as [s'|] eqn:E; [|done]. cbn [mbind result_bind]. rewrite <- He.
  apply IH; [done|lia|eapply next_chain_step, Hfn; [done|done|left|done]|].
  intros x s1 s2 Hx Hr y Hy. eapply Hfn; [by right|done|by right].
Qed.

Lemma klist_find_visit {W} l (find : Z -> heap * W -> result (heap * W * bool)) dflt
    (s : heap * W) :
  NoDup l -> next_chain (fst s) l 0 ->
  (forall x s s' b, x ∈ l -> find x s = Ok (s', b) -> keeps_next l x (fst s) (fst s')) ->
  KLIST_HEAD_FIND_FIRST (S (length l)) find (first 0 l) dflt s = visit_until find l dflt s.
Proof.
  intros Hnd. revert s. induction l as [|a l IH]; intros s Hc Hfn; [done|].
  apply NoDup_cons in Hnd as [Ha Hnd]. destruct Hc as (Ha0 & Hh & Hc).
  apply fmap_Some in Hh as (e & Hh & He).
  cbn [length KLIST_HEAD_FIND_FIRST first visit_until].
  rewrite (proj2 (Z.eqb_neq a 0)), (deref_eq _ _ e) by done. cbn [mbind result_bind].
  destruct (find a s) as [[s' []]|] eqn:E; [done| |done].
  cbn [mbind result_bind fst snd]. rewrite <- He.
  apply IH; [done|eapply next_chain_step, (Hfn a s s' false); [done|done|left|done]|].
  intros x s1 s2 b Hx Hr y Hy. eapply Hfn; [by right|done|by right].
Qed.

(** ** Properties *)

(** [KLIST_HEAD_PREPEND] and [KLIST_HEAD_POP] are push and pop of a
    stack.  Prepending an element that is not on the list makes it the head of
    the chain; popping gives it back with both links cleared and leaves the
    chain of the rest, and no element outside the list is touched.  The links
    of an element prepended to an empty list are not initialised, hence the
    condition on its [next]. *)
Theorem klist_prepend_pop h pv l a e :
  NoDup l -> a ∉ l -> a <> 0 -> h !! a = Some e -> (l = [] -> next e = 0) ->
  seg h pv l 0 ->
  exists h1, KLIST_HEAD_PREPEND h (first 0 l) a = Ok (h1, a) /\
    (exists pv1, seg h1 pv1 (a :: l) 0) /\
    exists h2, KLIST_HEAD_POP h1 a = Ok (h2, first 0 l, a) /\
      seg h2 a l 0 /\ h2 !! a = Some unlinked /\ same_outside (a :: l) h h2.
Proof.
  intros Hnd Ha Ha0 Hh He Hs.
  destruct (klist_head_prepend_any h pv l a e) as (h1 & Hp & [pv1 Hs1] & Hf1); try done.
  destruct (klist_head_pop_seg h1 pv1 l 0 a Ha Hs1) as (h2 & Hq & Hs2 & Hu & Hf2).
  exists h1. split_and!; eauto. exists h2. split_and!; try done.
  eapply same_outside_trans; [done|]. eapply same_outside_mono, Hf2. set_solver +.
Qed.

(** Removing an element from anywhere in a list, by its head
    ([KLIST_HEAD_REMOVE_ELEM]) or by its tail ([KLIST_TAIL_REMOVE_ELEM]),
    leaves the chain of the others in order, updates the head or the tail, and
    clears the element's links, provided that the head's [prev] is NULL.  It
    need not be: [KLIST_HEAD_POP] leaves the new head's [prev] on the popped
    element, and removing that head then writes into the popped element, whose
    [next] points into the list again. *)
Theorem klist_remove_elem h l1 a l2 :
  NoDup (l1 ++ a :: l2) -> seg h 0 (l1 ++ a :: l2) 0 ->
  (exists h', KLIST_HEAD_REMOVE_ELEM h (first 0 (l1 ++ a :: l2)) a =
        Ok (h', first 0 (l1 ++ l2)) /\
     KLIST_TAIL_REMOVE_ELEM h (final 0 (l1 ++ a :: l2)) a = Ok (h', final 0 (l1 ++ l2)) /\
     seg h' 0 (l1 ++ l2) 0 /\ h' !! a = Some unlinked /\
     same_outside (l1 ++ a :: l2) h h') /\
  (forall b l, l1 = [] -> l2 = b :: l ->
     exists h1 h2, KLIST_HEAD_POP h a = Ok (h1, b, a) /\
       KLIST_HEAD_REMOVE_ELEM h1 b b = Ok (h2, first 0 l) /\
       h2 !! a = Some {| prev := 0; next := first 0 l |}).
Proof.
  intros Hnd Hs. split.
  - destruct (klist_remove_elem_seg h l1 a l2 Hnd Hs) as (h' & Hr & Hs' & Hu & Hf).
    exists h'. unfold KLIST_HEAD_REMOVE_ELEM, KLIST_TAIL_REMOVE_ELEM. rewrite Hr.
    apply NoDup_app in Hnd as (_ & Hd & Hnd). apply NoDup_cons in Hnd as [Ha2 _].
    assert (Ha1 : a ∉ l1) by (intros H; apply (Hd a H); left).
    rewrite seg_app in Hs. cbn in Hs. destruct Hs as (_ & Ha0 & Ha & _).
    rewrite (deref_eq _ _ _ Ha). cbn. split_and!; try done.
    + destruct l1 as [|b l1]; cbn; [by rewrite Z.eqb_refl|].
      rewrite (proj2 (Z.eqb_neq b a)); [done|]. set_solver + Ha1.
    + destruct l2 as [|b l2 _] using rev_ind.
      * rewrite final_snoc, Z.eqb_refl, app_nil_r. done.
      * rewrite app_comm_cons, !app_assoc, !final_snoc.
        rewrite (proj2 (Z.eqb_neq b a)); [done|]. set_solver + Ha2.
  - intros b l -> ->. cbn [app] in *. apply NoDup_cons in Hnd as [Ha Hnd].
    destruct (klist_head_pop_seg h 0 (b :: l) 0 a Ha Hs) as (h1 & Hp & Hs1 & Hu & _).
    exists h1. assert (Ha0 : a <> 0) by (cbn in Hs; tauto).
    cbn in Hs1. destruct Hs1 as (Hb0 & Hb & Hs1). apply NoDup_cons in Hnd as [Hbl Hnd].
    assert (a <> b /\ a ∉ l) as [Hab Hal] by set_solver + Ha.
    unfold KLIST_HEAD_REMOVE_ELEM, KLIST_REMOVE_ELEM.
    rewrite Z.eqb_refl, (proj2 (Z.eqb_neq b 0)) by done. cbn. heap_step.
    assert (exists h2, (if first 0 l =? 0 then Ok h1 else set_prev h1 (first 0 l) a) = Ok h2 /\
        same_outside l h1 h2) as (h2 & -> & Hf).
    { destruct l as [|c l]; cbn in *; [eauto with cutils|]. destruct Hs1 as (Hc0 & Hc & _).
      rewrite (proj2 (Z.eqb_neq c 0)) by done. heap_step. eexists. split; [done|].
      apply same_outside_insert; [left|done]. }
    rewrite <- Hf in Hb, Hu by done. cbn [mbind result_bind]. heap_step.
    cbn. rewrite (proj2 (Z.eqb_neq a 0)) by done. heap_step. do 2 heap_step.
    eexists. split_and!; [done..|]. heap_lookup. done.
Qed.

(** [KLIST_HEAD_FOREACH] applies the handler to every element once, from the
    head, even when the handler unlinks or frees the element it was given; one
    iteration more than there are elements is enough.  [KLIST_HEAD_FIND_FIRST]
    stops at the first element that the predicate accepts, and leaves
    [pRetElem] as it was when there is none. *)
Theorem klist_foreach_find {W} l (h : heap) (w : W)
    (fn : Z -> heap * W -> result (heap * W))
    (find : Z -> heap * W -> result (heap * W * bool)) (dflt : Z) :
  NoDup l -> next_chain h l 0 ->
  (forall x s s', x ∈ l -> fn x s = Ok s' -> keeps_next l x (fst s) (fst s')) ->
  (forall x s s' b, x ∈ l -> find x s = Ok (s', b) -> keeps_next l x (fst s) (fst s')) ->
  KLIST_HEAD_FOREACH (S (length l)) fn (first 0 l) (h, w) = visit fn l (h, w) /\
  KLIST_HEAD_FIND_FIRST (S (length l)) find (first 0 l) dflt (h, w) =
    visit_until find l dflt (h, w).
Proof.
  intros Hnd Hc Hfn Hfind. split; [by apply klist_foreach_visit; [lia|..]|by apply klist_find_visit].
Qed.

(** ** Witnesses *)

(** The list 2, 3, 4 and the free element 1. *)
Definition ex_heap : heap :=
  <[1 := unlinked]> (<[2 := {| prev := 0; next := 3 |}]>
    (<[3 := {| prev := 2; next := 4 |}]> (<[4 := {| prev := 3; next := 0 |}]> ∅))).

Lemma ex_heap_seg : seg ex_heap 0 [2; 3; 4] 0.
Proof. cbn. split_and!; (lia || done). Qed.

Lemma klist_prepend_pop_witness :
  exists h1 h2, KLIST_HEAD_PREPEND ex_heap 2 1 = Ok (h1, 1) /\
    KLIST_HEAD_POP h1 1 = Ok (h2, 2, 1) /\ seg h2 1 [2; 3; 4] 0.
Proof.
  destruct (klist_prepend_pop ex_heap 0 [2; 3; 4] 1 unlinked)
    as (h1 & H1 & _ & h2 & H2 & H3 & _).
  - by apply (bool_decide_unpack _).
  - by apply (bool_decide_unpack _).
  - done.
  - reflexivity.
  - done.
  - exact ex_heap_seg.
  - exists h1, h2. split; [exact H1|]. split; [exact H2|exact H3].
Defined.

Lemma klist_remove_elem_witness :
  exists h', KLIST_HEAD_REMOVE_ELEM ex_heap 2 3 = Ok (h', 2) /\ seg h' 0 [2; 4] 0 /\
    exists h1 h2, KLIST_HEAD_POP ex_heap 2 = Ok (h1, 3, 2) /\
      KLIST_HEAD_REMOVE_ELEM h1 3 3 = Ok (h2, 4) /\
      h2 !! 2 = Some {| prev := 0; next := 4 |}.
Proof.
  assert (Hnd : NoDup [2; 3; 4]) by by apply (bool_decide_unpack _).
  destruct (klist_remove_elem ex_heap [2] 3 [4] Hnd ex_heap_seg) as [(h' & H & _ & Hs & _) _].
  destruct (klist_remove_elem ex_heap [] 2 [3; 4] Hnd ex_heap_seg) as [_ Hp].
  exists h'. split; [exact H|]. split; [exact Hs|]. apply (Hp 3 [4]); reflexivity.
Defined.

(** The handler frees what it is given and records its address. *)
Lemma klist_foreach_find_witness :
  exists s, KLIST_HEAD_FOREACH 4 (fun x s => Ok (delete x (fst s), x :: snd s)) 2 (ex_heap, [] : list Z) =
    Ok s /\ snd s = [4; 3; 2] /\
  KLIST_HEAD_FIND_FIRST 4 (fun x s => Ok (s, 2 <? x)) 2 0 (ex_heap, [] : list Z) = Ok (ex_heap, [], 3).
Proof.
  destruct (klist_foreach_find [2; 3; 4] ex_heap []
      (fun x s => Ok (delete x (fst s), x :: snd s)) (fun x s => Ok (s, 2 <? x)) 0)
    as [H1 H2].
  - by apply (bool_decide_unpack _).
  - apply (seg_next_chain _ 0), ex_heap_seg.
  - intros x s s' _ [= <-] y _ Hne. cbn. rewrite lookup_delete_ne by congruence. reflexivity.
  - intros x s s' b _ [= <- _] y _ _. reflexivity.
  - cbn [length first] in H1, H2. eexists. split; [rewrite H1; reflexivity|].
    split; [reflexivity|]. rewrite H2. reflexivity.
Defined.
