(* ===== verification/KQueue.v ===== *)
(** The queue of inc/cutils/kqueue.h, on top of the list of KList.

    The queue object is nullable; its elements live in the store of KList.  The
    drop callback is client code: a function of the element, the store and the
    client's state, called by its address. *)
From S2P Require Import Prelude KList.
From stdpp Require Import list gmap.
From Stdlib Require Import ZArith Lia.
Local Open Scope Z_scope.

(** ** Data *)

Record kqueue_t := { p_head : Z; p_tail : Z; f_drop : Z; item_count : Z }.

(** ** Operations *)

Definition kqueue_init (pQueue : option kqueue_t) : option kqueue_t :=
  match pQueue with
  | Some _ => Some {| p_head := 0; p_tail := 0; f_drop := 0; item_count := 0 |}
  | None => None
  end.

Definition kqueue_is_empty (pQueue : option kqueue_t) : bool :=
  match pQueue with
  | Some q => (p_head q =? 0) || (p_tail q =? 0)
  | None => true
  end.

Definition kqueue_insert (h : heap) (p_queue : option kqueue_t) (p_elem : Z)
  : result (heap * option kqueue_t) :=
  match p_queue with
  | None => Ok (h, None)
  | Some q =>
      if p_elem =? 0 then Ok (h, Some q)
      else
        r ← KLIST_TAIL_APPEND h (p_tail q) p_elem;
        let '(h', tail) := r in
        let head := if p_head q =? 0 then tail else p_head q in
        Ok (h', Some {| p_head := head; p_tail := tail; f_drop := f_drop q;
                        item_count := u32 (item_count q + 1) |})
  end.

Definition kqueue_dequeue (h : heap) (p_queue : option kqueue_t)
  : result (heap * option kqueue_t * Z) :=
  match p_queue with
  | Some q =>
      if kqueue_is_empty (Some q) then Ok (h, Some q, 0)
      else
        let tail := if p_head q =? p_tail q then 0 else p_tail q in
        let p_item := p_head q in
        e ← deref h p_item;
        h' ← KLIST_REMOVE_ELEM h p_item;
        Ok (h', Some {| p_head := next e; p_tail := tail; f_drop := f_drop q;
                        item_count := u32 (item_count q - 1) |}, p_item)
  | None => Ok (h, None, 0)
  end.

Definition kqueue_register_drop_all_cb (pQueue : option kqueue_t) (cb : Z)
  : option kqueue_t :=
  match pQueue with
  | Some q => Some {| p_head := p_head q; p_tail := p_tail q; f_drop := cb;
                      item_count := item_count q |}
  | None => None
  end.

Definition kqueue_get_item_count (p_queue : option kqueue_t) : Z :=
  match p_queue with Some q => item_count q | None => 0 end.

Section callbacks.
Context {W : Type}.
(** Client code: the function at an address, applied to an element. *)
Context (call : Z -> Z -> heap * W -> result (heap * W)).

Fixpoint kqueue_drop_all (fuel : nat) (s : heap * W) (p_queue : option kqueue_t)
  : result (heap * W * option kqueue_t) :=
  match fuel with
  | O => Err OutOfFuel
  | S fuel =>
      if kqueue_is_empty p_queue then Ok (s, p_queue)
      else
        r ← kqueue_dequeue (fst s) p_queue;
        let '(h', q', pElem) := r in
        let f := match q' with Some q => f_drop q | None => 0 end in
        s' ← (if f =? 0 then Ok (h', snd s) else call f pElem (h', snd s));
        kqueue_drop_all fuel s' q'
  end.

(** [f_drop] is called without a test: through NULL it is a fault. *)
Fixpoint kqueue_drop_all_through_elem (fuel : nat) (s : heap * W)
    (p_queue : option kqueue_t) (p_elem : Z) : result (heap * W * option kqueue_t) :=
  match fuel with
  | O => Err OutOfFuel
  | S fuel =>
      r ← kqueue_dequeue (fst s) p_queue;
      let '(h', q', pDequeue) := r in
      if pDequeue =? 0 then Ok (h', snd s, q')
      else
        let f := match q' with Some q => f_drop q | None => 0 end in
        s' ← (if f =? 0 then Err BadPointer else call f pDequeue (h', snd s));
        if p_elem =? pDequeue then Ok (s', q')
        else kqueue_drop_all_through_elem fuel s' q' p_elem
  end.

(** The predicate's variadic arguments are part of the client's state, which
    consumes them as it reads them. *)
Fixpoint kqueue_find_loop (fuel : nat) (f_find : Z -> heap * W -> result (heap * W * bool))
    (pElem : Z) (s : heap * W) : result (heap * W * Z) :=
  match fuel with
  | O => Err OutOfFuel
  | S fuel =>
      if pElem =? 0 then Ok (s, 0)
      else
        e ← deref (fst s) pElem;
        r ← f_find pElem s;
        if (snd r : bool) then Ok (fst r, pElem)
        else kqueue_find_loop fuel f_find (next e) (fst r)
  end.

Definition kqueue_find_first (fuel : nat) (s : heap * W) (p_queue : option kqueue_t)
    (f_find : Z -> heap * W -> result (heap * W * bool)) : result (heap * W * Z) :=
  match p_queue with
  | None => Err BadPointer
  | Some q => kqueue_find_loop fuel f_find (p_head q) s
  end.
End callbacks.

(** ** Representation *)

(** The queue [q] in the store [h] holds the elements [l], oldest first. *)
Record kq_repr (h : heap) (q : kqueue_t) (l : list Z) : Prop := {
  kq_nodup : NoDup l;
  kq_seg : seg h 0 l 0;
  kq_head : p_head q = first 0 l;
  kq_tail : p_tail q = final 0 l;
  kq_count : item_count q = u32 (Z.of_nat (length l))
}.

(** Every element outside the queue has cleared links, which is how
    [kqueue_dequeue] leaves an element.  An element with other links would be
    unusable in an empty queue (see [kqueue_insert_dirty]). *)
Definition kq_clean (h : heap) (l : list Z) : Prop :=
  h !! 0 = None /\ forall a, a ∉ l -> forall e, h !! a = Some e -> e = unlinked.

Lemma kq_repr_empty h q l : kq_repr h q l -> kqueue_is_empty (Some q) = bool_decide (l = []).
Proof.
  intros []. cbn. rewrite kq_head0, kq_tail0. case_bool_decide as Hl; [by subst|].
  apply orb_false_iff. split; apply Z.eqb_neq.
  - by rewrite (first_null _ _ _ kq_seg0).
  - by rewrite (final_null _ _ _ _ kq_seg0).
Qed.

Lemma kqueue_insert_ok h q l a e :
  kq_repr h q l -> a ∉ l -> a <> 0 -> h !! a = Some e -> (l = [] -> e = unlinked) ->
  exists h' q', kqueue_insert h (Some q) a = Ok (h', Some q') /\
    kq_repr h' q' (l ++ [a]) /\ f_drop q' = f_drop q /\ same_outside (l ++ [a]) h h'.
Proof.
  intros [Hnd Hs Hh Ht Hc] Ha Ha0 He Hcl. cbn.
  rewrite (proj2 (Z.eqb_neq a 0)) by done. rewrite Ht, Hh.
  assert (exists h', KLIST_TAIL_APPEND h (final 0 l) a = Ok (h', a) /\
      seg h' 0 (l ++ [a]) 0 /\ same_outside (l ++ [a]) h h') as (h' & -> & Hs' & Hf).
  { destruct (decide (l = [])) as [->|Hl].
    - specialize (Hcl eq_refl) as ->. unfold KLIST_TAIL_APPEND.
      rewrite (proj2 (Z.eqb_neq a 0)) by done. cbn. eauto 10 with cutils.
    - by apply (klist_tail_append_seg _ _ _ _ e). }
  cbn. eexists _, _. split; [reflexivity|]. split_and!; [constructor; cbn|done|done].
  - apply NoDup_app. split_and!; [done| |apply NoDup_singleton].
    intros x Hx ->%list_elem_of_singleton. done.
  - done.
  - destruct l as [|b l]; cbn; [done|]. destruct Hs as (Hb & _).
    by rewrite (proj2 (Z.eqb_neq b 0)).
  - by rewrite final_snoc.
  - rewrite length_app, Hc. cbn. rewrite Nat2Z.inj_add. words.
Qed.

Lemma kqueue_dequeue_ok h q l a :
  kq_repr h q (a :: l) ->
  exists h' q', kqueue_dequeue h (Some q) = Ok (h', Some q', a) /\
    kq_repr h' q' l /\ f_drop q' = f_drop q /\
    h' !! a = Some unlinked /\ same_outside (a :: l) h h'.
Proof.
  intros Hq. pose proof (kq_repr_empty _ _ _ Hq) as He.
  rewrite bool_decide_eq_false_2 in He by done. destruct Hq as [Hnd Hs Hh Ht Hc].
  destruct (klist_remove_elem_seg h [] a l Hnd Hs) as (h' & Hr & Hs' & Hu & Hf).
  unfold kqueue_dequeue. rewrite He, Hh, Ht. cbn [first].
  destruct Hs as (Ha0 & Ha & Hs). rewrite (deref_eq _ _ _ Ha). cbn.
  rewrite Hr. cbn. eexists _, _. split; [reflexivity|].
  apply NoDup_cons in Hnd as [Hal Hnd].
  split_and!; [constructor; cbn|done..]; try done.
  - rewrite final_cons. destruct (decide (l = [])) as [->|Hl]; cbn; [by rewrite Z.eqb_refl|].
    assert (Hin : final a l ∈ l) by by apply final_elem.
    rewrite (proj2 (Z.eqb_neq a (final a l))) by (intros Heq; rewrite <- Heq in Hin; done).
    destruct l as [|b l _] using rev_ind; [done|]. by rewrite !final_snoc.
  - rewrite Hc. cbn [length]. rewrite Nat2Z.inj_succ. words.
Qed.

Lemma kqueue_dequeue_empty h q :
  kq_repr h q [] -> kqueue_dequeue h (Some q) = Ok (h, Some q, 0).
Proof. intros Hq. unfold kqueue_dequeue. by rewrite (kq_repr_empty _ _ _ Hq). Qed.

(** ** Abstract queue *)

Inductive kq_op := KInsert (a : Z) | KDequeue | KIsEmpty | KCount.
Inductive kq_out := ONone | OElem (a : Z) | OBool (b : bool) | OCount (n : Z).

(** One call on the linked queue. *)
Definition kq_step (s : heap * option kqueue_t) (o : kq_op)
  : result (heap * option kqueue_t * kq_out) :=
  let '(h, q) := s in
  match o with
  | KInsert a => s' ← kqueue_insert h q a; Ok (s', ONone)
  | KDequeue => r ← kqueue_dequeue h q; Ok (fst r, OElem (snd r))
  | KIsEmpty => Ok (h, q, OBool (kqueue_is_empty q))
  | KCount => Ok (h, q, OCount (kqueue_get_item_count q))
  end.

Fixpoint kq_run (s : heap * option kqueue_t) (ops : list kq_op)
  : result (heap * option kqueue_t * list kq_out) :=
  match ops with
  | [] => Ok (s, [])
  | o :: ops => r ← kq_step s o; r' ← kq_run (fst r) ops; Ok (fst r', snd r :: snd r')
  end.

(** The same call on a list, oldest element first; NULL is not queued, and an
    empty queue yields NULL. *)
Definition fifo_step (l : list Z) (o : kq_op) : list Z * kq_out :=
  match o with
  | KInsert a => (if a =? 0 then l else l ++ [a], ONone)
  | KDequeue => match l with [] => ([], OElem 0) | a :: l' => (l', OElem a) end
  | KIsEmpty => (l, OBool (bool_decide (l = [])))
  | KCount => (l, OCount (u32 (Z.of_nat (length l))))
  end.

Fixpoint fifo_run (l : list Z) (ops : list kq_op) : list Z * list kq_out :=
  match ops with
  | [] => (l, [])
  | o :: ops => let '(l', out) := fifo_step l o in
                let '(l'', outs) := fifo_run l' ops in (l'', out :: outs)
  end.

(** The caller inserts existing elements that are not in the queue already. *)
Fixpoint kq_legal (h : heap) (l : list Z) (ops : list kq_op) : Prop :=
  match ops with
  | [] => True
  | o :: ops =>
      (match o with KInsert a => a = 0 \/ (a ∉ l /\ is_Some (h !! a)) | _ => True end) /\
      kq_legal h (fst (fifo_step l o)) ops
  end.

Definition kq_inv (h0 h : heap) (q : kqueue_t) (l : list Z) : Prop :=
  kq_repr h q l /\ kq_clean h l /\ (forall x, is_Some (h0 !! x) <-> is_Some (h !! x)).

Lemma kq_inv_insert h0 h q l a :
  kq_inv h0 h q l -> a ∉ l -> a <> 0 -> is_Some (h0 !! a) ->
  exists h' q', kqueue_insert h (Some q) a = Ok (h', Some q') /\ kq_inv h0 h' q' (l ++ [a]).
Proof.
  intros (Hq & [H0 Hc] & Hd) Ha Ha0 [e He]%Hd.
  destruct (kqueue_insert_ok h q l a e Hq Ha Ha0 He) as (h' & q' & Hr & Hq' & _ & Hf).
  { intros _. by apply (Hc a). }
  exists h', q'. split; [done|]. split; [done|]. pose proof (kq_seg _ _ _ Hq') as Hs.
  split; [split|].
  - rewrite Hf; [done|]. by apply seg_no_null in Hs.
  - intros b Hb e' He'. rewrite Hf in He' by done. apply (Hc b); [|done]. set_solver + Hb.
  - intros x. rewrite Hd. destruct (decide (x ∈ l ++ [a])) as [Hx|Hx]; [|by rewrite Hf].
    destruct (seg_lookup _ _ _ _ _ Hs Hx) as [_ Hx']. split; [done|]. intros _.
    apply elem_of_app in Hx as [Hx| ->%list_elem_of_singleton]; [|by exists e].
    by apply (seg_lookup _ _ _ _ _ (kq_seg _ _ _ Hq) Hx).
Qed.

Lemma kq_inv_dequeue h0 h q l a :
  kq_inv h0 h q (a :: l) ->
  exists h' q', kqueue_dequeue h (Some q) = Ok (h', Some q', a) /\ kq_inv h0 h' q' l.
Proof.
  intros (Hq & [H0 Hc] & Hd).
  destruct (kqueue_dequeue_ok h q l a Hq) as (h' & q' & Hr & Hq' & _ & Hu & Hf).
  exists h', q'. split; [done|]. split; [done|]. pose proof (kq_seg _ _ _ Hq') as Hs'.
  pose proof (kq_seg _ _ _ Hq) as Hs.
  split; [split|].
  - rewrite Hf; [done|]. by apply seg_no_null in Hs.
  - intros b Hb e He. destruct (decide (b = a)) as [->|Hne]; [congruence|].
    assert (b ∉ a :: l) by (intros [->|]%elem_of_cons; done).
    rewrite Hf in He by done. by apply (Hc b).
  - intros x. rewrite Hd. destruct (decide (x ∈ a :: l)) as [Hx|Hx]; [|by rewrite Hf].
    destruct (seg_lookup _ _ _ _ _ Hs Hx) as [_ Hx']. split; [|done]. intros _.
    apply elem_of_cons in Hx as [->|Hx]; [by eexists|].
    by apply (seg_lookup _ _ _ _ _ Hs' Hx).
Qed.

(** ** Properties *)

(** C13: the linked queue refines the abstract FIFO queue.  From a
    represented state, any sequence of insertions, removals, emptiness tests
    and counts runs without a fault, returns exactly what the abstract queue
    returns (NULL from an empty queue), and ends in a state that represents the
    abstract result, with every element outside the queue cleared. *)
Theorem kqueue_refines_fifo ops : forall h0 h q l,
  kq_inv h0 h q l -> kq_legal h0 l ops ->
  exists h' q', kq_run (h, Some q) ops = Ok (h', Some q', snd (fifo_run l ops)) /\
    kq_inv h0 h' q' (fst (fifo_run l ops)).
Proof.
  induction ops as [|o ops IH]; intros h0 h q l Hi Hl; [by eauto|].
  cbn in Hl. destruct Hl as [Ho Hl].
  assert (exists h' q', kq_step (h, Some q) o = Ok (h', Some q', snd (fifo_step l o)) /\
      kq_inv h0 h' q' (fst (fifo_step l o))) as (h' & q' & Hst & Hi').
  { destruct o as [a| | |]; cbn.
    - destruct (a =? 0) eqn:E; bdestr; [by eauto|]. destruct Ho as [|[Ha Hx]]; [done|].
      destruct (kq_inv_insert h0 h q l a Hi Ha E Hx) as (h' & q' & Hr & Hi').
      cbn in Hr. rewrite (proj2 (Z.eqb_neq a 0)) in Hr by done. rewrite Hr. cbn. eauto.
    - destruct l as [|a l].
      + assert (Hr := kqueue_dequeue_empty h q (proj1 Hi)). cbn in Hr. rewrite Hr. cbn. eauto.
      + destruct (kq_inv_dequeue h0 h q l a Hi) as (h' & q' & Hr & Hi').
        cbn in Hr. rewrite Hr. cbn. eauto.
    - eexists h, q. split; [|done]. do 3 f_equal. apply (kq_repr_empty _ _ _ (proj1 Hi)).
    - eexists h, q. split; [|done]. do 3 f_equal. apply (proj1 Hi). }
  destruct (IH h0 h' q' _ Hi' Hl) as (h'' & q'' & Hr & Hi'').
  exists h'', q''. cbn [kq_run fifo_run].
  rewrite Hst. cbn [mbind result_bind fst snd]. rewrite Hr. cbn [mbind result_bind fst snd].
  destruct (fifo_step l o) as [l' out]. cbn [fst snd] in *.
  destruct (fifo_run l' ops) as [l'' outs]. done.
Qed.

Lemma kqueue_find_loop_klist {W} fuel (f : Z -> heap * W -> result (heap * W * bool)) p s :
  kqueue_find_loop fuel f p s = KLIST_HEAD_FIND_FIRST fuel f p 0 s.
Proof.
  revert p s. induction fuel as [|fuel IH]; intros p s; [done|]. cbn.
  destruct (p =? 0); [done|]. destruct (deref (fst s) p) as [e|]; [|done]. cbn.
  destruct (f p s) as [[s' []]|]; cbn; [done|apply IH|done].
Qed.

(** The client's side of a drop: the callback finds the element detached, may
    reuse it as it likes, touches no other element, and changes the client's
    state by [eff]. *)
Definition drop_contract {W} (call : Z -> Z -> heap * W -> result (heap * W))
    (f : Z) (eff : Z -> W -> W) : Prop :=
  forall x h w, h !! x = Some unlinked ->
  exists h', call f x (h, w) = Ok (h', eff x w) /\ same_outside [x] h h'.

Definition drop_effects {W} (eff : Z -> W -> W) (l : list Z) (w : W) : W :=
  foldl (fun w x => eff x w) w l.

Lemma kq_repr_frame h h' q l a :
  a ∉ l -> same_outside [a] h h' -> kq_repr h q l -> kq_repr h' q l.
Proof.
  intros Ha Hf []. constructor; try done. eapply seg_frame, kq_seg0.
  intros b Hb. apply Hf. intros ->%list_elem_of_singleton. done.
Qed.

(** One removal together with its callback. *)
Lemma kqueue_drop_one {W} (call : Z -> Z -> heap * W -> result (heap * W)) eff h w q a l :
  kq_repr h q (a :: l) -> f_drop q <> 0 -> drop_contract call (f_drop q) eff ->
  exists h1 q' h', kqueue_dequeue h (Some q) = Ok (h1, Some q', a) /\
    f_drop q' = f_drop q /\ call (f_drop q) a (h1, w) = Ok (h', eff a w) /\ kq_repr h' q' l.
Proof.
  intros Hq Hf Hc. destruct (kqueue_dequeue_ok h q l a Hq) as (h1 & q' & Hd & Hq' & Hfd & Hu & _).
  destruct (Hc a h1 w Hu) as (h' & Hcall & Hs). exists h1, q', h'. split_and!; try done.
  eapply kq_repr_frame; [|done..].
  pose proof (kq_nodup _ _ _ Hq) as Hnd. by apply NoDup_cons in Hnd as [? _].
Qed.

(** [kqueue_drop_all] empties the queue and, when a callback is
    registered, calls it once on every element, oldest first; it terminates
    within one iteration more than there are elements. *)
Theorem kqueue_drop_all_drops {W} (call : Z -> Z -> heap * W -> result (heap * W)) eff
    l : forall h w q,
  kq_repr h q l -> (f_drop q <> 0 -> drop_contract call (f_drop q) eff) ->
  exists h' q',
    kqueue_drop_all call (S (length l)) (h, w) (Some q) =
      Ok (h', if f_drop q =? 0 then w else drop_effects eff l w, Some q') /\
    kq_repr h' q' [] /\ f_drop q' = f_drop q.
Proof.
  induction l as [|a l IH]; intros h w q Hq Hc.
  - exists h, q. cbn [length kqueue_drop_all]. rewrite (kq_repr_empty _ _ _ Hq). cbn.
    split_and!; [|done..]. by destruct (_ =? _).
  - cbn [length]. remember (S (length l)) as n. cbn [kqueue_drop_all fst snd].
    rewrite (kq_repr_empty _ _ _ Hq), bool_decide_eq_false_2 by done.
    destruct (f_drop q =? 0) eqn:E; bdestr.
    + destruct (kqueue_dequeue_ok h q l a Hq) as (h1 & q' & Hd & Hq' & Hfd & _).
      rewrite Hd. cbn [mbind result_bind]. rewrite Hfd, E. cbn [mbind result_bind Z.eqb].
      destruct (IH h1 w q' Hq') as (h' & q'' & Hr & ?); [rewrite Hfd; done|].
      rewrite Hr, Hfd, E in *. eauto.
    + destruct (kqueue_drop_one call eff h w q a l Hq E (Hc E))
        as (h1 & q' & h' & Hd & Hfd & Hcall & Hq').
      rewrite Hd. cbn [mbind result_bind]. rewrite Hfd, (proj2 (Z.eqb_neq _ 0)), Hcall by done.
      cbn [mbind result_bind].
      destruct (IH h' (eff a w) q' Hq') as (h'' & q'' & Hr & Hq'' & Hf''); [by rewrite Hfd|].
      rewrite Hr, Hfd, (proj2 (Z.eqb_neq _ 0)) in * by done. exists h'', q''.
      split_and!; [done..|congruence].
Qed.

(** [kqueue_drop_all_through_elem] drops the elements up to and including
    the requested one and keeps the rest; it drops everything when the element
    is not queued.  It calls [f_drop] without testing it, so a non-empty queue
    without a callback is a fault.  [kqueue_find_first] returns the first
    element that the predicate accepts, NULL when there is none. *)
Theorem kqueue_drop_through_and_find {W}
    (call : Z -> Z -> heap * W -> result (heap * W)) eff find h w q l :
  kq_repr h q l ->
  (f_drop q <> 0 -> drop_contract call (f_drop q) eff -> forall a,
     (forall l1 l2, l = l1 ++ a :: l2 -> exists h' q',
        kqueue_drop_all_through_elem call (S (length l)) (h, w) (Some q) a =
          Ok (h', drop_effects eff (l1 ++ [a]) w, Some q') /\ kq_repr h' q' l2) /\
     (a ∉ l -> exists h' q',
        kqueue_drop_all_through_elem call (S (length l)) (h, w) (Some q) a =
          Ok (h', drop_effects eff l w, Some q') /\ kq_repr h' q' [])) /\
  (f_drop q = 0 -> l <> [] -> forall a fuel,
     kqueue_drop_all_through_elem call (S fuel) (h, w) (Some q) a = Err BadPointer) /\
  ((forall x s s' b, x ∈ l -> find x s = Ok (s', b) -> keeps_next l x (fst s) (fst s')) ->
     kqueue_find_first (S (length l)) (h, w) (Some q) find = visit_until find l 0 (h, w)).
Proof.
  intros Hq. split_and!.
  - intros Hf0 Hc a. revert h w q Hq Hf0 Hc.
    induction l as [|b l IH]; intros h w q Hq Hf0 Hc.
    + split; [by intros [|? ?]|]. intros _. exists h, q.
      cbn [length kqueue_drop_all_through_elem fst snd].
      rewrite (kqueue_dequeue_empty _ _ Hq). done.
    + assert (Hb0 : b <> 0) by apply (kq_seg _ _ _ Hq).
      destruct (kqueue_drop_one call eff h w q b l Hq Hf0 Hc)
        as (h1 & q' & h' & Hd & Hfd & Hcall & Hq').
      cbn [length]. remember (S (length l)) as n. cbn [kqueue_drop_all_through_elem fst snd].
      rewrite Hd. cbn [mbind result_bind].
      rewrite Hfd, !(proj2 (Z.eqb_neq _ 0)), Hcall by done. cbn [mbind result_bind].
      destruct (IH h' (eff b w) q' Hq') as [IH1 IH2]; [by rewrite Hfd..|]. split.
      * intros [|b' l1] l2 Hl; injection Hl as -> Hl.
        { subst. rewrite Z.eqb_refl. exists h', q'. done. }
        assert (Hnb : a <> b').
        { intros ->. pose proof (kq_nodup _ _ _ Hq) as [Hn _]%NoDup_cons. subst.
          apply Hn. set_solver +. }
        rewrite (proj2 (Z.eqb_neq _ _)) by done. apply IH1, Hl.
      * intros Ha. apply not_elem_of_cons in Ha as [Hne Ha].
        rewrite (proj2 (Z.eqb_neq _ _)) by done. apply IH2, Ha.
  - intros Hf Hl a fuel. destruct l as [|b l]; [done|].
    destruct (kqueue_dequeue_ok h q l b Hq) as (h' & q' & Hd & Hq' & Hfd & _).
    cbn [kqueue_drop_all_through_elem fst snd]. rewrite Hd. cbn [mbind result_bind].
    assert (Hb0 : b <> 0) by apply (kq_seg _ _ _ Hq).
    rewrite (proj2 (Z.eqb_neq b 0)), Hfd, Hf by done. done.
  - intros Hk. unfold kqueue_find_first. destruct Hq as [Hnd Hs -> _ _].
    rewrite kqueue_find_loop_klist. apply klist_find_visit; [done| |done].
    by apply (seg_next_chain _ 0).
Qed.

(** What [kq_clean] rules out: the first element of a queue keeps its links.  If
    its [next] pointed to some [g], the queue is unusable after it has been
    removed: it reports that it is empty, yet the next insertion leaves [g] at
    its head, and the removal returns [g] instead of the element inserted. *)
Lemma kqueue_insert_dirty h a g b q :
  kq_repr h q [] -> a <> 0 -> g <> 0 -> b <> 0 -> NoDup [a; g; b] ->
  h !! a = Some {| prev := 0; next := g |} -> h !! g = Some unlinked -> h !! b = Some unlinked ->
  exists h1 q1 h2 q2,
    kq_run (h, Some q) [KInsert a; KDequeue; KIsEmpty] =
      Ok (h1, Some q1, [ONone; OElem a; OBool true]) /\
    kq_run (h1, Some q1) [KInsert b; KDequeue] = Ok (h2, Some q2, [ONone; OElem g]).
Proof.
  intros [_ _ Hh Ht _] Ha Hg Hb Hnd Hla Hlg Hlb.
  assert (a <> g /\ a <> b /\ g <> b) as (Hag & Hab & Hgb).
  { apply NoDup_cons in Hnd as [H1 Hnd]. apply NoDup_cons in Hnd as [H2 _].
    set_solver + H1 H2. }
  cbn in Hh, Ht. set (h1 := <[a := unlinked]> (<[g := unlinked]> h)).
  exists h1, {| p_head := g; p_tail := 0; f_drop := f_drop q;
                item_count := u32 (u32 (item_count q + 1) - 1) |}.
  assert (Hlg' : h1 !! g = Some unlinked) by (unfold h1; heap_lookup; done).
  assert (Hlb' : h1 !! b = Some unlinked) by (unfold h1; heap_lookup; done).
  eexists _, _. split.
  - cbn. rewrite (proj2 (Z.eqb_neq a 0)) by done. unfold KLIST_TAIL_APPEND.
    rewrite (proj2 (Z.eqb_neq a 0)), Hh, Ht by done. cbn.
    rewrite (proj2 (Z.eqb_neq a 0)), Z.eqb_refl by done. cbn. rewrite (deref_eq _ _ _ Hla). cbn.
    unfold KLIST_REMOVE_ELEM. rewrite (proj2 (Z.eqb_neq a 0)) by done. heap_step.
    rewrite (proj2 (Z.eqb_neq g 0)) by done. do 4 heap_step.
    rewrite orb_true_r. unfold h1. rewrite !insert_insert_eq. done.
  - cbn. rewrite (proj2 (Z.eqb_neq b 0)) by done. unfold KLIST_TAIL_APPEND.
    rewrite (proj2 (Z.eqb_neq b 0)) by done. cbn.
    rewrite (proj2 (Z.eqb_neq g 0)) by done. cbn.
    rewrite (proj2 (Z.eqb_neq g 0)), (proj2 (Z.eqb_neq b 0)), (proj2 (Z.eqb_neq g b)) by done.
    cbn. rewrite (deref_eq _ _ _ Hlg'). cbn.
    unfold KLIST_REMOVE_ELEM. rewrite (proj2 (Z.eqb_neq g 0)) by done. do 4 heap_step. done.
Qed.

(** ** Witnesses *)

Definition ex_free_heap : heap := <[1 := unlinked]> (<[2 := unlinked]> (<[3 := unlinked]> ∅)).

Definition ex_queue : kqueue_t := {| p_head := 0; p_tail := 0; f_drop := 0; item_count := 0 |}.

Definition ex_queue3 (f : Z) : kqueue_t :=
  {| p_head := 2; p_tail := 4; f_drop := f; item_count := 3 |}.

Lemma ex_queue_inv : kq_inv ex_free_heap ex_free_heap ex_queue [].
Proof.
  split; [|split; [split|]]; [|reflexivity| |done].
  - constructor; done || apply NoDup_nil_2.
  - intros a _ e. unfold ex_free_heap. rewrite !lookup_insert_Some, lookup_empty. naive_solver.
Qed.

Lemma ex_queue3_repr f : kq_repr ex_heap (ex_queue3 f) [2; 3; 4].
Proof. constructor; [by apply (bool_decide_unpack _)|exact ex_heap_seg|done..]. Qed.

Lemma kqueue_refines_fifo_witness :
  exists h' q',
    kq_run (ex_free_heap, Some ex_queue)
      [KInsert 1; KInsert 3; KCount; KDequeue; KInsert 1; KDequeue; KDequeue; KDequeue; KIsEmpty] =
    Ok (h', Some q', [ONone; ONone; OCount 2; OElem 1; ONone; OElem 3; OElem 1; OElem 0; OBool true]).
Proof.
  destruct (kqueue_refines_fifo
      [KInsert 1; KInsert 3; KCount; KDequeue; KInsert 1; KDequeue; KDequeue; KDequeue; KIsEmpty]
      ex_free_heap ex_free_heap ex_queue [] ex_queue_inv) as (h' & q' & H & _).
  - cbn. repeat split; right; (split; [set_solver|by eexists]).
  - exists h', q'. rewrite H. reflexivity.
Defined.

(** The client counts what is dropped. *)
Definition ex_call (f x : Z) (s : heap * list Z) : result (heap * list Z) :=
  Ok (<[x := {| prev := 9; next := 9 |}]> (fst s), x :: snd s).

Lemma ex_call_contract f : drop_contract ex_call f cons.
Proof.
  intros x h w _. eexists. split; [reflexivity|]. intros y Hy. cbn.
  apply lookup_insert_ne. set_solver.
Qed.

Lemma kqueue_drop_all_drops_witness :
  exists h' q', kqueue_drop_all ex_call 4 (ex_heap, []) (Some (ex_queue3 5)) =
    Ok (h', [4; 3; 2], Some q').
Proof.
  destruct (kqueue_drop_all_drops ex_call cons [2; 3; 4] ex_heap [] (ex_queue3 5))
    as (h' & q' & H & _).
  - apply ex_queue3_repr.
  - intros _. apply ex_call_contract.
  - exists h', q'. cbn [length] in H. rewrite H. reflexivity.
Defined.

Lemma kqueue_drop_through_and_find_witness :
  (exists h' q', kqueue_drop_all_through_elem ex_call 4 (ex_heap, [] : list Z) (Some (ex_queue3 5)) 3 =
     Ok (h', [3; 2], Some q')) /\
  kqueue_drop_all_through_elem ex_call 4 (ex_heap, [] : list Z) (Some (ex_queue3 0)) 3 = Err BadPointer /\
  kqueue_find_first 4 (ex_heap, [] : list Z) (Some (ex_queue3 0)) (fun x s => Ok (s, 2 <? x)) =
    Ok (ex_heap, [], 3).
Proof.
  destruct (kqueue_drop_through_and_find ex_call cons (fun x s => Ok (s, 2 <? x)) ex_heap ([] : list Z)
      (ex_queue3 5) [2; 3; 4] (ex_queue3_repr 5)) as (H1 & _ & _).
  destruct (kqueue_drop_through_and_find ex_call cons (fun x s => Ok (s, 2 <? x)) ex_heap ([] : list Z)
      (ex_queue3 0) [2; 3; 4] (ex_queue3_repr 0)) as (_ & H2 & H3).
  destruct (H1 ltac:(discriminate) (ex_call_contract 5) 3) as [H1' _].
  destruct (H1' [2] [4] eq_refl) as (h' & q' & H & _).
  split; [exists h', q'; cbn [length] in H; rewrite H; reflexivity|]. split.
  - apply H2; [reflexivity|discriminate].
  - cbn [length] in H3. rewrite H3; [reflexivity|]. intros x s s' b _ [= <- _] y _ _. reflexivity.
Defined.
