(* ===== verification/FreeList.v ===== *)
(** The free list of inc/cutils/free_list.h: equally sized items of one array,
    chained through the links at their start. *)
From S2P Require Import Prelude KList.
From stdpp Require Import list gmap.
From Stdlib Require Import ZArith Lia.
Local Open Scope Z_scope.

(** ** Data *)

Record free_list_t := {
  head : Z;
  data_store : Z;
  item_size : Z;
  item_count : Z;
  current_available : Z
}.

(** [fp_list] and [fp_data_store] are nullable. *)
Record free_list_create_params_t := {
  fp_list : option free_list_t;
  fp_data_store : Z;
  fp_item_size : Z;
  fp_item_count : Z
}.

Definition set_head (l : free_list_t) (hd avail : Z) : free_list_t :=
  {| head := hd; data_store := data_store l; item_size := item_size l;
     item_count := item_count l; current_available := avail |}.

(** ** Operations *)

(** The address of the [i]-th item. *)
Definition item_at (store size i : Z) : Z := store + u64 (size * i).

(** The [for] loop, with [n] iterations left. *)
Fixpoint free_list_init_loop (n : nat) (i : Z) (p : free_list_create_params_t)
    (h : heap) (l : free_list_t) : result (heap * free_list_t) :=
  match n with
  | O => Ok (h, l)
  | S n =>
      r ← KLIST_HEAD_PREPEND h (head l) (item_at (fp_data_store p) (fp_item_size p) i);
      let l' := set_head l (snd r) (u64 (current_available l + 1)) in
      free_list_init_loop n (i + 1) p (fst r) l'
  end.

(** The list object (if there is one) and whether it is returned. *)
Definition free_list_init (h : heap) (p : free_list_create_params_t)
  : result (heap * option free_list_t * bool) :=
  match fp_list p with
  | Some _ =>
      if negb (fp_data_store p =? 0) && (0 <? fp_item_size p) then
        let l := {| head := 0; data_store := fp_data_store p; item_size := fp_item_size p;
                    item_count := fp_item_count p; current_available := 0 |} in
        r ← free_list_init_loop (Z.to_nat (fp_item_count p)) 0 p h l;
        Ok (fst r, Some (snd r), true)
      else Ok (h, fp_list p, false)
  | None => Ok (h, None, false)
  end.

Definition free_list_get (h : heap) (l : free_list_t) : result (heap * free_list_t * Z) :=
  if negb (head l =? 0) && (0 <? current_available l) then
    r ← KLIST_HEAD_POP h (head l);
    let '(h', hd, item) := r in
    Ok (h', set_head l hd (u64 (current_available l - 1)), item)
  else Ok (h, l, 0).

Definition free_list_put (h : heap) (list : option free_list_t) (item : Z)
  : result (heap * option free_list_t * bool) :=
  match list with
  | Some l =>
      if current_available l <? item_count l then
        r ← KLIST_HEAD_PREPEND h (head l) item;
        Ok (fst r, Some (set_head l (snd r) (u64 (current_available l + 1))), true)
      else Ok (h, Some l, false)
  | None => Ok (h, None, false)
  end.

(** ** Representation *)

(** The free items are [l], the next one to hand out first.  The last one's
    [next] is [nx]: NULL when the store was zeroed, otherwise what the memory
    held, since prepending to an empty list does not write the links. *)
Record fl_repr (h : heap) (fl : free_list_t) (l : list Z) (nx : Z) : Prop := {
  fl_nodup : NoDup l;
  fl_seg : exists pv, seg h pv l nx;
  fl_head : head fl = first nx l;
  fl_avail : current_available fl = Z.of_nat (length l);
  fl_cap : Z.of_nat (length l) <= item_count fl;
  fl_count : is_u64 (item_count fl)
}.

(** The items of a store, in address order. *)
Definition items (p : free_list_create_params_t) : list Z :=
  (fun i => item_at (fp_data_store p) (fp_item_size p) (Z.of_nat i)) <$>
    seq 0 (Z.to_nat (fp_item_count p)).

(** The store the creator promises: the items are distinct objects. *)
Record store_ok (h : heap) (p : free_list_create_params_t) : Prop := {
  so_list : is_Some (fp_list p);
  so_store : fp_data_store p <> 0;
  so_size : 0 < fp_item_size p;
  so_count : is_u64 (fp_item_count p);
  so_nodup : NoDup (items p);
  so_alloc : forall a, a ∈ items p -> a <> 0 /\ is_Some (h !! a)
}.

Lemma fl_prepend h pv l nx a e :
  NoDup l -> a ∉ l -> a <> 0 -> h !! a = Some e -> seg h pv l nx ->
  (l = [] -> nx = 0) ->
  exists h', KLIST_HEAD_PREPEND h (first nx l) a = Ok (h', a) /\
    (exists pv', seg h' pv' (a :: l) (if bool_decide (l = []) then next e else nx)) /\
    same_outside (a :: l) h h'.
Proof.
  intros Hnd Ha Ha0 He Hs Hnx. case_bool_decide as Hl.
  - subst. rewrite (Hnx eq_refl). cbn [first]. rewrite klist_head_prepend_empty by done.
    exists h. split_and!; [done| |done]. exists (prev e). cbn. destruct e. done.
  - destruct (klist_head_prepend_seg h pv l nx a e) as (h' & ? & ? & ?); eauto.
Qed.

Lemma items_length p : length (items p) = Z.to_nat (fp_item_count p).
Proof. unfold items. by rewrite length_fmap, length_seq. Qed.

(** The item that the loop puts in front is none of those that are chained. *)
Lemma next_item p h k :
  store_ok h p -> (k < Z.to_nat (fp_item_count p))%nat ->
  let a := item_at (fp_data_store p) (fp_item_size p) (Z.of_nat k) in
  items p !! k = Some a /\ a <> 0 /\ is_Some (h !! a) /\ a ∉ take k (items p).
Proof.
  intros Hp Hk a. assert (Ha : items p !! k = Some a)
    by (unfold items; by rewrite list_lookup_fmap, lookup_seq_lt by lia).
  destruct (so_alloc _ _ Hp a (list_elem_of_lookup_2 _ _ _ Ha)) as [Ha0 He]. split_and!; try done.
  intros (i & Hi & Hik)%elem_of_take. pose proof (NoDup_lookup _ _ _ _ (so_nodup _ _ Hp) Ha Hi). lia.
Qed.

(** The loop invariant: the first [k] items are chained, newest first, and the
    store of the others is as it was. *)
Lemma free_list_init_loop_ok p h0 e0 : store_ok h0 p ->
  h0 !! item_at (fp_data_store p) (fp_item_size p) 0 = Some e0 ->
  forall n k h fl, (k + n = Z.to_nat (fp_item_count p))%nat ->
  fl_repr h fl (reverse (take k (items p))) (if decide (k = 0)%nat then 0 else next e0) ->
  item_count fl = fp_item_count p ->
  same_outside (take k (items p)) h0 h ->
  exists h' fl', free_list_init_loop n (Z.of_nat k) p h fl = Ok (h', fl') /\
    fl_repr h' fl' (reverse (items p)) (if decide (items p = []) then 0 else next e0) /\
    same_outside (items p) h0 h' /\ item_count fl' = fp_item_count p.
Proof.
  intros Hp He0. pose proof (items_length p) as Hlen.
  induction n as [|n IH]; intros k h fl Hk Hfl Hc Hf; cbn.
  - rewrite take_ge in * by lia. exists h, fl. split_and!; [done| |done|done].
    destruct (decide (k = 0)%nat), (decide (items p = [])) as [Hi|Hi];
      rewrite ?Hi in *; cbn in *; try lia; try done.
    exfalso. apply Hi, nil_length_inv. lia.
  - set (a := item_at (fp_data_store p) (fp_item_size p) (Z.of_nat k)).
    destruct (next_item p h0 k Hp ltac:(lia)) as (Ha & Ha0 & [e He] & Hnin). fold a in Ha, Ha0, He, Hnin.
    destruct Hfl as [Hn [pv Hs] Hh Hav Hcap Hcnt].
    destruct (fl_prepend h pv (reverse (take k (items p)))
        (if decide (k = 0)%nat then 0 else next e0) a e)
      as (h' & Hr & Hs' & Hf'); [done|by rewrite elem_of_reverse|done|by rewrite Hf|done| |].
    { intros Hnil. apply (f_equal length) in Hnil.
      rewrite length_reverse, length_take in Hnil. cbn in Hnil.
      destruct (decide (k = 0)%nat); [done|lia]. }
    rewrite Hh, Hr. cbn [mbind result_bind fst snd].
    replace (Z.of_nat k + 1) with (Z.of_nat (S k)) by lia.
    rewrite length_reverse, length_take_le in Hav by lia.
    apply IH; [lia| |done|]; rewrite (take_S_r _ _ _ Ha).
    + rewrite reverse_snoc. split; cbn [head set_head current_available item_count first].
      * apply NoDup_cons. rewrite elem_of_reverse. done.
      * destruct Hs' as [pv' Hs']. exists pv'. destruct (decide (S k = 0)%nat); [lia|].
        case_bool_decide as Hb; [|by destruct (decide (k = 0)%nat) as [->|]; [done|]].
        apply (f_equal length) in Hb. rewrite length_reverse, length_take in Hb. cbn in Hb.
        assert (k = 0)%nat as -> by lia. subst a. change (Z.of_nat 0) with 0 in *.
        rewrite He0 in He. injection He as ->. exact Hs'.
      * done.
      * cbn [length]. rewrite length_reverse, length_take_le, Hav by lia.
        rewrite Hc in Hcnt. rewrite u64_small; [lia|]. words.
      * cbn [length]. rewrite length_reverse, length_take_le by lia. rewrite Hc.
        pose proof (so_count _ _ Hp). words.
      * done.
    + eapply same_outside_trans; [eapply same_outside_mono, Hf; set_solver +|].
      eapply same_outside_mono, Hf'. intros x. rewrite elem_of_cons, elem_of_reverse.
      set_solver +.
Qed.

(** ** Properties *)

(** [free_list_init] chains every item of the store, so that the list hands
    out the last item first and all [item_count] items are available; it
    refuses a NULL list or store and an empty item, and then changes nothing.
    The [next] link of the first item, the end of the chain, is not
    initialised: it stays what the memory held. *)
Theorem free_list_init_all_available h p :
  (store_ok h p -> forall e0,
     (0 < fp_item_count p -> h !! item_at (fp_data_store p) (fp_item_size p) 0 = Some e0) ->
     exists h' fl, free_list_init h p = Ok (h', Some fl, true) /\
       fl_repr h' fl (reverse (items p)) (if fp_item_count p =? 0 then 0 else next e0) /\
       current_available fl = fp_item_count p /\ item_count fl = fp_item_count p /\
       same_outside (items p) h h') /\
  (fp_list p = None \/ fp_data_store p = 0 \/ fp_item_size p <= 0 ->
     free_list_init h p = Ok (h, fp_list p, false)).
Proof.
  split.
  - intros Hp e0 He0. unfold free_list_init. destruct (so_list _ _ Hp) as [l0 ->].
    rewrite (proj2 (Z.eqb_neq _ _)) by apply (so_store _ _ Hp).
    rewrite (proj2 (Z.ltb_lt _ _)) by apply (so_size _ _ Hp). cbn [negb andb].
    pose proof (so_count _ _ Hp) as Hcnt.
    assert (Hlen : length (items p) = Z.to_nat (fp_item_count p))
      by (unfold items; by rewrite length_fmap, length_seq).
    destruct (fp_item_count p =? 0) eqn:E; bdestr.
    + rewrite E. cbn. eexists _, _. split; [reflexivity|].
      rewrite E in Hlen. apply nil_length_inv in Hlen as ->. split_and!; try done.
      split; try done; first [apply NoDup_nil_2|by exists 0].
    + set (l := {| head := 0; data_store := _; item_size := _; item_count := _;
                   current_available := 0 |}).
      destruct (free_list_init_loop_ok p h e0 Hp (He0 ltac:(words)) (Z.to_nat (fp_item_count p))
          0 h l) as (h' & fl' & Hr & Hfl & Hf & Hc); try done.
      { split; cbn; try done; [apply NoDup_nil_2|by exists 0|]. rewrite take_0. cbn. apply Hcnt. }
      change (Z.of_nat 0) with 0 in Hr. rewrite Hr. cbn. exists h', fl'.
      rewrite decide_False in Hfl by (intros Hi; rewrite Hi in Hlen; cbn in Hlen; words).
      split_and!; try done. rewrite (fl_avail _ _ _ _ Hfl), length_reverse, Hlen. words.
  - intros Hx. unfold free_list_init. destruct (fp_list p) as [l|]; [|done].
    destruct Hx as [|[->|Hx]]; [done|done|].
    rewrite (proj2 (Z.ltb_ge _ _)) by done. by rewrite andb_false_r.
Qed.

(** C36: the free list is a stack of free items bounded by [item_count].
    [free_list_get] returns the top item, which is then no longer in the list, so
    no item is handed out twice; it returns NULL exactly when there is none.
    [free_list_put] pushes an item that is not in the list and is refused when
    the list is full.  If the store was not zeroed ([nx] is not NULL), the chain
    does not end when the last item is taken, and a put then writes through
    the stale link: a fault unless it happens to be an object. *)
Theorem free_list_get_put h fl l nx :
  fl_repr h fl l nx ->
  match l with
  | [] => free_list_get h fl = Ok (h, fl, 0)
  | a :: l' => a <> 0 /\ a ∉ l' /\ exists h' fl',
      free_list_get h fl = Ok (h', fl', a) /\ fl_repr h' fl' l' nx /\
      h' !! a = Some unlinked /\ same_outside (a :: l') h h'
  end /\
  (forall a e, a ∉ l -> a <> 0 -> h !! a = Some e ->
     if Z.of_nat (length l) <? item_count fl then
       ((l = [] -> nx = 0) -> exists h' fl',
          free_list_put h (Some fl) a = Ok (h', Some fl', true) /\
          fl_repr h' fl' (a :: l) (if bool_decide (l = []) then next e else nx) /\
          same_outside (a :: l) h h') /\
       (l = [] -> nx <> 0 -> h !! nx = None ->
          free_list_put h (Some fl) a = Err BadPointer)
     else free_list_put h (Some fl) a = Ok (h, Some fl, false)).
Proof.
  intros [Hnd [pv Hs] Hh Hav Hcap Hcnt]. split.
  - unfold free_list_get. rewrite Hh, Hav. destruct l as [|a l'].
    { cbn. by rewrite andb_false_r. }
    apply NoDup_cons in Hnd as [Ha Hnd]. assert (Ha0 : a <> 0) by apply Hs.
    split_and!; [done|done|]. cbn [first]. rewrite (proj2 (Z.eqb_neq a 0)) by done.
    rewrite (proj2 (Z.ltb_lt _ _)) by (cbn; lia). cbn [negb andb].
    destruct (klist_head_pop_seg h pv l' nx a Ha Hs) as (h' & Hr & Hs' & Hu & Hf).
    rewrite Hr. cbn [mbind result_bind]. eexists _, _. split; [reflexivity|].
    split_and!; [split; cbn [head set_head current_available item_count]|done|].
    + done.
    + by exists a.
    + done.
    + cbn [length] in *. rewrite u64_small; words.
    + cbn [length] in Hcap. lia.
    + done.
    + eapply same_outside_mono, Hf. set_solver +.
  - intros a e Ha Ha0 He. unfold free_list_put. rewrite Hav.
    destruct (_ <? _) eqn:E; bdestr; [|done]. split.
    + intros Hnx. destruct (fl_prepend h pv l nx a e) as (h' & Hr & Hs' & Hf); try done.
      rewrite Hh, Hr. cbn [mbind result_bind fst snd]. eexists _, _. split; [reflexivity|].
      split; [split; cbn [head set_head current_available item_count]|done]; try done.
      * by apply NoDup_cons.
      * cbn [length]. rewrite u64_small; words.
      * cbn [length]. lia.
    + intros -> Hnx Hnone. cbn [first] in Hh. rewrite Hh. unfold KLIST_HEAD_PREPEND.
      rewrite !(proj2 (Z.eqb_neq _ 0)) by done. unfold set_prev, deref. rewrite Hnone. done.
Qed.

(** ** Witnesses *)

(** Three items of 16 bytes at address 100; the first one holds the stale link
    [g]. *)
Definition ex_store (g : Z) : heap :=
  <[100 := {| prev := 0; next := g |}]> (<[116 := unlinked]> (<[132 := unlinked]> ∅)).

Definition ex_params : free_list_create_params_t :=
  {| fp_list := Some {| head := 7; data_store := 7; item_size := 7; item_count := 7;
                        current_available := 7 |};
     fp_data_store := 100; fp_item_size := 16; fp_item_count := 3 |}.

Lemma ex_store_ok g : store_ok (ex_store g) ex_params.
Proof.
  split; [by eexists|done|done|done|by apply (bool_decide_unpack _)|].
  intros a Ha. change (items ex_params) with [100; 116; 132] in Ha.
  apply elem_of_cons in Ha as [->|[->|[->|Ha%elem_of_nil]%elem_of_cons]%elem_of_cons];
    [split; [done|by eexists]..|done].
Qed.

Lemma free_list_init_all_available_witness :
  exists h' fl, free_list_init (ex_store 5) ex_params = Ok (h', Some fl, true) /\
    current_available fl = 3 /\ fl_repr h' fl [132; 116; 100] 5.
Proof.
  destruct (free_list_init_all_available (ex_store 5) ex_params) as [H _].
  destruct (H (ex_store_ok 5) {| prev := 0; next := 5 |}) as (h' & fl & Hr & Hfl & Ha & _).
  - intros _. reflexivity.
  - exists h', fl. split; [exact Hr|]. split; [exact Ha|exact Hfl].
Defined.

Definition ex_free_list (a n : Z) : free_list_t :=
  {| head := a; data_store := 100; item_size := 16; item_count := 3; current_available := n |}.

Lemma free_list_get_put_witness :
  (exists h' fl', free_list_get (ex_store 5) (ex_free_list 100 1) = Ok (h', fl', 100)) /\
  free_list_put (ex_store 5) (Some (ex_free_list 5 0)) 116 = Err BadPointer.
Proof.
  destruct (free_list_get_put (ex_store 5) (ex_free_list 100 1) [100] 5) as [H1 _].
  - split; try done; [apply NoDup_singleton|by exists 0].
  - destruct (free_list_get_put (ex_store 5) (ex_free_list 5 0) [] 5) as [_ H2].
    + split; try done; [apply NoDup_nil_2|by exists 0].
    + split.
      * destruct H1 as (_ & _ & h' & fl' & Hg & _). exists h', fl'. exact Hg.
      * refine (proj2 (H2 116 unlinked _ _ _) _ _ _); try done. set_solver.
Defined.
