(* ===== verification/Bst.v ===== *)
(** The binary search tree of src/bst.c and inc/cutils/bst.h.

    A node is a [KListElem] whose [prev] is the left child and whose [next] is
    the right child, in the store of KList.  The comparison is client code on two
    elements; it is a function here, so it must not depend on what the tree
    operations change (the links). *)
From S2P Require Import Prelude KList.
From stdpp Require Import list gmap sorting.
From Stdlib Require Import ZArith Lia.
Local Open Scope Z_scope.

(** ** Data *)

Record bst_t := { root : Z; f_less : Z -> Z -> Z }.

(** ** Operations *)

Definition bst_init (bst : option bst_t) (less : option (Z -> Z -> Z)) : option bst_t :=
  match bst, less with
  | Some _, Some f => Some {| root := 0; f_less := f |}
  | _, _ => bst
  end.

(** The [while] loop of [bst_insert]: the last node on the way down. *)
Fixpoint bst_find_parent (fuel : nat) (h : heap) (less : Z -> Z -> Z)
    (elem current parent : Z) : result Z :=
  match fuel with
  | O => Err OutOfFuel
  | S fuel =>
      if current =? 0 then Ok parent
      else
        e ← deref h current;
        bst_find_parent fuel h less elem
          (if less elem current <? 0 then prev e else next e) current
  end.

Definition bst_insert (fuel : nat) (h : heap) (bst : option bst_t) (elem : Z)
  : result (heap * option bst_t) :=
  match bst with
  | None => Err AssertFailed
  | Some b =>
      h ← set_next h elem 0;
      h ← set_prev h elem 0;
      if root b =? 0 then Ok (h, Some {| root := elem; f_less := f_less b |})
      else
        parent ← bst_find_parent fuel h (f_less b) elem (root b) 0;
        h ← (if f_less b elem parent <? 0 then set_prev h parent elem
             else set_next h parent elem);
        Ok (h, Some b)
  end.

Fixpoint bst_search_inner (fuel : nat) (h : heap) (root key : Z) (less : Z -> Z -> Z)
  : result Z :=
  match fuel with
  | O => Err OutOfFuel
  | S fuel =>
      if (root =? 0) || (less key root =? 0) then Ok root
      else
        e ← deref h root;
        if less key root <? 0 then bst_search_inner fuel h (prev e) key less
        else bst_search_inner fuel h (next e) key less
  end.

Definition bst_search (fuel : nat) (h : heap) (bst : option bst_t) (key : Z) : result Z :=
  match bst with
  | None => Err AssertFailed
  | Some b => bst_search_inner fuel h (root b) key (f_less b)
  end.

(** The links are read before and after the callback, which may change the
    store and its own state (with the variadic arguments it consumes). *)
Fixpoint bst_traverse_inner {W} (fuel : nat) (fn : Z -> heap * W -> result (heap * W))
    (root : Z) (s : heap * W) : result (heap * W) :=
  match fuel with
  | O => Err OutOfFuel
  | S fuel =>
      if root =? 0 then Ok s
      else
        e ← deref (fst s) root;
        s ← bst_traverse_inner fuel fn (prev e) s;
        s ← fn root s;
        e ← deref (fst s) root;
        bst_traverse_inner fuel fn (next e) s
  end.

Definition bst_traverse {W} (fuel : nat) (bst : option bst_t)
    (fn : Z -> heap * W -> result (heap * W)) (s : heap * W) : result (heap * W) :=
  match bst with
  | None => Err BadPointer
  | Some b => bst_traverse_inner fuel fn (root b) s
  end.

(** ** Abstract trees *)

Inductive tree : Type := Leaf | Node (l : tree) (a : Z) (r : tree).

#[export] Instance tree_eq_dec : EqDecision tree.
Proof. solve_decision. Defined.

Fixpoint inorder (t : tree) : list Z :=
  match t with Leaf => [] | Node l a r => inorder l ++ a :: inorder r end.

Fixpoint height (t : tree) : nat :=
  match t with Leaf => O | Node l _ r => S (Nat.max (height l) (height r)) end.

Definition top (t : tree) : Z := match t with Leaf => 0 | Node _ a _ => a end.

(** [t] is in the store at the pointer [top t]. *)
Fixpoint tree_in (h : heap) (t : tree) : Prop :=
  match t with
  | Leaf => True
  | Node l a r =>
      a <> 0 /\ h !! a = Some {| prev := top l; next := top r |} /\ tree_in h l /\ tree_in h r
  end.

(** The place of a new leaf. *)
Fixpoint tree_insert (less : Z -> Z -> Z) (x : Z) (t : tree) : tree :=
  match t with
  | Leaf => Node Leaf x Leaf
  | Node l a r =>
      if less x a <? 0 then Node (tree_insert less x l) a r
      else Node l a (tree_insert less x r)
  end.

Fixpoint tree_search (less : Z -> Z -> Z) (key : Z) (t : tree) : Z :=
  match t with
  | Leaf => 0
  | Node l a r =>
      if less key a =? 0 then a
      else if less key a <? 0 then tree_search less key l else tree_search less key r
  end.

(** The comparison is one: antisymmetric in its sign, transitive. *)
Record comparison (less : Z -> Z -> Z) : Prop := {
  cmp_flip : forall a b, less a b < 0 <-> 0 < less b a;
  cmp_trans : forall a b c, less a b <= 0 -> less b c <= 0 -> less a c <= 0
}.

(** In order: no element compares greater than a later one. *)
Definition ordered (less : Z -> Z -> Z) (l : list Z) : Prop :=
  StronglySorted (fun a b => less a b <= 0) l.

(** Insertion behind everything that does not compare greater: the stable
    sorted insertion. *)
Fixpoint sorted_insert (less : Z -> Z -> Z) (x : Z) (l : list Z) : list Z :=
  match l with
  | [] => [x]
  | a :: l' => if less x a <? 0 then x :: a :: l' else a :: sorted_insert less x l'
  end.

(** ** The store and the tree *)

Lemma top_null h t : tree_in h t -> top t = 0 <-> t = Leaf.
Proof. destruct t; cbn; [done|]. intros (? & _). split; done. Qed.

Lemma tree_in_frame h h' t :
  (forall a, a ∈ inorder t -> h' !! a = h !! a) -> tree_in h t -> tree_in h' t.
Proof.
  induction t as [|l IHl a r IHr]; cbn; [done|]. intros Hf (? & Ha & Hl & Hr).
  split_and!; [done|rewrite Hf; [done|set_solver +]|apply IHl|apply IHr]; try done;
    intros b Hb; apply Hf; set_solver + Hb.
Qed.

Lemma tree_in_lookup h t a : tree_in h t -> a ∈ inorder t -> a <> 0 /\ is_Some (h !! a).
Proof.
  induction t as [|l IHl b r IHr]; cbn; [intros _ ?%elem_of_nil; done|].
  intros (? & Hb & Hl & Hr) [Hin|[->|Hin]%elem_of_cons]%elem_of_app; eauto.
Qed.

(** The node whose link a new leaf takes ([d] for the empty tree). *)
Fixpoint tree_parent (less : Z -> Z -> Z) (x d : Z) (t : tree) : Z :=
  match t with
  | Leaf => d
  | Node l a r => if less x a <? 0 then tree_parent less x a l else tree_parent less x a r
  end.

Lemma find_parent_eq less x h t : forall fuel d,
  tree_in h t -> (height t < fuel)%nat ->
  bst_find_parent fuel h less x (top t) d = Ok (tree_parent less x d t).
Proof.
  induction t as [|l IHl a r IHr]; intros [|fuel] d Ht Hf; cbn in *; try lia; [done|].
  destruct Ht as (Ha0 & Ha & Hl & Hr). rewrite (proj2 (Z.eqb_neq a 0)) by done.
  heap_step. destruct (less x a <? 0); [apply IHl|apply IHr]; done || lia.
Qed.

(** The parent with the new leaf [x] attached. *)
Definition attach (less : Z -> Z -> Z) (x p : Z) (e : KListElem) : KListElem :=
  if less x p <? 0 then {| prev := x; next := next e |} else {| prev := prev e; next := x |}.

Lemma attach_ok less x h t : forall d,
  tree_in h t -> t <> Leaf -> NoDup (inorder t) -> x ∉ inorder t -> x <> 0 ->
  h !! x = Some unlinked ->
  let p := tree_parent less x d t in
  p ∈ inorder t /\ exists e, h !! p = Some e /\
    tree_in (<[p := attach less x p e]> h) (tree_insert less x t) /\
    top (tree_insert less x t) = top t.
Proof.
  induction t as [|l IHl a r IHr]; intros d Ht Hne Hnd Hx Hx0 Hu; [done|].
  cbn in *. destruct Ht as (Ha0 & Ha & Hl & Hr).
  apply NoDup_app in Hnd as (Hndl & Hd & Hndr). apply NoDup_cons in Hndr as [Har Hndr].
  assert (Hal : a ∉ inorder l) by (intros H; apply (Hd a H); left).
  apply not_elem_of_app in Hx as [Hxl [Hxa Hxr]%not_elem_of_cons].
  assert (Hleaf : forall h', h' !! x = Some unlinked -> tree_in h' (Node Leaf x Leaf)) by done.
  destruct (less x a <? 0) eqn:E; cbn [tree_in].
  - destruct (decide (l = Leaf)) as [->|Hln].
    + cbn. split; [by left|]. eexists. split; [exact Ha|]. unfold attach. rewrite E.
      split; [|done]. split_and!; try done; heap_lookup; try done.
      eapply tree_in_frame, Hr. intros b Hb. apply lookup_insert_ne. set_solver + Hb Har.
    + destruct (IHl a Hl Hln Hndl Hxl Hx0 Hu) as (Hp & e & He & Hin & Htop).
      split; [set_solver + Hp|]. exists e. split; [done|]. split; [|done].
      assert (tree_parent less x a l <> a) by (intros Heq; by rewrite Heq in Hp).
      split_and!; [done|by rewrite lookup_insert_ne, Htop by done|done|].
      eapply tree_in_frame, Hr. intros b Hb. apply lookup_insert_ne. intros <-.
      apply (Hd _ Hp). by right.
  - destruct (decide (r = Leaf)) as [->|Hrn].
    + cbn. split; [set_solver +|]. eexists. split; [exact Ha|]. unfold attach. rewrite E.
      split; [|done]. split_and!; try done; heap_lookup; try done.
      eapply tree_in_frame, Hl. intros b Hb. apply lookup_insert_ne. set_solver + Hb Hal.
    + destruct (IHr a Hr Hrn Hndr Hxr Hx0 Hu) as (Hp & e & He & Hin & Htop).
      split; [set_solver + Hp|]. exists e. split; [done|]. split; [|done].
      assert (tree_parent less x a r <> a) by (intros Heq; by rewrite Heq in Hp).
      split_and!; [done|by rewrite lookup_insert_ne, Htop by done| |done].
      eapply tree_in_frame, Hl. intros b Hb. apply lookup_insert_ne. intros <-.
      apply (Hd _ Hb). by right.
Qed.

Lemma bst_insert_eq fuel h b t x e :
  tree_in h t -> root b = top t -> NoDup (inorder t) -> x ∉ inorder t -> x <> 0 ->
  h !! x = Some e -> (height t < fuel)%nat ->
  exists h' b', bst_insert fuel h (Some b) x = Ok (h', Some b') /\
    tree_in h' (tree_insert (f_less b) x t) /\ root b' = top (tree_insert (f_less b) x t) /\
    f_less b' = f_less b.
Proof.
  intros Ht Hroot Hnd Hx Hx0 He Hf. unfold bst_insert. do 2 heap_step.
  rewrite insert_insert_eq. change {| prev := 0; next := 0 |} with unlinked.
  set (h1 := <[x := unlinked]> h).
  assert (Ht1 : tree_in h1 t).
  { eapply tree_in_frame, Ht. intros a Ha. apply lookup_insert_ne. intros <-. done. }
  assert (Hu : h1 !! x = Some unlinked) by apply lookup_insert_eq.
  rewrite Hroot. destruct (decide (t = Leaf)) as [->|Hne].
  { cbn. eexists _, _. done. }
  rewrite (proj2 (Z.eqb_neq _ _)) by (by rewrite (top_null _ _ Ht1)).
  rewrite find_parent_eq by done. cbn [mbind result_bind].
  destruct (attach_ok (f_less b) x h1 t 0 Ht1 Hne Hnd Hx Hx0 Hu) as (Hp & e' & He' & Hin & Htop).
  set (p := tree_parent _ _ _ _) in *.
  assert (Hw : (if f_less b x p <? 0 then set_prev h1 p x else set_next h1 p x) =
    Ok (<[p := attach (f_less b) x p e']> h1)).
  { unfold attach. destruct (_ <? _); [by apply set_prev_eq|by apply set_next_eq]. }
  rewrite Hw. cbn [mbind result_bind]. eexists _, _. split; [reflexivity|].
  split_and!; [done|by rewrite Htop|done].
Qed.

(** ** Order *)

Lemma tree_insert_perm less x t : inorder (tree_insert less x t) ≡ₚ x :: inorder t.
Proof.
  induction t as [|l IHl a r IHr]; cbn; [done|].
  destruct (less x a <? 0); cbn; [by rewrite IHl|]. rewrite IHr.
  rewrite (Permutation_middle (inorder l) (a :: inorder r)). f_equiv. constructor.
Qed.

Section order.
Context (less : Z -> Z -> Z) (Hcmp : comparison less).

Lemma ordered_app l1 l2 :
  ordered less (l1 ++ l2) <->
  ordered less l1 /\ ordered less l2 /\ forall a b, a ∈ l1 -> b ∈ l2 -> less a b <= 0.
Proof.
  unfold ordered. induction l1 as [|a l1 IH]; cbn.
  - split; [intros H; split_and!; [constructor|done|set_solver]|by intros (_ & ? & _)].
  - split.
    + intros H. apply StronglySorted_inv in H as [H Hall].
      apply IH in H as (H1 & H2 & H3). rewrite Forall_app in Hall. destruct Hall as [Ha1 Ha2].
      split_and!; [by constructor|done|]. intros x y [->|Hx]%elem_of_cons Hy; [|by apply H3].
      rewrite Forall_forall in Ha2. by apply Ha2.
    + intros (H1 & H2 & H3). apply StronglySorted_inv in H1 as [H1 Hall].
      constructor; [apply IH; split_and!; [done..|]; intros; apply H3; [by right|done]|].
      apply Forall_app. split; [done|]. apply Forall_forall. intros y Hy. apply H3; [left|done].
Qed.

Lemma sorted_insert_left x l1 a l2 :
  less x a < 0 -> sorted_insert less x (l1 ++ a :: l2) = sorted_insert less x l1 ++ a :: l2.
Proof.
  intros Ha. induction l1 as [|b l1 IH]; cbn.
  - by rewrite (proj2 (Z.ltb_lt _ _)).
  - rewrite IH. by destruct (less x b <? 0).
Qed.

Lemma sorted_insert_right x l1 l2 :
  (forall b, b ∈ l1 -> 0 <= less x b) -> sorted_insert less x (l1 ++ l2) = l1 ++ sorted_insert less x l2.
Proof.
  intros Hb. induction l1 as [|b l1 IH]; cbn; [done|].
  rewrite (proj2 (Z.ltb_ge _ _)) by (apply Hb; left). rewrite IH; [done|].
  intros c Hc. apply Hb. by right.
Qed.

Lemma less_ge x a b : 0 <= less x a -> less b a <= 0 -> 0 <= less x b.
Proof.
  intros H1 H2. destruct (Z.lt_ge_cases (less x b) 0) as [H|]; [|done]. exfalso.
  assert (less a x <= 0).
  { destruct (Z.lt_ge_cases 0 (less a x)) as [Hl|]; [|lia].
    apply (cmp_flip _ Hcmp x a) in Hl. lia. }
  assert (less b x <= 0) by (eapply cmp_trans; eauto).
  apply (cmp_flip _ Hcmp x b) in H. lia.
Qed.

Lemma tree_insert_inorder x t :
  ordered less (inorder t) -> inorder (tree_insert less x t) = sorted_insert less x (inorder t).
Proof.
  induction t as [|l IHl a r IHr]; cbn; [done|]. intros (Ho1 & Ho2 & Ho3)%ordered_app.
  apply StronglySorted_inv in Ho2 as [Ho2 Hall].
  destruct (less x a <? 0) eqn:E; bdestr; cbn [inorder].
  - rewrite sorted_insert_left by done. by rewrite IHl.
  - rewrite sorted_insert_right; [cbn|].
    + rewrite (proj2 (Z.ltb_ge _ _)) by done. by rewrite IHr.
    + intros b Hb. eapply less_ge; [done|]. apply Ho3; [done|left].
Qed.

Lemma sorted_insert_ordered x l : ordered less l -> ordered less (sorted_insert less x l).
Proof.
  induction l as [|a l IH]; cbn; intros Ho; [by repeat constructor|].
  pose proof Ho as Ho'. apply StronglySorted_inv in Ho as [Ho Hall].
  destruct (less x a <? 0) eqn:E; bdestr.
  - constructor; [done|]. constructor; [lia|]. rewrite Forall_forall in *. intros b Hb.
    eapply (cmp_trans _ Hcmp _ a); [lia|by apply Hall].
  - constructor; [by apply IH|]. apply Forall_forall. intros b Hb.
    rewrite Forall_forall in Hall.
    assert (Hin : b ∈ x :: l).
    { clear -Hb. induction l as [|c l IHl]; cbn in Hb; [done|].
      destruct (less x c <? 0); [done|]. set_solver. }
    apply elem_of_cons in Hin as [->|Hin]; [|by apply Hall].
    destruct (Z.lt_ge_cases 0 (less a x)) as [Hl|]; [|lia].
    apply (cmp_flip _ Hcmp x a) in Hl. lia.
Qed.

(** Searching an ordered tree misses no match. *)
Lemma tree_search_ok h key t :
  tree_in h t -> ordered less (inorder t) ->
  let r := tree_search less key t in
  (r = 0 /\ forall b, b ∈ inorder t -> less key b <> 0) \/
  (r ∈ inorder t /\ less key r = 0).
Proof.
  induction t as [|l IHl a r IHr]; cbn; intros Ht Ho; [left; split; [done|set_solver +]|].
  destruct Ht as (Ha0 & Ha & Hl & Hr). apply ordered_app in Ho as (Ho1 & Ho2 & Ho3).
  apply StronglySorted_inv in Ho2 as [Ho2 Hall]. rewrite Forall_forall in Hall.
  destruct (less key a =? 0) eqn:E0; bdestr; [right; split; [set_solver +|done]|].
  destruct (less key a <? 0) eqn:E; bdestr.
  - destruct (IHl Hl Ho1) as [[-> Hn]|[Hin He]]; [left|right; set_solver + Hin He].
    split; [done|]. intros b [Hb|[->|Hb]%elem_of_cons]%elem_of_app; [by apply Hn|done|].
    intros Hk. assert (less key b < 0); [|lia]. specialize (Hall b Hb).
    destruct (Z.lt_ge_cases (less key b) 0); [done|]. exfalso.
    pose proof (less_ge key b a ltac:(lia) ltac:(lia)). lia.
  - destruct (IHr Hr Ho2) as [[-> Hn]|[Hin He]]; [left|right; set_solver + Hin He].
    split; [done|]. intros b [Hb|[->|Hb]%elem_of_cons]%elem_of_app; [|done|by apply Hn].
    intros Hk. assert (Hlt : less a key < 0) by (apply (cmp_flip _ Hcmp); lia).
    assert (less key b <= 0) by lia. pose proof (Ho3 b a Hb ltac:(left)).
    assert (less key a <= 0) by (eapply cmp_trans; eauto). lia.
Qed.
End order.

(** ** Traversal *)

Lemma visit_app {S} (fn : Z -> S -> result S) l1 l2 s :
  visit fn (l1 ++ l2) s = s' ← visit fn l1 s; visit fn l2 s'.
Proof.
  revert s. induction l1 as [|a l1 IH]; intros s; cbn; [done|].
  destruct (fn a s) as [s'|]; cbn; [apply IH|done].
Qed.

(** The callback leaves the links of the elements [l] alone. *)
Definition keeps_links {W} (l : list Z) (fn : Z -> heap * W -> result (heap * W)) : Prop :=
  forall x s s', x ∈ l -> fn x s = Ok s' -> forall y, y ∈ l -> fst s' !! y = fst s !! y.

Lemma keeps_links_visit {W} l (fn : Z -> heap * W -> result (heap * W)) :
  keeps_links l fn -> forall l' s s', l' ⊆ l -> visit fn l' s = Ok s' ->
  forall y, y ∈ l -> fst s' !! y = fst s !! y.
Proof.
  intros Hk. induction l' as [|a l' IH]; cbn; intros s s' Hl Hv y Hy; [by inv_ok|].
  apply bind_ok in Hv as (s1 & Hf & Hv).
  rewrite (IH s1 s' ltac:(set_solver + Hl) Hv y Hy). eapply Hk; [|done|done]. set_solver + Hl.
Qed.

Lemma keeps_links_sub {W} l l' (fn : Z -> heap * W -> result (heap * W)) :
  l' ⊆ l -> keeps_links l fn -> keeps_links l' fn.
Proof. intros Hl Hk x s s' Hx Hf y Hy. eapply Hk; [|done|]; set_solver. Qed.

Lemma bst_traverse_inner_visit {W} t (fn : Z -> heap * W -> result (heap * W)) :
  keeps_links (inorder t) fn -> forall fuel s,
  tree_in (fst s) t -> (height t < fuel)%nat ->
  bst_traverse_inner fuel fn (top t) s = visit fn (inorder t) s.
Proof.
  induction t as [|l IHl a r IHr]; intros Hk [|fuel] s Ht Hf; cbn in *; try lia; [done|].
  destruct Ht as (Ha0 & Ha & Hl & Hr). rewrite (proj2 (Z.eqb_neq a 0)) by done.
  rewrite (deref_eq _ _ _ Ha). cbn [mbind result_bind prev].
  assert (Hkl : keeps_links (inorder l) fn)
    by (eapply keeps_links_sub, Hk; set_solver +).
  rewrite IHl, visit_app by (done || lia).
  destruct (visit fn (inorder l) s) as [s1|] eqn:E1; cbn [mbind result_bind visit]; [|done].
  destruct (fn a s1) as [s2|] eqn:E2; cbn [mbind result_bind]; [|done].
  assert (Hs : forall y, y ∈ inorder l ++ a :: inorder r -> fst s2 !! y = fst s !! y).
  { intros y Hy. rewrite (Hk a s1 s2 ltac:(set_solver +) E2 y Hy).
    apply (keeps_links_visit _ fn Hk (inorder l) s s1); [set_solver +|done|done]. }
  rewrite (deref_eq _ _ {| prev := top l; next := top r |})
    by (rewrite Hs; [done|set_solver +]).
  cbn [mbind result_bind next]. apply IHr; [|eapply tree_in_frame, Hr|lia].
  - eapply keeps_links_sub, Hk. set_solver +.
  - intros b Hb. apply Hs. set_solver + Hb.
Qed.

Lemma bst_search_inner_eq fuel h less key t :
  tree_in h t -> (height t < fuel)%nat ->
  bst_search_inner fuel h (top t) key less = Ok (tree_search less key t).
Proof.
  revert fuel. induction t as [|l IHl a r IHr]; intros [|fuel] Ht Hf; cbn in *; try lia; [done|].
  destruct Ht as (Ha0 & Ha & Hl & Hr). rewrite (proj2 (Z.eqb_neq a 0)) by done. cbn [orb].
  destruct (less key a =? 0); [done|]. heap_step.
  destruct (less key a <? 0); [apply IHl|apply IHr]; done || lia.
Qed.

(** ** Properties *)

Record bst_repr (h : heap) (b : bst_t) (t : tree) : Prop := {
  br_in : tree_in h t;
  br_root : root b = top t;
  br_nodup : NoDup (inorder t);
  br_order : ordered (f_less b) (inorder t)
}.

(** C14: [bst_insert] puts an element that is not in the tree, whatever its
    links were, behind the elements that do not compare greater and before
    those that do, and keeps the tree ordered; the number of steps is bounded
    by the height.  On a NULL tree it stops at its assertion. *)
Theorem bst_insert_sorted fuel h b t x e :
  comparison (f_less b) -> bst_repr h b t ->
  x ∉ inorder t -> x <> 0 -> h !! x = Some e -> (height t < fuel)%nat ->
  (exists h' b' t', bst_insert fuel h (Some b) x = Ok (h', Some b') /\ bst_repr h' b' t' /\
     f_less b' = f_less b /\ inorder t' = sorted_insert (f_less b) x (inorder t) /\
     (height t' <= S (height t))%nat) /\
  bst_insert fuel h None x = Err AssertFailed.
Proof.
  intros Hc [Hin Hroot Hnd Ho] Hx Hx0 He Hf. split; [|done].
  destruct (bst_insert_eq fuel h b t x e Hin Hroot Hnd Hx Hx0 He Hf)
    as (h' & b' & Hr & Hin' & Hroot' & Hless).
  exists h', b', (tree_insert (f_less b) x t).
  pose proof (tree_insert_inorder _ Hc x t Ho) as Hio.
  split_and!; [done|constructor|done|done|]; try done.
  - rewrite tree_insert_perm. by apply NoDup_cons.
  - rewrite Hless, Hio. by apply sorted_insert_ordered.
  - clear. induction t as [|l IHl a r IHr]; cbn; [lia|]. destruct (_ <? _); cbn; lia.
Qed.

(** [bst_search] returns an element of the tree that compares equal to the
    key, and NULL exactly when there is none.  [bst_traverse] calls the
    callback once on every element, smallest first, in time bounded by the
    height, if the callback leaves the links of the tree alone. *)
Theorem bst_search_and_traverse {W} fuel h b t key (fn : Z -> heap * W -> result (heap * W)) w :
  comparison (f_less b) -> bst_repr h b t -> (height t < fuel)%nat ->
  (exists r, bst_search fuel h (Some b) key = Ok r /\
     ((r = 0 /\ forall a, a ∈ inorder t -> f_less b key a <> 0) \/
      (r ∈ inorder t /\ f_less b key r = 0))) /\
  (keeps_links (inorder t) fn ->
     bst_traverse fuel (Some b) fn (h, w) = visit fn (inorder t) (h, w)).
Proof.
  intros Hc [Hin Hroot Hnd Ho] Hf. split.
  - eexists. unfold bst_search. rewrite Hroot, bst_search_inner_eq by done.
    split; [reflexivity|]. by apply (tree_search_ok _ Hc h).
  - intros Hk. unfold bst_traverse. rewrite Hroot. by apply bst_traverse_inner_visit.
Qed.

(** ** Witnesses *)

(** Elements are compared by their address modulo 10. *)
Definition ex_less (a b : Z) : Z := a mod 10 - b mod 10.

Lemma ex_less_comparison : comparison ex_less.
Proof. split; unfold ex_less; lia. Qed.

Definition ex_bst_heap : heap :=
  <[15 := {| prev := 12; next := 17 |}]> (<[12 := unlinked]> (<[17 := unlinked]>
    (<[25 := {| prev := 3; next := 4 |}]> ∅))).

Definition ex_bst : bst_t := {| root := 15; f_less := ex_less |}.

Definition ex_tree : tree := Node (Node Leaf 12 Leaf) 15 (Node Leaf 17 Leaf).

Lemma ex_bst_repr : bst_repr ex_bst_heap ex_bst ex_tree.
Proof.
  split; [cbn; split_and!; done|done|by apply (bool_decide_unpack _)|].
  repeat constructor; cbn; discriminate.
Qed.

Lemma bst_insert_sorted_witness :
  exists h' b' t', bst_insert 4 ex_bst_heap (Some ex_bst) 25 = Ok (h', Some b') /\
    bst_repr h' b' t' /\ inorder t' = [12; 15; 25; 17].
Proof.
  destruct (bst_insert_sorted 4 ex_bst_heap ex_bst ex_tree 25 {| prev := 3; next := 4 |}
      ex_less_comparison ex_bst_repr) as [(h' & b' & t' & H1 & H2 & _ & H3 & _) _].
  - by apply (bool_decide_unpack _).
  - discriminate.
  - reflexivity.
  - cbn. lia.
  - exists h', b', t'. split; [exact H1|]. split; [exact H2|]. rewrite H3. reflexivity.
Defined.

Lemma bst_search_and_traverse_witness :
  bst_traverse 4 (Some ex_bst) (fun x s => Ok (fst s, snd s ++ [x])) (ex_bst_heap, []) =
    Ok (ex_bst_heap, [12; 15; 17]) /\
  exists r, bst_search 4 ex_bst_heap (Some ex_bst) 27 = Ok r /\ r = 17.
Proof.
  destruct (bst_search_and_traverse 4 ex_bst_heap ex_bst ex_tree 27
      (fun x s => Ok (fst s, snd s ++ [x])) [] ex_less_comparison ex_bst_repr)
    as [(r & H1 & H2) H3].
  - cbn. lia.
  - split.
    + rewrite H3; [reflexivity|]. intros x s s' _ [= <-] y _. reflexivity.
    + exists r. split; [exact H1|]. assert (H4 : Ok r = Ok 17) by (rewrite <- H1; reflexivity).
      by injection H4.
Defined.
