(* ===== verification/TsQueue.v ===== *)
(** The bounded thread-safe queue of inc/cutils/pthread/ts_queue.h and
    inc/cutils/c11/ts_queue.h (the same code over two thread libraries).

    A call holds the queue's mutex except while it waits on a condition
    variable, so the unit of interleaving is what a call does from the moment it
    owns the mutex until it waits or returns: [enqueue_from] and [dequeue_from],
    which start with the result [rval] of the last wait ([0] at the start of the
    call).  A waiting call says which wait it made, since the timeout decides
    it.  What the thread library does is a parameter: a wait is resumed with the
    queue the other threads left and the code the library returned. *)
From S2P Require Import Prelude.
From stdpp Require Import list gmap.
From Stdlib Require Import ZArith Lia.
Local Open Scope Z_scope.

(** ** Data *)

Definition WAIT_FOREVER : Z := 4294967295.
Definition NO_SLEEP : Z := 0.

Record timespec := { tv_sec : Z; tv_nsec : Z }.

(** The mutex and the condition variables have no value of their own here. *)
Record ts_queue_t := {
  pp_ptr_array : list Z;
  size : Z;
  count : Z;
  head : Z;
  tail : Z
}.

Record ts_queue_create_params_t := {
  qp_queue : option ts_queue_t;
  qp_ptr_array : option (list Z);
  qp_size : Z
}.

Inductive condition : Set := cnd | full_cnd.

(** [pthread_cond_wait], or [pthread_cond_timedwait] with its deadline, or on
    the FreeRTOS port a wait of some ticks inside the kernel. *)
Inductive wait_call : Set :=
  | CondWait (c : condition)
  | CondTimedwait (c : condition) (ts : timespec)
  | KernelWait (ticks : Z).

Inductive pause (A : Type) : Type :=
  | Waits (w : wait_call)
  | Returns (a : A).
Arguments Waits {A} w.
Arguments Returns {A} a.

(** ** Operations *)

(** [CLOCK_REALTIME] plus the timeout, as the code adds it: the nanoseconds are
    not carried into the seconds. *)
Definition deadline (now : timespec) (wait_ms : Z) : timespec :=
  if wait_ms =? WAIT_FOREVER then now
  else {| tv_sec := tv_sec now + wait_ms / 1000;
          tv_nsec := tv_nsec now + wait_ms mod 1000 * 1000000 |}.

Definition the_wait (c : condition) (now : timespec) (wait_ms : Z) : wait_call :=
  if wait_ms =? WAIT_FOREVER then CondWait c else CondTimedwait c (deadline now wait_ms).

(** The queue object and whether it is returned.  [mtx_ok], [cnd_ok] and
    [full_ok] are the outcomes of creating the mutex and the condition
    variables; [full_cnd] is not created if [cnd] fails. *)
Definition ts_queue_init (params : option ts_queue_create_params_t)
    (mtx_ok cnd_ok full_ok : bool) : option ts_queue_t * bool :=
  match params with
  | Some p =>
      match qp_queue p, qp_ptr_array p with
      | Some q, Some arr =>
          let q1 := {| pp_ptr_array := arr; size := qp_size p; count := count q;
                       head := head q; tail := tail q |} in
          if negb ((0 <? size q1) && (Z.land (size q1) (u64 (size q1 - 1)) =? 0))
          then (Some q1, false)
          else if negb mtx_ok then (Some q1, false)
          else if negb (cnd_ok && full_ok) then (Some q1, false)
          else (Some {| pp_ptr_array := arr; size := qp_size p; count := 0;
                        head := 0; tail := 0 |}, true)
      | q, _ => (q, false)
      end
  | None => (None, false)
  end.

Section port.
(** [ETIMEDOUT], or [thrd_timedout] of the c11 port. *)
Context (timedout : Z).

Definition enqueue_from (rval : Z) (p_queue : ts_queue_t) (p_item wait_ms : Z) (now : timespec)
  : result (ts_queue_t * pause bool) :=
  if (u64 (tail p_queue + size p_queue) <=? head p_queue) && negb (rval =? timedout) then
    Ok (p_queue, Waits (the_wait full_cnd now wait_ms))
  else if negb (rval =? timedout) then
    arr ← store_at (pp_ptr_array p_queue)
            (Z.land (head p_queue) (u64 (size p_queue - 1))) p_item;
    Ok ({| pp_ptr_array := arr; size := size p_queue; count := u64 (count p_queue + 1);
           head := u64 (head p_queue + 1); tail := tail p_queue |}, Returns true)
  else Ok (p_queue, Returns false).

(** The item written through [pp_item], when there is one. *)
Definition dequeue_from (rval : Z) (p_queue : ts_queue_t) (wait_ms : Z) (now : timespec)
  : result (ts_queue_t * pause (option Z)) :=
  if (head p_queue <=? tail p_queue) && negb (rval =? timedout) then
    Ok (p_queue, Waits (the_wait cnd now wait_ms))
  else if rval =? 0 then
    item ← load_at (pp_ptr_array p_queue) (Z.land (tail p_queue) (u64 (size p_queue - 1)));
    Ok ({| pp_ptr_array := pp_ptr_array p_queue; size := size p_queue;
           count := u64 (count p_queue - 1); head := head p_queue;
           tail := u64 (tail p_queue + 1) |}, Returns (Some item))
  else Ok (p_queue, Returns None).

(** How each wait of one call ended: what the other threads did to the queue
    meanwhile, and the code.  A call that waits more often is still waiting. *)
Definition wake : Type := (ts_queue_t -> ts_queue_t) * Z.

Fixpoint enqueue_loop (rval : Z) (p_queue : ts_queue_t) (p_item wait_ms : Z) (now : timespec)
    (wakes : list wake) : result (ts_queue_t * pause bool) :=
  r ← enqueue_from rval p_queue p_item wait_ms now;
  match snd r, wakes with
  | Waits _, (others, code) :: wakes =>
      enqueue_loop code (others (fst r)) p_item wait_ms now wakes
  | _, _ => Ok r
  end.

Fixpoint dequeue_loop (rval : Z) (p_queue : ts_queue_t) (wait_ms : Z) (now : timespec)
    (wakes : list wake) : result (ts_queue_t * pause (option Z)) :=
  r ← dequeue_from rval p_queue wait_ms now;
  match snd r, wakes with
  | Waits _, (others, code) :: wakes =>
      dequeue_loop code (others (fst r)) wait_ms now wakes
  | _, _ => Ok r
  end.

Definition ts_queue_enqueue (p_queue : option ts_queue_t) (p_item wait_ms : Z)
    (now : timespec) (wakes : list wake) : result (option ts_queue_t * pause bool) :=
  match p_queue with
  | Some q =>
      if p_item =? 0 then Ok (p_queue, Returns false)
      else r ← enqueue_loop 0 q p_item wait_ms now wakes; Ok (Some (fst r), snd r)
  | None => Ok (None, Returns false)
  end.

(** [pp_item] is whether the destination pointer is not NULL. *)
Definition ts_queue_dequeue (p_queue : option ts_queue_t) (pp_item : bool) (wait_ms : Z)
    (now : timespec) (wakes : list wake) : result (option ts_queue_t * pause (option Z)) :=
  match p_queue with
  | Some q =>
      if negb pp_item then Ok (p_queue, Returns None)
      else r ← dequeue_loop 0 q wait_ms now wakes; Ok (Some (fst r), snd r)
  | None => Ok (None, Returns None)
  end.
End port.

Definition ts_queue_get_count (p_queue : ts_queue_t) : Z := count p_queue.

(** ** Representation *)

(** A queue of [2 ^ k] cells whose counters have not come near [2 ^ 64]. *)
Record tsq_wf (q : ts_queue_t) : Prop := {
  tw_pow : exists k, 0 <= k < 63 /\ size q = 2 ^ k;
  tw_cells : zlen (pp_ptr_array q) = size q;
  tw_held : 0 <= tail q <= head q;
  tw_full : head q - tail q <= size q;
  tw_count : count q = head q - tail q;
  tw_room : head q + size q < 18446744073709551616
}.

Definition tsq_held (q : ts_queue_t) : Z := head q - tail q.

(** The queued items, oldest first. *)
Definition tsq_items (q : ts_queue_t) : list Z :=
  circ (pp_ptr_array q) (tail q) (Z.to_nat (tsq_held q)).

(** The queue after an item has been stored, and after one has been taken. *)
Definition pushed (q : ts_queue_t) (x : Z) : ts_queue_t :=
  {| pp_ptr_array := <[Z.to_nat (head q mod size q) := x]> (pp_ptr_array q); size := size q;
     count := count q + 1; head := head q + 1; tail := tail q |}.

Definition popped (q : ts_queue_t) : ts_queue_t :=
  {| pp_ptr_array := pp_ptr_array q; size := size q; count := count q - 1;
     head := head q; tail := tail q + 1 |}.

Lemma mask_mod k n : 0 <= k < 64 -> Z.land n (u64 (2 ^ k - 1)) = n mod 2 ^ k.
Proof.
  intros Hk. assert (1 <= 2 ^ k <= 2 ^ 63).
  { split; [apply (Z.pow_le_mono_r 2 0 k); lia|apply Z.pow_le_mono_r; lia]. }
  rewrite u64_small by (unfold is_u64; lia).
  replace (2 ^ k - 1) with (Z.ones k) by (rewrite Z.ones_equiv; lia).
  apply Z.land_ones. lia.
Qed.

Section wf.
Context (q : ts_queue_t) (WF : tsq_wf q).

Lemma tsq_size_pos : 0 < size q < 9223372036854775808.
Proof.
  destruct (tw_pow q WF) as (k & Hk & ->). split; [lia|].
  change 9223372036854775808 with (2 ^ 63). apply Z.pow_lt_mono_r; lia.
Qed.

Lemma tsq_index n : Z.land n (u64 (size q - 1)) = n mod size q.
Proof. destruct (tw_pow q WF) as (k & Hk & ->). apply mask_mod. lia. Qed.

Lemma tsq_items_length : length (tsq_items q) = Z.to_nat (tsq_held q).
Proof. apply circ_length. Qed.

Lemma tsq_items_zlen : zlen (tsq_items q) = tsq_held q.
Proof. unfold zlen. rewrite tsq_items_length. unfold tsq_held. destruct WF. lia. Qed.

Lemma tsq_full_test : (u64 (tail q + size q) <=? head q) = (tsq_held q =? size q).
Proof.
  pose proof tsq_size_pos. destruct WF. unfold tsq_held. rewrite u64_small by words.
  apply eq_true_iff_eq. rewrite Z.leb_le, Z.eqb_eq. lia.
Qed.

Lemma tsq_empty_test : (head q <=? tail q) = (tsq_held q =? 0).
Proof.
  destruct WF. unfold tsq_held. apply eq_true_iff_eq. rewrite Z.leb_le, Z.eqb_eq. lia.
Qed.

Lemma pushed_wf x :
  tsq_held q < size q -> head q + 1 + size q < 18446744073709551616 -> tsq_wf (pushed q x).
Proof.
  intros Hh Hr. destruct WF. unfold tsq_held in *. split; cbn; try lia; [done|].
  unfold zlen in *. by rewrite length_insert.
Qed.

Lemma popped_wf : 0 < tsq_held q -> tsq_wf (popped q).
Proof. intros Hh. destruct WF. unfold tsq_held in *. split; cbn; (done || lia). Qed.

Lemma pushed_items x : tsq_held q < size q -> tsq_items (pushed q x) = tsq_items q ++ [x].
Proof.
  intros Hh. pose proof tsq_size_pos. destruct WF. unfold tsq_items, tsq_held in *.
  cbn [pushed pp_ptr_array head tail].
  replace (head q + 1 - tail q) with (head q - tail q + 1) by lia.
  replace (Z.to_nat (head q - tail q + 1)) with (Z.to_nat (head q - tail q) + length [x])%nat
    by (cbn [length]; lia).
  rewrite <- circ_put_append by (unfold zlen in *; cbn [length]; lia).
  rewrite Z2Nat.id by lia. replace (tail q + (head q - tail q)) with (head q) by lia.
  f_equal. rewrite <- tw_cells0, circ_put_insert, circ_put_mod; [done|].
  apply Z.mod_pos_bound. lia.
Qed.
End wf.

Lemma popped_items q : tsq_wf q -> 0 < tsq_held q ->
  exists x, load_at (pp_ptr_array q) (tail q mod size q) = Ok x /\
            tsq_items q = x :: tsq_items (popped q).
Proof.
  intros WF Hh. pose proof (tsq_size_pos q WF). destruct WF. unfold tsq_items, tsq_held in *.
  cbn [popped pp_ptr_array head tail].
  pose proof (Z.mod_pos_bound (tail q) (size q) ltac:(lia)) as Hm.
  destruct (lookup_lt_is_Some_2 (pp_ptr_array q) (Z.to_nat (tail q mod size q))) as [x Hx].
  { unfold zlen in *. lia. }
  exists x. split; [apply load_at_eq; [lia|done]|].
  replace (Z.to_nat (head q - tail q)) with (1 + Z.to_nat (head q - (tail q + 1)))%nat by lia.
  rewrite circ_app. cbn [Nat.add].
  replace (tail q + Z.of_nat 1) with (tail q + 1) by lia.
  assert (Hc : circ (pp_ptr_array q) (tail q) 1 = [x]).
  { apply list_eq_same_length with 1%nat; [done|apply circ_length|].
    intros i a b Hi Ha Hb. replace i with O in * by lia.
    rewrite circ_lookup in Ha by (unfold zlen in *; lia).
    rewrite Z.add_0_r, tw_cells0, Hx in Ha. cbn in Hb. congruence. }
  by rewrite Hc.
Qed.

Section outcomes.
Context (timedout : Z) (timedout_nz : timedout <> 0).

Lemma enqueue_from_eq rval q x wait_ms now : tsq_wf q ->
  enqueue_from timedout rval q x wait_ms now =
    Ok (if rval =? timedout then (q, Returns false)
        else if tsq_held q =? size q then (q, Waits (the_wait full_cnd now wait_ms))
        else (pushed q x, Returns true)).
Proof.
  intros WF. unfold enqueue_from. rewrite (tsq_full_test q WF), (tsq_index q WF).
  destruct (rval =? timedout); cbn; [by rewrite andb_false_r|].
  rewrite andb_true_r. destruct (_ =? size q) eqn:E; [done|]. bdestr.
  pose proof (tsq_size_pos q WF). destruct WF.
  rewrite store_at_eq by (rewrite tw_cells0; apply Z.mod_pos_bound; lia). cbn.
  unfold pushed. by rewrite !u64_small by (unfold is_u64; lia).
Qed.

Lemma dequeue_from_eq rval q wait_ms now : tsq_wf q ->
  exists x, (0 < tsq_held q -> tsq_items q = x :: tsq_items (popped q)) /\
  dequeue_from timedout rval q wait_ms now =
    Ok (if rval =? timedout then (q, Returns None)
        else if tsq_held q =? 0 then (q, Waits (the_wait cnd now wait_ms))
        else if rval =? 0 then (popped q, Returns (Some x)) else (q, Returns None)).
Proof.
  intros WF. unfold dequeue_from. rewrite (tsq_empty_test q WF), (tsq_index q WF).
  destruct (tsq_held q =? 0) eqn:E; bdestr.
  - exists 0. split; [lia|]. destruct (rval =? timedout) eqn:Et; cbn; [|done].
    bdestr. subst. by rewrite (proj2 (Z.eqb_neq timedout 0)).
  - assert (Hh : 0 < tsq_held q) by (unfold tsq_held in *; destruct WF; lia).
    destruct (popped_items q WF Hh) as (x & Hx & Hi). exists x. split; [done|]. cbn.
    destruct (rval =? timedout) eqn:Et; bdestr.
    + subst. by rewrite (proj2 (Z.eqb_neq timedout 0)).
    + destruct (rval =? 0); [|done]. rewrite Hx. cbn.
      pose proof (tsq_size_pos q WF). destruct WF. unfold popped, tsq_held in *.
      by rewrite !u64_small by words.
Qed.
End outcomes.

(** ** Interleaving *)

Inductive call : Set :=
  | CallEnqueue (item wait_ms : Z) (now : timespec)
  | CallDequeue (wait_ms : Z) (now : timespec).

(** The queue, the calls that are waiting (by thread), and, in the order in
    which they took effect, the items that enqueue calls have stored and that
    dequeue calls have returned. *)
Record world := {
  w_queue : ts_queue_t;
  w_waiting : gmap nat call;
  w_enqueued : list Z;
  w_dequeued : list Z
}.

(** A thread that is not waiting calls an operation; a waiting thread owns the
    mutex again and its wait returns a code. *)
Inductive event : Set :=
  | EvCall (t : nat) (c : call)
  | EvWake (t : nat) (rval : Z).

Section interleaving.
Context (timedout : Z).

(** One atomic step of a call: until it waits again or returns. *)
Definition run_call (t : nat) (rval : Z) (c : call) (w : world) : result world :=
  match c with
  | CallEnqueue item wait_ms now =>
      if item =? 0 then Ok w
      else
        r ← enqueue_from timedout rval (w_queue w) item wait_ms now;
        Ok match snd r with
           | Waits _ => {| w_queue := fst r; w_waiting := <[t := c]> (w_waiting w);
                           w_enqueued := w_enqueued w; w_dequeued := w_dequeued w |}
           | Returns b => {| w_queue := fst r; w_waiting := delete t (w_waiting w);
                             w_enqueued := if (b : bool) then w_enqueued w ++ [item]
                                           else w_enqueued w;
                             w_dequeued := w_dequeued w |}
           end
  | CallDequeue wait_ms now =>
      r ← dequeue_from timedout rval (w_queue w) wait_ms now;
      Ok match snd r with
         | Waits _ => {| w_queue := fst r; w_waiting := <[t := c]> (w_waiting w);
                         w_enqueued := w_enqueued w; w_dequeued := w_dequeued w |}
         | Returns o => {| w_queue := fst r; w_waiting := delete t (w_waiting w);
                           w_enqueued := w_enqueued w;
                           w_dequeued := match o with Some x => w_dequeued w ++ [x]
                                                    | None => w_dequeued w end |}
         end
  end.

(** An event that its thread cannot make has no effect. *)
Definition world_step (w : world) (ev : event) : result world :=
  match ev with
  | EvCall t c => match w_waiting w !! t with Some _ => Ok w | None => run_call t 0 c w end
  | EvWake t rval => match w_waiting w !! t with Some c => run_call t rval c w | None => Ok w end
  end.

Fixpoint world_run (w : world) (evs : list event) : result world :=
  match evs with
  | [] => Ok w
  | ev :: evs => w' ← world_step w ev; world_run w' evs
  end.
End interleaving.

Record world_ok (w : world) : Prop := {
  wo_wf : tsq_wf (w_queue w);
  wo_fifo : w_enqueued w = w_dequeued w ++ tsq_items (w_queue w)
}.

Definition room (n : Z) (q : ts_queue_t) : Prop :=
  head q + size q + n < 18446744073709551616.

Lemma run_call_ok timedout t rval c w n :
  timedout <> 0 -> world_ok w -> 0 <= n -> room (n + 1) (w_queue w) ->
  exists w', run_call timedout t rval c w = Ok w' /\ world_ok w' /\ room n (w_queue w').
Proof.
  intros Ht Hw Hn Hr. pose proof Hw as [WF Hf]. unfold room in *.
  destruct c as [item wait_ms now|wait_ms now]; cbn.
  - destruct (item =? 0); [exists w; split_and!; [done|done|lia]|].
    rewrite (enqueue_from_eq timedout rval _ item wait_ms now WF). cbn.
    eexists. split; [reflexivity|].
    destruct (rval =? timedout); cbn; [split; [done|lia]|].
    destruct (_ =? size _) eqn:E; cbn; [split; [done|lia]|]. bdestr.
    assert (tsq_held (w_queue w) < size (w_queue w))
      by (destruct WF; unfold tsq_held in *; lia).
    split; [|lia]. split; cbn; [apply pushed_wf; (done || lia)|].
    rewrite pushed_items by done. by rewrite Hf, app_assoc.
  - destruct (dequeue_from_eq timedout Ht rval _ wait_ms now WF) as (x & Hx & ->). cbn.
    eexists. split; [reflexivity|].
    destruct (rval =? timedout); cbn; [split; [done|lia]|].
    destruct (_ =? 0) eqn:E; cbn; [split; [done|lia]|]. bdestr.
    destruct (rval =? 0); cbn; [|split; [done|lia]].
    assert (0 < tsq_held (w_queue w)) by (destruct WF; unfold tsq_held in *; lia).
    split; [|lia]. split; cbn; [by apply popped_wf|].
    rewrite Hf, (Hx ltac:(done)). by rewrite <- app_assoc.
Qed.

Lemma world_step_ok timedout ev w n :
  timedout <> 0 -> world_ok w -> 0 <= n -> room (n + 1) (w_queue w) ->
  exists w', world_step timedout w ev = Ok w' /\ world_ok w' /\ room n (w_queue w').
Proof.
  intros Ht Hw Hn Hr.
  assert (Hsame : exists w', Ok w = Ok w' /\ world_ok w' /\ room n (w_queue w')).
  { exists w. split_and!; [done|done|]. unfold room in *. lia. }
  destruct ev as [t c|t rval]; cbn; destruct (w_waiting w !! t); try done;
    by apply run_call_ok.
Qed.

(** ** Calls without interference *)

(** The deadline of a [NO_SLEEP] call has passed when it is made: its wait, if
    there is one, times out at once. *)
Definition nosleep_wakes (timedout : Z) : list wake := [(fun q => q, timedout)].

Lemma enqueue_nosleep timedout q x now :
  timedout <> 0 -> tsq_wf q -> x <> 0 ->
  ts_queue_enqueue timedout (Some q) x NO_SLEEP now (nosleep_wakes timedout) =
    Ok (if tsq_held q =? size q then (Some q, Returns false) else (Some (pushed q x), Returns true)).
Proof.
  intros Ht WF Hx. cbn. rewrite (proj2 (Z.eqb_neq x 0)) by done.
  rewrite enqueue_from_eq, (proj2 (Z.eqb_neq 0 timedout)) by (done || lia).
  destruct (tsq_held q =? size q) eqn:E; cbn; [|done].
  rewrite enqueue_from_eq, Z.eqb_refl by done. done.
Qed.

Lemma dequeue_some timedout q wait_ms now wakes :
  timedout <> 0 -> tsq_wf q -> 0 < tsq_held q ->
  exists x, tsq_items q = x :: tsq_items (popped q) /\
  ts_queue_dequeue timedout (Some q) true wait_ms now wakes =
    Ok (Some (popped q), Returns (Some x)).
Proof.
  intros Ht WF Hh. destruct (dequeue_from_eq timedout Ht 0 q wait_ms now WF) as (x & Hx & Hd).
  exists x. split; [by apply Hx|]. cbn.
  destruct wakes as [|[f c] ws]; cbn; rewrite Hd, (proj2 (Z.eqb_neq 0 timedout)) by lia;
    rewrite (proj2 (Z.eqb_neq (tsq_held q) 0)) by lia; done.
Qed.

Lemma dequeue_empty timedout q now :
  timedout <> 0 -> tsq_wf q -> tsq_held q = 0 ->
  ts_queue_dequeue timedout (Some q) true NO_SLEEP now (nosleep_wakes timedout) =
    Ok (Some q, Returns None) /\
  forall wait_ms, ts_queue_dequeue timedout (Some q) true wait_ms now [] =
    Ok (Some q, Waits (the_wait cnd now wait_ms)).
Proof.
  intros Ht WF Hh. split; [|intros wait_ms]; cbn.
  - destruct (dequeue_from_eq timedout Ht 0 q NO_SLEEP now WF) as (x & _ & Hd).
    rewrite Hd, (proj2 (Z.eqb_neq 0 timedout)), Hh by lia. cbn.
    destruct (dequeue_from_eq timedout Ht timedout q NO_SLEEP now WF) as (y & _ & Hd').
    by rewrite Hd', Z.eqb_refl.
  - destruct (dequeue_from_eq timedout Ht 0 q wait_ms now WF) as (x & _ & Hd).
    by rewrite Hd, (proj2 (Z.eqb_neq 0 timedout)), Hh by lia.
Qed.

(** ** The interface to the clients of a queue *)

(** What the other components use of a queue, on every port: calls from one
    thread, with the timeout of the dequeue.  [bq_ok n q]: the queue is intact
    and can serve [n] more calls (the counters of this port are 64 bits wide). *)
Class BoundedQueue (Q : Type) := {
  bq_enqueue : Q -> Z -> result (Q * bool);
  bq_dequeue : Q -> Z -> result (Q * pause (option Z));
  bq_items : Q -> list Z;
  bq_capacity : Q -> Z;
  bq_ok : Z -> Q -> Prop
}.

Class BoundedQueueLaws (Q : Type) {bq : BoundedQueue Q} : Prop := {
  bq_ok_mono n m q : m <= n -> bq_ok n q -> bq_ok m q;
  bq_enqueue_room n q x : 0 <= n -> bq_ok (n + 1) q -> x <> 0 ->
    zlen (bq_items q) < bq_capacity q ->
    exists q', bq_enqueue q x = Ok (q', true) /\ bq_ok n q' /\
      bq_items q' = bq_items q ++ [x] /\ bq_capacity q' = bq_capacity q;
  bq_enqueue_full n q x : 0 <= n -> bq_ok (n + 1) q ->
    bq_capacity q <= zlen (bq_items q) -> bq_enqueue q x = Ok (q, false);
  bq_dequeue_some n q x l wait_ms : 0 <= n -> bq_ok (n + 1) q -> bq_items q = x :: l ->
    exists q', bq_dequeue q wait_ms = Ok (q', Returns (Some x)) /\ bq_ok n q' /\
      bq_items q' = l /\ bq_capacity q' = bq_capacity q;
  bq_dequeue_none n q : 0 <= n -> bq_ok (n + 1) q -> bq_items q = [] ->
    bq_dequeue q NO_SLEEP = Ok (q, Returns None);
  bq_dequeue_waits n q : 0 <= n -> bq_ok (n + 1) q -> bq_items q = [] ->
    exists w, bq_dequeue q WAIT_FOREVER = Ok (q, Waits w)
}.

Section instance.
Context (timedout : Z) (timedout_nz : timedout <> 0) (now : timespec).

Definition unopt {A} (q : ts_queue_t) (r : result (option ts_queue_t * A))
  : result (ts_queue_t * A) :=
  x ← r; Ok (default q (fst x), snd x).

#[export] Instance port_queue : BoundedQueue ts_queue_t := {
  bq_enqueue q x :=
    r ← unopt q (ts_queue_enqueue timedout (Some q) x NO_SLEEP now (nosleep_wakes timedout));
    Ok (fst r, match snd r with Returns b => b | Waits _ => false end);
  bq_dequeue q wait_ms :=
    unopt q (ts_queue_dequeue timedout (Some q) true wait_ms now
               (if wait_ms =? NO_SLEEP then nosleep_wakes timedout else []));
  bq_items := tsq_items;
  bq_capacity := size;
  bq_ok n q := tsq_wf q /\ room n q
}.

#[export] Instance port_queue_laws : BoundedQueueLaws ts_queue_t (bq := port_queue).
Proof using timedout_nz.
  split; cbn -[ts_queue_enqueue ts_queue_dequeue]; unfold room.
  - intros n m q Hm [WF Hr]. split; [done|lia].
  - intros n q x Hn [WF Hr] Hx Hl. rewrite tsq_items_zlen in Hl by done.
    rewrite enqueue_nosleep, (proj2 (Z.eqb_neq _ _)) by (done || lia). cbn.
    eexists. split; [reflexivity|]. split_and!; [apply pushed_wf; (done || lia)|cbn; lia| |done].
    by apply pushed_items.
  - intros n q x Hn [WF Hr] Hl. rewrite tsq_items_zlen in Hl by done.
    assert (tsq_held q = size q) by (destruct WF; unfold tsq_held in *; lia).
    destruct (decide (x = 0)) as [->|Hx]; [done|].
    rewrite enqueue_nosleep, (proj2 (Z.eqb_eq _ _)) by done. done.
  - intros n q x l wait_ms Hn [WF Hr] Hi.
    assert (Hh : 0 < tsq_held q).
    { rewrite <- tsq_items_zlen, Hi, zlen_cons by done. pose proof (zlen_nonneg l). lia. }
    destruct (dequeue_some timedout q wait_ms now
        (if wait_ms =? NO_SLEEP then nosleep_wakes timedout else []) timedout_nz WF Hh)
      as (y & Hy & ->). cbn. rewrite Hi in Hy. injection Hy as <- ->.
    eexists. split; [reflexivity|]. split_and!; [by apply popped_wf|cbn; lia|done|done].
  - intros n q Hn [WF Hr] Hi.
    assert (Hh : tsq_held q = 0) by (rewrite <- tsq_items_zlen, Hi by done; done).
    by rewrite (proj1 (dequeue_empty timedout q now timedout_nz WF Hh)).
  - intros n q Hn [WF Hr] Hi.
    assert (Hh : tsq_held q = 0) by (rewrite <- tsq_items_zlen, Hi by done; done).
    rewrite (proj2 (dequeue_empty timedout q now timedout_nz WF Hh) WAIT_FOREVER). by eexists.
Qed.
End instance.

(** ** Properties *)

Lemma power_of_two_test s :
  0 < s < 18446744073709551616 -> Z.land s (u64 (s - 1)) = 0 <-> s = 2 ^ Z.log2 s.
Proof.
  intros Hs. rewrite u64_small by (unfold is_u64; lia).
  destruct (Z.log2_spec s ltac:(lia)) as [Hlo Hhi]. pose proof (Z.log2_nonneg s) as Hk.
  split; intros H.
  - destruct (Z.eq_dec s (2 ^ Z.log2 s)) as [|Hne]; [done|]. exfalso.
    assert (Hb : forall x, 2 ^ Z.log2 s <= x < 2 ^ Z.succ (Z.log2 s) -> Z.testbit x (Z.log2 s) = true).
    { intros x Hx. replace (Z.log2 s) with (Z.log2 x) by (apply Z.log2_unique; lia).
      apply Z.bit_log2. pose proof (Z.pow_pos_nonneg 2 (Z.log2 s)). lia. }
    assert (Ht : Z.testbit (Z.land s (s - 1)) (Z.log2 s) = true)
      by (rewrite Z.land_spec, !Hb by lia; done).
    rewrite H, Z.bits_0 in Ht. done.
  - assert (He : s - 1 = Z.ones (Z.log2 s)) by (rewrite Z.ones_equiv; lia).
    rewrite He, Z.land_ones by done. rewrite <- H. apply Z.mod_same. lia.
Qed.

(** [ts_queue_init] returns a queue exactly when the parameters are
    present, the size is a power of two, and the mutex and the condition
    variables could be created; the queue is then well formed, of that size, and
    empty whatever its memory held. *)
Theorem ts_queue_init_power_of_two p q arr mtx_ok cnd_ok full_ok :
  qp_queue p = Some q -> qp_ptr_array p = Some arr -> zlen arr = qp_size p ->
  qp_size p < 9223372036854775808 ->
  exists q', ts_queue_init (Some p) mtx_ok cnd_ok full_ok =
    (Some q', bool_decide (qp_size p = 2 ^ Z.log2 (qp_size p)) && mtx_ok && cnd_ok && full_ok) /\
    (qp_size p = 2 ^ Z.log2 (qp_size p) -> mtx_ok && cnd_ok && full_ok = true ->
       tsq_wf q' /\ size q' = qp_size p /\ tsq_items q' = []).
Proof.
  intros Hq Ha Hlen Hmax. cbn [ts_queue_init]. rewrite Hq, Ha. cbn [size].
  pose proof (zlen_nonneg arr) as Hnn. destruct (0 <? qp_size p) eqn:E0; bdestr; cbn.
  - pose proof (power_of_two_test (qp_size p) ltac:(lia)) as Hpow.
    case_bool_decide as Hp.
    + rewrite (proj2 (Z.eqb_eq _ _)) by by apply Hpow. cbn.
      destruct mtx_ok; cbn; [|eexists; split; [reflexivity|intros _ [=]]].
      destruct (cnd_ok && full_ok); cbn; [|eexists; split; [reflexivity|intros _ [=]]].
      eexists. split; [reflexivity|]. intros _ _. split_and!; [|done|done].
      split; cbn; try lia. exists (Z.log2 (qp_size p)). split; [|done].
      split; [apply Z.log2_nonneg|]. apply Z.log2_lt_pow2; lia.
    + rewrite (proj2 (Z.eqb_neq _ _)) by (intros H; by apply Hp, Hpow). cbn.
      eexists. split; [reflexivity|]. intros. done.
  - assert (H0 : qp_size p = 0) by lia. rewrite H0. cbn.
    eexists. split; [reflexivity|]. intros [=].
Qed.

(** C4: however many threads call and whatever the waits return, in any
    order, no call leaves the array or breaks the queue, and the dequeue calls
    return exactly the items that the enqueue calls stored, in the order in which
    they were stored; what has not been returned is what is queued (the
    counters must not come near [2 ^ 64]). *)
Theorem ts_queue_linearizable timedout q evs :
  timedout <> 0 -> tsq_wf q -> tsq_items q = [] -> room (zlen evs) q ->
  exists w, world_run timedout {| w_queue := q; w_waiting := ∅; w_enqueued := [];
                                  w_dequeued := [] |} evs = Ok w /\
    tsq_wf (w_queue w) /\
    w_enqueued w = w_dequeued w ++ tsq_items (w_queue w) /\
    (length (tsq_items (w_queue w)) <= Z.to_nat (size (w_queue w)))%nat.
Proof.
  intros Ht WF Hi Hr.
  assert (Hw : world_ok {| w_queue := q; w_waiting := ∅; w_enqueued := []; w_dequeued := [] |})
    by (split; [done|cbn; by rewrite Hi]).
  revert Hr Hw. change q with (w_queue {| w_queue := q; w_waiting := ∅; w_enqueued := [];
                                w_dequeued := [] |}) at 1.
  generalize {| w_queue := q; w_waiting := ∅; w_enqueued := []; w_dequeued := [] |}.
  induction evs as [|ev evs IH]; intros w Hr Hw.
  - exists w. destruct Hw as [WF' Hf]. split_and!; try done.
    rewrite tsq_items_length. destruct WF'. unfold tsq_held. lia.
  - cbn. rewrite zlen_cons in Hr.
    destruct (world_step_ok timedout ev w (zlen evs) Ht Hw (zlen_nonneg _) Hr)
      as (w1 & Hs & Hw1 & Hr1). rewrite Hs. cbn. by apply IH.
Qed.

(** A call from one thread that does not want to wait: an enqueue stores
    the item behind the others exactly when there is room, a dequeue returns
    the oldest item exactly when there is one, neither changes the queue
    otherwise, and NULL arguments are refused. *)
Theorem ts_queue_nosleep_calls timedout q x now :
  timedout <> 0 -> tsq_wf q -> room 1 q -> x <> 0 ->
  (exists q', ts_queue_enqueue timedout (Some q) x NO_SLEEP now (nosleep_wakes timedout) =
      Ok (Some q', Returns (zlen (tsq_items q) <? size q)) /\
     tsq_wf q' /\ ts_queue_get_count q' = zlen (tsq_items q') /\
     tsq_items q' = tsq_items q ++ (if zlen (tsq_items q) <? size q then [x] else [])) /\
  (exists q', ts_queue_dequeue timedout (Some q) true NO_SLEEP now (nosleep_wakes timedout) =
      Ok (Some q', Returns (list.head (tsq_items q))) /\
     tsq_wf q' /\ ts_queue_get_count q' = zlen (tsq_items q') /\
     tsq_items q' = list.tail (tsq_items q)) /\
  ts_queue_enqueue timedout (Some q) 0 NO_SLEEP now [] = Ok (Some q, Returns false) /\
  ts_queue_dequeue timedout (Some q) false NO_SLEEP now [] = Ok (Some q, Returns None).
Proof.
  intros Ht WF Hr Hx. unfold room in Hr.
  assert (Hcount : forall q', tsq_wf q' -> ts_queue_get_count q' = zlen (tsq_items q'))
    by (intros q' WF'; rewrite tsq_items_zlen by done; apply WF').
  pose proof (tw_full q WF) as Hfull. rewrite !tsq_items_zlen by done. split_and!; [| |done|done].
  - rewrite enqueue_nosleep by done. destruct (tsq_held q =? size q) eqn:E; bdestr.
    + rewrite (proj2 (Z.ltb_ge _ _)) by lia. exists q. rewrite app_nil_r. auto.
    + assert (tsq_held q < size q) by (unfold tsq_held in *; lia).
      rewrite (proj2 (Z.ltb_lt _ _)) by done. exists (pushed q x).
      assert (WF' : tsq_wf (pushed q x)) by (apply pushed_wf; (done || lia)).
      split_and!; [done|done|by apply Hcount|by apply pushed_items].
  - destruct (decide (tsq_held q = 0)) as [H0|H0].
    + rewrite (proj1 (dequeue_empty timedout q now Ht WF H0)). exists q.
      assert (Hnil : tsq_items q = [])
        by (apply nil_length_inv; rewrite tsq_items_length, H0; done).
      rewrite Hnil. split_and!; [done|done| |done]. rewrite <- Hnil. by apply Hcount.
    + assert (Hh : 0 < tsq_held q) by (destruct WF; unfold tsq_held in *; lia).
      destruct (dequeue_some timedout q NO_SLEEP now (nosleep_wakes timedout) Ht WF Hh)
        as (y & Hy & ->).
      assert (WF' : tsq_wf (popped q)) by by apply popped_wf.
      exists (popped q). rewrite Hy. split_and!; [done|done|by apply Hcount|done].
Qed.

(** A wait that fails without releasing the mutex, so that no other thread can
    change the queue. *)
Definition failed_wait (code : Z) : wake := (fun q => q, code).

Definition valid_deadline (ts : timespec) : Prop := 0 <= tv_nsec ts < 1000000000.

(** A dequeue call whose wait fails at once with a code other than the timeout
    tries again without end. *)
Lemma dequeue_spins timedout einval q wait_ms now n :
  timedout <> 0 -> einval <> timedout -> tsq_wf q -> tsq_held q = 0 ->
  ts_queue_dequeue timedout (Some q) true wait_ms now (repeat (failed_wait einval) n) =
    Ok (Some q, Waits (the_wait cnd now wait_ms)).
Proof.
  intros Ht Hei WF Hh. unfold ts_queue_dequeue. cbn [negb].
  assert (Hn : forall rval, rval <> timedout ->
    dequeue_loop timedout rval q wait_ms now (repeat (failed_wait einval) n) =
      Ok (q, Waits (the_wait cnd now wait_ms))).
  { induction n as [|n IH]; intros rval Hr; cbn;
      destruct (dequeue_from_eq timedout Ht rval q wait_ms now WF) as (y & _ & ->);
      rewrite (proj2 (Z.eqb_neq rval timedout)), Hh by done; [done|]. cbn. by apply IH. }
  rewrite Hn by lia. done.
Qed.

(** C31: the timeout of a waiting call.  A wait that times out ends the call
    without an effect.  But the deadline's nanoseconds are not normalised: for
    any clock that leaves less than [wait_ms mod 1000] milliseconds in its second
    the deadline is invalid, the library refuses to wait with another code
    ([EINVAL]) and keeps the mutex, and the call tries again without end, on a
    full queue when enqueuing and on an empty one when dequeuing. *)
Theorem ts_queue_timed_wait timedout einval q x wait_ms now n :
  timedout <> 0 -> einval <> timedout -> einval <> 0 -> tsq_wf q -> x <> 0 ->
  wait_ms <> WAIT_FOREVER -> valid_deadline now -> 0 <= wait_ms ->
  let d := deadline now wait_ms in
  (tsq_held q = size q ->
     ts_queue_enqueue timedout (Some q) x wait_ms now [failed_wait timedout] =
       Ok (Some q, Returns false) /\
     ts_queue_enqueue timedout (Some q) x wait_ms now (repeat (failed_wait einval) n) =
       Ok (Some q, Waits (CondTimedwait full_cnd d))) /\
  (tsq_held q = 0 ->
     ts_queue_dequeue timedout (Some q) true wait_ms now [failed_wait timedout] =
       Ok (Some q, Returns None) /\
     ts_queue_dequeue timedout (Some q) true wait_ms now (repeat (failed_wait einval) n) =
       Ok (Some q, Waits (CondTimedwait cnd d))) /\
  (valid_deadline d <-> tv_nsec now + wait_ms mod 1000 * 1000000 < 1000000000).
Proof.
  intros Ht Hei Hei0 WF Hx Hw Hnow Hw0 d.
  assert (Hwait : forall c, the_wait c now wait_ms = CondTimedwait c d).
  { intros c. unfold the_wait. by rewrite (proj2 (Z.eqb_neq _ _)). }
  split_and!.
  - intros Hfull. unfold ts_queue_enqueue. rewrite (proj2 (Z.eqb_neq x 0)) by done.
    assert (Hstep : forall rval, rval <> timedout ->
      enqueue_from timedout rval q x wait_ms now = Ok (q, Waits (CondTimedwait full_cnd d))).
    { intros rval Hr. rewrite enqueue_from_eq, (proj2 (Z.eqb_neq rval timedout)) by done.
      by rewrite Hfull, Z.eqb_refl, Hwait. }
    split.
    + cbn. rewrite Hstep by lia. cbn. rewrite enqueue_from_eq, Z.eqb_refl by done. done.
    + assert (Hn : forall rval, rval <> timedout ->
        enqueue_loop timedout rval q x wait_ms now (repeat (failed_wait einval) n) =
          Ok (q, Waits (CondTimedwait full_cnd d))).
      { induction n as [|n IH]; intros rval Hr; cbn; rewrite Hstep by done; [done|].
        cbn. by apply IH. }
      rewrite Hn by lia. done.
  - intros Hempty. split.
    + unfold ts_queue_dequeue. cbn.
      destruct (dequeue_from_eq timedout Ht 0 q wait_ms now WF) as (y & _ & ->).
      rewrite (proj2 (Z.eqb_neq 0 timedout)), Hempty by lia. cbn.
      destruct (dequeue_from_eq timedout Ht timedout q wait_ms now WF) as (y' & _ & ->).
      by rewrite Z.eqb_refl.
    + rewrite (dequeue_spins timedout einval) by done. by rewrite Hwait.
  - unfold valid_deadline, d, deadline in *. rewrite (proj2 (Z.eqb_neq _ _)) by done. cbn.
    pose proof (Z.mod_pos_bound wait_ms 1000 ltac:(lia)). lia.
Qed.

(** ** The two ports *)

(** [thrd_timedout] of c11threads.h; the code of the pthread port is the
    library's [ETIMEDOUT], which is only known not to be [0]. *)
Definition thrd_success : Z := 0.
Definition thrd_timedout : Z := 1.

(** ** Witnesses *)

Definition ex_tsq (arr : list Z) (h t : Z) : ts_queue_t :=
  {| pp_ptr_array := arr; size := 4; count := h - t; head := h; tail := t |}.

Lemma ex_tsq_wf a b c d h t :
  0 <= t <= h -> h - t <= 4 -> h < 1000 -> tsq_wf (ex_tsq [a; b; c; d] h t).
Proof. intros. split; cbn; try lia; [|done]. exists 2. split; [lia|done]. Qed.

Definition ex_now : timespec := {| tv_sec := 5; tv_nsec := 600000000 |}.

Definition ex_tsq_params (n : Z) (arr : list Z) : ts_queue_create_params_t :=
  {| qp_queue := Some {| pp_ptr_array := []; size := 9; count := 9; head := 9; tail := 9 |};
     qp_ptr_array := Some arr; qp_size := n |}.

Lemma ts_queue_init_power_of_two_witness :
  (exists q', ts_queue_init (Some (ex_tsq_params 4 [7; 7; 7; 7])) true true true = (Some q', true) /\
    tsq_items q' = []) /\
  (exists q', ts_queue_init (Some (ex_tsq_params 3 [7; 7; 7])) true true true = (Some q', false)).
Proof.
  destruct (ts_queue_init_power_of_two (ex_tsq_params 4 [7; 7; 7; 7])
      {| pp_ptr_array := []; size := 9; count := 9; head := 9; tail := 9 |} [7; 7; 7; 7]
      true true true eq_refl eq_refl eq_refl eq_refl) as (q' & H & Hq).
  destruct (ts_queue_init_power_of_two (ex_tsq_params 3 [7; 7; 7])
      {| pp_ptr_array := []; size := 9; count := 9; head := 9; tail := 9 |} [7; 7; 7]
      true true true eq_refl eq_refl eq_refl eq_refl) as (q3 & H3 & _).
  split.
  - exists q'. split; [rewrite H; reflexivity|]. apply Hq; reflexivity.
  - exists q3. rewrite H3. reflexivity.
Defined.

(** Two threads wait for items, a third stores three; the second wakes first. *)
Definition ex_events : list event :=
  [EvCall 1 (CallDequeue WAIT_FOREVER ex_now); EvCall 2 (CallDequeue WAIT_FOREVER ex_now);
   EvCall 3 (CallEnqueue 11 NO_SLEEP ex_now); EvCall 3 (CallEnqueue 12 NO_SLEEP ex_now);
   EvWake 2 0; EvCall 3 (CallEnqueue 13 NO_SLEEP ex_now); EvWake 1 0].

Lemma ts_queue_linearizable_witness :
  exists w, world_run thrd_timedout {| w_queue := ex_tsq [0; 0; 0; 0] 6 6; w_waiting := ∅;
      w_enqueued := []; w_dequeued := [] |} ex_events = Ok w /\
    w_enqueued w = w_dequeued w ++ tsq_items (w_queue w) /\
    w_dequeued w = [11; 12] /\ tsq_items (w_queue w) = [13].
Proof.
  destruct (ts_queue_linearizable thrd_timedout (ex_tsq [0; 0; 0; 0] 6 6) ex_events)
    as (w & Hw & _ & Hf & _).
  - discriminate.
  - apply ex_tsq_wf; lia.
  - reflexivity.
  - vm_compute. reflexivity.
  - assert (Hd : (fun w => (w_dequeued w, tsq_items (w_queue w))) <$> Some w =
        Some ([11; 12], [13])).
    { assert (Hs : (match world_run thrd_timedout {| w_queue := ex_tsq [0; 0; 0; 0] 6 6;
          w_waiting := ∅; w_enqueued := []; w_dequeued := [] |} ex_events with
        Ok w => Some (w_dequeued w, tsq_items (w_queue w)) | Err _ => None end) =
        Some ([11; 12], [13])) by (vm_compute; reflexivity).
      rewrite Hw in Hs. exact Hs. }
    cbn in Hd. injection Hd as H1 H2. exists w. auto.
Defined.

Lemma ts_queue_nosleep_calls_witness :
  exists q', ts_queue_enqueue thrd_timedout (Some (ex_tsq [1; 2; 3; 4] 7 4)) 9 NO_SLEEP ex_now
      (nosleep_wakes thrd_timedout) = Ok (Some q', Returns true) /\
    tsq_items q' = [1; 2; 3; 9].
Proof.
  destruct (ts_queue_nosleep_calls thrd_timedout (ex_tsq [1; 2; 3; 4] 7 4) 9 ex_now)
    as [(q' & H & _ & _ & Hi) _].
  - discriminate.
  - apply ex_tsq_wf; lia.
  - vm_compute. reflexivity.
  - discriminate.
  - exists q'. split; [rewrite H; reflexivity|]. rewrite Hi. reflexivity.
Defined.

(** 500 ms from 5.6 s is not a valid deadline. *)
Lemma ts_queue_timed_wait_witness :
  ts_queue_dequeue 110 (Some (ex_tsq [1; 2; 3; 4] 4 4)) true 500 ex_now
    (repeat (failed_wait 22) 1000) =
    Ok (Some (ex_tsq [1; 2; 3; 4] 4 4), Waits (CondTimedwait cnd (deadline ex_now 500))) /\
  ~ valid_deadline (deadline ex_now 500).
Proof.
  destruct (ts_queue_timed_wait 110 22 (ex_tsq [1; 2; 3; 4] 4 4) 1 500 ex_now 1000)
    as (_ & H & Hv); try discriminate.
  - apply ex_tsq_wf; lia.
  - split; [discriminate|reflexivity].
  - split; [apply H; reflexivity|]. intros Hd. apply Hv in Hd. discriminate Hd.
Defined.
