(* ===== verification/Pool.v ===== *)
(** The reference-counted block pool of inc/cutils/pool.h.

    The free blocks wait in a thread-safe queue; the pool is written against the
    interface [BoundedQueue] of that queue, so the theorems hold for every port
    that satisfies its laws.  The memory of the blocks is two maps, from the
    address of a header to the header and from the address of a trailer to its
    word.  Destructors are client code: an operation returns the calls it makes
    (function, block, private data), in order; a destructor is taken not to use
    the pool it is called from. *)
From S2P Require Import Prelude TsQueue.
From stdpp Require Import list gmap.
From Stdlib Require Import ZArith Lia.
Local Open Scope Z_scope.

(** ** Data *)

Record pool_header_t := {
  sanity : Z;
  retain_count : Z;
  destructor : Z;
  destructor_private : Z
}.

Definition POOL_ELEMENT_HEADER_SANITY : Z := 0xDEADBEEF.
Definition POOL_ELEMENT_TRAILER_SANITY : Z := 0xFACEB007.

Record memory := { headers : gmap Z pool_header_t; trailers : gmap Z Z }.

Record destructor_call := { dc_fn : Z; dc_mem : Z; dc_private : Z }.

(** [q] is NULL once the pool has been destroyed. *)
Record pool_t {Q : Type} := {
  q : option Q;
  num_of_elements : Z;
  element_size : Z;
  offset_data_from_header : Z
}.
Arguments pool_t : clear implicits.

Record pool_create_params_t := {
  pp_pool : bool;
  pp_num_of_elements : Z;
  pp_element_size_requested : Z;
  pp_total_element_size : Z;
  pp_backing : Z;
  pp_offset_data_from_header : Z
}.

(** ** Operations *)

(** The state of one pool: its control block and the memory. *)
Abbreviation state Q := (pool_t Q * memory)%type.

Definition set_header (m : memory) (a : Z) (hd : pool_header_t) : memory :=
  {| headers := <[a := hd]> (headers m); trailers := trailers m |}.

Definition set_trailer (m : memory) (a v : Z) : memory :=
  {| headers := headers m; trailers := <[a := v]> (trailers m) |}.

Definition read_header (m : memory) (a : Z) : result pool_header_t :=
  match headers m !! a with Some hd => Ok hd | None => Err BadPointer end.

Definition read_trailer (m : memory) (a : Z) : result Z :=
  match trailers m !! a with Some v => Ok v | None => Err BadPointer end.

Definition with_count (hd : pool_header_t) (n : Z) : pool_header_t :=
  {| sanity := sanity hd; retain_count := n; destructor := destructor hd;
     destructor_private := destructor_private hd |}.

Definition with_destructor (hd : pool_header_t) (f p : Z) : pool_header_t :=
  {| sanity := sanity hd; retain_count := retain_count hd; destructor := f;
     destructor_private := p |}.

Section pool.
Context {Q : Type} `{!BoundedQueue Q}.

Definition set_q (p : pool_t Q) (q' : option Q) : pool_t Q :=
  {| q := q'; num_of_elements := num_of_elements p; element_size := element_size p;
     offset_data_from_header := offset_data_from_header p |}.

(** [data] of the [i]-th element: [i * total_element_size] is a 32-bit product. *)
Definition element_data (params : pool_create_params_t) (i : Z) : Z :=
  pp_backing params + u32 (i * pp_total_element_size params) + pp_offset_data_from_header params.

(** The [for] loop with [n] iterations left; the result of the enqueue is not
    looked at. *)
Fixpoint pool_create_loop (n : nat) (i : Z) (params : pool_create_params_t) (qu : Q) (m : memory)
  : result (Q * memory) :=
  match n with
  | O => Ok (qu, m)
  | S n =>
      let data := element_data params i in
      let m1 := set_header m (data - pp_offset_data_from_header params)
                  {| sanity := POOL_ELEMENT_HEADER_SANITY; retain_count := 0;
                     destructor := 0; destructor_private := 0 |} in
      let m2 := set_trailer m1 (data + pp_element_size_requested params)
                  POOL_ELEMENT_TRAILER_SANITY in
      r ← bq_enqueue qu data;
      pool_create_loop n (i + 1) params (fst r) m2
  end.

(** [queue] is what [ts_queue_init] returns for the queue parameters.  The
    result is the pool object ([None]: there is none), whether it is returned,
    and the memory. *)
Definition pool_create (params : pool_create_params_t) (queue : option Q) (m : memory)
  : result (option (pool_t Q) * bool * memory) :=
  if negb (pp_pool params) then Ok (None, false, m)
  else
    match queue with
    | None => Ok (Some {| q := None; num_of_elements := 0; element_size := 0;
                          offset_data_from_header := 0 |}, false, m)
    | Some qu =>
        r ← pool_create_loop (Z.to_nat (pp_num_of_elements params)) 0 params qu m;
        Ok (Some {| q := Some (fst r); num_of_elements := pp_num_of_elements params;
                    element_size := pp_element_size_requested params;
                    offset_data_from_header := pp_offset_data_from_header params |},
            true, snd r)
    end.

Definition pool_destroy (p_pool : option (pool_t Q)) : option (pool_t Q) :=
  match p_pool with Some p => Some (set_q p None) | None => None end.

(** The header of a block and the two assertions that precede its use. *)
Definition checked_header (p : pool_t Q) (m : memory) (mem : Z) : result pool_header_t :=
  hd ← read_header m (mem - offset_data_from_header p);
  assert! sanity hd =? POOL_ELEMENT_HEADER_SANITY ;;
  t ← read_trailer m (mem + element_size p);
  assert! t =? POOL_ELEMENT_TRAILER_SANITY ;;
  Ok hd.

(** The block, NULL if there is none; or the call is waiting. *)
Definition pool_alloc_blocking (s : option (state Q)) (wait_ms fnDestroy private : Z)
  : result (option (state Q) * pause Z) :=
  match s with
  | None => Ok (None, Returns 0)
  | Some (p, m) =>
      match q p with
      | None => Ok (s, Returns 0)
      | Some qu =>
          r ← bq_dequeue qu wait_ms;
          let p' := set_q p (Some (fst r)) in
          match snd r with
          | Waits w => Ok (Some (p', m), Waits w)
          | Returns None => Ok (Some (p', m), Returns 0)
          | Returns (Some mem) =>
              hd ← checked_header p' m mem;
              let hd1 := with_count hd (u32 (retain_count hd + 1)) in
              let hd2 := if fnDestroy =? 0 then hd1 else with_destructor hd1 fnDestroy private in
              Ok (Some (p', set_header m (mem - offset_data_from_header p) hd2), Returns mem)
          end
      end
  end.

Definition pool_alloc (s : option (state Q)) : result (option (state Q) * pause Z) :=
  pool_alloc_blocking s NO_SLEEP 0 0.

Definition pool_retain (s : option (state Q)) (p_mem : Z) : result (option (state Q)) :=
  match s with
  | None => Ok None
  | Some (p, m) =>
      hd ← checked_header p m p_mem;
      Ok (Some (p, set_header m (p_mem - offset_data_from_header p)
                     (with_count hd (u32 (retain_count hd + 1)))))
  end.

Definition pool_free (s : option (state Q)) (p_mem : Z)
  : result (option (state Q) * list destructor_call) :=
  match s with
  | None => Ok (None, [])
  | Some (p, m) =>
      hd ← checked_header p m p_mem;
      let old_retain_count := retain_count hd in
      let m' := set_header m (p_mem - offset_data_from_header p)
                  (with_count hd (u32 (old_retain_count - 1))) in
      assert! negb (old_retain_count =? 0) ;;
      if old_retain_count =? 1 then
        let calls := if destructor hd =? 0 then []
                     else [{| dc_fn := destructor hd; dc_mem := p_mem;
                              dc_private := destructor_private hd |}] in
        match q p with
        | None => Ok (Some (p, m'), calls)
        | Some qu => r ← bq_enqueue qu p_mem; Ok (Some (set_q p (Some (fst r)), m'), calls)
        end
      else Ok (Some (p, m'), [])
  end.

Definition pool_set_destructor (s : option (state Q)) (p_mem fnDestroy private : Z)
  : result (option (state Q)) :=
  match s with
  | None => Ok None
  | Some (p, m) =>
      if p_mem =? 0 then Ok s
      else
        hd ← checked_header p m p_mem;
        Ok (Some (p, set_header m (p_mem - offset_data_from_header p)
                       (with_destructor hd fnDestroy private)))
  end.
End pool.

(** ** Abstract pool *)

(** The free blocks, next one first; the blocks in use with their reference
    counts; the last destructor given for a block, which stays with it. *)
Record apool := { free : list Z; live : gmap Z Z; dtors : gmap Z (Z * Z) }.

Definition dtor (a : apool) (b : Z) : Z * Z := default (0, 0) (dtors a !! b).

Inductive pool_op :=
  | PAlloc (fnDestroy private : Z)
  | PRetain (b : Z)
  | PFree (b : Z)
  | PSetDestructor (b fnDestroy private : Z).

Inductive pool_out :=
  | OBlock (b : Z)
  | ODestroyed (calls : list destructor_call)
  | OUnit.

Definition dtor_calls (a : apool) (b : Z) : list destructor_call :=
  if fst (dtor a b) =? 0 then []
  else [{| dc_fn := fst (dtor a b); dc_mem := b; dc_private := snd (dtor a b) |}].

Definition apool_step (a : apool) (o : pool_op) : apool * pool_out :=
  match o with
  | PAlloc f pr =>
      match free a with
      | [] => (a, OBlock 0)
      | b :: l => ({| free := l; live := <[b := 1]> (live a);
                      dtors := if f =? 0 then dtors a else <[b := (f, pr)]> (dtors a) |}, OBlock b)
      end
  | PRetain b => ({| free := free a; live := <[b := default 0 (live a !! b) + 1]> (live a);
                     dtors := dtors a |}, OUnit)
  | PFree b =>
      if default 0 (live a !! b) =? 1 then
        ({| free := free a ++ [b]; live := delete b (live a); dtors := dtors a |},
         ODestroyed (dtor_calls a b))
      else ({| free := free a; live := <[b := default 0 (live a !! b) - 1]> (live a);
               dtors := dtors a |}, ODestroyed [])
  | PSetDestructor b f pr =>
      ({| free := free a; live := live a; dtors := <[b := (f, pr)]> (dtors a) |}, OUnit)
  end.

Fixpoint apool_run (a : apool) (ops : list pool_op) : apool * list pool_out :=
  match ops with
  | [] => (a, [])
  | o :: ops => let '(a', out) := apool_step a o in
                let '(a'', outs) := apool_run a' ops in (a'', out :: outs)
  end.

(** Only blocks in use are retained, freed or given a destructor, and no count
    reaches [2^32]. *)
Definition op_legal (a : apool) (o : pool_op) : Prop :=
  match o with
  | PAlloc _ _ => True
  | PRetain b => exists c, live a !! b = Some c /\ c < 4294967295
  | PFree b | PSetDestructor b _ _ => is_Some (live a !! b)
  end.

Fixpoint ops_legal (a : apool) (ops : list pool_op) : Prop :=
  match ops with
  | [] => True
  | o :: ops => op_legal a o /\ ops_legal (fst (apool_step a o)) ops
  end.

Section refinement.
Context {Q : Type} `{!BoundedQueue Q} `{!BoundedQueueLaws Q}.

Definition pool_step (s : option (state Q)) (o : pool_op)
  : result (option (state Q) * pool_out) :=
  match o with
  | PAlloc f pr =>
      r ← pool_alloc_blocking s NO_SLEEP f pr;
      Ok (fst r, OBlock match snd r with Returns b => b | Waits _ => 0 end)
  | PRetain b => s' ← pool_retain s b; Ok (s', OUnit)
  | PFree b => r ← pool_free s b; Ok (fst r, ODestroyed (snd r))
  | PSetDestructor b f pr => s' ← pool_set_destructor s b f pr; Ok (s', OUnit)
  end.

Fixpoint pool_run (s : option (state Q)) (ops : list pool_op)
  : result (option (state Q) * list pool_out) :=
  match ops with
  | [] => Ok (s, [])
  | o :: ops => r ← pool_step s o; r' ← pool_run (fst r) ops; Ok (fst r', snd r :: snd r')
  end.

(** Block [b] has an intact header and trailer, the count [c] and the
    destructor [d]. *)
Definition block_in (p : pool_t Q) (m : memory) (b c : Z) (d : Z * Z) : Prop :=
  b <> 0 /\
  headers m !! (b - offset_data_from_header p) =
    Some {| sanity := POOL_ELEMENT_HEADER_SANITY; retain_count := c; destructor := fst d;
            destructor_private := snd d |} /\
  trailers m !! (b + element_size p) = Some POOL_ELEMENT_TRAILER_SANITY.

Record pool_inv (n : Z) (s : state Q) (a : apool) : Prop := {
  pi_queue : exists qu, q (fst s) = Some qu /\ bq_ok n qu /\ bq_items qu = free a /\
    zlen (free a) + Z.of_nat (size (live a)) <= bq_capacity qu;
  pi_nodup : NoDup (free a);
  pi_disjoint : forall b, b ∈ free a -> live a !! b = None;
  pi_free : forall b, b ∈ free a -> block_in (fst s) (snd s) b 0 (dtor a b);
  pi_live : forall b c, live a !! b = Some c ->
    0 < c < 4294967296 /\ block_in (fst s) (snd s) b c (dtor a b)
}.

Lemma checked_header_ok p m b c d :
  block_in p m b c d ->
  checked_header p m b = Ok {| sanity := POOL_ELEMENT_HEADER_SANITY; retain_count := c;
                               destructor := fst d; destructor_private := snd d |}.
Proof.
  intros (_ & Hh & Ht). unfold checked_header, read_header, read_trailer. rewrite Hh. cbn.
  rewrite Ht. done.
Qed.

(** Writing the header of one block leaves the others as they are; the control
    block's queue does not matter. *)
Lemma block_in_set_header p m b hd b' c d :
  b <> b' -> block_in p m b' c d ->
  block_in p (set_header m (b - offset_data_from_header p) hd) b' c d.
Proof.
  intros Hne (? & Hh & Ht). split_and!; cbn; [done| |done].
  by rewrite lookup_insert_ne by lia.
Qed.

Lemma block_in_header p m b c c' d d' :
  block_in p m b c d ->
  block_in p (set_header m (b - offset_data_from_header p)
    {| sanity := POOL_ELEMENT_HEADER_SANITY; retain_count := c'; destructor := fst d';
       destructor_private := snd d' |}) b c' d'.
Proof. intros (? & _ & Ht). split_and!; cbn; [done|by rewrite lookup_insert_eq|done]. Qed.

Lemma block_in_set_q p qu m b c d : block_in p m b c d -> block_in (set_q p qu) m b c d.
Proof. done. Qed.

Lemma set_q_same (p : pool_t Q) : set_q p (q p) = p.
Proof. by destruct p. Qed.

(** A block's destructor was set, and no other's. *)
Definition dtors_at (a : apool) (b : Z) (d : Z * Z) (D : gmap Z (Z * Z)) : Prop :=
  default (0, 0) (D !! b) = d /\ forall b', b' <> b -> D !! b' = dtors a !! b'.

Lemma dtors_at_same a b : dtors_at a b (dtor a b) (dtors a).
Proof. done. Qed.

Lemma dtors_at_insert a b d : dtors_at a b d (<[b := d]> (dtors a)).
Proof.
  split; [by rewrite lookup_insert_eq|]. intros b' Hne. by rewrite lookup_insert_ne.
Qed.

Lemma dtor_other a b d D l lv b' :
  dtors_at a b d D -> b' <> b -> dtor {| free := l; live := lv; dtors := D |} b' = dtor a b'.
Proof. intros [_ Ho] Hne. unfold dtor. cbn. by rewrite Ho. Qed.

(** A block in use gets another count or destructor. *)
Lemma pool_inv_live n p m a b c d D :
  0 <= n -> pool_inv (n + 1) (p, m) a -> is_Some (live a !! b) -> 0 < c < 4294967296 ->
  dtors_at a b d D ->
  pool_inv n (p, set_header m (b - offset_data_from_header p)
      {| sanity := POOL_ELEMENT_HEADER_SANITY; retain_count := c; destructor := fst d;
         destructor_private := snd d |})
    {| free := free a; live := <[b := c]> (live a); dtors := D |}.
Proof.
  intros Hn [Hq Hnd Hdis Hf Hl] [c0 Hb] Hc HD. pose proof HD as [HDb _].
  split; cbn [fst snd free live].
  - destruct Hq as (qu & Hq & Hok & Hi & Hcap). exists qu. split_and!; [done| |done|].
    + eapply bq_ok_mono, Hok. lia.
    + rewrite map_size_insert_Some by eauto. done.
  - done.
  - intros b' Hb'. rewrite lookup_insert_ne; [by apply Hdis|].
    intros <-. rewrite (Hdis _ Hb') in Hb. done.
  - intros b' Hb'. assert (b' <> b) by (intros ->; rewrite (Hdis _ Hb') in Hb; done).
    rewrite (dtor_other a b d) by done.
    apply block_in_set_header; [done|]. by apply Hf.
  - intros b' c'. destruct (decide (b = b')) as [<-|Hne].
    + rewrite lookup_insert_eq. intros [= <-]. split; [done|].
      unfold dtor. cbn. rewrite HDb.
      eapply block_in_header, Hl, Hb.
    + rewrite lookup_insert_ne by done. intros Hb'. destruct (Hl _ _ Hb') as [Hc' Hin].
      split; [done|]. rewrite (dtor_other a b d) by done.
      by apply block_in_set_header.
Qed.

(** The oldest free block goes into use. *)
Lemma pool_inv_alloc n p m a b l qu d D :
  pool_inv (n + 1) (p, m) a -> free a = b :: l ->
  bq_ok n qu -> bq_items qu = l ->
  (forall qu0, q p = Some qu0 -> bq_capacity qu = bq_capacity qu0) ->
  dtors_at a b d D ->
  pool_inv n (set_q p (Some qu), set_header m (b - offset_data_from_header p)
      {| sanity := POOL_ELEMENT_HEADER_SANITY; retain_count := 1; destructor := fst d;
         destructor_private := snd d |})
    {| free := l; live := <[b := 1]> (live a); dtors := D |}.
Proof.
  intros [Hq Hnd Hdis Hf Hl] Hfree Hok Hi Hcap HD. pose proof HD as [HDb _].
  assert (Hbf : b ∈ free a) by (rewrite Hfree; left).
  rewrite Hfree in Hnd. apply NoDup_cons in Hnd as [Hbl Hnd].
  assert (Hsub : forall x, x ∈ l -> x ∈ free a /\ b <> x).
  { intros x Hx. split; [rewrite Hfree; by right|]. intros ->. done. }
  split; cbn [fst snd free live].
  - destruct Hq as (qu0 & Hq & _ & Hi0 & Hc0). exists qu. split_and!; [done|done|done|].
    rewrite map_size_insert_None by by apply Hdis. rewrite (Hcap _ Hq).
    rewrite Hfree, zlen_cons in Hc0. lia.
  - done.
  - intros b' [Hb' Hne]%Hsub. rewrite lookup_insert_ne by done. by apply Hdis.
  - intros b' [Hb' Hne]%Hsub. rewrite (dtor_other a b d) by done.
    apply block_in_set_q, block_in_set_header; [done|]. by apply Hf.
  - intros b' c'. destruct (decide (b = b')) as [<-|Hne].
    + rewrite lookup_insert_eq. intros [= <-]. split; [lia|].
      unfold dtor. cbn. rewrite HDb. apply block_in_set_q. eapply block_in_header, Hf, Hbf.
    + rewrite lookup_insert_ne by done. intros Hb'. destruct (Hl _ _ Hb') as [Hc' Hin].
      split; [done|]. rewrite (dtor_other a b d) by done. by apply block_in_set_q, block_in_set_header.
Qed.

(** A block in use returns behind the free ones. *)
Lemma pool_inv_free n p m a b c qu :
  pool_inv (n + 1) (p, m) a -> live a !! b = Some c ->
  bq_ok n qu -> bq_items qu = free a ++ [b] ->
  (forall qu0, q p = Some qu0 -> bq_capacity qu = bq_capacity qu0) ->
  pool_inv n (set_q p (Some qu), set_header m (b - offset_data_from_header p)
      {| sanity := POOL_ELEMENT_HEADER_SANITY; retain_count := 0;
         destructor := fst (dtor a b); destructor_private := snd (dtor a b) |})
    {| free := free a ++ [b]; live := delete b (live a); dtors := dtors a |}.
Proof.
  intros [Hq Hnd Hdis Hf Hl] Hb Hok Hi Hcap.
  assert (Hbf : b ∉ free a) by (intros H; rewrite (Hdis _ H) in Hb; done).
  assert (Hd : forall b', dtor {| free := free a ++ [b]; live := delete b (live a);
      dtors := dtors a |} b' = dtor a b') by done.
  split; cbn [fst snd free live].
  - destruct Hq as (qu0 & Hq & _ & Hi0 & Hc0). exists qu. split_and!; [done|done|done|].
    rewrite (Hcap _ Hq), zlen_app, zlen_cons, zlen_nil.
    rewrite map_size_delete_Some by eauto.
    assert (size (live a) <> 0)%nat; [|lia].
    intros H0. apply map_size_empty_inv in H0. rewrite H0, lookup_empty in Hb. done.
  - apply NoDup_app. split_and!; [done| |apply NoDup_singleton].
    intros x Hx ->%list_elem_of_singleton. done.
  - intros b' [Hb'| ->%list_elem_of_singleton]%elem_of_app; [|apply lookup_delete_eq].
    rewrite lookup_delete_ne by congruence. by apply Hdis.
  - intros b' [Hb'| ->%list_elem_of_singleton]%elem_of_app; rewrite Hd.
    + apply block_in_set_q, block_in_set_header; [congruence|]. by apply Hf.
    + apply block_in_set_q. eapply block_in_header, Hl, Hb.
  - intros b' c'. rewrite lookup_delete_Some. intros [Hne Hb'].
    destruct (Hl _ _ Hb') as [Hc' Hin]. split; [done|]. rewrite Hd.
    by apply block_in_set_q, block_in_set_header.
Qed.

Lemma pool_inv_mono n m s a : m <= n -> pool_inv n s a -> pool_inv m s a.
Proof.
  intros Hm [(qu & ? & Hok & ? & ?) ? ? ? ?]. split; try done.
  exists qu. split_and!; try done. by eapply bq_ok_mono, Hok.
Qed.

(** What an operation on a legal argument gives. *)
Definition step_ok (n : Z) (s : pool_t Q * memory) (a : apool) (o : pool_op) : Prop :=
  exists s', pool_step (Some s) o = Ok (Some s', snd (apool_step a o)) /\ pool_inv n s' (fst (apool_step a o)).

Lemma palloc_ok n s a f pr : 0 <= n -> pool_inv (n + 1) s a -> step_ok n s a (PAlloc f pr).
Proof.
  intros Hn Hinv. destruct s as [p m]. pose proof Hinv as [(qu & Hq & Hok & Hi & Hcap) _ _ Hf _].
  unfold step_ok. cbn in *. rewrite Hq. destruct (free a) as [|b l] eqn:Hfree.
  - rewrite (bq_dequeue_none n) by done. cbn. exists (p, m). rewrite <- Hq, set_q_same. split; [done|].
    eapply pool_inv_mono, Hinv. lia.
  - destruct (bq_dequeue_some n qu b l NO_SLEEP Hn Hok Hi) as (qu' & -> & Hok' & Hi' & Hc').
    cbn. pose proof (Hf b ltac:(left)) as Hin.
    assert (Hin' : block_in (set_q p (Some qu')) m b 0 (dtor a b)) by exact Hin.
    rewrite (checked_header_ok _ _ _ _ _ Hin'). cbn.
    assert (HC : forall qu0, q p = Some qu0 -> bq_capacity qu' = bq_capacity qu0) by congruence.
    eexists. split; [reflexivity|]. destruct (f =? 0) eqn:Ef.
    + exact (pool_inv_alloc n p m a b l qu' (dtor a b) _ Hinv Hfree Hok' Hi' HC (dtors_at_same a b)).
    + exact (pool_inv_alloc n p m a b l qu' (f, pr) _ Hinv Hfree Hok' Hi' HC (dtors_at_insert a b (f, pr))).
Qed.

Lemma pretain_ok n s a b :
  0 <= n -> pool_inv (n + 1) s a -> op_legal a (PRetain b) -> step_ok n s a (PRetain b).
Proof.
  intros Hn Hinv (c & Hb & Hc). destruct s as [p m]. destruct (pi_live _ _ _ Hinv _ _ Hb) as [Hc0 Hin].
  unfold step_ok. cbn in *. rewrite (checked_header_ok _ _ _ _ _ Hin), Hb. cbn. rewrite u32_small by words.
  eexists. split; [reflexivity|].
  exact (pool_inv_live n p m a b (c + 1) (dtor a b) _ Hn Hinv ltac:(eauto) ltac:(lia) (dtors_at_same a b)).
Qed.

(** There is room in the queue for a block that is out. *)
Lemma room_for_live n s a b c qu :
  pool_inv n s a -> live a !! b = Some c -> q (fst s) = Some qu -> zlen (bq_items qu) < bq_capacity qu.
Proof.
  intros [(qu0 & Hq & _ & Hi & Hcap) _ _ _ _] Hb Hq'. rewrite Hq in Hq'. injection Hq' as <-.
  rewrite Hi. assert (size (live a) <> 0)%nat; [|lia].
  intros H0. apply map_size_empty_inv in H0. by rewrite H0, lookup_empty in Hb.
Qed.

Lemma pfree_ok n s a b :
  0 <= n -> pool_inv (n + 1) s a -> op_legal a (PFree b) -> step_ok n s a (PFree b).
Proof.
  intros Hn Hinv [c Hb]. destruct s as [p m]. pose proof Hinv as [(qu & Hq & Hok & Hi & Hcap) _ _ _ Hl].
  unfold step_ok. cbn in *. destruct (Hl _ _ Hb) as [Hc0 Hin]. rewrite (checked_header_ok _ _ _ _ _ Hin), Hb.
  cbn. rewrite (proj2 (Z.eqb_neq c 0)) by lia. cbn. destruct (c =? 1) eqn:E; bdestr.
  - subst c. rewrite Hq. pose proof (room_for_live _ _ _ _ _ _ Hinv Hb Hq) as Hlt.
    destruct (bq_enqueue_room n qu b Hn Hok (proj1 Hin) Hlt) as (qu' & -> & Hok' & Hi' & Hc').
    cbn. eexists. split; [reflexivity|]. rewrite Hi in Hi'.
    assert (HC : forall qu0, q p = Some qu0 -> bq_capacity qu' = bq_capacity qu0) by congruence.
    exact (pool_inv_free n p m a b 1 qu' Hinv Hb Hok' Hi' HC).
  - rewrite u32_small by words. eexists. split; [reflexivity|].
    exact (pool_inv_live n p m a b (c - 1) (dtor a b) _ Hn Hinv ltac:(eauto) ltac:(lia) (dtors_at_same a b)).
Qed.

Lemma pset_destructor_ok n s a b f pr :
  0 <= n -> pool_inv (n + 1) s a -> op_legal a (PSetDestructor b f pr) ->
  step_ok n s a (PSetDestructor b f pr).
Proof.
  intros Hn Hinv [c Hb]. destruct s as [p m]. destruct (pi_live _ _ _ Hinv _ _ Hb) as [Hc0 Hin].
  unfold step_ok. cbn in *. rewrite (proj2 (Z.eqb_neq b 0)) by apply Hin.
  rewrite (checked_header_ok _ _ _ _ _ Hin). cbn. eexists. split; [reflexivity|].
  pose proof (pool_inv_live n p m a b c (f, pr) _ Hn Hinv ltac:(eauto) ltac:(lia)
                (dtors_at_insert a b (f, pr))) as H.
  rewrite insert_id in H by done. exact H.
Qed.

(** One operation on a legal argument. *)
Lemma pool_step_ok n s a o :
  0 <= n -> pool_inv (n + 1) s a -> op_legal a o -> step_ok n s a o.
Proof.
  intros Hn Hinv Ho. destruct o; auto using palloc_ok, pretain_ok, pfree_ok, pset_destructor_ok.
Qed.

(** ** Creation *)

Definition blocks (params : pool_create_params_t) : list Z :=
  (fun i => element_data params (Z.of_nat i)) <$> seq 0 (Z.to_nat (pp_num_of_elements params)).

Definition created (params : pool_create_params_t) (qu : Q) : pool_t Q :=
  {| q := Some qu; num_of_elements := pp_num_of_elements params;
     element_size := pp_element_size_requested params;
     offset_data_from_header := pp_offset_data_from_header params |}.

(** The caller provides a queue with a cell for every element, and elements at
    different addresses. *)
Record create_ok (n : Z) (params : pool_create_params_t) (qu : Q) : Prop := {
  co_pool : pp_pool params = true;
  co_num : 0 <= pp_num_of_elements params;
  co_nodup : NoDup (blocks params);
  co_null : 0 ∉ blocks params;
  co_queue : bq_ok (n + pp_num_of_elements params) qu;
  co_empty : bq_items qu = [];
  co_cap : pp_num_of_elements params <= bq_capacity qu
}.

Lemma pool_create_loop_ok n params : forall k i qu m,
  0 <= n -> (i + k = Z.to_nat (pp_num_of_elements params))%nat ->
  NoDup (blocks params) -> 0 ∉ blocks params ->
  bq_ok (n + Z.of_nat k) qu -> bq_items qu = take i (blocks params) ->
  pp_num_of_elements params <= bq_capacity qu ->
  (forall b, b ∈ take i (blocks params) -> block_in (created params qu) m b 0 (0, 0)) ->
  exists qu' m', pool_create_loop k (Z.of_nat i) params qu m = Ok (qu', m') /\
    bq_ok n qu' /\ bq_items qu' = blocks params /\ bq_capacity qu' = bq_capacity qu /\
    forall b, b ∈ blocks params -> block_in (created params qu') m' b 0 (0, 0).
Proof.
  induction k as [|k IH]; intros i qu m Hn Hik Hnd Hnull Hok Hi Hcap Hb.
  - assert (Hlen : length (blocks params) = i)
      by (unfold blocks; rewrite length_fmap, length_seq; lia).
    rewrite take_ge in Hi, Hb by lia. exists qu, m. split_and!; try done.
    eapply bq_ok_mono, Hok. lia.
  - cbn [pool_create_loop]. set (b := element_data params (Z.of_nat i)).
    assert (Hbi : blocks params !! i = Some b).
    { unfold blocks. rewrite list_lookup_fmap, lookup_seq_lt by lia. done. }
    assert (Hb0 : b <> 0) by (intros H0; apply Hnull; rewrite <- H0; by eapply list_elem_of_lookup_2).
    assert (Hlen : length (take i (blocks params)) = i).
    { rewrite length_take_le; [done|]. unfold blocks. rewrite length_fmap, length_seq. lia. }
    destruct (bq_enqueue_room (n + Z.of_nat k) qu b) as (qu' & -> & Hok' & Hi' & Hcap').
    { lia. }
    { replace (n + Z.of_nat k + 1) with (n + Z.of_nat (S k)) by lia. done. }
    { done. }
    { rewrite Hi. unfold zlen. rewrite Hlen. lia. }
    cbn [mbind result_bind fst].
    replace (Z.of_nat i + 1) with (Z.of_nat (S i)) by lia.
    destruct (IH (S i) qu'
        (set_trailer (set_header m (b - pp_offset_data_from_header params)
           {| sanity := POOL_ELEMENT_HEADER_SANITY; retain_count := 0; destructor := 0;
              destructor_private := 0 |})
           (b + pp_element_size_requested params) POOL_ELEMENT_TRAILER_SANITY))
      as (qu'' & m'' & Hr & Hok'' & Hi'' & Hc'' & Hb''); try done; try lia.
    + by rewrite Hi', Hi, (take_S_r _ _ _ Hbi).
    + rewrite (take_S_r _ _ _ Hbi).
      intros b' [Hb'| ->%list_elem_of_singleton]%elem_of_app.
      * destruct (Hb b' Hb') as (? & Hh & Ht).
        assert (b <> b').
        { intros <-. apply elem_of_take in Hb' as (j & Hj & Hji).
          pose proof (NoDup_lookup _ _ _ _ Hnd Hbi Hj). lia. }
        split_and!; cbn; [done| |]; rewrite lookup_insert_ne by lia; done.
      * split_and!; cbn; [done| |]; by rewrite lookup_insert_eq.
    + exists qu'', m''. split_and!; try done. congruence.
Qed.

(** ** Runs *)

Lemma pool_run_ok ops : forall n s a,
  0 <= n -> pool_inv (n + zlen ops) s a -> ops_legal a ops ->
  exists s', pool_run (Some s) ops = Ok (Some s', snd (apool_run a ops)) /\
             pool_inv n s' (fst (apool_run a ops)).
Proof.
  induction ops as [|o ops IH]; intros n s a Hn Hinv Hl.
  - exists s. split; [done|]. replace (n + zlen (@nil pool_op)) with n in Hinv; [done|].
    rewrite zlen_nil. lia.
  - cbn in Hl. destruct Hl as [Ho Hl]. rewrite zlen_cons in Hinv.
    pose proof (zlen_nonneg ops).
    destruct (pool_step_ok (n + zlen ops) s a o) as (s1 & Hs & Hinv1); [lia| |done|].
    { replace (n + zlen ops + 1) with (n + (zlen ops + 1)) by lia. done. }
    destruct (IH n s1 _ Hn Hinv1 Hl) as (s2 & Hr & Hinv2).
    exists s2. cbn [pool_run apool_run]. rewrite Hs. cbn [mbind result_bind fst snd].
    rewrite Hr. cbn [mbind result_bind fst snd].
    destruct (apool_step a o) as [a1 out]. cbn [fst snd] in *.
    destruct (apool_run a1 ops) as [a2 outs]. done.
Qed.

Lemma pool_create_inv n params qu m :
  0 <= n -> create_ok n params qu ->
  exists p m', pool_create params (Some qu) m = Ok (Some p, true, m') /\
    pool_inv n (p, m') {| free := blocks params; live := ∅; dtors := ∅ |}.
Proof.
  intros Hn [Hp Hnum Hnd Hnull Hok He Hcap]. unfold pool_create. rewrite Hp. cbn [negb].
  destruct (pool_create_loop_ok n params (Z.to_nat (pp_num_of_elements params)) 0 qu m)
    as (qu' & m' & Hr & Hok' & Hi' & Hc' & Hb'); try done.
  - by rewrite Z2Nat.id by done.
  - rewrite take_0. intros b Hb. by apply elem_of_nil in Hb.
  - change (Z.of_nat 0) with 0 in Hr. rewrite Hr. cbn. eexists _, m'. split; [reflexivity|].
    split; cbn [fst snd free live dtors]; try done.
    exists qu'. split_and!; [done|done|done|]. rewrite map_size_empty, Hc'.
    unfold zlen, blocks. rewrite length_fmap, length_seq. lia.
Qed.

(** ** Properties *)

(** ** The calls, for the clients of a pool *)

Lemma pool_alloc_ok n s a b l :
  0 <= n -> pool_inv (n + 1) s a -> free a = b :: l ->
  exists s', pool_alloc (Some s) = Ok (Some s', Returns b) /\
    pool_inv n s' (fst (apool_step a (PAlloc 0 0))).
Proof.
  intros Hn Hi Hf. destruct (pool_step_ok n s a (PAlloc 0 0) Hn Hi I) as (s' & Hs & Hi').
  exists s'. split; [|done]. destruct (pi_free _ _ _ Hi b) as [Hb _]; [rewrite Hf; left|].
  cbn [apool_step pool_step] in Hs. rewrite Hf in Hs. cbn [snd] in Hs.
  apply bind_ok in Hs as ([s1 out] & Ha & Hs). cbn [fst snd] in Hs. injection Hs as -> Hout.
  unfold pool_alloc. rewrite Ha. destruct out as [w|x]; [congruence|]. by rewrite Hout.
Qed.

Lemma pool_alloc_none n s a :
  0 <= n -> pool_inv (n + 1) s a -> free a = [] ->
  exists s', pool_alloc (Some s) = Ok (Some s', Returns 0) /\ pool_inv n s' a.
Proof.
  intros Hn [(qu & Hq & Hok & Hi & Hcap) Hnd Hd Hf Hl] Hfree.
  destruct s as [p m]. unfold pool_alloc, pool_alloc_blocking. cbn [fst snd] in *.
  rewrite Hq, (bq_dequeue_none n qu Hn Hok) by (by rewrite Hi). cbn [mbind result_bind fst snd].
  eexists. split; [reflexivity|]. split; cbn; try done.
  exists qu. split_and!; try done. eapply bq_ok_mono, Hok. lia.
Qed.

Lemma pool_free_ok n s a b :
  0 <= n -> pool_inv (n + 1) s a -> is_Some (live a !! b) ->
  exists s' calls, pool_free (Some s) b = Ok (Some s', calls) /\
    pool_inv n s' (fst (apool_step a (PFree b))).
Proof.
  intros Hn Hi Hl. destruct (pool_step_ok n s a (PFree b) Hn Hi Hl) as (s' & Hs & Hi').
  cbn [pool_step] in Hs. apply bind_ok in Hs as ([s1 calls] & Hfree & Hs).
  cbn [fst snd] in Hs. injection Hs as -> _. by exists s', calls.
Qed.

(** A block without references. *)
Lemma pool_free_twice n s a b :
  pool_inv n s a -> b ∈ free a -> pool_free (Q := Q) (Some s) b = Err AssertFailed.
Proof.
  intros Hinv Hb. pose proof (pi_free _ _ _ Hinv b Hb) as Hin. destruct s as [p m].
  cbn in *. by rewrite (checked_header_ok _ _ _ _ _ Hin).
Qed.

(** ** Owners of single references *)

(** Exactly the blocks of [l] are in use, with one reference each. *)
Definition owns (ea : apool) (l : list Z) : Prop :=
  NoDup l /\ (forall b, is_Some (live ea !! b) <-> b ∈ l) /\
  forall b c, live ea !! b = Some c -> c = 1.

Lemma owns_perm ea l l' : l ≡ₚ l' -> owns ea l -> owns ea l'.
Proof.
  intros Hp (Hnd & Hl & Hc). split_and!; [by rewrite <- Hp| |done].
  intros b. by rewrite Hl, Hp.
Qed.

Lemma owns_alloc ea l b fl :
  owns ea l -> free ea = b :: fl -> live ea !! b = None ->
  owns (fst (apool_step ea (PAlloc 0 0))) (b :: l).
Proof.
  intros (Hnd & Hl & Hc) Hf Hb. cbn. rewrite Hf. cbn. split_and!.
  - constructor; [|done]. rewrite <- Hl, Hb. by intros [].
  - intros x. cbn. destruct (decide (b = x)) as [<-|Hne].
    + rewrite lookup_insert_eq. split; [left|by eexists].
    + rewrite lookup_insert_ne, Hl, elem_of_cons by done. split; [auto|by intros [->|?]].
  - intros x c. cbn. destruct (decide (b = x)) as [<-|Hne].
    + rewrite lookup_insert_eq. congruence.
    + rewrite lookup_insert_ne by done. apply Hc.
Qed.

Lemma owns_free ea l b : owns ea (b :: l) -> owns (fst (apool_step ea (PFree b))) l.
Proof.
  intros (Hnd & Hl & Hc). apply NoDup_cons in Hnd as [Hbl Hnd].
  assert (live ea !! b = Some 1) as Hb.
  { destruct (proj2 (Hl b) ltac:(left)) as [c Hb]. by rewrite Hb, (Hc _ _ Hb). }
  cbn. rewrite Hb. cbn. split_and!; [done| |].
  - intros x. cbn. destruct (decide (b = x)) as [<-|Hne].
    + rewrite lookup_delete_eq. split; [by intros []|done].
    + rewrite lookup_delete_ne, Hl, elem_of_cons by done. split; [by intros [->|?]|auto].
  - intros x c. cbn. destruct (decide (b = x)) as [<-|Hne].
    + by rewrite lookup_delete_eq.
    + rewrite lookup_delete_ne by done. apply Hc.
Qed.

Lemma pool_alloc_size p m p' m' (r : pause Z) :
  pool_alloc (Q := Q) (Some (p, m)) = Ok (Some (p', m'), r) -> element_size p' = element_size p.
Proof.
  unfold pool_alloc, pool_alloc_blocking. intros H. destruct (q p); [|by injection H as <- _ _].
  apply bind_ok in H as ([qu [wc|[b|]]] & _ & H); cbn in H; [by injection H as <- _ _| |by injection H as <- _ _].
  apply bind_ok in H as (hd & _ & H). by injection H as <- _ _.
Qed.

(** C7: a pool is a set of reference-counted blocks.  [pool_create] makes
    every block free, in address order, whatever the memory held; from there
    any sequence of allocations, retains, frees and destructor registrations on
    blocks in use runs without a fault and behaves as the abstract pool: an
    allocation hands out the block that has been free longest, which is not in
    use, and NULL exactly when no block is free; a block returns to the pool
    exactly when its last reference is freed, after its destructor has been
    called once. *)
Theorem pool_refines_refcounts params qu m ops n :
  0 <= n -> create_ok (n + zlen ops) params qu ->
  let a := {| free := blocks params; live := ∅; dtors := ∅ |} in
  ops_legal a ops ->
  exists p m' s', pool_create params (Some qu) m = Ok (Some p, true, m') /\
    pool_run (Some (p, m')) ops = Ok (Some s', snd (apool_run a ops)) /\
    pool_inv n s' (fst (apool_run a ops)).
Proof.
  intros Hn Hc a Hl. pose proof (zlen_nonneg ops).
  destruct (pool_create_inv (n + zlen ops) params qu m) as (p & m' & Hp & Hinv); [lia|done|].
  destruct (pool_run_ok ops n (p, m') a Hn Hinv Hl) as (s' & Hr & Hinv').
  exists p, m', s'. auto.
Qed.

(** C39: misuse.  Freeing a block that has no reference stops the program, as
    does any use of a block whose header or trailer has been overwritten.  A
    destructor given at an allocation is not forgotten when the block is freed:
    the next user of the block, who gave none, has it called again. *)
Theorem pool_misuse n s a :
  pool_inv (n + 4) s a -> 0 <= n ->
  (forall b, b ∈ free a -> pool_free (Some s) b = Err AssertFailed) /\
  (forall b hd t p m, headers m !! (b - offset_data_from_header p) = Some hd ->
     trailers m !! (b + element_size p) = Some t ->
     sanity hd <> POOL_ELEMENT_HEADER_SANITY \/ t <> POOL_ELEMENT_TRAILER_SANITY ->
     pool_free (Q := Q) (Some (p, m)) b = Err AssertFailed /\
     pool_retain (Q := Q) (Some (p, m)) b = Err AssertFailed) /\
  (forall b f pr, free a = [b] -> f <> 0 ->
     let call := {| dc_fn := f; dc_mem := b; dc_private := pr |} in
     exists s', pool_run (Some s) [PAlloc f pr; PFree b; PAlloc 0 0; PFree b] =
       Ok (Some s', [OBlock b; ODestroyed [call]; OBlock b; ODestroyed [call]])).
Proof.
  intros Hinv Hn. split_and!.
  - intros b. by apply (pool_free_twice (n + 4)).
  - intros b hd t p m Hh Ht Hbad. cbn. unfold checked_header, read_header, read_trailer.
    rewrite Hh. cbn. destruct (sanity hd =? _) eqn:E; cbn; [|done]. bdestr.
    rewrite Ht. cbn. destruct (t =? _) eqn:E2; cbn; [|done]. bdestr. tauto.
  - intros b f pr Hfree Hf call.
    pose proof (pool_run_ok [PAlloc f pr; PFree b; PAlloc 0 0; PFree b] n s a Hn Hinv) as H.
    cbn [ops_legal apool_step apool_run op_legal] in H.
    repeat (rewrite ?Hfree in H; cbn [fst snd free live dtors app] in H;
            rewrite ?lookup_insert_eq in H; cbn [default id Z.eqb Pos.eqb] in H).
    destruct H as (s' & Hr & _); [split_and!; (done || by eexists)|].
    exists s'. rewrite Hr. unfold dtor_calls, dtor. cbn [dtors].
    rewrite (proj2 (Z.eqb_neq f 0)), lookup_insert_eq by done. cbn.
    by rewrite (proj2 (Z.eqb_neq f 0)) by done.
Qed.
End refinement.

(** ** Witnesses, with the queue of the c11 port *)

#[local] Instance ex_bq : BoundedQueue ts_queue_t := port_queue thrd_timedout ex_now.

#[local] Instance ex_bq_laws : BoundedQueueLaws ts_queue_t.
Proof. apply (port_queue_laws thrd_timedout ltac:(discriminate) ex_now). Qed.

Definition ex_pool_params (num : Z) : pool_create_params_t :=
  {| pp_pool := true; pp_num_of_elements := num; pp_element_size_requested := 8;
     pp_total_element_size := 64; pp_backing := 1000; pp_offset_data_from_header := 32 |}.

Definition ex_pool_queue : ts_queue_t :=
  {| pp_ptr_array := [5; 6]; TsQueue.size := 2; count := 0; TsQueue.head := 0; TsQueue.tail := 0 |}.

Definition ex_memory : memory := {| headers := ∅; trailers := ∅ |}.

Lemma ex_create_ok n num :
  0 <= n <= 1000 -> num = 1 \/ num = 2 -> create_ok n (ex_pool_params num) ex_pool_queue.
Proof.
  intros Hn Hnum. split; [done|destruct Hnum as [->| ->]; done| | | |done|].
  - destruct Hnum as [->| ->]; by apply (bool_decide_unpack _).
  - destruct Hnum as [->| ->]; by apply (bool_decide_unpack _).
  - split; [|unfold room; destruct Hnum as [->| ->]; cbn; lia].
    split; cbn; try lia; [|done]. exists 1. split; [lia|done].
  - destruct Hnum as [->| ->]; cbn; lia.
Qed.

(** The destructor 77 runs when the second reference is freed. *)
Definition ex_ops : list pool_op :=
  [PAlloc 77 5; PAlloc 0 0; PAlloc 0 0; PRetain 1032; PFree 1032; PFree 1032].

Lemma pool_refines_refcounts_witness :
  exists p m' s',
    pool_create (ex_pool_params 2) (Some ex_pool_queue) ex_memory = Ok (Some p, true, m') /\
    pool_run (Some (p, m')) ex_ops =
      Ok (Some s', [OBlock 1032; OBlock 1096; OBlock 0; OUnit; ODestroyed [];
                    ODestroyed [{| dc_fn := 77; dc_mem := 1032; dc_private := 5 |}]]).
Proof.
  destruct (pool_refines_refcounts (ex_pool_params 2) ex_pool_queue ex_memory ex_ops 4)
    as (p & m' & s' & H1 & H2 & _).
  - discriminate.
  - apply ex_create_ok; [done|by right].
  - cbn. split_and!; try done; try (by eexists).
  - exists p, m', s'. split; [exact H1|]. rewrite H2. reflexivity.
Defined.

Lemma pool_misuse_witness :
  exists p m', pool_create (ex_pool_params 1) (Some ex_pool_queue) ex_memory = Ok (Some p, true, m') /\
    pool_free (Some (p, m')) 1032 = Err AssertFailed /\
    let call := {| dc_fn := 77; dc_mem := 1032; dc_private := 5 |} in
    exists s', pool_run (Some (p, m')) [PAlloc 77 5; PFree 1032; PAlloc 0 0; PFree 1032] =
      Ok (Some s', [OBlock 1032; ODestroyed [call]; OBlock 1032; ODestroyed [call]]).
Proof.
  destruct (pool_create_inv 10 (ex_pool_params 1) ex_pool_queue ex_memory)
    as (p & m' & Hp & Hinv); [discriminate|apply ex_create_ok; [done|by left]|].
  destruct (pool_misuse 6 (p, m') _ Hinv ltac:(discriminate)) as (H1 & _ & H3).
  exists p, m'. split; [exact Hp|]. split.
  - apply H1. by apply (bool_decide_unpack _).
  - apply (H3 1032 77 5); [reflexivity|discriminate].
Defined.
