(* ===== verification/StateMachine.v ===== *)
(** The state machine of src/state_machine.c, inc/cutils/state_machine.h and
    inc/cutils/state.h.

    The states are objects in a memory, and a callback is client code named by
    its address: it gets the machine, the memory and the client's world and may
    change all three.  Logging is left out. *)
From S2P Require Import Prelude.
From stdpp Require Import list gmap sets.
From Stdlib Require Import ZArith Lia.
Local Open Scope Z_scope.

(** ** Data *)

Definition STATE_MAC_MAX_STATES : Z := 20.

Record state_t := {
  stateId : Z;
  f_init : Z;
  f_enter : Z;
  f_exit : Z;
  f_valid_event : Z;
  f_handle_event : Z;
  p_sm : Z;
  entered_once : bool
}.

Record state_machine_t := {
  p_name : Z;
  num_of_states : Z;
  current_state : Z;
  states : list Z;
  transition_requested : bool;
  next_state_requested : Z;
  p_private : Z;
  state_machine_started : bool;
  start_state_id : Z
}.

(** [sp_state_mac]: whether the storage of the machine was provided. *)
Record state_machine_create_params_t := {
  sp_state_mac : bool;
  sp_name : Z;
  sp_private : Z;
  sp_start_state_id : Z
}.

(** The machine, the states by address, and the client's world. *)
Record sys {W : Type} := { sm : state_machine_t; mem : gmap Z state_t; world : W }.
Arguments sys : clear implicits.

(** The callbacks of a state, on the address of the state (and an event). *)
Definition state_init_f (W : Type) : Type := Z -> sys W -> result (sys W).

Definition state_enter_f (W : Type) : Type := Z -> sys W -> result (sys W).

Definition state_exit_f (W : Type) : Type := Z -> sys W -> result (sys W).

Definition state_is_valid_event_f (W : Type) : Type := Z -> Z -> sys W -> result (sys W * bool).

Definition state_handle_event_f (W : Type) : Type := Z -> Z -> sys W -> result (sys W * Z).

Definition set_current (m : state_machine_t) (cur : Z) : state_machine_t :=
  {| p_name := p_name m; num_of_states := num_of_states m; current_state := cur;
     states := states m; transition_requested := transition_requested m;
     next_state_requested := next_state_requested m; p_private := p_private m;
     state_machine_started := state_machine_started m; start_state_id := start_state_id m |}.

Definition set_request (m : state_machine_t) (req : bool) (next : Z) : state_machine_t :=
  {| p_name := p_name m; num_of_states := num_of_states m; current_state := current_state m;
     states := states m; transition_requested := req; next_state_requested := next;
     p_private := p_private m; state_machine_started := state_machine_started m;
     start_state_id := start_state_id m |}.

Definition set_started (m : state_machine_t) (b : bool) : state_machine_t :=
  {| p_name := p_name m; num_of_states := num_of_states m; current_state := current_state m;
     states := states m; transition_requested := transition_requested m;
     next_state_requested := next_state_requested m; p_private := p_private m;
     state_machine_started := b; start_state_id := start_state_id m |}.

Definition set_states (m : state_machine_t) (l : list Z) (n : Z) : state_machine_t :=
  {| p_name := p_name m; num_of_states := n; current_state := current_state m; states := l;
     transition_requested := transition_requested m;
     next_state_requested := next_state_requested m; p_private := p_private m;
     state_machine_started := state_machine_started m; start_state_id := start_state_id m |}.

Definition set_private (m : state_machine_t) (p : Z) : state_machine_t :=
  {| p_name := p_name m; num_of_states := num_of_states m; current_state := current_state m;
     states := states m; transition_requested := transition_requested m;
     next_state_requested := next_state_requested m; p_private := p;
     state_machine_started := state_machine_started m; start_state_id := start_state_id m |}.

Definition set_entered (st : state_t) (b : bool) : state_t :=
  {| stateId := stateId st; f_init := f_init st; f_enter := f_enter st; f_exit := f_exit st;
     f_valid_event := f_valid_event st; f_handle_event := f_handle_event st;
     p_sm := p_sm st; entered_once := b |}.

Definition set_machine (st : state_t) (m : Z) : state_t :=
  {| stateId := stateId st; f_init := f_init st; f_enter := f_enter st; f_exit := f_exit st;
     f_valid_event := f_valid_event st; f_handle_event := f_handle_event st;
     p_sm := m; entered_once := entered_once st |}.

(** ** Operations *)

Definition state_machine_initialize : state_machine_t :=
  {| p_name := 0; num_of_states := 0; current_state := 0;
     states := replicate (Z.to_nat STATE_MAC_MAX_STATES) 0; transition_requested := false;
     next_state_requested := 0; p_private := 0; state_machine_started := false;
     start_state_id := 0 |}.

Definition state_machine_set_private_data (m : option state_machine_t) (private : Z)
  : result state_machine_t :=
  match m with Some m => Ok (set_private m private) | None => Err AssertFailed end.

Definition state_machine_get_private_data (m : option state_machine_t) : result Z :=
  match m with Some m => Ok (p_private m) | None => Err AssertFailed end.

Definition state_machine_create (params : option state_machine_create_params_t)
  : result state_machine_t :=
  match params with
  | Some p =>
      assert! sp_state_mac p ;;
      let m := state_machine_initialize in
      state_machine_set_private_data
        (Some {| p_name := sp_name p; num_of_states := num_of_states m;
                 current_state := current_state m; states := states m;
                 transition_requested := transition_requested m;
                 next_state_requested := next_state_requested m; p_private := p_private m;
                 state_machine_started := state_machine_started m;
                 start_state_id := sp_start_state_id p |})
        (sp_private p)
  | None => Err AssertFailed
  end.

Definition deref (mem : gmap Z state_t) (p : Z) : result state_t :=
  match mem !! p with Some st => Ok st | None => Err BadPointer end.

(** The [for] loop over the registered states; NULL if no state has the id. *)
Fixpoint find_state (mem : gmap Z state_t) (l : list Z) (id : Z) : result Z :=
  match l with
  | [] => Ok 0
  | a :: l => st ← deref mem a; if stateId st =? id then Ok a else find_state mem l id
  end.

Section machine.
Context {W : Type}.
(** The client's callbacks, by their address; the ones without an event have one
    type. *)
Context (call : Z -> state_enter_f W).
Context (call_valid : Z -> state_is_valid_event_f W).
Context (call_handle : Z -> state_handle_event_f W).

Definition set_sm (s : sys W) (m : state_machine_t) : sys W :=
  {| sm := m; mem := mem s; world := world s |}.

Definition set_mem (s : sys W) (m : gmap Z state_t) : sys W :=
  {| sm := sm s; mem := m; world := world s |}.

Definition set_world (s : sys W) (w : W) : sys W :=
  {| sm := sm s; mem := mem s; world := w |}.

Definition state_machine_get_state (s : sys W) (id : Z) : result Z :=
  find_state (mem s) (take (Z.to_nat (num_of_states (sm s))) (states (sm s))) id.

(** Calling through NULL is a fault. *)
Definition invoke (f st : Z) (s : sys W) : result (sys W) :=
  if f =? 0 then Err BadPointer else call f st s.

Definition enter_state (s : sys W) (state : Z) : result (sys W) :=
  st ← deref (mem s) state;
  s ← (if entered_once st then Ok s
       else
         let s := set_mem s (<[state := set_entered st true]> (mem s)) in
         if f_init st =? 0 then Ok s else (call (f_init st) : state_init_f W) state s);
  st ← deref (mem s) state;
  invoke (f_enter st) state s.

Definition state_machine_start (s : sys W) : result (sys W) :=
  initial ← state_machine_get_state s (start_state_id (sm s));
  assert! negb (initial =? 0) ;;
  let s := set_sm s (set_started (set_current (sm s) initial) true) in
  enter_state s (current_state (sm s)).

(** A NULL machine is ignored. *)
Definition state_machine_stop (s : option (sys W)) : result (option (sys W)) :=
  match s with
  | None => Ok None
  | Some s =>
      if current_state (sm s) =? 0 then Ok (Some s)
      else
        st ← deref (mem s) (current_state (sm s));
        s ← (invoke (f_exit st) : state_exit_f W) (current_state (sm s)) s;
        Ok (Some (set_sm s (set_request (set_current (sm s) 0) false
                              (next_state_requested (sm s)))))
  end.

(** [machine] is the address of the machine that the state remembers. *)
Definition state_machine_register_state (machine : Z) (s : option (sys W)) (state : Z)
  : result (option (sys W)) :=
  match s with
  | None => Ok None
  | Some s =>
      let m := sm s in
      if negb (state =? 0) && (num_of_states m <? STATE_MAC_MAX_STATES) then
        st ← deref (mem s) state;
        assert! negb (f_enter st =? 0) ;;
        assert! negb (f_exit st =? 0) ;;
        assert! negb (f_valid_event st =? 0) ;;
        assert! negb (f_handle_event st =? 0) ;;
        l ← store_at (states m) (num_of_states m) state;
        Ok (Some (set_mem (set_sm s (set_states m l (num_of_states m + 1)))
                    (<[state := set_machine st machine]> (mem s))))
      else Ok (Some s)
  end.

Definition state_machine_handle_event (s : sys W) (event : Z) : result (sys W) :=
  if negb (event =? 0) && state_machine_started (sm s) then
    st ← deref (mem s) (current_state (sm s));
    r ← (if f_valid_event st =? 0 then Err BadPointer
         else call_valid (f_valid_event st) (current_state (sm s)) event s);
    let s := fst r in
    if (snd r : bool) then
      st ← deref (mem s) (current_state (sm s));
      r ← (if f_handle_event st =? 0 then Err BadPointer
           else call_handle (f_handle_event st) (current_state (sm s)) event s);
      let '(s, next) := r in
      let s := set_sm s (set_request (sm s) (transition_requested (sm s)) next) in
      st ← deref (mem s) (current_state (sm s));
      if negb (next =? stateId st)
      then Ok (set_sm s (set_request (sm s) true next))
      else Ok s
    else Ok s
  else Ok s.

Definition state_machine_transition (s : sys W) : result (sys W) :=
  if transition_requested (sm s) && state_machine_started (sm s) then
    let s := set_sm s (set_request (sm s) false (next_state_requested (sm s))) in
    st ← deref (mem s) (current_state (sm s));
    if negb (stateId st =? next_state_requested (sm s)) then
      next ← state_machine_get_state s (next_state_requested (sm s));
      assert! negb (next =? 0) ;;
      s ← (invoke (f_exit st) : state_exit_f W) (current_state (sm s)) s;
      let s := set_sm s (set_current (sm s) next) in
      enter_state s (current_state (sm s))
    else Ok s
  else Ok s.
End machine.

(** ** Abstract machine *)

(** The current state, the states that have been entered, and the client's
    world. *)
Record fsm {W : Type} := { cur : Z; entered : gset Z; w : W }.
Arguments fsm : clear implicits.

Section abstract.
Context {W : Type}.
(** The states as they were registered, and the effect of the callbacks on the
    client's world: they do not touch the machine or the states. *)
Context (desc : gmap Z state_t) (registered : list Z).
Context (eff : Z -> Z -> W -> W) (vld : Z -> Z -> Z -> W -> bool)
        (hnd : Z -> Z -> Z -> W -> W * Z).

Definition c_call (f st : Z) (s : sys W) : result (sys W) :=
  Ok (set_world s (eff f st (world s))).

Definition c_valid (f st e : Z) (s : sys W) : result (sys W * bool) :=
  Ok (s, vld f st e (world s)).

Definition c_handle (f st e : Z) (s : sys W) : result (sys W * Z) :=
  let '(w', next) := hnd f st e (world s) in Ok (set_world s w', next).

(** The first registered state with an id. *)
Definition lookup_id (id : Z) : option Z :=
  list_find (fun a => stateId <$> desc !! a = Some id) registered ≫= fun p => Some (snd p).

Definition state_of (a : Z) : state_t :=
  default {| stateId := 0; f_init := 0; f_enter := 0; f_exit := 0; f_valid_event := 0;
             f_handle_event := 0; p_sm := 0; entered_once := false |} (desc !! a).

(** Entering a state: its init callback the first time (if it has one), then its
    enter callback. *)
Definition fsm_enter (m : fsm W) (a : Z) : fsm W :=
  let st := state_of a in
  let w1 := if bool_decide (a ∈ entered m) || (f_init st =? 0) then w m
            else eff (f_init st) a (w m) in
  {| cur := a; entered := {[a]} ∪ entered m; w := eff (f_enter st) a w1 |}.

(** Handling one event and making the transition it asks for; asking for a state
    that is not registered is a fault. *)
Definition fsm_step (m : fsm W) (e : Z) : result (fsm W) :=
  let st := state_of (cur m) in
  if vld (f_valid_event st) (cur m) e (w m) then
    let '(w1, next) := hnd (f_handle_event st) (cur m) e (w m) in
    if next =? stateId st then Ok {| cur := cur m; entered := entered m; w := w1 |}
    else match lookup_id next with
         | Some a => Ok (fsm_enter {| cur := cur m; entered := entered m;
                                      w := eff (f_exit st) (cur m) w1 |} a)
         | None => Err AssertFailed
         end
  else Ok m.

Fixpoint fsm_run (m : fsm W) (es : list Z) : result (fsm W) :=
  match es with [] => Ok m | e :: es => m' ← fsm_step m e; fsm_run m' es end.

(** What the thread that owns the machine does with each event. *)
Definition sm_step (s : sys W) (e : Z) : result (sys W) :=
  s' ← state_machine_handle_event c_valid c_handle s e;
  state_machine_transition c_call s'.

Fixpoint sm_run (s : sys W) (es : list Z) : result (sys W) :=
  match es with [] => Ok s | e :: es => s' ← sm_step s e; sm_run s' es end.

(** The states are registered, distinct from NULL, and have the callbacks that
    registration checks. *)
Definition desc_ok : Prop :=
  (length registered <= 20)%nat /\
  forall a, a ∈ registered -> exists st, desc !! a = Some st /\ a <> 0 /\
    f_enter st <> 0 /\ f_exit st <> 0 /\ f_valid_event st <> 0 /\ f_handle_event st <> 0.

(** The machine with [registered] in its first cells, and the states entered so
    far marked. *)
Definition configured (s : sys W) (ent : gset Z) : Prop :=
  take (Z.to_nat (num_of_states (sm s))) (states (sm s)) = registered /\
  forall a, mem s !! a = (fun st => set_entered st (bool_decide (a ∈ ent))) <$> desc !! a.

Record sm_inv (s : sys W) (m : fsm W) : Prop := {
  si_conf : configured s (entered m);
  si_cur : current_state (sm s) = cur m;
  si_reg : cur m ∈ registered;
  si_started : state_machine_started (sm s) = true;
  si_idle : transition_requested (sm s) = false;
  si_world : world s = w m
}.

Lemma find_state_lookup s ent id :
  desc_ok -> configured s ent ->
  state_machine_get_state s id = Ok (default 0 (lookup_id id)).
Proof.
  intros [_ Hd] [Hr Hm]. unfold state_machine_get_state, lookup_id. rewrite Hr.
  assert (Hall : forall a, a ∈ registered -> is_Some (desc !! a))
    by (intros a Ha; destruct (Hd a Ha) as (st & -> & _); by eexists).
  clear Hr Hd. induction registered as [|a l IH]; [done|]. cbn.
  destruct (Hall a ltac:(left)) as [st Hst]. unfold deref. rewrite Hm, Hst. cbn.
  destruct (stateId st =? id) eqn:E; bdestr.
  - rewrite decide_True by (by rewrite E). done.
  - rewrite decide_False by congruence. rewrite IH by (intros; apply Hall; by right).
    by destruct (list_find _ l) as [[i b]|].
Qed.

Lemma lookup_id_registered id a :
  lookup_id id = Some a -> a ∈ registered /\ stateId <$> desc !! a = Some id.
Proof.
  unfold lookup_id. destruct (list_find _ _) as [[i b]|] eqn:E; [|done].
  intros [= <-]. apply list_find_Some in E as (Hi & Hb & _).
  split; [by eapply list_elem_of_lookup_2|done].
Qed.

Lemma set_entered_twice st b b' : set_entered (set_entered st b) b' = set_entered st b'.
Proof. done. Qed.

Lemma configured_enter s ent a st :
  configured s ent -> desc !! a = Some st ->
  configured (set_mem s (<[a := set_entered st true]> (mem s))) ({[a]} ∪ ent).
Proof.
  intros [Hr Hm] Hst. split; [done|]. intros b. cbn.
  destruct (decide (a = b)) as [<-|Hne].
  - rewrite lookup_insert_eq, Hst. cbn. rewrite bool_decide_eq_true_2 by set_solver +. done.
  - rewrite lookup_insert_ne, Hm by done. destruct (desc !! b); cbn; [|done].
    f_equal. f_equal. apply bool_decide_ext. set_solver + Hne.
Qed.

Lemma configured_entered s ent a : configured s ent -> a ∈ ent -> configured s ({[a]} ∪ ent).
Proof. intros H Ha. replace ({[a]} ∪ ent) with ent by set_solver + Ha. done. Qed.

Lemma configured_world s ent w' : configured s ent -> configured (set_world s w') ent.
Proof. done. Qed.

Lemma state_of_eq a st : desc !! a = Some st -> state_of a = st.
Proof. unfold state_of. by intros ->. Qed.

(** [enter_state] refines [fsm_enter]. *)
Lemma enter_state_ok s m a :
  desc_ok -> configured s (entered m) -> a ∈ registered -> world s = w m ->
  exists s', enter_state c_call s a = Ok s' /\ configured s' (entered (fsm_enter m a)) /\
    sm s' = sm s /\ world s' = w (fsm_enter m a).
Proof.
  intros [_ Hd] Hc Ha Hw. destruct (Hd a Ha) as (st & Hst & _ & He & _).
  pose proof Hc as [_ Hm]. unfold enter_state, deref. rewrite Hm, Hst. cbn.
  unfold fsm_enter. rewrite (state_of_eq a st Hst).
  case_bool_decide as Hin; cbn.
  - rewrite Hm, Hst. cbn. unfold invoke. rewrite (proj2 (Z.eqb_neq _ _)) by done.
    eexists. split; [reflexivity|]. split_and!; [|done|cbn; by rewrite Hw].
    by apply configured_world, configured_entered.
  - rewrite set_entered_twice. pose proof (configured_enter s _ a st Hc Hst) as Hc'.
    destruct (f_init st =? 0) eqn:E; cbn; rewrite lookup_insert_eq; cbn;
      unfold invoke; rewrite (proj2 (Z.eqb_neq (f_enter st) _)) by done;
      (eexists; split; [reflexivity|]; split_and!; [|done|cbn; by rewrite Hw]).
    + by apply configured_world.
    + by apply configured_world, configured_world.
Qed.

(** One event: handling and transition refine [fsm_step], faults included. *)
Lemma sm_step_ok s m e :
  desc_ok -> sm_inv s m -> e <> 0 ->
  match fsm_step m e with
  | Ok m' => exists s', sm_step s e = Ok s' /\ sm_inv s' m'
  | Err f => sm_step s e = Err f
  end.
Proof.
  intros Hd [Hc Hcur Hreg Hst Hidle Hw] He. pose proof Hc as [_ Hm].
  destruct (proj2 Hd _ Hreg) as (st & Hs & _ & Hen & Hex & Hva & Hha).
  unfold sm_step, state_machine_handle_event, fsm_step, deref.
  rewrite (proj2 (Z.eqb_neq e 0)), Hst, Hcur, Hm, Hs, (state_of_eq _ _ Hs) by done. cbn.
  rewrite (proj2 (Z.eqb_neq _ _)) by done. unfold c_valid. cbn. rewrite Hcur, Hw.
  destruct (vld (f_valid_event st) (cur m) e (w m)).
  2:{ cbn. unfold state_machine_transition. rewrite Hidle. cbn. exists s. by split. }
  cbn. rewrite Hm, Hs. cbn. rewrite (proj2 (Z.eqb_neq _ _)) by done.
  unfold c_handle. cbn. rewrite Hw.
  destruct (hnd (f_handle_event st) (cur m) e (w m)) as [w1 next]. cbn.
  rewrite Hm, Hcur, Hs. cbn. destruct (next =? stateId st) eqn:En; cbn; bdestr.
  - unfold state_machine_transition. cbn. rewrite Hidle. cbn.
    eexists. split; [reflexivity|]. by split.
  - unfold state_machine_transition, deref. cbn. rewrite Hst. cbn.
    rewrite Hm, Hcur, Hs. cbn. rewrite (proj2 (Z.eqb_neq (stateId st) next)) by congruence. cbn.
    rewrite (find_state_lookup _ (entered m)) by first [done | split; [apply Hc|done]]. cbn.
    destruct (lookup_id next) as [a|] eqn:El; cbn; [|done].
    apply lookup_id_registered in El as [Har _].
    destruct (proj2 Hd _ Har) as (sta & Hsa & Ha0 & _).
    rewrite (proj2 (Z.eqb_neq a 0)) by done. cbn. unfold invoke.
    rewrite (proj2 (Z.eqb_neq (f_exit st) _)) by done. cbn.
    match goal with |- context [enter_state c_call ?s0 a] => set (s1 := s0) end.
    destruct (enter_state_ok s1 {| cur := cur m; entered := entered m;
        w := eff (f_exit st) (cur m) w1 |} a Hd) as (s2 & Hr & Hc2 & Hsm2 & Hw2);
      [split; [apply Hc|done]|done|done|].
    rewrite Hr. exists s2. split; [done|]. split; try done; rewrite ?Hsm2; done.
Qed.
End abstract.

Section properties.
Context {W : Type} (desc : gmap Z state_t) (registered : list Z)
  (eff : Z -> Z -> W -> W) (vld : Z -> Z -> Z -> W -> bool) (hnd : Z -> Z -> Z -> W -> W * Z).

Lemma sm_run_ok es : forall s m,
  desc_ok desc registered -> sm_inv desc registered s m -> Forall (fun e => e <> 0) es ->
  match fsm_run desc registered eff vld hnd m es with
  | Ok m' => exists s', sm_run eff vld hnd s es = Ok s' /\ sm_inv desc registered s' m'
  | Err f => sm_run eff vld hnd s es = Err f
  end.
Proof.
  induction es as [|e es IH]; intros s m Hd Hi Hes; cbn; [by exists s|].
  apply Forall_cons in Hes as [He Hes].
  pose proof (sm_step_ok desc registered eff vld hnd s m e Hd Hi He) as Hst.
  destruct (fsm_step desc registered eff vld hnd m e) as [m'|f]; cbn; [|by rewrite Hst].
  destruct Hst as (s' & -> & Hi'). cbn. by apply IH.
Qed.

(** C9: the machine is a finite state machine.  Starting it enters the start
    state; each event is then offered to the current state only, which may
    refuse it (nothing happens) or handle it and name the next state.  Naming
    another registered state runs the exit callback of the current state, the
    init callback of the next one the first time it is entered, and its enter
    callback, in this order; naming the current state changes nothing; naming an
    unknown state, or starting in one, stops the program. *)
Theorem state_machine_runs_as_fsm s es :
  desc_ok desc registered -> configured desc registered s ∅ ->
  transition_requested (sm s) = false -> Forall (fun e => e <> 0) es ->
  match lookup_id desc registered (start_state_id (sm s)) with
  | None => state_machine_start (c_call eff) s = Err AssertFailed
  | Some a =>
      exists s1, state_machine_start (c_call eff) s = Ok s1 /\
      let m1 := fsm_enter desc eff {| cur := 0; entered := ∅; w := world s |} a in
      cur m1 = a /\ sm_inv desc registered s1 m1 /\
      match fsm_run desc registered eff vld hnd m1 es with
      | Ok m' => exists s', sm_run eff vld hnd s1 es = Ok s' /\ sm_inv desc registered s' m'
      | Err f => sm_run eff vld hnd s1 es = Err f
      end
  end.
Proof.
  intros Hd Hc Htr Hes. unfold state_machine_start.
  rewrite (find_state_lookup desc registered s ∅) by done. cbn.
  destruct (lookup_id _ _ _) as [a|] eqn:El; cbn; [|done].
  apply lookup_id_registered in El as [Ha _].
  destruct (proj2 Hd _ Ha) as (st & Hst & Ha0 & _).
  rewrite (proj2 (Z.eqb_neq a 0)) by done. cbn.
  match goal with |- context [enter_state _ ?s0 a] => set (s1 := s0) end.
  destruct (enter_state_ok desc registered eff s1 {| cur := 0; entered := ∅; w := world s |} a Hd)
    as (s2 & Hr & Hc2 & Hsm & Hw); [done|done|done|].
  exists s2. split; [done|].
  assert (Hi : sm_inv desc registered s2
    (fsm_enter desc eff {| cur := 0; entered := ∅; w := world s |} a))
    by (split; rewrite ?Hsm; done).
  split_and!; [done|done|]. by apply sm_run_ok.
Qed.

(** Configuring and stopping.  Registration stores a state with its four
    callbacks behind the others, stops the program when one is missing, and
    ignores every state after the twentieth.  Stopping runs the exit callback
    and forgets the current state but leaves the machine marked as started, so
    that the next event is not discarded: it dereferences NULL. *)
Theorem state_machine_register_and_stop machine s st state :
  mem s !! state = Some st -> state <> 0 ->
  zlen (states (sm s)) = STATE_MAC_MAX_STATES -> 0 <= num_of_states (sm s) ->
  let complete := negb (f_enter st =? 0) && negb (f_exit st =? 0) &&
                  negb (f_valid_event st =? 0) && negb (f_handle_event st =? 0) in
  (if num_of_states (sm s) <? STATE_MAC_MAX_STATES then
     if complete then
       exists s', state_machine_register_state machine (Some s) state = Ok (Some s') /\
         num_of_states (sm s') = num_of_states (sm s) + 1 /\
         take (Z.to_nat (num_of_states (sm s'))) (states (sm s')) =
           take (Z.to_nat (num_of_states (sm s))) (states (sm s)) ++ [state] /\
         mem s' !! state = Some (set_machine st machine)
     else state_machine_register_state machine (Some s) state = Err AssertFailed
   else state_machine_register_state machine (Some s) state = Ok (Some s)) /\
  (forall e, current_state (sm s) = state -> complete = true ->
     state_machine_started (sm s) = true -> mem s !! 0 = None -> e <> 0 ->
     exists s', state_machine_stop (c_call eff) (Some s) = Ok (Some s') /\
       world s' = eff (f_exit st) state (world s) /\ current_state (sm s') = 0 /\
       state_machine_handle_event (c_valid vld) (c_handle hnd) s' e = Err BadPointer).
Proof.
  intros Hst Hs0 Hlen Hnum complete. split.
  - unfold state_machine_register_state. rewrite (proj2 (Z.eqb_neq state 0)) by done.
    destruct (_ <? _) eqn:E; cbn; [|done]. bdestr. unfold deref. rewrite Hst. cbn.
    unfold complete.
    destruct (f_enter st =? 0); [done|]. destruct (f_exit st =? 0); [done|].
    destruct (f_valid_event st =? 0); [done|]. destruct (f_handle_event st =? 0); [done|].
    cbn. rewrite store_at_eq by lia. cbn.
    eexists. split; [reflexivity|]. cbn. split_and!; [done| |by rewrite lookup_insert_eq].
    replace (Z.to_nat (num_of_states (sm s) + 1)) with (S (Z.to_nat (num_of_states (sm s))))
      by lia.
    erewrite take_S_r; [rewrite take_insert_ge by lia; done|].
    apply list_lookup_insert_eq. unfold zlen, STATE_MAC_MAX_STATES in *. lia.
  - intros e Hcur Hcomp Hstarted Hnull He. unfold complete in Hcomp.
    apply andb_true_iff in Hcomp as [Hcomp _]. apply andb_true_iff in Hcomp as [Hcomp _].
    apply andb_true_iff in Hcomp as [_ Hex].
    unfold state_machine_stop, deref. rewrite Hcur, (proj2 (Z.eqb_neq state 0)), Hst by done.
    cbn. unfold invoke. apply negb_true_iff in Hex. rewrite Hex. cbn.
    eexists. split; [reflexivity|]. split_and!; [done|done|].
    unfold state_machine_handle_event, deref. cbn.
    rewrite (proj2 (Z.eqb_neq e 0)), Hstarted, Hnull by done. done.
Qed.
End properties.

(** ** Witnesses *)

(** Two states at 100 (id 1) and 200 (id 2); event 7 moves from one to the
    other, event 8 is refused, event 9 asks for an unknown state.  The world is
    the trace of callbacks. *)
Definition ex_state (id base : Z) : state_t :=
  {| stateId := id; f_init := base + 1; f_enter := base + 2; f_exit := base + 3;
     f_valid_event := base + 4; f_handle_event := base + 5; p_sm := 0; entered_once := false |}.

Definition ex_desc : gmap Z state_t := <[100 := ex_state 1 10]> (<[200 := ex_state 2 20]> ∅).

Definition ex_eff (f a : Z) (t : list Z) : list Z := t ++ [f].
Definition ex_vld (f a e : Z) (t : list Z) : bool := negb (e =? 8).
Definition ex_hnd (f a e : Z) (t : list Z) : list Z * Z :=
  (t ++ [f], if e =? 9 then 5 else if a =? 100 then 2 else 1).

Definition ex_sm (started : bool) (current : Z) : state_machine_t :=
  {| p_name := 0; num_of_states := 2; current_state := current;
     states := [100; 200] ++ replicate 18 0; transition_requested := false;
     next_state_requested := 0; p_private := 0; state_machine_started := started;
     start_state_id := 1 |}.

Definition ex_sys (started : bool) (current : Z) : sys (list Z) :=
  {| sm := ex_sm started current; mem := ex_desc; world := [] |}.

Lemma ex_desc_ok : desc_ok ex_desc [100; 200].
Proof.
  split; [cbn; lia|]. intros a [->|[->|Ha%elem_of_nil]%elem_of_cons]%elem_of_cons; [| |done];
    eexists; (split; [reflexivity|]); split_and!; discriminate.
Qed.

Lemma ex_configured : configured ex_desc [100; 200] (ex_sys false 0) ∅.
Proof.
  split; [reflexivity|]. intros a. cbn [mem ex_sys].
  rewrite bool_decide_eq_false_2 by set_solver.
  destruct (decide (a = 100)) as [->|H1]; [reflexivity|].
  destruct (decide (a = 200)) as [->|H2]; [reflexivity|].
  unfold ex_desc. rewrite !lookup_insert_ne by done. done.
Qed.

Definition ex_fsm (es : list Z) : result (fsm (list Z)) :=
  fsm_run ex_desc [100; 200] ex_eff ex_vld ex_hnd
    (fsm_enter ex_desc ex_eff {| cur := 0; entered := ∅; w := [] |} 100) es.

Lemma state_machine_runs_as_fsm_witness :
  exists s1 s', state_machine_start (c_call ex_eff) (ex_sys false 0) = Ok s1 /\
    sm_run ex_eff ex_vld ex_hnd s1 [7; 8; 7; 7] = Ok s' /\
    world s' = [11; 12; 15; 13; 21; 22; 25; 23; 12; 15; 13; 22].
Proof.
  pose proof (state_machine_runs_as_fsm ex_desc [100; 200] ex_eff ex_vld ex_hnd (ex_sys false 0)
      [7; 8; 7; 7] ex_desc_ok ex_configured eq_refl ltac:(repeat constructor; discriminate)) as H.
  change (lookup_id ex_desc [100; 200] (start_state_id (sm (ex_sys false 0)))) with (Some 100) in H.
  destruct H as (s1 & Hs & _ & _ & Hr).
  change (fsm_run _ _ _ _ _ _ _) with (ex_fsm [7; 8; 7; 7]) in Hr.
  assert (Hv : match ex_fsm [7; 8; 7; 7] with Ok m => Some (w m) | Err _ => None end =
    Some [11; 12; 15; 13; 21; 22; 25; 23; 12; 15; 13; 22]) by (vm_compute; reflexivity).
  destruct (ex_fsm [7; 8; 7; 7]) as [m|f]; [|discriminate Hv]. injection Hv as Hv.
  destruct Hr as (s' & Hr & Hi). exists s1, s'. split; [exact Hs|]. split; [exact Hr|].
  rewrite (si_world _ _ _ _ Hi). exact Hv.
Defined.

(** The machine is full up to its second cell; the states' own callbacks are
    complete. *)
Lemma state_machine_register_and_stop_witness :
  (exists s', state_machine_register_state 1 (Some (ex_sys true 100)) 100 = Ok (Some s') /\
     num_of_states (sm s') = 3) /\
  exists s', state_machine_stop (c_call ex_eff) (Some (ex_sys true 100)) = Ok (Some s') /\
    world s' = [13] /\
    state_machine_handle_event (c_valid ex_vld) (c_handle ex_hnd) s' 7 = Err BadPointer.
Proof.
  destruct (state_machine_register_and_stop ex_eff ex_vld ex_hnd 1 (ex_sys true 100)
      (ex_state 1 10) 100 eq_refl ltac:(discriminate) eq_refl ltac:(discriminate)) as [H1 H2].
  split.
  - destruct H1 as (s' & H & Hn & _). exists s'. split; [exact H|]. exact Hn.
  - destruct (H2 7 eq_refl eq_refl eq_refl eq_refl ltac:(discriminate)) as (s' & H & Hw & _ & He).
    exists s'. split; [exact H|]. split; [exact Hw|exact He].
Defined.
