(* ===== verification/Notifier.v ===== *)
(** The notifier of src/notifier.c and inc/cutils/notifier.h: one list of
    registered blocks per category, the blocks from a pool.

    It is built on the list macros of KList and on the pool of Pool, whose queue
    is any [BoundedQueue].  A block's link and its category are two maps of the
    block's address.  Every operation runs with the notifier's mutex held, so
    operations do not interleave and a callback, which runs with the mutex held,
    cannot use the notifier: it only changes the client's world.  Logging is left
    out. *)
From S2P Require Import Prelude KList TsQueue Pool.
From stdpp Require Import list gmap.
From Stdlib Require Import ZArith Lia.
Local Open Scope Z_scope.

(** ** Data *)

Record notifier_t {Q : Type} := {
  notif_array : list Z;
  total_notification_categories : Z;
  execute_f : Z;
  n_pool : option (pool_t Q);
  n_memory : memory;
  links : heap;
  categories : gmap Z Z
}.
Arguments notifier_t : clear implicits.

(** [np_notifier] and [np_notif_array] are nullable; the notifier's [links] and
    [categories] are the client's block memory, which exists before. *)
Record notifier_create_params_t := {
  np_notifier : bool;
  np_notif_array : option (list Z);
  np_total_categories : Z;
  np_pool_params : pool_create_params_t;
  np_execute_f : Z
}.

(** The callback, on a block, its category and the data of the notification. *)
Definition notifier_f (W : Type) : Type := Z -> Z -> Z -> W -> W.

(** ** Operations *)

Section notifier.
Context {Q : Type} `{!BoundedQueue Q}.
Context {W : Type} (exec : Z -> notifier_f W).

Definition set_array (n : notifier_t Q) (arr : list Z) : notifier_t Q :=
  {| notif_array := arr; total_notification_categories := total_notification_categories n;
     execute_f := execute_f n; n_pool := n_pool n; n_memory := n_memory n; links := links n;
     categories := categories n |}.

Definition set_pool (n : notifier_t Q) (s : option (state Q)) : notifier_t Q :=
  {| notif_array := notif_array n;
     total_notification_categories := total_notification_categories n;
     execute_f := execute_f n;
     n_pool := match s with Some (p, _) => Some p | None => None end;
     n_memory := match s with Some (_, m) => m | None => n_memory n end;
     links := links n; categories := categories n |}.

Definition set_blocks (n : notifier_t Q) (h : heap) (cats : gmap Z Z) : notifier_t Q :=
  {| notif_array := notif_array n;
     total_notification_categories := total_notification_categories n;
     execute_f := execute_f n; n_pool := n_pool n; n_memory := n_memory n; links := h;
     categories := cats |}.

Definition pool_of (n : notifier_t Q) : option (state Q) :=
  match n_pool n with Some p => Some (p, n_memory n) | None => None end.

(** The loop that clears the first [k] heads of the table. *)
Fixpoint clear_heads (k : nat) (arr : list Z) : result (list Z) :=
  match k with
  | O => Ok arr
  | S k => arr ← clear_heads k arr; store_at arr (Z.of_nat k) 0
  end.

(** [mtx_ok] is the outcome of creating the mutex, [queue] that of creating the
    pool's queue.  The notifier left behind and whether it is usable. *)
Definition notifier_init (params : option notifier_create_params_t) (mtx_ok : bool)
    (queue : option Q) (m : memory) (h : heap) (cats : gmap Z Z)
  : result (notifier_t Q * bool) :=
  match params with
  | Some p =>
      match np_notif_array p with
      | Some arr =>
          assert! np_notifier p ;;
          let n := {| notif_array := arr;
                      total_notification_categories := np_total_categories p;
                      execute_f := np_execute_f p; n_pool := None; n_memory := m; links := h;
                      categories := cats |} in
          if mtx_ok then
            r ← pool_create (np_pool_params p) queue m;
            let '(pool, created, m') := r in
            if (created : bool) then
              arr ← clear_heads (Z.to_nat (np_total_categories p)) arr;
              Ok ({| notif_array := arr; total_notification_categories := np_total_categories p;
                     execute_f := np_execute_f p; n_pool := pool; n_memory := m'; links := h;
                     categories := cats |}, true)
            else Ok (n, false)
          else Ok (n, false)
      | None => Err AssertFailed
      end
  | None => Err AssertFailed
  end.

Definition notifier_deinit (n : notifier_t Q) : notifier_t Q :=
  set_pool n None.

(** The block's links and category are cleared with its memory. *)
Definition notifier_allocate_notification_block (n : notifier_t Q)
  : result (notifier_t Q * Z) :=
  r ← pool_alloc (pool_of n);
  let retval := match snd r with Returns b => b | Waits _ => 0 end in
  let n := set_pool n (fst r) in
  assert! negb (retval =? 0) ;;
  Ok (set_blocks n (<[retval := unlinked]> (links n)) (<[retval := 0]> (categories n)), retval).

Definition notifier_register_notification_block (n : notifier_t Q) (category block : Z)
  : result (notifier_t Q * bool) :=
  assert! negb (block =? 0) && (category <? total_notification_categories n) ;;
  let cats := <[block := category]> (categories n) in
  head ← load_at (notif_array n) category;
  r ← KLIST_HEAD_PREPEND (links n) head block;
  arr ← store_at (notif_array n) category (snd r);
  Ok (set_blocks (set_array n arr) (fst r) cats, true).

Definition category_of (n : notifier_t Q) (block : Z) : result Z :=
  match categories n !! block with Some c => Ok c | None => Err BadPointer end.

Definition notifier_deregister_notification_block (n : notifier_t Q) (block : Z)
  : result (notifier_t Q * list destructor_call) :=
  category ← category_of n block;
  assert! negb (block =? 0) && (category <? total_notification_categories n) ;;
  head ← load_at (notif_array n) category;
  n ← (if head =? block then
         r ← KLIST_HEAD_POP (links n) head;
         let '(h, head', pPopped) := r in
         arr ← store_at (notif_array n) category head';
         assert! pPopped =? block ;;
         Ok (set_blocks (set_array n arr) h (categories n))
       else
         h ← KLIST_REMOVE_ELEM (links n) block;
         Ok (set_blocks n h (categories n)));
  r ← pool_free (pool_of n) block;
  Ok (set_pool n (fst r), snd r).

(** [Poster], called on each block of the list. *)
Definition Poster (n : notifier_t Q) (data elem : Z) (s : heap * W) : result (heap * W) :=
  if execute_f n =? 0 then Err BadPointer
  else
    category ← category_of n elem;
    Ok (fst s, exec (execute_f n) elem category data (snd s)).

Definition notifier_post_notification (fuel : nat) (n : notifier_t Q) (category data : Z) (w : W)
  : result (notifier_t Q * W) :=
  assert! category <? total_notification_categories n ;;
  head ← load_at (notif_array n) category;
  s ← KLIST_HEAD_FOREACH fuel (Poster n data) head (links n, w);
  Ok (set_blocks n (fst s) (categories n), snd s).
End notifier.

(** ** Abstract registry *)

(** The blocks registered per category, newest first, and the pool. *)
Record registry := { reg : list (list Z); blocks_pool : apool }.

Inductive n_op :=
  | NAllocate
  | NRegister (category : nat) (block : Z)
  | NDeregister (block : Z)
  | NPost (category : nat) (data : Z).

Definition registered (r : list (list Z)) (b : Z) : Prop :=
  exists c l, r !! c = Some l /\ b ∈ l.

Definition unregister (b : Z) (l : list Z) : list Z := filter (fun x => x <> b) l.

Section abstract.
Context {W : Type} (exec : Z -> notifier_f W) (f : Z).

(** Posting calls the callback on every block of the category, newest first. *)
Definition post (c : nat) (data : Z) (l : list Z) (w : W) : W :=
  foldl (fun w b => exec f b (Z.of_nat c) data w) w l.

(** The result: the block allocated, or [0]. *)
Definition registry_step (r : registry) (w : W) (o : n_op) : registry * W * Z :=
  match o with
  | NAllocate =>
      let '(p, out) := apool_step (blocks_pool r) (PAlloc 0 0) in
      ({| reg := reg r; blocks_pool := p |}, w, match out with OBlock b => b | _ => 0 end)
  | NRegister c b => ({| reg := alter (cons b) c (reg r); blocks_pool := blocks_pool r |}, w, 0)
  | NDeregister b =>
      ({| reg := unregister b <$> reg r; blocks_pool := fst (apool_step (blocks_pool r) (PFree b)) |},
       w, 0)
  | NPost c data => (r, post c data (default [] (reg r !! c)) w, 0)
  end.

(** Clients allocate while blocks are free, register a block they allocated
    once, and deregister blocks that are registered. *)
Definition n_legal (r : registry) (o : n_op) : Prop :=
  match o with
  | NAllocate => free (blocks_pool r) <> []
  | NRegister c b => (c < length (reg r))%nat /\ is_Some (live (blocks_pool r) !! b) /\
                     ~ registered (reg r) b
  | NDeregister b => registered (reg r) b
  | NPost c _ => (c < length (reg r))%nat
  end.

Fixpoint registry_run (r : registry) (w : W) (ops : list n_op) : registry * W * list Z :=
  match ops with
  | [] => (r, w, [])
  | o :: ops =>
      let '(r, w, out) := registry_step r w o in
      let '(r, w, outs) := registry_run r w ops in (r, w, out :: outs)
  end.

Fixpoint n_all_legal (r : registry) (w : W) (ops : list n_op) : Prop :=
  match ops with
  | [] => True
  | o :: ops => n_legal r o /\ let '(r, w, _) := registry_step r w o in n_all_legal r w ops
  end.
End abstract.

Lemma registered_Exists r b : Exists (fun l => b ∈ l) r <-> registered r b.
Proof.
  rewrite Exists_exists. split.
  - intros (l & (c & Hc)%list_elem_of_lookup & Hb). by exists c, l.
  - intros (c & l & Hc & Hb). exists l. split; [by eapply list_elem_of_lookup_2|done].
Qed.

#[export] Instance registered_dec r b : Decision (registered r b).
Proof.
  refine (cast_if (decide (Exists (fun l => b ∈ l) r))); by rewrite <- registered_Exists.
Defined.

#[export] Instance n_legal_dec r o : Decision (n_legal r o).
Proof. destruct o; cbn [n_legal]; apply _. Defined.

#[export] Instance n_all_legal_dec {W} exec f r (w : W) ops : Decision (n_all_legal exec f r w ops).
Proof.
  revert r w. induction ops as [|o ops IH]; intros r w; [apply _|]. cbn.
  destruct (registry_step exec f r w o) as [[r' w'] out]. apply and_dec; [apply _|apply IH].
Defined.

Section refinement.
Context {Q : Type} `{!BoundedQueue Q} `{!BoundedQueueLaws Q}.
Context {W : Type} (exec : Z -> notifier_f W).

(** The calls of the client; a traversal visits no more than all blocks. *)
Definition n_step (n : notifier_t Q) (w : W) (o : n_op) : result (notifier_t Q * W * Z) :=
  match o with
  | NAllocate => r ← notifier_allocate_notification_block n; Ok (fst r, w, snd r)
  | NRegister c b => r ← notifier_register_notification_block n (Z.of_nat c) b; Ok (fst r, w, 0)
  | NDeregister b => r ← notifier_deregister_notification_block n b; Ok (fst r, w, 0)
  | NPost c data =>
      r ← notifier_post_notification exec (S (base.size (links n))) n (Z.of_nat c) data w;
      Ok (r, 0)
  end.

(** Category [c] is the chain [l]. *)
Definition chained (n : notifier_t Q) (r : registry) (c : nat) (l : list Z) : Prop :=
  notif_array n !! c = Some (first 0 l) /\ NoDup l /\ (exists pv, seg (links n) pv l 0) /\
  forall b, b ∈ l -> categories n !! b = Some (Z.of_nat c) /\ is_Some (live (blocks_pool r) !! b).

Record n_inv (f k : Z) (n : notifier_t Q) (r : registry) : Prop := {
  ni_pool : exists p, n_pool n = Some p /\ pool_inv k (p, n_memory n) (blocks_pool r);
  ni_table : length (notif_array n) = length (reg r);
  ni_total : total_notification_categories n = zlen (reg r);
  ni_chains : forall c l, reg r !! c = Some l -> chained n r c l;
  ni_fresh : forall b, is_Some (live (blocks_pool r) !! b) -> ~ registered (reg r) b ->
    links n !! b = Some unlinked /\ is_Some (categories n !! b);
  ni_callback : execute_f n = f /\ f <> 0
}.

Lemma n_inv_disjoint f k n r c c' l l' b :
  n_inv f k n r -> reg r !! c = Some l -> reg r !! c' = Some l' -> b ∈ l -> b ∈ l' -> c = c'.
Proof.
  intros Hi Hl Hl' Hb Hb'. destruct (ni_chains _ _ _ _ Hi _ _ Hl) as (_ & _ & _ & H).
  destruct (ni_chains _ _ _ _ Hi _ _ Hl') as (_ & _ & _ & H').
  destruct (H b Hb) as [E _], (H' b Hb') as [E' _]. rewrite E in E'. injection E'. lia.
Qed.

Lemma n_inv_live_nonnull f k n r b :
  n_inv f k n r -> is_Some (live (blocks_pool r) !! b) -> b <> 0.
Proof.
  intros Hi [c Hb]. destruct (ni_pool _ _ _ _ Hi) as (p & _ & Hp).
  by destruct (pi_live _ _ _ Hp _ _ Hb) as [_ [? _]].
Qed.

(** A chain that an update of the links and categories does not reach. *)
Lemma chained_frame n r c l n' r' :
  chained n r c l -> notif_array n' !! c = Some (first 0 l) ->
  (forall b, b ∈ l -> links n' !! b = links n !! b /\ categories n' !! b = categories n !! b /\
     (is_Some (live (blocks_pool r) !! b) -> is_Some (live (blocks_pool r') !! b))) ->
  chained n' r' c l.
Proof.
  intros (_ & Hnd & [pv Hs] & Hb) Ha Hf. split_and!; [done|done| |].
  - exists pv. eapply seg_frame, Hs. intros b Hin. apply (Hf b Hin).
  - intros b Hin. destruct (Hf b Hin) as (_ & Hc & Hl), (Hb b Hin) as [Hc' Hl'].
    rewrite Hc. auto.
Qed.

Lemma allocate_ok f k n r w b l :
  0 <= k -> n_inv f (k + 1) n r -> free (blocks_pool r) = b :: l ->
  exists n', n_step n w NAllocate = Ok (n', w, b) /\
    n_inv f k n' {| reg := reg r; blocks_pool := fst (apool_step (blocks_pool r) (PAlloc 0 0)) |}.
Proof.
  intros Hk Hi Hfree. destruct (ni_pool _ _ _ _ Hi) as (p & Hp & Hpi).
  destruct (pool_step_ok k _ _ (PAlloc 0 0) Hk Hpi I) as ([p' m'] & Hs & Hpi').
  cbn [apool_step] in *. rewrite Hfree in *. cbn [fst snd Z.eqb] in *.
  unfold pool_step in Hs. apply bind_ok in Hs as ([s1 out] & Ha & Hs). cbn [fst snd] in Hs.
  injection Hs as -> Hout.
  destruct (pi_free _ _ _ Hpi b) as [Hb0 _]; [rewrite Hfree; left|].
  assert (Hlive : live (blocks_pool r) !! b = None)
    by (apply (pi_disjoint _ _ _ Hpi); rewrite Hfree; left).
  assert (Hreg : ~ registered (reg r) b).
  { intros (c & lc & Hc & Hbl). destruct (ni_chains _ _ _ _ Hi _ _ Hc) as (_ & _ & _ & H).
    destruct (H b Hbl) as [_ [? H']]. congruence. }
  cbn [n_step]. unfold notifier_allocate_notification_block, pool_alloc, pool_of.
  rewrite Hp, Ha. cbn [mbind result_bind fst snd]. rewrite Hout, (proj2 (Z.eqb_neq b 0)) by done.
  eexists. split; [reflexivity|]. destruct Hi as [_ Htab Htot Hch Hfr Hcb].
  split; cbn; try done.
  - by exists p'.
  - intros c lc Hc. eapply chained_frame; [by apply Hch|by apply Hch|].
    intros b' Hb'. assert (b <> b') by (intros ->; apply Hreg; by exists c, lc).
    cbn. rewrite !lookup_insert_ne by done. done.
  - intros b' Hb' Hnr. destruct (decide (b = b')) as [<-|Hne].
    + rewrite !lookup_insert_eq. split; [done|by eexists].
    + rewrite lookup_insert_ne in Hb' by done. rewrite !lookup_insert_ne by done. by apply Hfr.
Qed.

(** What is on no list after a registration. *)
Lemma not_registered_alter (rs : list (list Z)) c b l x :
  rs !! c = Some l -> ~ registered (alter (cons b) c rs) x -> x ∉ b :: l /\ ~ registered rs x.
Proof.
  intros Hl Hx. split.
  - intros Hin. apply Hx. exists c, (b :: l). by rewrite list_lookup_alter_eq, Hl.
  - intros (c' & l' & Hl' & Hxl'). apply Hx. destruct (decide (c = c')) as [<-|Hne].
    + exists c, (b :: l). rewrite list_lookup_alter_eq, Hl. split; [done|].
      rewrite Hl in Hl'. injection Hl' as <-. by right.
    + exists c', l'. by rewrite list_lookup_alter_ne.
Qed.

Lemma register_ok f k n r w c b :
  n_inv f k n r -> n_legal r (NRegister c b) ->
  exists n', n_step n w (NRegister c b) = Ok (n', w, 0) /\
    n_inv f k n' {| reg := alter (cons b) c (reg r); blocks_pool := blocks_pool r |}.
Proof.
  intros Hi (Hc & Hlive & Hnr). pose proof (n_inv_live_nonnull _ _ _ _ _ Hi Hlive) as Hb0.
  destruct (lookup_lt_is_Some_2 _ _ Hc) as [l Hl].
  destruct (ni_chains _ _ _ _ Hi _ _ Hl) as (Harr & Hnd & [pv Hs] & Hbl).
  destruct (ni_fresh _ _ _ _ Hi b Hlive Hnr) as [Hu [cb Hcb]].
  assert (Hbn : b ∉ l) by (intros H; apply Hnr; by exists c, l).
  destruct (klist_head_prepend_any (links n) pv l b unlinked Hnd Hbn Hb0 Hu (fun _ => eq_refl) Hs)
    as (h1 & Hp & Hs1 & Hf).
  cbn [n_step]. unfold notifier_register_notification_block.
  rewrite (proj2 (Z.eqb_neq b 0)), (ni_total _ _ _ _ Hi) by done.
  rewrite (proj2 (Z.ltb_lt _ _)) by (unfold zlen; lia). cbn [negb andb cassert mbind result_bind].
  rewrite (load_at_eq _ _ (first 0 l)) by (lia || by rewrite Nat2Z.id). cbn [mbind result_bind].
  rewrite Hp. cbn [mbind result_bind fst snd].
  rewrite store_at_eq by (unfold zlen; rewrite (ni_table _ _ _ _ Hi); lia).
  cbn [mbind result_bind fst]. rewrite Nat2Z.id. eexists. split; [reflexivity|].
  destruct Hi as [Hpool Htab Htot Hch Hfr Hcbk] eqn:E. clear E.
  assert (Hdisj : forall c' l' x, reg r !! c' = Some l' -> c <> c' -> x ∈ l' -> x ∉ b :: l).
  { intros c' l' x Hl' Hne Hx [->|Hxl]%elem_of_cons; [apply Hnr; by exists c', l'|].
    apply Hne. by apply (n_inv_disjoint f k n r c c' l l' x). }
  split; cbn; try done.
  - by rewrite length_insert, length_alter.
  - rewrite Htot. unfold zlen. by rewrite length_alter.
  - intros c' l' Hl'. destruct (decide (c = c')) as [<-|Hne].
    + rewrite list_lookup_alter_eq, Hl in Hl'. cbn in Hl'. injection Hl' as <-. split_and!; cbn.
      * apply list_lookup_insert_eq. by rewrite Htab.
      * by apply NoDup_cons.
      * done.
      * intros x [->|Hx]%elem_of_cons; [rewrite lookup_insert_eq; done|].
        rewrite lookup_insert_ne by (intros ->; done). by apply Hbl.
    + rewrite list_lookup_alter_ne in Hl' by done.
      eapply chained_frame; [by apply Hch| |].
      * cbn. rewrite list_lookup_insert_ne by done. by apply Hch.
      * intros x Hx. cbn. pose proof (Hdisj _ _ _ Hl' Hne Hx) as Hxn.
        rewrite Hf, lookup_insert_ne by (done || set_solver + Hxn). done.
  - intros x Hx Hxr. destruct (not_registered_alter _ _ _ _ _ Hl Hxr) as [Hxn Hxr'].
    rewrite Hf by done. rewrite lookup_insert_ne by (set_solver + Hxn). by apply Hfr.
Qed.

Lemma unregister_id b l : b ∉ l -> unregister b l = l.
Proof.
  unfold unregister. induction l as [|x l IH]; [done|]. intros [Hx Hl]%not_elem_of_cons.
  rewrite filter_cons_True by congruence. by rewrite IH.
Qed.

Lemma unregister_split b l1 l2 : b ∉ l1 ++ l2 -> unregister b (l1 ++ b :: l2) = l1 ++ l2.
Proof.
  intros [H1 H2]%not_elem_of_app. unfold unregister.
  rewrite filter_app, filter_cons_False by auto.
  f_equal; [apply (unregister_id b l1 H1)|apply (unregister_id b l2 H2)].
Qed.

(** Taking a registered block out of its category's chain, at the head or
    further down. *)
Lemma unlink_ok n r c l b :
  chained n r c l -> b ∈ l -> (c < length (notif_array n))%nat -> b <> 0 ->
  exists h' arr' pv, 
    (if first 0 l =? b then
       '(h, head', pPopped) ← KLIST_HEAD_POP (links n) (first 0 l);
       arr ← store_at (notif_array n) (Z.of_nat c) head';
       assert! pPopped =? b ;;
       Ok (set_blocks (set_array n arr) h (categories n))
     else
       h ← KLIST_REMOVE_ELEM (links n) b;
       Ok (set_blocks n h (categories n))) =
      Ok (set_blocks (set_array n arr') h' (categories n)) /\
    arr' = <[c := first 0 (unregister b l)]> (notif_array n) /\
    seg h' pv (unregister b l) 0 /\ NoDup (unregister b l) /\ h' !! b = Some unlinked /\
    same_outside l (links n) h'.
Proof.
  intros (Harr & Hnd & [pv Hs] & _) Hb Hc Hb0.
  apply list_elem_of_split in Hb as (l1 & l2 & ->).
  assert (b ∉ l1 ++ l2 /\ NoDup (l1 ++ l2)) as [Hbn Hnd'].
  { pose proof Hnd as H. rewrite <- Permutation_middle in H. by apply NoDup_cons in H. }
  rewrite unregister_split by done. destruct l1 as [|x l1].
  - cbn [app first] in *. rewrite Z.eqb_refl.
    destruct (klist_head_pop_seg (links n) pv l2 0 b Hbn Hs) as (h' & -> & Hs' & Hu & Hf).
    cbn [mbind result_bind]. rewrite store_at_eq by (unfold zlen; lia).
    cbn [mbind result_bind]. rewrite Z.eqb_refl, Nat2Z.id. cbn.
    eexists _, _, _. split; [reflexivity|]. split_and!; [done|exact Hs'|done|done|].
    eapply same_outside_mono, Hf. set_solver +.
  - cbn [app first] in *. assert (x <> b) by set_solver + Hbn.
    rewrite (proj2 (Z.eqb_neq x b)) by done.
    destruct (klist_remove_elem_at (links n) pv (x :: l1) b l2 Hnd Hs) as (h' & -> & Hs' & Hu & Hf);
      [done|]. cbn [mbind result_bind].
    exists h', (notif_array n), pv. split; [by destruct n|].
    split_and!; try done. by rewrite list_insert_id.
Qed.

Lemma lookup_unregister b (rl : list (list Z)) (c : nat) l :
  (unregister b <$> rl) !! c = Some l <-> exists l0, rl !! c = Some l0 /\ l = unregister b l0.
Proof. rewrite list_lookup_fmap, fmap_Some. naive_solver. Qed.

Lemma elem_of_unregister b x l : x ∈ unregister b l <-> x <> b /\ x ∈ l.
Proof. unfold unregister. by rewrite list_elem_of_filter. Qed.

(** Block [b] is out of its chain and back in the pool. *)
Lemma unregister_inv f k n r c l b h' pv p' m' :
  n_inv f (k + 1) n r -> reg r !! c = Some l -> b ∈ l ->
  seg h' pv (unregister b l) 0 -> NoDup (unregister b l) -> h' !! b = Some unlinked ->
  same_outside l (links n) h' ->
  pool_inv k (p', m') (fst (apool_step (blocks_pool r) (PFree b))) ->
  n_inv f k
    (set_pool (set_blocks (set_array n (<[c := first 0 (unregister b l)]> (notif_array n))) h'
                 (categories n)) (Some (p', m')))
    {| reg := unregister b <$> reg r; blocks_pool := fst (apool_step (blocks_pool r) (PFree b)) |}.
Proof.
  intros Hi Hl Hb Hs' Hnd' Hu Hf Hpi'.
  destruct (ni_chains _ _ _ _ Hi _ _ Hl) as (_ & _ & _ & Hbl). destruct (Hbl b Hb) as [Hcat _].
  assert (Hkeep : forall x, x <> b ->
    live (fst (apool_step (blocks_pool r) (PFree b))) !! x = live (blocks_pool r) !! x).
  { intros x Hx. cbn. destruct (_ =? 1); cbn;
      [by rewrite lookup_delete_ne by done|by rewrite lookup_insert_ne by done]. }
  assert (Hout : forall c' l' x, reg r !! c' = Some l' -> c <> c' -> x ∈ l' -> x ∉ l).
  { intros c' l' x Hl' Hne Hx Hxl. apply Hne.
    by apply (n_inv_disjoint f (k + 1) n r c c' l l' x). }
  destruct Hi as [_ Htab Htot Hchs Hfr Hcbk]. split; cbn [n_pool set_pool set_blocks set_array
      n_memory notif_array total_notification_categories execute_f links categories reg blocks_pool].
  - by exists p'.
  - by rewrite length_insert, length_fmap.
  - rewrite Htot. unfold zlen. by rewrite length_fmap.
  - intros c' l' (l0 & Hl0 & ->)%lookup_unregister. destruct (decide (c = c')) as [<-|Hne].
    + rewrite Hl in Hl0. injection Hl0 as <-. split_and!; [| done | by exists pv |]; cbn.
      * apply list_lookup_insert_eq. rewrite Htab. by eapply lookup_lt_Some.
      * intros x [Hxb Hx]%elem_of_unregister. cbn in Hkeep. rewrite Hkeep by done. by apply Hbl.
    + assert (Hbl0 : b ∉ l0) by (intros H; by apply (Hout c' l0 b Hl0 Hne H)).
      rewrite (unregister_id b l0 Hbl0).
      eapply chained_frame; [by apply Hchs| |]; cbn.
      * rewrite list_lookup_insert_ne by done. by apply Hchs.
      * intros x Hx. rewrite Hf by by apply (Hout c' l0). split_and!; [done|done|].
        cbn in Hkeep. rewrite Hkeep by (intros ->; done). done.
  - intros x Hx Hxr. destruct (decide (x = b)) as [->|Hxb]; [split; [done|by eexists]|].
    rewrite Hkeep in Hx by done.
    assert (Hxr' : ~ registered (reg r) x).
    { intros (c' & l' & Hl' & Hxl'). apply Hxr. exists c', (unregister b l').
      split; [apply lookup_unregister; by exists l'|]. by apply elem_of_unregister. }
    rewrite Hf; [by apply Hfr|]. intros Hxl. apply Hxr'. by exists c, l.
  - done.
Qed.

Lemma deregister_ok f k n r w b :
  0 <= k -> n_inv f (k + 1) n r -> registered (reg r) b ->
  exists n', n_step n w (NDeregister b) = Ok (n', w, 0) /\
    n_inv f k n' {| reg := unregister b <$> reg r;
                    blocks_pool := fst (apool_step (blocks_pool r) (PFree b)) |}.
Proof.
  intros Hk Hi (c & l & Hl & Hb). pose proof (ni_chains _ _ _ _ Hi _ _ Hl) as Hch.
  destruct (proj2 (proj2 (proj2 Hch)) b Hb) as [Hcat Hlive].
  pose proof (n_inv_live_nonnull _ _ _ _ _ Hi Hlive) as Hb0.
  assert (Hclen : (c < length (notif_array n))%nat)
    by (rewrite (ni_table _ _ _ _ Hi); by eapply lookup_lt_Some).
  destruct (unlink_ok n r c l b Hch Hb Hclen Hb0)
    as (h' & arr' & pv & Hun & -> & Hs' & Hnd' & Hu & Hf).
  destruct (ni_pool _ _ _ _ Hi) as (p & Hp & Hpi).
  destruct (pool_free_ok k _ _ b Hk Hpi Hlive) as ([p' m'] & calls & Hfree & Hpi').
  cbn [n_step]. unfold notifier_deregister_notification_block, category_of.
  rewrite Hcat. cbn [mbind result_bind].
  rewrite (proj2 (Z.eqb_neq b 0)), (ni_total _ _ _ _ Hi) by done.
  rewrite (proj2 (Z.ltb_lt _ _)) by (unfold zlen; rewrite <- (ni_table _ _ _ _ Hi); lia).
  cbn [negb andb cassert mbind result_bind].
  rewrite (load_at_eq _ _ (first 0 l)) by (lia || (rewrite Nat2Z.id; apply Hch)).
  cbn [mbind result_bind] in *. rewrite Hun. cbn [mbind result_bind].
  unfold pool_of at 1. cbn [n_pool set_blocks set_array n_memory]. rewrite Hp, Hfree.
  cbn [mbind result_bind fst snd]. eexists. split; [reflexivity|].
  by eapply unregister_inv.
Qed.

Lemma post_visit (n : notifier_t Q) data c l h w f :
  execute_f n = f -> f <> 0 -> (forall b, b ∈ l -> categories n !! b = Some (Z.of_nat c)) ->
  visit (Poster exec n data) l (h, w) = Ok (h, post exec f c data l w).
Proof.
  intros Hf Hf0 Hc. revert w. induction l as [|b l IH]; intros w; [done|].
  assert (Poster exec n data b (h, w) = Ok (h, exec f b (Z.of_nat c) data w)) as Hb.
  { unfold Poster, category_of. rewrite Hf, (proj2 (Z.eqb_neq f 0)), Hc by (done || left). done. }
  cbn [visit]. rewrite Hb. cbn [mbind result_bind]. apply IH. intros x Hx. apply Hc. by right.
Qed.

Lemma post_ok f k n r w c data :
  n_inv f k n r -> (c < length (reg r))%nat ->
  n_step n w (NPost c data) = Ok (n, post exec f c data (default [] (reg r !! c)) w, 0).
Proof.
  intros Hi Hc. destruct (lookup_lt_is_Some_2 _ _ Hc) as [l Hl].
  destruct (ni_chains _ _ _ _ Hi _ _ Hl) as (Harr & Hnd & [pv Hs] & Hbl).
  destruct (ni_callback _ _ _ _ Hi) as [Hf Hf0].
  cbn [n_step]. unfold notifier_post_notification. rewrite (ni_total _ _ _ _ Hi).
  rewrite (proj2 (Z.ltb_lt _ _)) by (unfold zlen; lia). cbn [cassert mbind result_bind].
  rewrite (load_at_eq _ _ (first 0 l)) by (lia || by rewrite Nat2Z.id). cbn [mbind result_bind].
  assert (Hsize : (length l <= base.size (links n))%nat).
  { apply nodup_keys_size; [done|]. intros x Hx. by apply (seg_lookup _ _ _ _ _ Hs). }
  rewrite klist_foreach_visit; [|lia|done|by eapply seg_next_chain|].
  - rewrite (post_visit n data c l _ w f) by (done || intros; by apply Hbl).
    cbn. rewrite Hl. by destruct n.
  - intros x s s' Hx Hp y _ _. unfold Poster in Hp. rewrite Hf, (proj2 (Z.eqb_neq f 0)) in Hp by done.
    apply bind_ok in Hp as (ca & _ & Hp). injection Hp as <-. done.
Qed.

Lemma n_inv_mono f k k' n r : k' <= k -> n_inv f k n r -> n_inv f k' n r.
Proof.
  intros Hk [(p & Hp & Hpi) ? ? ? ? ?]. split; try done.
  exists p. split; [done|]. by eapply pool_inv_mono, Hpi.
Qed.

Lemma n_step_ok f k n r w o :
  0 <= k -> n_inv f (k + 1) n r -> n_legal r o ->
  exists n', n_step n w o = Ok (n', snd (fst (registry_step exec f r w o)),
                                snd (registry_step exec f r w o)) /\
    n_inv f k n' (fst (fst (registry_step exec f r w o))).
Proof.
  intros Hk Hi Hl. destruct o as [|c b|b|c data].
  - destruct (free (blocks_pool r)) as [|b l] eqn:Hf; [by destruct (Hl Hf)|].
    destruct (allocate_ok f k n r w b l Hk Hi Hf) as (n' & -> & Hi').
    exists n'. cbn [registry_step apool_step fst snd] in *. rewrite Hf in *. by cbn in *.
  - destruct (register_ok f (k + 1) n r w c b Hi Hl) as (n' & -> & Hi').
    exists n'. split; [done|]. eapply n_inv_mono, Hi'. lia.
  - by apply deregister_ok.
  - exists n. split; [by apply post_ok with (k := k + 1)|]. eapply n_inv_mono, Hi. lia.
Qed.

Fixpoint n_run (n : notifier_t Q) (w : W) (ops : list n_op) : result (notifier_t Q * W * list Z) :=
  match ops with
  | [] => Ok (n, w, [])
  | o :: ops =>
      '(n, w, out) ← n_step n w o;
      '(n, w, outs) ← n_run n w ops;
      Ok (n, w, out :: outs)
  end.

Lemma n_run_ok f ops : forall k n r w,
  0 <= k -> n_inv f (k + zlen ops) n r -> n_all_legal exec f r w ops ->
  exists n', n_run n w ops = Ok (n', snd (fst (registry_run exec f r w ops)),
                                 snd (registry_run exec f r w ops)) /\
    n_inv f k n' (fst (fst (registry_run exec f r w ops))).
Proof.
  induction ops as [|o ops IH]; intros k n r w Hk Hi Hl.
  - exists n. split; [done|]. eapply n_inv_mono, Hi. rewrite zlen_nil. lia.
  - destruct Hl as [Ho Hl]. rewrite zlen_cons in Hi. pose proof (zlen_nonneg ops).
    destruct (n_step_ok f (k + zlen ops) n r w o) as (n1 & Hs & Hi1); [lia| |done|].
    { replace (k + zlen ops + 1) with (k + (zlen ops + 1)) by lia. done. }
    cbn [n_run registry_run]. rewrite Hs.
    destruct (registry_step exec f r w o) as [[r1 w1] out]. cbn [fst snd] in *.
    destruct (IH k n1 r1 w1 Hk Hi1 Hl) as (n2 & Hr & Hi2). exists n2.
    cbn [mbind result_bind]. rewrite Hr.
    destruct (registry_run exec f r1 w1 ops) as [[r2 w2] outs]. by cbn in *.
Qed.

Lemma clear_heads_ok arr k :
  (k <= length arr)%nat -> clear_heads k arr = Ok (replicate k 0 ++ drop k arr).
Proof.
  induction k as [|k IH]; intros Hk; [done|]. cbn [clear_heads]. rewrite IH by lia.
  cbn [mbind result_bind].
  rewrite store_at_eq by (unfold zlen; rewrite length_app, length_replicate, length_drop; lia).
  rewrite Nat2Z.id, insert_app_r_alt by (rewrite length_replicate; lia).
  rewrite length_replicate, Nat.sub_diag, replicate_S_end, <- app_assoc.
  destruct (drop k arr) as [|x l] eqn:E.
  - apply (f_equal length) in E. rewrite length_drop in E. cbn in E. lia.
  - cbn. replace (S k) with (k + 1)%nat by lia. by rewrite <- drop_drop, E.
Qed.

(** The parameters the macros of notifier.h build: a head for each category, a
    callback, and a pool. *)
Record init_ok (k : Z) (params : notifier_create_params_t) (arr : list Z) (qu : Q) : Prop := {
  io_notifier : np_notifier params = true;
  io_array : np_notif_array params = Some arr;
  io_categories : np_total_categories params = zlen arr;
  io_callback : np_execute_f params <> 0;
  io_pool : create_ok k (np_pool_params params) qu
}.

Definition initial_registry (params : notifier_create_params_t) : registry :=
  {| reg := replicate (Z.to_nat (np_total_categories params)) [];
     blocks_pool := {| free := blocks (np_pool_params params); live := ∅; dtors := ∅ |} |}.

Lemma notifier_init_inv k params arr qu m h cats :
  0 <= k -> init_ok k params arr qu ->
  exists n, notifier_init (Some params) true (Some qu) m h cats = Ok (n, true) /\
    n_inv (np_execute_f params) k n (initial_registry params).
Proof.
  intros Hk [Hn Ha Hc Hf Hp]. unfold notifier_init. rewrite Ha, Hn. cbn [cassert mbind result_bind].
  destruct (pool_create_inv k (np_pool_params params) qu m Hk Hp) as (p & m' & -> & Hpi).
  cbn [mbind result_bind]. rewrite Hc. unfold zlen. rewrite Nat2Z.id, clear_heads_ok by done.
  rewrite drop_all, app_nil_r. cbn [mbind result_bind]. eexists. split; [reflexivity|].
  unfold initial_registry. rewrite Hc. unfold zlen. rewrite Nat2Z.id.
  split; cbn [n_pool n_memory notif_array reg total_notification_categories links categories
              execute_f blocks_pool live].
  - by exists p.
  - by rewrite !length_replicate.
  - unfold zlen. by rewrite length_replicate.
  - intros c l [-> Hlt]%lookup_replicate_1. split_and!; cbn.
    + by apply lookup_replicate_2.
    + apply NoDup_nil_2.
    + by exists 0.
    + intros b Hb. by apply elem_of_nil in Hb.
  - intros b [x Hx]. done.
  - done.
Qed.

(** C8: a notifier is a registry of the blocks of its pool.  It initializes with
    every category empty; then allocating hands out the pool's blocks, registering
    puts a block in front of its category's list, deregistering takes the block out
    wherever it is in the list and gives it back to the pool, and posting calls the
    callback once on every registered block of the category, newest first, with
    the category and the data.  No call fails or loops, and at the end the lists
    and the pool are those of the registry. *)
Theorem notifier_refines_registry params arr qu m h cats ops w k :
  0 <= k -> init_ok (k + zlen ops) params arr qu ->
  n_all_legal exec (np_execute_f params) (initial_registry params) w ops ->
  exists n n',
    notifier_init (Some params) true (Some qu) m h cats = Ok (n, true) /\
    let '(r, w', outs) := registry_run exec (np_execute_f params) (initial_registry params) w ops in
    n_run n w ops = Ok (n', w', outs) /\ n_inv (np_execute_f params) k n' r.
Proof.
  intros Hk Hi Hl. pose proof (zlen_nonneg ops).
  destruct (notifier_init_inv (k + zlen ops) params arr qu m h cats) as (n & Hn & Hinv); [lia|done|].
  destruct (n_run_ok _ ops k n _ w Hk Hinv Hl) as (n' & Hr & Hinv'). exists n, n'. split; [done|].
  destruct (registry_run _ _ _ w ops) as [[r w'] outs]. by cbn in *.
Qed.
End refinement.

(** ** Witness, with the queue of the c11 port *)

#[local] Instance ex_bq : BoundedQueue ts_queue_t := port_queue thrd_timedout ex_now.

#[local] Instance ex_bq_laws : BoundedQueueLaws ts_queue_t.
Proof. apply (port_queue_laws thrd_timedout ltac:(discriminate) ex_now). Qed.

Definition ex_params : notifier_create_params_t :=
  {| np_notifier := true; np_notif_array := Some [7; 7]; np_total_categories := 2;
     np_pool_params := ex_pool_params 2; np_execute_f := 99 |}.

(** The client's world: the log of the calls of the callback. *)
Definition ex_exec (f b category data : Z) (w : list (list Z)) : list (list Z) :=
  w ++ [[f; b; category; data]].

Definition ex_ops : list n_op :=
  [NAllocate; NAllocate; NRegister 1 1032; NRegister 1 1096; NPost 1 5; NPost 0 6;
   NDeregister 1032; NPost 1 7].

Lemma notifier_refines_registry_witness :
  exists n n',
    notifier_init (Some ex_params) true (Some ex_pool_queue) ex_memory ∅ ∅ = Ok (n, true) /\
    n_run ex_exec n [] ex_ops =
      Ok (n', [[99; 1096; 1; 5]; [99; 1032; 1; 5]; [99; 1096; 1; 7]], [1032; 1096; 0; 0; 0; 0; 0; 0]).
Proof.
  destruct (notifier_refines_registry ex_exec ex_params [7; 7] ex_pool_queue ex_memory ∅ ∅ ex_ops [] 2)
    as (n & n' & H1 & H2 & _).
  - discriminate.
  - split; try done. apply ex_create_ok; [done|by right].
  - by apply (bool_decide_unpack _).
  - exists n, n'. split; [exact H1|]. rewrite H2. reflexivity.
Defined.
