(* ===== verification/EventFlag.v ===== *)
(** The event flags of inc/cutils/pthread/event_flag.h and
    inc/cutils/c11/event_flag.h (the same code over two thread libraries) and
    the signals of inc/cutils/signal.h.

    As for the queue of TsQueue, a call holds the mutex of the flags except
    while it waits on their condition variable [cv], and [event_flag_wait_from]
    is what a call does from the moment it owns the mutex until it waits or
    returns.  Whether the mutex is acquired and how a wait ends is the thread
    library's, a parameter. *)
From S2P Require Import Prelude TsQueue.
From stdpp Require Import list gmap.
From Stdlib Require Import ZArith Lia.
Local Open Scope Z_scope.

(** ** Data *)

Inductive event_flag_wait_type_e : Set := WAIT_OR | WAIT_OR_CLEAR | WAIT_AND | WAIT_AND_CLEAR.

(** The mutex and the condition variable have no value of their own here. *)
Record event_flag_t := { val : Z }.

(** How the mutex is acquired. *)
Inductive lock_call : Set :=
  | TryLock
  | TimedLock (ts : timespec).

(** ** Operations *)

(** [mtx_ok] and [cv_ok] are the outcomes of creating the mutex and the
    condition variable. *)
Definition event_flag_new (p_flags : option event_flag_t) (mtx_ok cv_ok : bool)
  : option event_flag_t * bool :=
  match p_flags with
  | Some f => if mtx_ok && cv_ok then (Some {| val := 0 |}, true) else (Some f, false)
  | None => (None, false)
  end.

Definition is_or (wait_type : event_flag_wait_type_e) : bool :=
  match wait_type with WAIT_OR | WAIT_OR_CLEAR => true | _ => false end.

Definition clears (wait_type : event_flag_wait_type_e) : bool :=
  match wait_type with WAIT_AND_CLEAR | WAIT_OR_CLEAR => true | _ => false end.

(** The flags, whether the condition holds, and the value that is then written
    through [p_actual_flags], when it is not NULL. *)
Definition check_flags (p_flags : event_flag_t) (required_flags : Z)
    (wait_type : event_flag_wait_type_e) : event_flag_t * bool * option Z :=
  let act_flags := Z.land (val p_flags) required_flags in
  let retval := if is_or wait_type then negb (act_flags =? 0)
                else act_flags =? required_flags in
  (if retval && clears wait_type
   then {| val := Z.land (val p_flags) (u32 (Z.lnot act_flags)) |} else p_flags,
   retval, if retval then Some act_flags else None).

Definition lock_for (wait_ms : Z) (now : timespec) : lock_call :=
  if wait_ms =? NO_SLEEP then TryLock
  else TimedLock (if wait_ms =? WAIT_FOREVER then {| tv_sec := 0; tv_nsec := 0 |}
                  else deadline now wait_ms).

Section port.
(** The codes of a wait for which the call gives up: [ETIMEDOUT], [EINVAL] and
    [EPERM], or [thrd_timedout] and [thrd_error] of the c11 port. *)
Context (gives_up : Z -> bool).

(** From the end of a wait with code [rval] ([0] at the start of the call). *)
Definition event_flag_wait_from (rval : Z) (p_flags : event_flag_t) (required_flags : Z)
    (wait_type : event_flag_wait_type_e) (wait_ms : Z) (now : timespec)
  : event_flag_t * pause (bool * option Z) :=
  if negb (rval =? 0) && gives_up rval then (p_flags, Returns (false, None))
  else if negb (rval =? 0) then (p_flags, Returns (true, None))
  else
    let '(p_flags, retval, actual) := check_flags p_flags required_flags wait_type in
    (p_flags, if (retval : bool) then Returns (true, actual) else Waits (the_wait cnd now wait_ms)).

(** [lock] is the code with which the library answers the attempt to acquire
    the mutex. *)
Definition event_flag_wait (p_flags : option event_flag_t) (required_flags : Z)
    (wait_type : event_flag_wait_type_e) (wait_ms : Z) (now : timespec) (lock : lock_call -> Z)
  : option event_flag_t * pause (bool * option Z) :=
  match p_flags with
  | Some f =>
      if lock (lock_for wait_ms now) =? 0 then
        let '(f, r) := event_flag_wait_from 0 f required_flags wait_type wait_ms now in (Some f, r)
      else (Some f, Returns (false, None))
  | None => (None, Returns (false, None))
  end.

Definition event_flag_send (p_flags : option event_flag_t) (flag_bits : Z)
  : option event_flag_t * bool :=
  match p_flags with
  | Some f => (Some {| val := Z.lor (val f) flag_bits |}, true)
  | None => (None, false)
  end.

Definition event_flag_clear (p_flags : option event_flag_t) (flag_bits : Z)
  : option event_flag_t * bool :=
  match p_flags with
  | Some f => (Some {| val := Z.land (val f) (u32 (Z.lnot flag_bits)) |}, true)
  | None => (None, false)
  end.

(** ** Signals: the lowest bit of a flag *)

Definition signal_t : Set := event_flag_t.

Definition signal_new (p_signal : option signal_t) (mtx_ok cv_ok : bool) : option signal_t * bool :=
  event_flag_new p_signal mtx_ok cv_ok.

Definition signal_wait (p_signal : option signal_t) (now : timespec) (lock : lock_call -> Z)
  : option signal_t * pause (bool * option Z) :=
  event_flag_wait p_signal 1 WAIT_OR_CLEAR WAIT_FOREVER now lock.

Definition signal_wait_timed (p_signal : option signal_t) (timeout : Z) (now : timespec)
    (lock : lock_call -> Z) : option signal_t * pause (bool * option Z) :=
  event_flag_wait p_signal 1 WAIT_OR_CLEAR timeout now lock.

Definition signal_send (p_signal : option signal_t) : option signal_t * bool :=
  event_flag_send p_signal 1.
End port.

(** ** What a check does to the bits *)

Lemma is_u32_land x : is_u32 x <-> Z.land x (Z.ones 32) = x.
Proof. rewrite Z.land_ones by lia. change (2 ^ 32) with 4294967296. words. Qed.

Lemma land_u32 a b : is_u32 a -> is_u32 (Z.land a b).
Proof.
  rewrite !is_u32_land. intros H. by rewrite <- Z.land_assoc, (Z.land_comm b), Z.land_assoc, H.
Qed.

Lemma lor_u32 a b : is_u32 a -> is_u32 b -> is_u32 (Z.lor a b).
Proof. rewrite !is_u32_land. intros Ha Hb. by rewrite Z.land_lor_distr_l, Ha, Hb. Qed.

Lemma land_not_bit v a i : 0 <= i < 32 ->
  Z.testbit (Z.land v (u32 (Z.lnot a))) i = Z.testbit v i && negb (Z.testbit a i).
Proof.
  intros Hi. rewrite Z.land_spec. unfold u32. change 4294967296 with (2 ^ 32).
  by rewrite Z.mod_pow2_bits_low, Z.lnot_spec by lia.
Qed.

Definition satisfied (v required : Z) (wait_type : event_flag_wait_type_e) : bool :=
  if is_or wait_type then negb (Z.land v required =? 0) else Z.land v required =? required.

(** [v'] has only bits of [v]. *)
Definition subflags (v' v : Z) : Prop := Z.land v v' = v'.

Lemma satisfied_mono v v' required wait_type :
  subflags v' v -> satisfied v' required wait_type = true -> satisfied v required wait_type = true.
Proof.
  unfold subflags, satisfied. intros Hs. destruct (is_or wait_type).
  - rewrite !negb_true_iff, !Z.eqb_neq. intros H H0. apply H.
    by rewrite <- Hs, (Z.land_comm v), <- Z.land_assoc, H0, Z.land_0_r.
  - rewrite !Z.eqb_eq. intros H. by rewrite <- H at 1; rewrite Z.land_assoc, Hs.
Qed.

Lemma subflags_land v a : subflags (Z.land v a) v.
Proof. unfold subflags. by rewrite Z.land_assoc, Z.land_diag. Qed.

Lemma subflags_refl v : subflags v v.
Proof. apply Z.land_diag. Qed.

Lemma check_flags_eq f required wait_type :
  check_flags f required wait_type =
    let act := Z.land (val f) required in
    if satisfied (val f) required wait_type
    then ({| val := if clears wait_type then Z.land (val f) (u32 (Z.lnot act)) else val f |},
          true, Some act)
    else (f, false, None).
Proof.
  unfold check_flags, satisfied. destruct f as [v]. cbn.
  destruct (if is_or wait_type then _ else _); cbn; [|done]. by destruct (clears wait_type).
Qed.

(** ** Interleaving *)

(** A thread in a wait; it is asleep until a broadcast. *)
Record waiter : Set := {
  wt_required : Z;
  wt_type : event_flag_wait_type_e;
  wt_ms : Z;
  wt_asleep : bool
}.

(** What a call of [event_flag_wait] returned. *)
Record wait_result : Set := { wr_thread : nat; wr_ok : bool; wr_actual : option Z }.

Record flags_world := {
  fw_flags : event_flag_t;
  fw_waiters : gmap nat waiter;
  fw_log : list wait_result
}.

(** A thread calls an operation, [lock] being the code of its attempt to acquire
    the mutex, or its wait returns the code [rval]. *)
Inductive flag_event : Set :=
  | FWait (t : nat) (required : Z) (wait_type : event_flag_wait_type_e) (wait_ms : Z)
          (now : timespec) (lock : Z)
  | FWake (t : nat) (rval : Z) (now : timespec)
  | FSend (bits : Z)
  | FClear (bits : Z).

Section interleaving.
Context (gives_up : Z -> bool).

Definition awake (x : waiter) : waiter :=
  {| wt_required := wt_required x; wt_type := wt_type x; wt_ms := wt_ms x; wt_asleep := false |}.

Definition waited (t : nat) (x : waiter) (w : flags_world)
    (r : event_flag_t * pause (bool * option Z)) : flags_world :=
  match snd r with
  | Waits _ => {| fw_flags := fst r; fw_waiters := <[t := x]> (fw_waiters w); fw_log := fw_log w |}
  | Returns (b, act) =>
      {| fw_flags := fst r; fw_waiters := delete t (fw_waiters w);
         fw_log := fw_log w ++ [{| wr_thread := t; wr_ok := b; wr_actual := act |}] |}
  end.

(** An event that its thread cannot make has no effect. *)
Definition flags_step (w : flags_world) (ev : flag_event) : flags_world :=
  match ev with
  | FWait t required wait_type wait_ms now lock =>
      match fw_waiters w !! t with
      | Some _ => w
      | None =>
          let '(f, r) := event_flag_wait gives_up (Some (fw_flags w)) required wait_type wait_ms now
                           (fun _ => lock) in
          waited t {| wt_required := required; wt_type := wait_type; wt_ms := wait_ms;
                      wt_asleep := true |} w (default (fw_flags w) f, r)
      end
  | FWake t rval now =>
      match fw_waiters w !! t with
      | Some x =>
          waited t {| wt_required := wt_required x; wt_type := wt_type x; wt_ms := wt_ms x;
                      wt_asleep := true |} w
            (event_flag_wait_from gives_up rval (fw_flags w) (wt_required x) (wt_type x)
               (wt_ms x) now)
      | None => w
      end
  | FSend bits =>
      {| fw_flags := default (fw_flags w) (fst (event_flag_send (Some (fw_flags w)) bits));
         fw_waiters := awake <$> fw_waiters w; fw_log := fw_log w |}
  | FClear bits =>
      {| fw_flags := default (fw_flags w) (fst (event_flag_clear (Some (fw_flags w)) bits));
         fw_waiters := fw_waiters w; fw_log := fw_log w |}
  end.

Fixpoint flags_run (w : flags_world) (evs : list flag_event) : flags_world :=
  match evs with [] => w | ev :: evs => flags_run (flags_step w ev) evs end.

Definition new_world : flags_world :=
  {| fw_flags := {| val := 0 |}; fw_waiters := ∅; fw_log := [] |}.

Definition sends_u32 (ev : flag_event) : Prop :=
  match ev with FSend bits => is_u32 bits | _ => True end.

Record flags_ok (w : flags_world) : Prop := {
  fo_val : is_u32 (val (fw_flags w));
  fo_asleep : forall t x, fw_waiters w !! t = Some x -> wt_asleep x = true ->
    satisfied (val (fw_flags w)) (wt_required x) (wt_type x) = false
}.

(** A step that only takes flags away keeps the sleepers asleep. *)
Lemma asleep_mono (v v' : Z) x :
  subflags v' v -> satisfied v (wt_required x) (wt_type x) = false ->
  satisfied v' (wt_required x) (wt_type x) = false.
Proof.
  intros Hs Hv. apply not_true_iff_false. intros H.
  rewrite (satisfied_mono v v') in Hv by done. done.
Qed.

Lemma wait_from_cases rval f required wait_type wait_ms now :
  let r := event_flag_wait_from gives_up rval f required wait_type wait_ms now in
  subflags (val (fst r)) (val f) /\ (is_u32 (val f) -> is_u32 (val (fst r))) /\
  match snd r with
  | Waits _ => fst r = f /\ rval = 0 /\ satisfied (val f) required wait_type = false
  | Returns (b, Some act) => rval = 0 /\ b = true /\ act = Z.land (val f) required /\
      satisfied (val f) required wait_type = true /\
      val (fst r) = (if clears wait_type then Z.land (val f) (u32 (Z.lnot act)) else val f)
  | Returns (b, None) => fst r = f /\ rval <> 0 /\ b = negb (gives_up rval)
  end.
Proof.
  unfold event_flag_wait_from. rewrite check_flags_eq.
  destruct (rval =? 0) eqn:E; bdestr; cbn.
  - destruct (satisfied _ _ _) eqn:Hs; cbn.
    + split_and!; try done; destruct (clears wait_type); auto using subflags_refl, subflags_land, land_u32.
    + auto using subflags_refl.
  - destruct (gives_up rval) eqn:Hg; cbn; rewrite ?Hg; auto using subflags_refl.
Qed.

Lemma waited_ok w t x rval now :
  flags_ok w ->
  flags_ok (waited t x w (event_flag_wait_from gives_up rval (fw_flags w) (wt_required x)
                            (wt_type x) (wt_ms x) now)).
Proof.
  intros [Hv Ha]. pose proof (wait_from_cases rval (fw_flags w) (wt_required x) (wt_type x)
                                (wt_ms x) now) as (Hs & Hu & Hr).
  destruct (event_flag_wait_from _ _ _ _ _ _ _) as [f [wc|[b act]]]; cbn in *.
  - destruct Hr as (-> & _ & Hr). split; cbn; [done|]. intros t' x' [[<- <-]|[_ Hx']]%lookup_insert_Some;
      [done|by eapply Ha].
  - split; cbn; [by apply Hu|]. intros t' x' [_ Hx']%lookup_delete_Some Hx.
    eapply asleep_mono; [done|by eapply Ha].
Qed.

Lemma flags_step_ok w ev : sends_u32 ev -> flags_ok w -> flags_ok (flags_step w ev).
Proof.
  intros Hl Hw. pose proof Hw as [Hv Ha]. destruct ev as [t req ty ms now lock|t rval now|bits|bits];
    cbn -[event_flag_wait_from] in *.
  - destruct (fw_waiters w !! t) eqn:Ht; [done|]. destruct (lock =? 0); cbn -[event_flag_wait_from].
    + pose proof (waited_ok w t {| wt_required := req; wt_type := ty; wt_ms := ms;
          wt_asleep := true |} 0 now Hw) as H. cbn -[event_flag_wait_from] in H.
      by destruct (event_flag_wait_from _ _ _ _ _ _ _).
    + split; cbn; [done|]. rewrite delete_id by done. done.
  - destruct (fw_waiters w !! t) as [x|] eqn:Ht; [|done].
    exact (waited_ok w t {| wt_required := wt_required x; wt_type := wt_type x;
             wt_ms := wt_ms x; wt_asleep := true |} rval now Hw).
  - split; cbn; [by apply lor_u32|]. intros t x. rewrite lookup_fmap, fmap_Some.
    by intros (y & _ & ->).
  - split; cbn; [by apply land_u32|]. intros t x Hx Has.
    eapply asleep_mono; [apply subflags_land|by eapply Ha].
Qed.

Lemma flags_run_ok evs : forall w, Forall sends_u32 evs -> flags_ok w -> flags_ok (flags_run w evs).
Proof.
  induction evs as [|ev evs IH]; intros w Hl Hw; [done|]. inversion Hl; subst.
  cbn. apply IH; [done|]. by apply flags_step_ok.
Qed.

Lemma new_world_ok : flags_ok new_world.
Proof. split; cbn; [words|]. intros t x Hx. by rewrite lookup_empty in Hx. Qed.
End interleaving.

(** C10: event flags are reliable under every interleaving of waits, sends and
    clears.  The value stays a 32-bit word; no thread sleeps whose condition
    holds, so that no wake-up is lost; and a woken thread returns exactly when
    its condition holds, with the required bits that are set, which it takes away
    when its wait clears them and never otherwise.  A wait that fails reports
    failure for the codes the port knows and success for any other code. *)
Theorem event_flag_no_lost_wakeup gives_up evs :
  Forall sends_u32 evs ->
  let w := flags_run gives_up new_world evs in
  is_u32 (val (fw_flags w)) /\
  (forall t x, fw_waiters w !! t = Some x -> wt_asleep x = true ->
     satisfied (val (fw_flags w)) (wt_required x) (wt_type x) = false) /\
  (forall t x rval now, fw_waiters w !! t = Some x ->
     let v := val (fw_flags w) in
     let act := Z.land v (wt_required x) in
     let w' := flags_step gives_up w (FWake t rval now) in
     if rval =? 0 then
       if satisfied v (wt_required x) (wt_type x) then
         fw_log w' = fw_log w ++ [{| wr_thread := t; wr_ok := true; wr_actual := Some act |}] /\
         forall i, 0 <= i < 32 -> Z.testbit (val (fw_flags w')) i =
           Z.testbit v i && negb (clears (wt_type x) && Z.testbit (wt_required x) i)
       else fw_log w' = fw_log w /\ fw_flags w' = fw_flags w
     else fw_log w' =
            fw_log w ++ [{| wr_thread := t; wr_ok := negb (gives_up rval); wr_actual := None |}] /\
          fw_flags w' = fw_flags w).
Proof.
  intros Hl w. pose proof (flags_run_ok gives_up evs new_world Hl new_world_ok) as [Hv Ha].
  fold w in Hv, Ha. split_and!; [done|done|]. intros t x rval now Hx v act w'. unfold w'. cbn -[event_flag_wait_from].
  rewrite Hx. pose proof (wait_from_cases gives_up rval (fw_flags w) (wt_required x) (wt_type x)
                            (wt_ms x) now) as (_ & _ & Hr). fold v in Hr.
  destruct (event_flag_wait_from _ _ _ _ _ _ _) as [f [wc|[b [a|]]]]; cbn in *.
  - destruct Hr as (-> & -> & ->). done.
  - destruct Hr as (-> & -> & -> & Hs & Hval). rewrite Hs. split; [done|]. intros i Hi.
    rewrite Hval. destruct (clears (wt_type x)); cbn; [|by rewrite andb_true_r].
    rewrite land_not_bit by done. rewrite Z.land_spec. by destruct (Z.testbit v i).
  - destruct Hr as (-> & Hr & ->). by rewrite (proj2 (Z.eqb_neq rval 0)).
Qed.

(** The calls of threads that share a signal. *)
Inductive signal_event : Set :=
  | SWait (t : nat) (timeout : Z) (now : timespec) (lock : Z)
  | SWake (t : nat) (rval : Z) (now : timespec)
  | SSend.

Definition flag_event_of (ev : signal_event) : flag_event :=
  match ev with
  | SWait t timeout now lock => FWait t 1 WAIT_OR_CLEAR timeout now lock
  | SWake t rval now => FWake t rval now
  | SSend => FSend 1
  end.

Definition signals_run (gives_up : Z -> bool) (evs : list signal_event) : flags_world :=
  flags_run gives_up new_world (flag_event_of <$> evs).

Definition count_ok (l : list wait_result) : Z := zlen (filter wr_ok l).

Definition is_send (ev : signal_event) : bool := match ev with SSend => true | _ => false end.

Definition count_sends (evs : list signal_event) : Z := zlen (filter is_send evs).

(** The codes the port knows: success, or a failure for which the call gives up. *)
Definition known_code (gives_up : Z -> bool) (ev : signal_event) : Prop :=
  match ev with SWake _ rval _ => rval = 0 \/ gives_up rval = true | _ => True end.

#[export] Instance known_code_dec gives_up ev : Decision (known_code gives_up ev).
Proof. destruct ev; cbn; apply _. Defined.

Section signals.
Context (gives_up : Z -> bool).

Record signal_ok (n : Z) (w : flags_world) : Prop := {
  so_val : 0 <= val (fw_flags w) <= 1;
  so_waiters : forall t x, fw_waiters w !! t = Some x ->
    wt_required x = 1 /\ wt_type x = WAIT_OR_CLEAR;
  so_count : count_ok (fw_log w) + val (fw_flags w) <= n
}.

Lemma count_ok_snoc l r : count_ok (l ++ [r]) = count_ok l + (if wr_ok r then 1 else 0).
Proof.
  unfold count_ok. rewrite filter_app, zlen_app. f_equal. by destruct r as [? [] ?].
Qed.

Lemma waited_signal_ok n w t x rval now :
  rval = 0 \/ gives_up rval = true -> wt_required x = 1 -> wt_type x = WAIT_OR_CLEAR ->
  signal_ok n w ->
  signal_ok n (waited t x w (event_flag_wait_from gives_up rval (fw_flags w) (wt_required x)
                               (wt_type x) (wt_ms x) now)).
Proof.
  intros Hc Hreq Hty [Hv Hw Hn].
  pose proof (wait_from_cases gives_up rval (fw_flags w) (wt_required x) (wt_type x) (wt_ms x) now)
    as (_ & _ & Hr).
  assert (Hdel : forall t' x', delete t (fw_waiters w) !! t' = Some x' ->
    wt_required x' = 1 /\ wt_type x' = WAIT_OR_CLEAR)
    by (intros t' x' [_ Hx]%lookup_delete_Some; by eapply Hw).
  destruct (event_flag_wait_from _ _ _ _ _ _ _) as [f [wc|[b [act|]]]]; cbn in *.
  - destruct Hr as (-> & _ & _). split; cbn; [done| |done].
    intros t' x' [[<- <-]|[_ Hx']]%lookup_insert_Some; [done|by eapply Hw].
  - destruct Hr as (_ & -> & -> & Hs & Hval). rewrite Hreq, Hty in Hs, Hval.
    unfold satisfied in Hs. cbn in Hs, Hval. bdestr.
    assert (val (fw_flags w) = 1) as H1.
    { destruct (decide (val (fw_flags w) = 0)) as [H0|]; [rewrite H0 in Hs; done|lia]. }
    rewrite H1 in Hval. change (val f = 0) in Hval. split; cbn; [lia|done|].
    rewrite count_ok_snoc, Hval. cbn. lia.
  - destruct Hr as (-> & Hr & ->). destruct Hc as [->|Hc]; [done|].
    split; cbn; [done|done|]. rewrite count_ok_snoc, Hc. cbn. lia.
Qed.

Lemma signal_step_ok n w ev :
  known_code gives_up ev -> signal_ok n w ->
  signal_ok (n + if is_send ev then 1 else 0) (flags_step gives_up w (flag_event_of ev)).
Proof.
  intros Hk Hw. pose proof Hw as [Hv Hwt Hn].
  destruct ev as [t ms now lock|t rval now|];
    cbn -[event_flag_wait_from Z.lor] in *; rewrite ?Z.add_0_r.
  - destruct (fw_waiters w !! t) eqn:Ht; [done|]. destruct (lock =? 0); cbn -[event_flag_wait_from].
    + pose proof (waited_signal_ok n w t {| wt_required := 1; wt_type := WAIT_OR_CLEAR; wt_ms := ms;
          wt_asleep := true |} 0 now (or_introl eq_refl) eq_refl eq_refl Hw) as H.
      cbn -[event_flag_wait_from] in H. by destruct (event_flag_wait_from _ _ _ _ _ _ _).
    + rewrite delete_id by done. split; cbn; [done|done|]. rewrite count_ok_snoc. cbn. lia.
  - destruct (fw_waiters w !! t) as [x|] eqn:Ht; [|done]. destruct (Hwt _ _ Ht) as [Hreq Hty].
    exact (waited_signal_ok n w t {| wt_required := wt_required x; wt_type := wt_type x;
             wt_ms := wt_ms x; wt_asleep := true |} rval now Hk Hreq Hty Hw).
  - assert (Z.lor (val (fw_flags w)) 1 = 1) as H1.
    { destruct (decide (val (fw_flags w) = 0)) as [->|]; [done|].
      by replace (val (fw_flags w)) with 1 by lia. }
    split; cbn -[Z.lor]; rewrite ?H1; [lia| |lia]. intros t x. rewrite lookup_fmap, fmap_Some.
    intros (y & Hy & ->). by apply (Hwt _ _ Hy).
Qed.

Lemma count_sends_cons ev evs :
  count_sends (ev :: evs) = (if is_send ev then 1 else 0) + count_sends evs.
Proof.
  destruct ev; [done|done|].
  change (zlen (SSend :: filter is_send evs) = 1 + count_sends evs). rewrite zlen_cons.
  apply Z.add_comm.
Qed.

Lemma signals_run_ok evs : forall n w,
  Forall (known_code gives_up) evs -> signal_ok n w ->
  signal_ok (n + count_sends evs) (flags_run gives_up w (flag_event_of <$> evs)).
Proof.
  induction evs as [|ev evs IH]; intros n w Hk Hw; [by rewrite Z.add_0_r|].
  inversion Hk as [|? ? Hev Hevs]; subst. cbn.
  replace (n + count_sends (ev :: evs))
    with (n + (if is_send ev then 1 else 0) + count_sends evs).
  - apply IH; [done|]. by apply signal_step_ok.
  - rewrite count_sends_cons. lia.
Qed.
End signals.

Lemma flag_event_of_u32 evs : Forall sends_u32 (flag_event_of <$> evs).
Proof. apply Forall_fmap, Forall_true. intros [] ; cbn; (done || words). Qed.


(** ** The two ports *)

(** The pthread port, with the codes of the C library. *)
Definition pthread_gives_up (ETIMEDOUT EINVAL EPERM : Z) (rval : Z) : bool :=
  (rval =? ETIMEDOUT) || (rval =? EINVAL) || (rval =? EPERM).

(** The c11 port, with the codes of c11threads.h. *)
Definition thrd_error : Z := 3.

Definition c11_gives_up (rval : Z) : bool := (rval =? thrd_timedout) || (rval =? thrd_error).

(** ** Witnesses *)

(** Thread 1 waits for bits 1 and 2, thread 2 for bit 1 or 3, clearing them. *)
Definition ex_flag_events : list flag_event :=
  [FWait 1 3 WAIT_AND WAIT_FOREVER ex_now 0; FWait 2 5 WAIT_OR_CLEAR WAIT_FOREVER ex_now 0;
   FSend 1; FWake 1 0 ex_now; FSend 2].

Lemma event_flag_no_lost_wakeup_witness :
  let w := flags_run c11_gives_up new_world ex_flag_events in
  (fw_log (flags_step c11_gives_up w (FWake 1 0 ex_now)) =
     fw_log w ++ [{| wr_thread := 1; wr_ok := true; wr_actual := Some 3 |}]) /\
  Z.testbit (val (fw_flags (flags_step c11_gives_up w (FWake 1 0 ex_now)))) 1 = true.
Proof.
  destruct (event_flag_no_lost_wakeup c11_gives_up ex_flag_events) as (_ & _ & H).
  - repeat constructor; cbn; (discriminate || reflexivity).
  - destruct (H 1%nat {| wt_required := 3; wt_type := WAIT_AND; wt_ms := WAIT_FOREVER;
                         wt_asleep := false |} 0 ex_now eq_refl) as [H1 H2].
    split; [exact H1|]. rewrite H2 by (split; [discriminate|reflexivity]). reflexivity.
Defined.

Definition ex_signal_events : list signal_event :=
  [SWait 1 WAIT_FOREVER ex_now 0; SWait 2 500 ex_now 0; SSend; SWake 2 0 ex_now; SWake 1 0 ex_now].

