(* ===== verification/Mutex.v ===== *)
(** The mutex of inc/cutils/pthread/mutex.h and inc/cutils/c11/mutex.h (the same
    code over two thread libraries), and what its callers get from it.

    The library's [pthread_mutex_trylock] and [pthread_mutex_timedlock] are a
    parameter: given the owner of the mutex, the code they return, or nothing
    while they wait.  [posix_mutex] states their documented behaviour. *)
From S2P Require Import Prelude TsQueue EventFlag.
From stdpp Require Import list gmap sets.
From Stdlib Require Import ZArith Lia.
Local Open Scope Z_scope.

(** ** Data *)

(** The thread that has locked the mutex. *)
Record mutex_t : Set := { owner : option nat }.

(** ** Operations *)

(** [mtx_ok] is the outcome of [pthread_mutex_init]; the attributes only choose
    the kind of mutex. *)
Definition mutex_new (mtx_ok : bool) (m : mutex_t) : mutex_t * bool :=
  if mtx_ok then ({| owner := None |}, true) else (m, false).

Definition mutex_lock_call (wait_ms : Z) (now : timespec) : lock_call :=
  if wait_ms =? 0 then TryLock
  else TimedLock {| tv_sec := tv_sec now + wait_ms / 1000;
                    tv_nsec := tv_nsec now + 1000000 * (wait_ms mod 1000) |}.

Section library.
Context (lock : option nat -> lock_call -> option Z).

(** The end of the library's call with code [rval]. *)
Definition mutex_locked (m : mutex_t) (t : nat) (rval : Z) : mutex_t * bool :=
  if rval =? 0 then ({| owner := Some t |}, true) else (m, false).

(** Called by thread [t]; no result while the call waits. *)
Definition mutex_lock (mutex : option mutex_t) (t : nat) (wait_ms : Z) (now : timespec)
  : option mutex_t * option bool :=
  match mutex with
  | Some m =>
      match lock (owner m) (mutex_lock_call wait_ms now) with
      | Some rval => let '(m, b) := mutex_locked m t rval in (Some m, Some b)
      | None => (Some m, None)
      end
  | None => (None, Some false)
  end.
End library.

(** [rval] is the code of [pthread_mutex_unlock]. *)
Definition mutex_unlock (mutex : option mutex_t) (rval : Z) : option mutex_t * bool :=
  match mutex with
  | Some m => if rval =? 0 then (Some {| owner := None |}, true) else (Some m, false)
  | None => (None, false)
  end.

(** ** The library *)

(** POSIX: a mutex that can be locked is locked at once, whatever the deadline;
    otherwise [trylock] fails, and [timedlock] fails with [EINVAL] for a deadline
    whose nanoseconds are not below a second and waits for a valid one. *)
Record posix_mutex (EBUSY EINVAL : Z) (lock : option nat -> lock_call -> option Z) : Prop := {
  pm_codes : EBUSY <> 0 /\ EINVAL <> 0;
  pm_free c : lock None c = Some 0;
  pm_trylock t : lock (Some t) TryLock = Some EBUSY;
  pm_invalid t ts : ~ valid_deadline ts -> lock (Some t) (TimedLock ts) = Some EINVAL;
  pm_valid t ts : valid_deadline ts -> lock (Some t) (TimedLock ts) = None
}.

(** ** Critical sections

    Threads that lock the mutex with [WAIT_FOREVER], do not look at the result,
    and unlock it again, as all callers in the library do. *)

Record cs_world := { mtx : mutex_t; waiting : gset nat; inside : gset nat }.

(** A thread calls [mutex_lock]; the wait of a thread ends since the mutex is
    free; a thread leaves its critical section. *)
Inductive cs_event : Set :=
  | CsEnter (t : nat) (now : timespec)
  | CsGranted (t : nat)
  | CsLeave (t : nat).

Section critical.
Context (lock : option nat -> lock_call -> option Z).

(** An event that its thread cannot make has no effect. *)
Definition cs_step (w : cs_world) (ev : cs_event) : cs_world :=
  match ev with
  | CsEnter t now =>
      if bool_decide (t ∈ waiting w \/ t ∈ inside w) then w
      else
        let '(m, r) := mutex_lock lock (Some (mtx w)) t WAIT_FOREVER now in
        let m := default (mtx w) m in
        match r with
        | None => {| mtx := m; waiting := {[t]} ∪ waiting w; inside := inside w |}
        | Some _ => {| mtx := m; waiting := waiting w; inside := {[t]} ∪ inside w |}
        end
  | CsGranted t =>
      if bool_decide (t ∈ waiting w /\ owner (mtx w) = None) then
        {| mtx := fst (mutex_locked (mtx w) t 0); waiting := waiting w ∖ {[t]};
           inside := {[t]} ∪ inside w |}
      else w
  | CsLeave t =>
      if bool_decide (t ∈ inside w) then
        {| mtx := default (mtx w) (fst (mutex_unlock (Some (mtx w)) 0)); waiting := waiting w;
           inside := inside w ∖ {[t]} |}
      else w
  end.

Fixpoint cs_run (w : cs_world) (evs : list cs_event) : cs_world :=
  match evs with [] => w | ev :: evs => cs_run (cs_step w ev) evs end.
End critical.

Definition free_mutex : cs_world := {| mtx := {| owner := None |}; waiting := ∅; inside := ∅ |}.

(** [WAIT_FOREVER] is 4294967 seconds and 295 milliseconds: the clocks for which
    the nanoseconds of the deadline stay below a second. *)
Definition early_clock (now : timespec) : Prop := 0 <= tv_nsec now < 705000000.

Definition enters_early (ev : cs_event) : Prop :=
  match ev with CsEnter _ now => early_clock now | _ => True end.

Lemma forever_deadline now :
  0 <= tv_nsec now -> mutex_lock_call WAIT_FOREVER now =
    TimedLock {| tv_sec := tv_sec now + 4294967; tv_nsec := tv_nsec now + 295000000 |}.
Proof. done. Qed.

Definition cs_ok (w : cs_world) : Prop :=
  match owner (mtx w) with Some t => inside w = {[t]} | None => inside w = ∅ end.

Lemma cs_step_ok EBUSY EINVAL lock w ev :
  posix_mutex EBUSY EINVAL lock -> enters_early ev -> cs_ok w -> cs_ok (cs_step lock w ev).
Proof.
  intros [_ Hfree _ _ Hvalid] He Hw. destruct w as [[o] wt ins]. unfold cs_ok in *. cbn in Hw.
  destruct ev as [t now|t|t]; cbn -[mutex_lock_call] in *.
  - case_bool_decide; [done|]. rewrite forever_deadline by (unfold early_clock in He; lia).
    destruct o as [t'|].
    + rewrite Hvalid; [done|]. unfold valid_deadline, early_clock in *. cbn. lia.
    + rewrite Hfree. cbn. rewrite Hw. set_solver +.
  - case_bool_decide as H; [|done]. destruct H as [_ ->]. cbn. rewrite Hw. set_solver +.
  - case_bool_decide; [|done]. cbn. destruct o as [t'|]; set_solver.
Qed.

(** C23: the mutex excludes, but not at every time of day.  If each
    [mutex_lock(WAIT_FOREVER)] is called at a clock with less than 705000000
    nanoseconds, at most one thread is in its critical section, the one that owns
    the mutex, in every interleaving.  At any other clock the deadline of a call
    that has to wait is invalid: the call returns false at once, the caller does
    not look, and two threads are in their critical sections.  Calls that try, and
    calls on a free mutex, are right at every clock. *)
Theorem mutex_excludes EBUSY EINVAL lock evs now :
  posix_mutex EBUSY EINVAL lock ->
  (Forall enters_early evs ->
     let w := cs_run lock free_mutex evs in
     (base.size (inside w) <= 1)%nat /\
     forall t, t ∈ inside w <-> owner (mtx w) = Some t) /\
  (705000000 <= tv_nsec now ->
     let w := cs_run lock free_mutex [CsEnter 1 now; CsEnter 2 now] in
     inside w = {[1%nat; 2%nat]} /\ owner (mtx w) = Some 1%nat) /\
  (forall m t wait_ms, mutex_lock lock (Some m) t wait_ms now =
     match owner m with
     | None => (Some {| owner := Some t |}, Some true)
     | Some _ => if decide (wait_ms <> 0 /\ valid_deadline
                             {| tv_sec := tv_sec now + wait_ms / 1000;
                                tv_nsec := tv_nsec now + 1000000 * (wait_ms mod 1000) |})
                 then (Some m, None) else (Some m, Some false)
     end).
Proof.
  intros Hp. split_and!.
  - intros He. assert (cs_ok (cs_run lock free_mutex evs)) as H.
    { assert (cs_ok free_mutex) as H0 by done. revert H0 He. generalize free_mutex.
      induction evs as [|ev evs IH]; intros w Hw He; [done|]. inversion He; subst. cbn.
      apply IH; [|done]. by eapply cs_step_ok. }
    cbv zeta. unfold cs_ok in H. destruct (owner _) as [t'|]; rewrite H.
    + rewrite size_singleton. split; [lia|]. intros t. rewrite elem_of_singleton. naive_solver.
    + rewrite size_empty. split; [lia|]. intros t. set_solver +.
  - intros Hn. destruct Hp as [[_ Hc] Hfree _ Hinv _]. cbn [cs_run].
    assert (cs_step lock free_mutex (CsEnter 1 now) =
      {| mtx := {| owner := Some 1%nat |}; waiting := ∅; inside := {[1%nat]} ∪ ∅ |}) as ->.
    { unfold cs_step. rewrite bool_decide_eq_false_2 by (cbn; set_solver +).
      unfold mutex_lock. cbn -[mutex_lock_call]. by rewrite Hfree. }
    unfold cs_step. rewrite bool_decide_eq_false_2 by (cbn; set_solver +).
    unfold mutex_lock. cbn -[mutex_lock_call]. rewrite forever_deadline by lia.
    rewrite Hinv by (unfold valid_deadline; cbn; lia). unfold mutex_locked.
    rewrite (proj2 (Z.eqb_neq EINVAL 0)) by done. cbn. split; [set_solver +|done].
  - intros m t wait_ms. destruct Hp as [[Hb Hc] Hfree Htry Hinv Hval]. unfold mutex_lock.
    destruct (owner m) as [t'|]; [|by rewrite Hfree]. unfold mutex_lock_call.
    destruct (wait_ms =? 0) eqn:E; bdestr.
    + rewrite Htry. unfold mutex_locked. rewrite (proj2 (Z.eqb_neq EBUSY 0)) by done.
      rewrite decide_False; [done|]. by intros [? _].
    + destruct (decide _) as [[_ Hv]|Hv]; [by rewrite Hval|]. rewrite Hinv.
      * unfold mutex_locked. by rewrite (proj2 (Z.eqb_neq EINVAL 0)).
      * intros H. by apply Hv.
Qed.

(** ** Witness: glibc's codes *)

Definition ex_lock (o : option nat) (c : lock_call) : option Z :=
  match o, c with
  | None, _ => Some 0
  | Some _, TryLock => Some 16
  | Some _, TimedLock ts => if decide (0 <= tv_nsec ts < 1000000000) then None else Some 22
  end.

Lemma ex_lock_posix : posix_mutex 16 22 ex_lock.
Proof.
  split; [lia|done|done| |]; unfold valid_deadline; intros t ts H; cbn.
  - by rewrite decide_False.
  - by rewrite decide_True.
Qed.

Lemma mutex_excludes_witness :
  (base.size (inside (cs_run ex_lock free_mutex
     [CsEnter 1 ex_now; CsEnter 2 ex_now; CsLeave 1; CsGranted 2])) <= 1)%nat /\
  inside (cs_run ex_lock free_mutex
    [CsEnter 1 {| tv_sec := 5; tv_nsec := 800000000 |};
     CsEnter 2 {| tv_sec := 5; tv_nsec := 800000000 |}]) = {[1%nat; 2%nat]}.
Proof.
  split.
  - apply (mutex_excludes 16 22 ex_lock [CsEnter 1 ex_now; CsEnter 2 ex_now; CsLeave 1; CsGranted 2]
             ex_now ex_lock_posix).
    repeat constructor; cbn; discriminate.
  - apply (mutex_excludes 16 22 ex_lock [] {| tv_sec := 5; tv_nsec := 800000000 |} ex_lock_posix).
    discriminate.
Defined.
