(* ===== verification/Monitor.v ===== *)
(** Objects behind a mutex, at the grain of the single accesses of their code.

    A call locks the mutex with [mutex_lock(WAIT_FOREVER)], does not look at the
    result, makes its accesses one by one and unlocks the mutex; it can also wait on
    a condition, which gives the mutex up meanwhile.  [Monitored] is what an object
    provides: the accesses of its calls, and the segments that they are meant to
    make up, from owning the mutex until waiting or returning.  [monitor_refines]
    shows that a run of the accesses, interleaved in any way, is a run of segments
    one after the other, provided the mutex excludes. *)
From S2P Require Import Prelude TsQueue EventFlag Mutex.
From stdpp Require Import base list gmap.
From Stdlib Require Import ZArith Lia.
Local Open Scope Z_scope.

(** ** The interface of an object *)

(** A segment ends with a wait, to be resumed at [l], or with the end of the call. *)
Inductive stop (L R : Type) : Type :=
  | Sleeps (l : L)
  | Ends (r : R).
Arguments Sleeps {L R} l.
Arguments Ends {L R} r.

Inductive outcome (L R : Type) : Type :=
  | Goes (l : L)
  | Stops (st : stop L R).
Arguments Goes {L R} l.
Arguments Stops {L R} st.

(** [L] is where a call is in its code, with its local variables; [resume] gives a
    wait the code that the library returns.  [atomic] is the whole segment.
    A call starts at a [callable] place; a segment starts at a [legal] one.
    [intact n]: the object can serve [n] more segments. *)
Class Monitored (Ob L R : Type) := {
  micro : Ob -> L -> result (Ob * outcome L R);
  resume : L -> Z -> L;
  atomic : Ob -> L -> result (Ob * stop L R);
  callable : L -> Prop;
  legal : L -> Prop;
  intact : Z -> Ob -> Prop
}.

Section segments.
Context {Ob L R : Type} `{!Monitored Ob L R}.

(** The accesses of a segment, without interference. *)
Fixpoint micro_run (fuel : nat) (s : Ob) (l : L) : result (Ob * stop L R) :=
  match fuel with
  | O => Err OutOfFuel
  | S fuel =>
      r ← micro s l;
      match snd r with
      | Goes l => micro_run fuel (fst r) l
      | Stops st => Ok (fst r, st)
      end
  end.
End segments.

Class MonitoredLaws (Ob L R : Type) {mo : Monitored Ob L R} : Prop := {
  callable_legal l : callable l -> legal l;
  intact_mono n m (s : Ob) : m <= n -> intact n s -> intact m s;
  segment_ok n (s : Ob) (l : L) : 0 <= n -> intact (n + 1) s -> legal l ->
    exists fuel s' st, atomic s l = Ok (s', st) /\ micro_run fuel s l = Ok (s', st) /\
      intact n s' /\ forall l', st = Sleeps l' -> forall rval, legal (resume l' rval)
}.

(** ** Interleaved accesses *)

(** How a thread came to own the mutex: it called, or its wait ended. *)
Inductive entry (L : Type) : Type :=
  | Called (l : L)
  | Woken (l : L) (rval : Z).
Arguments Called {L} l.
Arguments Woken {L} l rval.

(** A thread waits in [mutex_lock]; it is between the lock and the unlock; it has
    made the last access of its segment; it waits on a condition. *)
Inductive place (L R : Type) : Type :=
  | Blocked (l : L)
  | Inside (e : entry L) (l : L)
  | Leaving (e : entry L) (st : stop L R)
  | Asleep (l : L).
Arguments Blocked {L R} l.
Arguments Inside {L R} e l.
Arguments Leaving {L R} e st.
Arguments Asleep {L R} l.

(** [ended] has what the calls returned, in order, and [history] the segments in the
    order in which they gave the mutex up. *)
Record monitor {Ob L R : Type} := {
  mutex : mutex_t;
  shared : Ob;
  places : gmap nat (place L R);
  ended : list (nat * R);
  history : list (nat * entry L)
}.
Arguments monitor : clear implicits.

(** A thread makes a call; the mutex is given to a thread that waits for it; a wait
    on a condition ends with a code; a thread makes its next access, or unlocks. *)
Inductive mon_event (L : Type) : Type :=
  | MCall (t : nat) (l : L) (now : timespec)
  | MGranted (t : nat)
  | MWake (t : nat) (rval : Z)
  | MStep (t : nat).
Arguments MCall {L} t l now.
Arguments MGranted {L} t.
Arguments MWake {L} t rval.
Arguments MStep {L} t.

Section monitor.
Context {Ob L R : Type} `{!Monitored Ob L R}.
Context (lock : option nat -> lock_call -> option Z).
Implicit Types (w : monitor Ob L R).

Definition entered (e : entry L) : L :=
  match e with Called l => l | Woken l rval => resume l rval end.

Definition move w (t : nat) (m : mutex_t) (p : place L R) : monitor Ob L R :=
  {| mutex := m; shared := shared w; places := <[t := p]> (places w);
     ended := ended w; history := history w |}.

Definition unlocked w : mutex_t := default (mutex w) (fst (mutex_unlock (Some (mutex w)) 0)).

(** [mutex_unlock], or the wait on a condition that gives the mutex up. *)
Definition leave w (t : nat) (e : entry L) (st : stop L R) : monitor Ob L R :=
  {| mutex := unlocked w; shared := shared w;
     places := match st with Sleeps l => <[t := Asleep l]> (places w)
                           | Ends _ => delete t (places w) end;
     ended := match st with Sleeps _ => ended w | Ends r => ended w ++ [(t, r)] end;
     history := history w ++ [(t, e)] |}.

(** The world after the access that leaves [s]. *)
Definition access w (t : nat) (e : entry L) (s : Ob) (o : outcome L R) : monitor Ob L R :=
  {| mutex := mutex w; shared := s;
     places := <[t := match o with Goes l => Inside e l | Stops st => Leaving e st end]> (places w);
     ended := ended w; history := history w |}.

(** An event that its thread cannot make has no effect. *)
Definition mon_step w (ev : mon_event L) : result (monitor Ob L R) :=
  match ev with
  | MCall t l now =>
      match places w !! t with
      | Some _ => Ok w
      | None =>
          let '(m, r) := mutex_lock lock (Some (mutex w)) t WAIT_FOREVER now in
          Ok (move w t (default (mutex w) m)
                (match r with None => Blocked l | Some _ => Inside (Called l) l end))
      end
  | MGranted t =>
      match places w !! t with
      | Some (Blocked l) =>
          if bool_decide (owner (mutex w) = None)
          then Ok (move w t (fst (mutex_locked (mutex w) t 0)) (Inside (Called l) l)) else Ok w
      | _ => Ok w
      end
  | MWake t rval =>
      match places w !! t with
      | Some (Asleep l) =>
          if bool_decide (owner (mutex w) = None)
          then Ok (move w t (fst (mutex_locked (mutex w) t 0)) (Inside (Woken l rval) (resume l rval)))
          else Ok w
      | _ => Ok w
      end
  | MStep t =>
      match places w !! t with
      | Some (Inside e l) =>
          r ← micro (shared w) l; Ok (access w t e (fst r) (snd r))
      | Some (Leaving e st) => Ok (leave w t e st)
      | _ => Ok w
      end
  end.

Fixpoint mon_run w (evs : list (mon_event L)) : result (monitor Ob L R) :=
  match evs with
  | [] => Ok w
  | ev :: evs => w ← mon_step w ev; mon_run w evs
  end.

Definition mon_start (s : Ob) : monitor Ob L R :=
  {| mutex := {| owner := None |}; shared := s; places := ∅; ended := []; history := [] |}.

(** ** Segments one after the other *)

Record serial := { s_object : Ob; s_asleep : gmap nat L; s_ended : list (nat * R) }.

(** A thread can make a segment of this entry. *)
Definition can_enter (asleep : gmap nat L) (t : nat) (e : entry L) : Prop :=
  match e with Called l => asleep !! t = None /\ callable l | Woken l _ => asleep !! t = Some l end.

Definition serial_step (c : serial) (te : nat * entry L) : result serial :=
  r ← atomic (s_object c) (entered (snd te));
  Ok {| s_object := fst r;
        s_asleep := match snd r with Sleeps l => <[fst te := l]> (s_asleep c)
                                   | Ends _ => delete (fst te) (s_asleep c) end;
        s_ended := match snd r with Sleeps _ => s_ended c | Ends x => s_ended c ++ [(fst te, x)] end |}.

Inductive serial_run : serial -> list (nat * entry L) -> serial -> Prop :=
  | serial_nil c : serial_run c [] c
  | serial_snoc c tes c1 te c2 :
      serial_run c tes c1 -> can_enter (s_asleep c1) (fst te) (snd te) ->
      serial_step c1 te = Ok c2 -> serial_run c (tes ++ [te]) c2.

Definition serial_start (s : Ob) : serial := {| s_object := s; s_asleep := ∅; s_ended := [] |}.
End monitor.
Arguments serial : clear implicits.

(** ** Where the mutex does not exclude *)

Section late.
Context (EBUSY EINVAL : Z) (lock : option nat -> lock_call -> option Z).
Context (library : posix_mutex EBUSY EINVAL lock).

Lemma lock_free t wait_ms now :
  mutex_lock lock (Some {| owner := None |}) t wait_ms now = (Some {| owner := Some t |}, Some true).
Proof using library. unfold mutex_lock. cbn. by rewrite (pm_free _ _ _ library). Qed.

(** The lock of a mutex that another thread owns fails late in the second. *)
Lemma lock_late t t' now :
  705000000 <= tv_nsec now ->
  mutex_lock lock (Some {| owner := Some t' |}) t WAIT_FOREVER now = (Some {| owner := Some t' |}, Some false).
Proof using library.
  intros Hn. destruct library as [[_ Hc] _ _ Hinv _]. unfold mutex_lock. cbn [owner].
  rewrite forever_deadline, Hinv by (unfold valid_deadline; cbn; lia).
  unfold mutex_locked. by rewrite (proj2 (Z.eqb_neq EINVAL 0)).
Qed.

(** Two threads that call late in the second are both between their lock and their
    unlock. *)
Lemma late_calls {Ob L R} `{!Monitored Ob L R} (s : Ob) (l1 l2 : L) now evs :
  705000000 <= tv_nsec now ->
  mon_run lock (mon_start s) (MCall 1 l1 now :: MCall 2 l2 now :: evs) =
  mon_run lock (move (move (mon_start s) 1 {| owner := Some 1%nat |} (Inside (Called l1) l1))
                  2 {| owner := Some 1%nat |} (Inside (Called l2) l2)) evs.
Proof using library.
  intros Hn. assert (mon_step lock (mon_start s) (MCall 1 l1 now) =
    Ok (move (mon_start s) 1 {| owner := Some 1%nat |} (Inside (Called l1) l1))) as H1.
  { unfold mon_step. rewrite (lookup_empty 1%nat : places (mon_start s) !! 1%nat = None).
    cbn [mon_start mutex]. by rewrite lock_free. }
  cbn [mon_run]. rewrite H1. cbn [mbind result_bind]. unfold mon_step at 1. cbn [move places mutex].
  rewrite lookup_insert_ne by done. rewrite (lookup_empty 2%nat : places (mon_start s) !! 2%nat = None).
  by rewrite lock_late.
Qed.
End late.

(** ** The invariant *)

Definition enters_early {L} (ev : mon_event L) : Prop :=
  match ev with MCall _ _ now => early_clock now | _ => True end.

Section refinement.
Context {Ob L R : Type} `{!Monitored Ob L R} `{!MonitoredLaws Ob L R}.
Context (EBUSY EINVAL : Z) (lock : option nat -> lock_call -> option Z).
Context (library : posix_mutex EBUSY EINVAL lock).
Implicit Types (w : monitor Ob L R) (c : serial Ob L R).

Definition legal_event (ev : mon_event L) : Prop :=
  match ev with MCall _ l _ => callable l | _ => True end.

(** A thread owns the mutex from its lock to its unlock. *)
Definition inside (p : place L R) : bool :=
  match p with Inside _ _ | Leaving _ _ => true | _ => false end.

(** What a thread sleeps with as long as its next segment has not ended. *)
Definition sleeping (p : place L R) : option L :=
  match p with
  | Asleep l | Inside (Woken l _) _ | Leaving (Woken l _) _ => Some l
  | _ => None
  end.

Definition legal_entry (e : entry L) : Prop :=
  match e with Called l => callable l | Woken l rval => legal (resume l rval) end.

Lemma entered_legal e : legal_entry e -> legal (entered e).
Proof using MonitoredLaws0. destruct e; cbn; [apply callable_legal|done]. Qed.

Definition legal_place (p : place L R) : Prop :=
  match p with
  | Blocked l => callable l
  | Asleep l => forall rval, legal (resume l rval)
  | Inside e _ | Leaving e _ => legal_entry e
  end.

(** The owner's segment, which the object is in the middle of. *)
Inductive underway (s0 s : Ob) : place L R -> Prop :=
  | underway_inside e l fuel s' st :
      atomic s0 (entered e) = Ok (s', st) -> micro_run fuel s l = Ok (s', st) ->
      underway s0 s (Inside e l)
  | underway_leaving e st :
      atomic s0 (entered e) = Ok (s, st) -> underway s0 s (Leaving e st).

Record mon_ok (n : Z) w c : Prop := {
  mk_intact : intact (n + 1) (s_object c);
  mk_ended : s_ended c = ended w;
  mk_asleep t : s_asleep c !! t = places w !! t ≫= sleeping;
  mk_legal t p : places w !! t = Some p -> legal_place p;
  mk_owner t p : places w !! t = Some p -> inside p = true -> owner (mutex w) = Some t;
  mk_object : match owner (mutex w) with
              | None => shared w = s_object c
              | Some t => exists p, places w !! t = Some p /\ underway (s_object c) (shared w) p
              end
}.

Lemma mon_ok_start s n : intact (n + 1) s -> mon_ok n (mon_start s) (serial_start s).
Proof. intros Hi. by split. Qed.

Lemma mon_ok_mono n m w c : m <= n -> mon_ok n w c -> mon_ok m w c.
Proof. intros Hm []. split; try done. apply (intact_mono (n + 1)); [lia|done]. Qed.

(** A thread that does not own the mutex goes to another place. *)
Lemma mon_ok_move n w c t m p :
  mon_ok n w c -> places w !! t ≫= sleeping = sleeping p -> legal_place p -> inside p = false ->
  owner m = owner (mutex w) -> owner (mutex w) <> Some t ->
  mon_ok n (move w t m p) c.
Proof.
  intros [Hi He Ha Hl Ho Hs] Hsl Hp Hin Hm Ht. split; cbn; try done.
  - intros t'. destruct (decide (t' = t)) as [->|Hne]; [by rewrite lookup_insert_eq, Ha, Hsl|].
    by rewrite lookup_insert_ne.
  - intros t' p' H. destruct (decide (t' = t)) as [->|Hne]; simplify_map_eq; [done|]. by apply (Hl t').
  - intros t' p' H Hin'. rewrite Hm. destruct (decide (t' = t)) as [->|Hne]; simplify_map_eq; [congruence|]. by apply (Ho t' p').
  - rewrite Hm. destruct (owner (mutex w)) as [t'|]; [|done]. destruct Hs as (p' & H & Hu).
    exists p'. by rewrite lookup_insert_ne by congruence.
Qed.

(** A thread gets the free mutex. *)
Lemma mon_ok_enter n w c t e p :
  0 <= n -> mon_ok n w c -> owner (mutex w) = None -> places w !! t ≫= sleeping = sleeping p ->
  p = Inside e (entered e) -> legal_entry e ->
  mon_ok n (move w t {| owner := Some t |} p) c.
Proof.
  intros Hn [Hi He Ha Hl Ho Hs] Hfree Hsl -> Hle. rewrite Hfree in Hs. split; cbn; try done.
  - intros t'. destruct (decide (t' = t)) as [->|Hne]; [by rewrite lookup_insert_eq, Ha, Hsl|].
    by rewrite lookup_insert_ne.
  - intros t' p' H. destruct (decide (t' = t)) as [->|Hne]; simplify_map_eq; [done|]. by apply (Hl t').
  - intros t' p' H Hin'. destruct (decide (t' = t)) as [->|Hne]; [done|]. simplify_map_eq.
    rewrite (Ho t' p' H Hin') in Hfree. discriminate.
  - exists (Inside e (entered e)). split; [apply lookup_insert_eq|]. rewrite Hs.
    destruct (segment_ok n (s_object c) (entered e) Hn Hi (entered_legal e Hle)) as (fuel & s' & st & Hat & Hmi & _).
    by apply (underway_inside _ _ _ _ fuel s' st).
Qed.

(** The mutex owner's next access. *)
Lemma mon_ok_access n w c t e l :
  mon_ok n w c -> places w !! t = Some (Inside e l) ->
  exists s o, micro (shared w) l = Ok (s, o) /\
    mon_ok n (access w t e s o) c.
Proof.
  intros [Hi He Ha Hl Ho Hs] Ht. pose proof (Ho t _ Ht eq_refl) as Hown. rewrite Hown in Hs.
  destruct Hs as (p & Hp & Hu). rewrite Ht in Hp. injection Hp as <-.
  inversion Hu as [e' l' fuel s' st Hat Hmi|]; subst. destruct fuel as [|fuel]; [discriminate|].
  cbn in Hmi. destruct (micro (shared w) l) as [[s o]|f]; [|discriminate]. cbn in Hmi.
  exists s, o. split; [done|]. split; cbn; try done.
  - intros t'. destruct (decide (t' = t)) as [->|Hne]; [|by rewrite lookup_insert_ne].
    rewrite lookup_insert_eq, Ha, Ht. by destruct o, e.
  - intros t' p' H. destruct (decide (t' = t)) as [->|Hne]; simplify_map_eq; [|by apply (Hl t')].
    pose proof (Hl _ _ Ht). by destruct o.
  - intros t' p' H Hin'. destruct (decide (t' = t)) as [->|Hne]; [done|]. simplify_map_eq. by apply (Ho t' p').
  - rewrite Hown. eexists. split; [apply lookup_insert_eq|]. destruct o as [l1|st1].
    + by apply (underway_inside _ _ _ _ fuel s' st).
    + injection Hmi as -> ->. by apply underway_leaving.
Qed.

(** The owner gives the mutex up: its segment is made. *)
Lemma mon_ok_leave n w c t e st :
  0 <= n -> mon_ok (n + 1) w c -> places w !! t = Some (Leaving e st) ->
  exists c', can_enter (s_asleep c) t e /\ serial_step c (t, e) = Ok c' /\ mon_ok n (leave w t e st) c'.
Proof.
  intros Hn [Hi He Ha Hl Ho Hs] Ht. pose proof (Ho t _ Ht eq_refl) as Hown. pose proof (Hl t _ Ht) as Hle. rewrite Hown in Hs.
  destruct Hs as (p & Hp & Hu). rewrite Ht in Hp. injection Hp as <-.
  inversion Hu as [|e' st' Hat]; subst.
  destruct (segment_ok (n + 1) (s_object c) (entered e) ltac:(lia) Hi (entered_legal e Hle)) as (fuel & s' & st' & Hat' & _ & Hi' & Hsl).
  rewrite Hat in Hat'. injection Hat' as <- <-.
  unfold serial_step. cbn [snd fst]. rewrite Hat. cbn [mbind result_bind fst snd]. eexists.
  split; [by destruct e; cbn; rewrite Ha, Ht|]. split; [done|].
  assert (forall t' p', t' <> t -> places w !! t' = Some p' -> inside p' = false) as Hout.
  { intros t' p' Hne H. destruct (inside p') eqn:Hin; [|done]. rewrite (Ho t' p' H Hin) in Hown. congruence. }
  split; cbn; try done.
  - destruct st; cbn; by rewrite He.
  - intros t'. destruct (decide (t' = t)) as [->|Hne].
    + destruct st; cbn; [by rewrite !lookup_insert_eq|by rewrite !lookup_delete_eq].
    + destruct st; cbn; [by rewrite !lookup_insert_ne|by rewrite !lookup_delete_ne].
  - intros t' p' H. destruct (decide (t' = t)) as [->|Hne]; destruct st; simplify_map_eq; try by apply (Hl t').
    intros rval. by apply Hsl.
  - intros t' p' H Hin'. exfalso. destruct (decide (t' = t)) as [->|Hne]; destruct st; simplify_map_eq;
      rewrite (Hout t' p' Hne) in Hin' by done; done.
Qed.

Definition refines (n : Z) (s : Ob) w : Prop :=
  exists c, serial_run (serial_start s) (history w) c /\ mon_ok n w c.

Lemma mon_step_ok s n w ev :
  0 <= n -> refines (n + 1) s w -> legal_event ev -> enters_early ev ->
  exists w', mon_step lock w ev = Ok w' /\ refines n s w'.
Proof.
  intros Hn (c & Hc & Hw) Hl He.
  assert (refines n s w) as Hsame by (exists c; split; [done|]; apply (mon_ok_mono (n + 1)); [lia|done]).
  pose proof (mon_ok_mono (n + 1) n w c ltac:(lia) Hw) as Hw'.
  destruct ev as [t l now|t|t rval|t]; cbn [mon_step].
  - destruct (places w !! t) as [p|] eqn:Ht; [by exists w|].
    destruct library as [_ Hfree _ _ Hvalid]. unfold mutex_lock.
    rewrite forever_deadline by (cbn in He; unfold early_clock in He; lia).
    destruct (owner (mutex w)) as [t'|] eqn:Hown.
    + rewrite Hvalid by (cbn in He; unfold valid_deadline, early_clock in *; cbn; lia). cbn.
      eexists. split; [done|]. exists c. split; [done|]. apply mon_ok_move; try done; [by rewrite Ht|].
      rewrite Hown. intros [= ->]. pose proof (mk_object _ _ _ Hw) as Hs. rewrite Hown in Hs.
      destruct Hs as (p & Hp & _). congruence.
    + rewrite Hfree. cbn. eexists. split; [done|]. exists c. split; [done|].
      apply (mon_ok_enter n w c t (Called l)); try done. by rewrite Ht.
  - destruct (places w !! t) as [[l| | |]|] eqn:Ht; try by exists w.
    case_bool_decide as Hown; [|by exists w]. eexists. split; [done|]. exists c. split; [done|].
    apply (mon_ok_enter n w c t (Called l)); try done; [by rewrite Ht|]. apply (mk_legal _ _ _ Hw t _ Ht).
  - destruct (places w !! t) as [[| | |l]|] eqn:Ht; try by exists w.
    case_bool_decide as Hown; [|by exists w]. eexists. split; [done|]. exists c. split; [done|].
    apply (mon_ok_enter n w c t (Woken l rval)); try done; [by rewrite Ht|]. apply (mk_legal _ _ _ Hw t _ Ht).
  - destruct (places w !! t) as [[|e l|e st|]|] eqn:Ht; try by exists w.
    + destruct (mon_ok_access n w c t e l Hw' Ht) as (s' & o & Hm & Hok). rewrite Hm. cbn.
      eexists. split; [done|]. by exists c.
    + destruct (mon_ok_leave n w c t e st Hn Hw Ht) as (c' & Hen & Hst & Hok).
      eexists. split; [done|]. exists c'. split; [|done]. by eapply serial_snoc.
Qed.

Lemma mon_run_ok s n evs w :
  0 <= n -> refines (n + zlen evs) s w -> Forall legal_event evs -> Forall enters_early evs ->
  exists w', mon_run lock w evs = Ok w' /\ refines n s w'.
Proof.
  revert w. induction evs as [|ev evs IH]; intros w Hn Hw Hl He; cbn.
  - exists w. by rewrite zlen_nil, Z.add_0_r in Hw.
  - inversion Hl; inversion He; subst. rewrite zlen_cons in Hw. pose proof (zlen_nonneg evs).
    rewrite Z.add_assoc in Hw.
    destruct (mon_step_ok s (n + zlen evs) w ev ltac:(lia) Hw) as (w1 & Hs & Hw1); try done.
    rewrite Hs. cbn. by apply IH.
Qed.

(** A step ends one segment at most. *)
Lemma mon_step_history w ev w' :
  mon_step lock w ev = Ok w' -> zlen (history w) <= zlen (history w') <= zlen (history w) + 1.
Proof.
  destruct ev as [t l now|t|t rval|t]; cbn [mon_step]; destruct (places w !! t) as [[l'|e l'|e st|l']|];
    try (intros [= <-]; lia).
  - destruct (mutex_lock lock _ _ _ _) as [m r]. intros [= <-]. cbn. lia.
  - case_bool_decide; intros [= <-]; cbn; lia.
  - case_bool_decide; intros [= <-]; cbn; lia.
  - destruct (micro _ _) as [r|]; [|discriminate]. intros [= <-]. cbn. lia.
  - intros [= <-]. cbn. rewrite zlen_app, zlen_cons, zlen_nil. lia.
Qed.

Lemma mon_run_history w evs w' :
  mon_run lock w evs = Ok w' -> zlen (history w') <= zlen (history w) + zlen evs.
Proof.
  revert w. induction evs as [|ev evs IH]; intros w H; cbn in H.
  - injection H as <-. rewrite zlen_nil. lia.
  - destruct (mon_step lock w ev) as [w1|] eqn:Hs; [|discriminate]. apply mon_step_history in Hs.
    apply IH in H. rewrite zlen_cons. lia.
Qed.

(** The owner comes to the end of its segment without the help of others. *)
Lemma owner_leaves s n w t :
  0 <= n -> refines (n + 1) s w -> owner (mutex w) = Some t ->
  exists k e w', mon_run lock w (replicate k (MStep t)) = Ok w' /\ refines n s w' /\
    owner (mutex w') = None /\ history w' = history w ++ [(t, e)].
Proof.
  intros Hn (c & Hc & Hw) Hown. pose proof (mk_object _ _ _ Hw) as Hs. rewrite Hown in Hs.
  destruct Hs as (p & Hp & Hu).
  assert (forall e st w1, places w1 !! t = Some (Leaving e st) -> mon_ok (n + 1) w1 c ->
    serial_run (serial_start s) (history w1) c ->
    exists w', mon_step lock w1 (MStep t) = Ok w' /\ refines n s w' /\ owner (mutex w') = None /\
      history w' = history w1 ++ [(t, e)]) as Hleave.
  { intros e st w1 Ht Hw1 Hc1. destruct (mon_ok_leave n w1 c t e st Hn Hw1 Ht) as (c' & Hen & Hst & Hok).
    cbn. rewrite Ht. eexists. split; [done|]. split; [|done]. exists c'. split; [|done]. by eapply serial_snoc. }
  destruct Hu as [e l fuel s' st Hat Hmi|e st Hat].
  - revert w l Hc Hw Hown Hp Hmi. induction fuel as [|fuel IH]; intros w l Hc Hw Hown Hp Hmi; [done|].
    destruct (mon_ok_access (n + 1) w c t e l Hw Hp) as (s1 & o & Hm & Hok).
    assert (mon_step lock w (MStep t) = Ok (access w t e s1 o)) as Hst by (cbn; by rewrite Hp, Hm).
    cbn [micro_run] in Hmi. rewrite Hm in Hmi. cbn [mbind result_bind fst snd] in Hmi. destruct o as [l1|st1].
    + destruct (IH (access w t e s1 (Goes l1)) l1 Hc Hok Hown (lookup_insert_eq _ _ _) Hmi) as (k & e' & w' & Hrun & Hr).
      exists (S k), e', w'. split; [|done]. cbn [replicate mon_run]. rewrite Hst. exact Hrun.
    + destruct (Hleave e st1 (access w t e s1 (Stops st1)) (lookup_insert_eq _ _ _) Hok Hc) as (w' & Hst' & Hr).
      exists 2%nat, e, w'. split; [|done]. cbn [replicate mon_run]. rewrite Hst. cbn [mbind result_bind].
      by rewrite Hst'.
  - destruct (Hleave e st w Hp Hw Hc) as (w' & Hst & Hr & Ho & Hh). exists 1%nat, e, w'.
    split; [|done]. cbn. cbn in Hst. by rewrite Hst.
Qed.

(** What a run comes to: its segments can be put one after the other, in the order in
    which they gave the mutex up; at most one thread is between its lock and its
    unlock; when there is none the object is what the segments make of it; the calls
    have returned what they return in that order. *)
Definition serializable (s : Ob) w : Prop :=
  exists c, serial_run (serial_start s) (history w) c /\
    s_ended c = ended w /\
    (forall t p, places w !! t = Some p -> inside p = true -> owner (mutex w) = Some t) /\
    (owner (mutex w) = None -> shared w = s_object c).

Lemma refines_serializable s n w : refines n s w -> serializable s w.
Proof.
  intros (c & Hc & []). exists c. split_and!; try done. intros Hfree. by rewrite Hfree in *.
Qed.

Theorem monitor_refines s n evs :
  0 <= n -> intact (n + zlen evs + 1) s -> Forall legal_event evs -> Forall enters_early evs ->
  exists w, mon_run lock (mon_start s) evs = Ok w /\ serializable s w.
Proof.
  intros Hn Hs Hl He.
  assert (refines (n + zlen evs) s (mon_start s)) as H0
    by (exists (serial_start s); split; [constructor|by apply mon_ok_start]).
  destruct (mon_run_ok s n evs _ Hn H0 Hl He) as (w & Hw & Hr).
  exists w. split; [done|]. by apply (refines_serializable s n).
Qed.
End refinement.
