(* ===== verification/TsLog.v ===== *)
(** The log of src/ts_log_buffer.c shared by threads, at the grain of the accesses to
    its fields: an instance of [Monitored] whose segments are the operations of
    [LogBuffer.TsLogBuffer]. *)
From stdpp Require Import base list gmap.
From Stdlib Require Import ZArith Lia.
From S2P Require Import Prelude TsQueue EventFlag Mutex Monitor LogBuffer.
Import TsLogBuffer.
Local Open Scope Z_scope.

(** ** The accesses of the calls *)

(** Where a call is: in [ts_log_buffer_push] before it looks at [isInit]; at the test
    of [log_buffer_push]; at the filter, with the characters that are left; at the
    three stores of [log_buffer_char_push]; and at what it reads for the notification.
    In [ts_log_buffer_install_notifications], at its two stores.  In
    [ts_log_buffer_current_size]. *)
Inductive log_call : Type :=
  | PushBegin (string : option (list Z)) (string_size : Z)
  | PushTest (string : option (list Z)) (string_size : Z)
  | PushFilter (chars : list Z)
  | PushStore (item : Z) (chars : list Z)
  | PushHead (chars : list Z)
  | PushTail (chars : list Z)
  | PushClient
  | PushLines (f : option Z) (priv : Z)
  | InstallFn (f : option Z) (priv : Z)
  | InstallPrivate (priv : Z)
  | ReadSize.

(** What a call of each of the three functions does besides its accesses. *)
Inductive log_result : Type :=
  | Pushed (events : list ts_event)
  | Installed (events : list ts_event)
  | SizeIs (size : Z) (events : list ts_event).

Definition set_head (b : log_buffer_t) (h : Z) : log_buffer_t := set_cells b (p_buffer b) h (tail b).
Definition set_tail (b : log_buffer_t) (t : Z) : log_buffer_t := set_cells b (p_buffer b) (head b) t.

Definition set_client (p : ts_log_buffer_t) (f : option Z) (priv : Z) : ts_log_buffer_t :=
  {| lb := lb p; fn := f; private := priv |}.

(** Whom a push notifies, behind the unlock, from what it has read. *)
Definition push_notification (p : ts_log_buffer_t) (f : option Z) (priv : Z) : list ts_event :=
  let used_lines := log_buffer_lines_from_size (fst (fst (log_buffer_current_size (lb p)))) in
  let max_lines := u32 (log_buffer_lines_from_size (bufferSize (lb p)) - 1) in
  let diff := s32 (max_lines - used_lines) in
  match f with
  | Some f =>
      if (0 <? diff) && (diff <? 3) then [EvNotify f LB_ALMOST_FULL priv]
      else if diff <=? 0 then [EvNotify f LB_FULL priv] else []
  | None => []
  end.

(** The next access.  The sizes are read in one. *)
Definition log_access (p : ts_log_buffer_t) (c : log_call)
  : result (ts_log_buffer_t * outcome log_call log_result) :=
  match c with
  | PushBegin string string_size =>
      if isInit (lb p) then Ok (p, Goes (PushTest string string_size))
      else Ok (p, Stops (Ends (Pushed [EvLock; EvUnlock])))
  | PushTest (Some s) string_size =>
      if isInit (lb p) && (string_size <? bufferSize (lb p)) then
        if zlen s <? string_size then Err OutOfBounds
        else Ok (p, Goes (PushFilter (take (Z.to_nat string_size) s)))
      else Ok (p, Goes PushClient)
  | PushTest None _ => Ok (p, Goes PushClient)
  | PushFilter [] => Ok (p, Goes PushClient)
  | PushFilter (character :: chars) =>
      let '(b, filtered) := log_buffer_filter_character (lb p) character in
      Ok (set_lb p b, Goes (if filtered || (character =? 0) then PushFilter chars
                            else PushStore character chars))
  | PushStore item chars =>
      cells ← store_at (p_buffer (lb p)) (head (lb p)) item;
      Ok (set_lb p (set_cells (lb p) cells (head (lb p)) (tail (lb p))), Goes (PushHead chars))
  | PushHead chars => Ok (set_lb p (set_head (lb p) (next_index (lb p) (head (lb p)))), Goes (PushTail chars))
  | PushTail chars =>
      Ok (if head (lb p) =? tail (lb p) then set_lb p (set_tail (lb p) (next_index (lb p) (tail (lb p)))) else p,
          Goes (PushFilter chars))
  | PushClient => Ok (p, Goes (PushLines (fn p) (private p)))
  | PushLines f priv => Ok (p, Stops (Ends (Pushed ([EvLock; EvUnlock] ++ push_notification p f priv))))
  | InstallFn f priv => Ok (set_client p f (private p), Goes (InstallPrivate priv))
  | InstallPrivate priv => Ok (set_client p (fn p) priv, Stops (Ends (Installed [EvLock; EvUnlock])))
  | ReadSize =>
      Ok (p, Stops (Ends (SizeIs (fst (fst (log_buffer_current_size (lb p)))) [EvLock; EvUnlock])))
  end.

(** The whole call. *)
Definition log_segment (p : ts_log_buffer_t) (c : log_call)
  : result (ts_log_buffer_t * stop log_call log_result) :=
  match c with
  | PushBegin string string_size =>
      r ← ts_log_buffer_push p string string_size; Ok (fst r, Ends (Pushed (snd r)))
  | InstallFn f priv =>
      let r := ts_log_buffer_install_notifications p f priv in Ok (fst r, Ends (Installed (snd r)))
  | ReadSize => let r := ts_log_buffer_current_size (Some p) in Ok (p, Ends (SizeIs (fst r) (snd r)))
  | _ => Err BadPointer
  end.

(** A call of one of the three functions; a text is as long as its caller says. *)
Definition log_call_ok (c : log_call) : Prop :=
  match c with
  | PushBegin (Some s) string_size => 0 <= string_size <= zlen s
  | PushBegin None _ | InstallFn _ _ | ReadSize => True
  | _ => False
  end.

#[export] Instance ts_log_monitored : Monitored ts_log_buffer_t log_call log_result := {
  micro := log_access;
  resume c _ := c;
  atomic := log_segment;
  callable := log_call_ok;
  legal := log_call_ok;
  intact _ p := lb_wf (lb p)
}.

(** ** The accesses make up the operations *)

Lemma set_lb_twice p b b' : set_lb (set_lb p b) b' = set_lb p b'.
Proof. done. Qed.

Lemma set_lb_same p : set_lb p (lb p) = p.
Proof. by destruct p. Qed.

(** The loop of [log_buffer_push] from any character on. *)
Lemma push_loop_run chars p b :
  push_chars (lb p) chars = Ok b ->
  exists k, forall fuel, micro_run (k + fuel) p (PushFilter chars) = micro_run fuel (set_lb p b) PushClient.
Proof.
  revert p. induction chars as [|c chars IH]; intros p Hb; cbn [push_chars] in Hb.
  - injection Hb as <-. exists 1%nat. intros fuel. by rewrite set_lb_same.
  - destruct (log_buffer_filter_character (lb p) c) as [b1 filtered] eqn:Hf.
    unfold log_buffer_char_push in Hb.
    destruct (filtered || (c =? 0)) eqn:Hskip.
    + assert (push_chars b1 chars = Ok b) as Hb1.
      { destruct filtered; [exact Hb|]. cbn in Hskip. rewrite Hskip in Hb. exact Hb. }
      destruct (IH (set_lb p b1) Hb1) as (k & Hk). exists (S k). intros fuel.
      cbn. rewrite Hf, Hskip. cbn. rewrite Hk. done.
    + apply orb_false_iff in Hskip as [-> Hc]. rewrite Hc in Hb.
      destruct (store_at (p_buffer b1) (head b1) c) as [cells|] eqn:Hst; [|discriminate]. cbn in Hb.
      set (h := next_index b1 (head b1)) in *.
      destruct (IH (set_lb p (set_cells b1 cells h (if h =? tail b1 then next_index b1 (tail b1) else tail b1))) Hb)
        as (k & Hk).
      exists (4 + k)%nat. intros fuel. cbn. rewrite Hf. cbn. rewrite Hc. cbn. rewrite Hst. cbn.
      change (next_index _ (head b1)) with h. destruct (h =? tail b1) eqn:E.
      * exact (Hk fuel).
      * exact (Hk fuel).
Qed.

Lemma push_segment p s n :
  lb_wf (lb p) -> 0 <= n <= zlen s ->
  exists fuel p' evs, ts_log_buffer_push p (Some s) n = Ok (p', evs) /\ lb_wf (lb p') /\
    micro_run fuel p (PushBegin (Some s) n) = Ok (p', Ends (Pushed evs)).
Proof.
  intros WF Hs. unfold ts_log_buffer_push, log_buffer_push. rewrite (lb_wf_init _ WF). cbn [andb].
  destruct (n <? bufferSize (lb p)) eqn:Hlt.
  - rewrite (proj2 (Z.ltb_ge (zlen s) n)) by lia.
    destruct (push_chars_eq (take (Z.to_nat n) s) (lb p) WF) as (b & Hb & WF' & _). rewrite Hb.
    destruct (push_loop_run _ p b Hb) as (k & Hk). exists (2 + (k + 2))%nat.
    do 2 eexists. split; [done|]. split; [done|]. cbn.
    rewrite (lb_wf_init _ WF). cbn. rewrite (lb_wf_init _ WF), Hlt. cbn.
    rewrite (proj2 (Z.ltb_ge (zlen s) n)) by lia. cbn. rewrite Hk. done.
  - exists 4%nat. do 2 eexists. split; [done|]. split; [done|]. cbn.
    rewrite (lb_wf_init _ WF). cbn. rewrite (lb_wf_init _ WF), Hlt. by destruct p.
Qed.

#[export] Instance ts_log_laws : MonitoredLaws ts_log_buffer_t log_call log_result.
Proof.
  split; [done|done|]. intros n p c Hn WF Hc. cbn in WF, Hc |- *.
  destruct c as [[s|] size| | | | | | | |f priv| |]; try done; cbn [log_segment].
  - destruct (push_segment p s size WF Hc) as (fuel & p' & evs & Hp & WF' & Hr). rewrite Hp. by exists fuel, p', (Ends (Pushed evs)).
  - unfold ts_log_buffer_push. rewrite (lb_wf_init _ WF). cbn. exists 4%nat. do 2 eexists.
    split; [done|]. cbn. rewrite (lb_wf_init _ WF). cbn. split; [by destruct p|]. done.
  - exists 2%nat. do 2 eexists. by split.
  - exists 1%nat. do 2 eexists. by split.
Qed.

(** ** What the segments make of the log *)

(** The characters that a segment pushes; a text that does not fit is refused. *)
Definition logged (bufferSize : Z) (te : nat * entry log_call) : list Z :=
  match snd te with
  | Called (PushBegin (Some s) n) => if n <? bufferSize then take (Z.to_nat n) s else []
  | _ => []
  end.

Definition log_text (bufferSize : Z) (h : list (nat * entry log_call)) : list Z :=
  concat (logged bufferSize <$> h).

(** The log [b] followed by the text [s]. *)
Definition follows (b : log_buffer_t) (s : list Z) (b' : log_buffer_t) : Prop :=
  lb_wf b' /\ bufferSize b' = bufferSize b /\
  in_escape_sequence b' = escape_after (in_escape_sequence b) s /\
  lb_contents b' =
    lastn (Z.to_nat (bufferSize b - 1)) (lb_contents b ++ strip (in_escape_sequence b) s).

Lemma follows_nil b : lb_wf b -> follows b [] b.
Proof.
  intros WF. pose proof (lb_contents_length b WF). pose proof (lb_held_range b WF).
  split_and!; try done. cbn. rewrite app_nil_r. symmetry. apply lastn_ge. unfold zlen in *. lia.
Qed.

Lemma follows_app b s1 b1 s2 b2 : follows b s1 b1 -> follows b1 s2 b2 -> follows b (s1 ++ s2) b2.
Proof.
  intros (WF1 & Hsz1 & He1 & HC1) (WF2 & Hsz2 & He2 & HC2).
  rewrite Hsz1, He1 in *. split_and!; [done|by rewrite Hsz2|by rewrite He2, escape_after_app|].
  by rewrite HC2, HC1, lastn_app_lastn, strip_app, app_assoc.
Qed.

Lemma push_follows p s n p' evs :
  lb_wf (lb p) -> ts_log_buffer_push p (Some s) n = Ok (p', evs) ->
  follows (lb p) (if n <? bufferSize (lb p) then take (Z.to_nat n) s else []) (lb p').
Proof.
  intros WF H. unfold ts_log_buffer_push, log_buffer_push in H. rewrite (lb_wf_init _ WF) in H. cbn [andb] in H.
  destruct (n <? bufferSize (lb p)).
  - destruct (zlen s <? n); [discriminate|].
    destruct (push_chars_eq (take (Z.to_nat n) s) (lb p) WF) as (b & Hb & Hr). rewrite Hb in H. cbn in H.
    injection H as <- _. exact Hr.
  - cbn in H. injection H as <- _. by apply follows_nil.
Qed.

(** A call is one segment: it does not wait on a condition. *)
Lemma segment_ends p c p' st :
  log_segment p c = Ok (p', st) -> exists r, st = Ends r.
Proof.
  destruct c as [string n| | | | | | | |f priv| |]; try discriminate; cbn.
  - destruct (ts_log_buffer_push p string n) as [[p1 evs]|]; [|discriminate]. intros [= _ <-]. by eexists.
  - intros [= _ <-]. by eexists.
  - intros [= _ <-]. by eexists.
Qed.

Lemma segment_follows p t l p' st :
  lb_wf (lb p) -> log_segment p l = Ok (p', st) ->
  follows (lb p) (logged (bufferSize (lb p)) (t, Called l)) (lb p').
Proof.
  intros WF. destruct l as [[s|] n| | | | | | | |f priv| |]; try discriminate; cbn [log_segment].
  - destruct (ts_log_buffer_push p (Some s) n) as [[p1 evs]|] eqn:Hp; [|discriminate].
    intros [= <- _]. by eapply push_follows.
  - unfold ts_log_buffer_push. rewrite (lb_wf_init _ WF). intros [= <- _]. by apply follows_nil.
  - intros [= <- _]. by apply follows_nil.
  - intros [= <- _]. by apply follows_nil.
Qed.

Lemma serial_log p h c :
  lb_wf (lb p) -> serial_run (serial_start p) h c ->
  s_asleep c = ∅ /\ follows (lb p) (log_text (bufferSize (lb p)) h) (lb (s_object c)).
Proof.
  intros WF H. remember (serial_start p) as c0 eqn:Hc0. induction H as [c|c h c1 [t e] c2 _ IH Hen Hst]; subst.
  - split; [done|]. by apply follows_nil.
  - destruct (IH eq_refl) as (Ha & Hf). unfold serial_step in Hst. cbn [fst snd] in *.
    rewrite Ha in Hen. destruct e as [l|]; [|discriminate Hen].
    destruct (atomic (s_object c1) (entered (Called l))) as [[p' st]|] eqn:Hat; [|discriminate].
    destruct (segment_ends _ _ _ _ Hat) as [r ->]. cbn in Hst. injection Hst as <-. cbn [s_asleep s_object].
    rewrite Ha. split; [apply delete_empty|]. unfold log_text. rewrite fmap_app, concat_app. cbn [fmap list_fmap concat].
    rewrite app_nil_r. apply (follows_app _ _ _ _ _ Hf).
    destruct Hf as (WF1 & <- & _). by apply (segment_follows _ t l p' (Ends r)).
Qed.

(** ** The property *)

(** Two threads push a character each, late in the second of the clock, and store it
    before either moves the head. *)
Definition race (now : timespec) : list (mon_event log_call) :=
  [MCall 1 (PushBegin (Some [65]) 1) now; MCall 2 (PushBegin (Some [66]) 1) now] ++
  replicate 4 (MStep 1) ++ replicate 4 (MStep 2) ++ [MStep 1; MStep 2; MStep 1; MStep 2].

(** A log of eight characters, with whatever its memory held. *)
Definition ex_log : ts_log_buffer_t :=
  {| lb := {| p_buffer := replicate 8 63; isInit := true; bufferSize := 8; head := 0; tail := 0;
              in_escape_sequence := false |};
     fn := None; private := 0 |}.

(** C25: The log that threads share: however their calls and the accesses in them are
    interleaved, no call faults, a call ends after its accesses whatever the others do,
    the calls take effect one after the other, each with the result that it has alone,
    and between calls the log holds the newest visible characters of the texts in that
    order.  This needs every [mutex_lock] to be made with less than 705000000
    nanoseconds on the clock.  Later in the second the lock of a contended mutex fails,
    and two pushes store into the same cell: one of the two characters is lost, and the
    log shows memory that was never written. *)
Theorem ts_log_buffer_serializes EBUSY EINVAL lock p evs :
  posix_mutex EBUSY EINVAL lock -> lb_wf (lb p) -> in_escape_sequence (lb p) = false ->
  Forall legal_event evs ->
  (Forall enters_early evs ->
     exists w, mon_run lock (mon_start p) evs = Ok w /\ serializable p w /\
       (owner (mutex w) = None -> forall o, visible (log_text (bufferSize (lb p)) (history w)) o ->
          lb_contents (lb (shared w)) =
            lastn (Z.to_nat (bufferSize (lb p) - 1)) (lb_contents (lb p) ++ o)) /\
       (forall t, owner (mutex w) = Some t ->
          exists k e w', mon_run lock w (replicate k (MStep t)) = Ok w' /\ serializable p w' /\
            owner (mutex w') = None /\ history w' = history w ++ [(t, e)])) /\
  (forall now, 705000000 <= tv_nsec now ->
     exists w, mon_run lock (mon_start ex_log) (race now) = Ok w /\
       lb_contents (lb (shared w)) = [66; 63]).
Proof.
  intros Hp WF Hesc Hl. split.
  - intros He.
    assert (refines (0 + zlen evs) p (mon_start p)) as H0
      by (exists (serial_start p); split; [constructor|by apply mon_ok_start]).
    destruct (mon_run_ok EBUSY EINVAL lock Hp p 0 evs _ ltac:(lia) H0 Hl He) as (w & Hw & Hr).
    exists w. split; [done|]. pose proof (refines_serializable p 0 w Hr) as Hs. split; [done|]. split.
    + intros Hfree o Ho%strip_visible. destruct Hs as (c & Hc & _ & _ & Hsh). rewrite Hsh by done.
      destruct (serial_log p _ c WF Hc) as (_ & _ & _ & _ & HC). by rewrite HC, Hesc, Ho.
    + intros t Ht. assert (refines (0 + 1) p w) as Hr1.
      { destruct Hr as (c & Hc & Hok). exists c. split; [done|].
        destruct Hok as [Hi]; split; try done. }
      destruct (owner_leaves lock p 0 w t ltac:(lia) Hr1 Ht) as (k & e & w' & Hrun & Hr' & Ho & Hh).
      exists k, e, w'. split; [done|]. split; [by apply (refines_serializable p 0)|done].
  - intros now Hn. eexists. split; [unfold race; cbn [app]; rewrite (late_calls _ _ _ Hp) by done; vm_compute; reflexivity|].
    reflexivity.
Qed.

(** ** Witness *)

(** The second thread waits for the mutex while the first pushes; its steps meanwhile
    have no effect. *)
Definition ex_log_events : list (mon_event log_call) :=
  [MCall 1 (PushBegin (Some [65; 27; 91; 109; 66]) 5) ex_now; MCall 2 (PushBegin (Some [67]) 1) ex_now] ++
  concat (replicate 20 [MStep 1; MStep 2]) ++ [MGranted 2] ++ replicate 20 (MStep 2).

Lemma ts_log_buffer_serializes_witness :
  exists w, mon_run ex_lock (mon_start ex_log) ex_log_events = Ok w /\ owner (mutex w) = None /\
    lb_contents (lb (shared w)) = [65; 66; 67].
Proof.
  destruct (ts_log_buffer_serializes 16 22 ex_lock ex_log ex_log_events ex_lock_posix) as [H _].
  - constructor; cbn; (lia || done).
  - reflexivity.
  - repeat constructor; cbn; discriminate.
  - destruct H as (w & Hw & _ & Hc & _); [repeat constructor; cbn; discriminate|].
    assert (match mon_run ex_lock (mon_start ex_log) ex_log_events with
      | Ok w => Some (owner (mutex w), log_text 8 (history w)) | Err _ => None end =
        Some (None, [65; 27; 91; 109; 66; 67])) as Hs by (vm_compute; reflexivity).
    rewrite Hw in Hs. injection Hs as Ho Ht. exists w. split; [exact Hw|]. split; [exact Ho|].
    rewrite (Hc Ho [65; 66; 67]); [reflexivity|]. change (bufferSize (lb ex_log)) with 8. rewrite Ht.
    apply vis_plain; [discriminate..|]. apply (vis_escape [91] 109 [66; 67]); [repeat constructor|reflexivity|].
    do 2 (apply vis_plain; [discriminate..|]). constructor.
Defined.
