(* ===== verification/QueueRun.v ===== *)
(** The queue of inc/cutils/pthread/ts_queue.h shared by threads, at the grain of the
    accesses to its fields: an instance of [Monitored] whose segments are those of
    [TsQueue], so that the runs of [TsQueue] are what threads that lock the mutex make. *)
From stdpp Require Import base list gmap.
From Stdlib Require Import ZArith Lia.
From S2P Require Import Prelude EventFlag Mutex Monitor TsQueue.
Local Open Scope Z_scope.

(** ** The accesses of the calls *)

(** Where a call is: at its start; in a wait; behind a wait that returned [rval]; with
    [tail] and [size] read in the test of the loop; and at the accesses behind the loop,
    in their order. *)
Inductive queue_call : Type :=
  | QStart (c : call)
  | QWait (c : call)
  | QTest (c : call) (rval : Z)
  | QTestHead (c : call) (rval : Z) (bound : Z)
  | EnqueueIndex (item : Z)
  | EnqueueStore (item index : Z)
  | EnqueueCount (item : Z)
  | DequeueIndex
  | DequeueLoad (index : Z)
  | DequeueCount (item : Z).

Inductive queue_result : Type :=
  | Enqueued (item : Z) (retval : bool)
  | Dequeued (item : option Z).

Definition set_counters (q : ts_queue_t) (n h t : Z) : ts_queue_t :=
  {| pp_ptr_array := pp_ptr_array q; size := size q; count := n; head := h; tail := t |}.

Definition set_cell (q : ts_queue_t) (cells : list Z) : ts_queue_t :=
  {| pp_ptr_array := cells; size := size q; count := count q; head := head q; tail := tail q |}.

Section port.
(** [ETIMEDOUT], or [thrd_timedout] of the c11 port. *)
Context (timedout : Z).

(** The next access; a counter that is fetched and incremented is one.  Signalling a
    condition is no access to the queue. *)
Definition queue_access (q : ts_queue_t) (c : queue_call)
  : result (ts_queue_t * outcome queue_call queue_result) :=
  match c with
  | QStart (CallEnqueue _ _ _ as c) => Ok (q, Goes (QTestHead c 0 (u64 (tail q + size q))))
  | QStart (CallDequeue _ _ as c) => Ok (q, Goes (QTestHead c 0 (tail q)))
  | QTest (CallEnqueue _ _ _ as c) rval => Ok (q, Goes (QTestHead c rval (u64 (tail q + size q))))
  | QTest (CallDequeue _ _ as c) rval => Ok (q, Goes (QTestHead c rval (tail q)))
  | QTestHead (CallEnqueue item _ _ as c) rval bound =>
      if (bound <=? head q) && negb (rval =? timedout) then Ok (q, Stops (Sleeps (QWait c)))
      else if negb (rval =? timedout) then Ok (q, Goes (EnqueueIndex item))
      else Ok (q, Stops (Ends (Enqueued item false)))
  | QTestHead (CallDequeue _ _ as c) rval bound =>
      if (head q <=? bound) && negb (rval =? timedout) then Ok (q, Stops (Sleeps (QWait c)))
      else if rval =? 0 then Ok (q, Goes DequeueIndex)
      else Ok (q, Stops (Ends (Dequeued None)))
  | EnqueueIndex item =>
      Ok (set_counters q (count q) (u64 (head q + 1)) (tail q),
          Goes (EnqueueStore item (Z.land (head q) (u64 (size q - 1)))))
  | EnqueueStore item index =>
      arr ← store_at (pp_ptr_array q) index item; Ok (set_cell q arr, Goes (EnqueueCount item))
  | EnqueueCount item =>
      Ok (set_counters q (u64 (count q + 1)) (head q) (tail q), Stops (Ends (Enqueued item true)))
  | DequeueIndex =>
      Ok (set_counters q (count q) (head q) (u64 (tail q + 1)),
          Goes (DequeueLoad (Z.land (tail q) (u64 (size q - 1)))))
  | DequeueLoad index => item ← load_at (pp_ptr_array q) index; Ok (q, Goes (DequeueCount item))
  | DequeueCount item =>
      Ok (set_counters q (u64 (count q - 1)) (head q) (tail q), Stops (Ends (Dequeued (Some item))))
  | QWait _ => Err BadPointer
  end.

(** A call from owning the mutex until it waits or returns. *)
Definition call_segment (q : ts_queue_t) (c : call) (rval : Z)
  : result (ts_queue_t * stop queue_call queue_result) :=
  match c with
  | CallEnqueue item wait_ms now =>
      r ← enqueue_from timedout rval q item wait_ms now;
      Ok (fst r, match snd r with Waits _ => Sleeps (QWait c) | Returns b => Ends (Enqueued item b) end)
  | CallDequeue wait_ms now =>
      r ← dequeue_from timedout rval q wait_ms now;
      Ok (fst r, match snd r with Waits _ => Sleeps (QWait c) | Returns o => Ends (Dequeued o) end)
  end.

Definition queue_segment (q : ts_queue_t) (c : queue_call)
  : result (ts_queue_t * stop queue_call queue_result) :=
  match c with
  | QStart c => call_segment q c 0
  | QTest c rval => call_segment q c rval
  | _ => Err BadPointer
  end.

(** A NULL item is refused before the mutex is locked. *)
Definition call_ok (c : call) : Prop :=
  match c with CallEnqueue item _ _ => item <> 0 | CallDequeue _ _ => True end.

#[local] Instance queue_monitored : Monitored ts_queue_t queue_call queue_result := {
  micro := queue_access;
  resume c rval := match c with QWait c => QTest c rval | c => c end;
  atomic := queue_segment;
  callable c := match c with QStart c => call_ok c | _ => False end;
  legal c := match c with QStart c | QTest c _ => call_ok c | _ => False end;
  intact n q := tsq_wf q /\ room n q
}.

(** ** The accesses make up the segments *)

Definition test_bound (q : ts_queue_t) (c : call) : Z :=
  match c with CallEnqueue _ _ _ => u64 (tail q + size q) | CallDequeue _ _ => tail q end.

Lemma accesses_segment q c rval :
  micro_run 4 q (QTestHead c rval (test_bound q c)) = call_segment q c rval.
Proof.
  destruct c as [item wait_ms now|wait_ms now]; cbn; unfold enqueue_from, dequeue_from.
  - destruct (_ && _); [done|]. destruct (negb _); [|done]. cbn.
    destruct (store_at _ _ item) as [arr|]; done.
  - destruct (_ && _); [done|]. destruct (rval =? 0); [|done]. cbn.
    destruct (load_at _ _) as [item|]; done.
Qed.

Lemma call_segment_ok (timedout_nz : timedout <> 0) n q c rval :
  0 <= n -> tsq_wf q -> room (n + 1) q ->
  exists q' st, call_segment q c rval = Ok (q', st) /\ tsq_wf q' /\ room n q' /\
    (forall l, st = Sleeps l -> l = QWait c).
Proof.
  intros Hn WF Hr. unfold room in *. destruct c as [item wait_ms now|wait_ms now]; cbn [call_segment].
  - rewrite enqueue_from_eq by done. cbn [mbind result_bind fst snd]. do 2 eexists. split; [done|].
    destruct (rval =? timedout); cbn; [by split_and!; [|lia|]|].
    destruct (_ =? size q) eqn:E; cbn; [split_and!; [done|lia|by intros l [= <-]]|]. bdestr.
    split_and!; [apply pushed_wf; try done; destruct WF; unfold tsq_held in *; lia|lia|done].
  - destruct (dequeue_from_eq timedout timedout_nz rval q wait_ms now WF) as (x & _ & ->).
    cbn [mbind result_bind fst snd]. do 2 eexists. split; [done|].
    destruct (rval =? timedout); cbn; [by split_and!; [|lia|]|].
    destruct (_ =? 0) eqn:E; cbn; [split_and!; [done|lia|by intros l [= <-]]|]. bdestr.
    destruct (rval =? 0); cbn; [|by split_and!; [|lia|]].
    split_and!; [apply popped_wf; try done; destruct WF; unfold tsq_held in *; lia|lia|done].
Qed.
End port.

Lemma queue_laws timedout : timedout <> 0 ->
  MonitoredLaws ts_queue_t queue_call queue_result (mo := queue_monitored timedout).
Proof.
  intros Hnz. split; cbn.
  - by intros [].
  - unfold room. intros n m q Hm [WF Hr]. split; [done|lia].
  - intros n q l Hn [WF Hr] Hl.
    assert (forall c rval, call_ok c -> exists q' st, call_segment timedout q c rval = Ok (q', st) /\
      (tsq_wf q' /\ room n q') /\
      forall l', st = Sleeps l' -> forall rval, match (match l' with QWait c => QTest c rval | c => c end) with
        QStart c | QTest c _ => call_ok c | _ => False end) as Hseg.
    { intros c rval Hc. destruct (call_segment_ok timedout Hnz n q c rval Hn WF Hr) as (q' & st & H & WF' & Hr' & Hs).
      exists q', st. split; [done|]. split; [done|]. intros l' Hl'. by rewrite (Hs l' Hl'). }
    destruct l as [c| |c rval| | | | | | |]; try done; cbn.
    + destruct (Hseg c 0 Hl) as (q' & st & H & Hok & Hs). exists 5%nat, q', st. split; [done|].
      rewrite <- accesses_segment in H. split; [by destruct c|done].
    + destruct (Hseg c rval Hl) as (q' & st & H & Hok & Hs). exists 5%nat, q', st. split; [done|].
      rewrite <- accesses_segment in H. split; [by destruct c|done].
Qed.

(** ** The runs of the segments *)

(** What a segment is as an event of [TsQueue]. *)
Definition segment_event (te : nat * entry queue_call) : list event :=
  match snd te with
  | Called (QStart c) => [EvCall (fst te) c]
  | Woken (QWait c) rval => [EvWake (fst te) rval]
  | _ => []
  end.

Definition enqueued (r : nat * queue_result) : list Z :=
  match snd r with Enqueued item true => [item] | _ => [] end.

Definition dequeued (r : nat * queue_result) : list Z :=
  match snd r with Dequeued (Some item) => [item] | _ => [] end.

Definition empty_world (q : ts_queue_t) : world :=
  {| w_queue := q; w_waiting := ∅; w_enqueued := []; w_dequeued := [] |}.

(** A serial run seen as a world. *)
Record same_world (c : serial ts_queue_t queue_call queue_result) (W : world) : Prop := {
  sw_queue : w_queue W = s_object c;
  sw_waiting t : s_asleep c !! t = QWait <$> w_waiting W !! t;
  sw_items : forall t c', w_waiting W !! t = Some c' -> call_ok c';
  sw_enqueued : w_enqueued W = mjoin (enqueued <$> s_ended c);
  sw_dequeued : w_dequeued W = mjoin (dequeued <$> s_ended c)
}.

Section simulation.
Context (timedout : Z).
#[local] Instance the_queue : Monitored ts_queue_t queue_call queue_result := queue_monitored timedout.

Lemma same_sleeps c W t cl q :
  same_world c W -> call_ok cl ->
  same_world {| s_object := q; s_asleep := <[t := QWait cl]> (s_asleep c); s_ended := s_ended c |}
    {| w_queue := q; w_waiting := <[t := cl]> (w_waiting W);
       w_enqueued := w_enqueued W; w_dequeued := w_dequeued W |}.
Proof.
  intros [Hq Hw Hi He Hd] Hc. split; cbn; try done.
  - intros t'. destruct (decide (t' = t)) as [->|]; by simplify_map_eq.
  - intros t' c' H. destruct (decide (t' = t)) as [->|]; simplify_map_eq; [done|by eapply Hi].
Qed.

Lemma same_ends c W t r q :
  same_world c W ->
  same_world {| s_object := q; s_asleep := delete t (s_asleep c); s_ended := s_ended c ++ [(t, r)] |}
    {| w_queue := q; w_waiting := delete t (w_waiting W);
       w_enqueued := w_enqueued W ++ enqueued (t, r); w_dequeued := w_dequeued W ++ dequeued (t, r) |}.
Proof.
  intros [Hq Hw Hi He Hd]. split; cbn; try done.
  - intros t'. destruct (decide (t' = t)) as [->|]; by simplify_map_eq.
  - intros t' c' H. destruct (decide (t' = t)) as [->|]; simplify_map_eq; by eapply Hi.
  - rewrite fmap_app, join_app, <- He. cbn. by rewrite app_nil_r.
  - rewrite fmap_app, join_app, <- Hd. cbn. by rewrite app_nil_r.
Qed.

Lemma call_same t cl rval c W c' e :
  same_world c W -> call_ok cl -> atomic (s_object c) (entered e) = call_segment timedout (s_object c) cl rval ->
  serial_step c (t, e) = Ok c' ->
  exists W', run_call timedout t rval cl W = Ok W' /\ same_world c' W'.
Proof.
  intros Hs Hc Hat Hst. pose proof (sw_queue _ _ Hs) as Hq. unfold serial_step in Hst. cbn [fst snd] in Hst.
  rewrite Hat in Hst. destruct cl as [item wait_ms now|wait_ms now]; cbn [call_segment run_call] in *.
  - cbn in Hc. rewrite (proj2 (Z.eqb_neq item 0)), Hq by done.
    destruct (enqueue_from _ _ _ item wait_ms now) as [[q' r]|]; [|discriminate]. cbn in Hst |- *.
    eexists. split; [done|]. destruct r as [wc|b]; cbn in Hst; injection Hst as <-.
    + by apply (same_sleeps c W t (CallEnqueue item wait_ms now)).
    + pose proof (same_ends c W t (Enqueued item b) q' Hs) as H. cbn in H. rewrite app_nil_r in H.
      destruct b; cbn in H; by rewrite ?app_nil_r in H.
  - rewrite Hq. destruct (dequeue_from _ _ _ wait_ms now) as [[q' r]|]; [|discriminate]. cbn in Hst |- *.
    eexists. split; [done|]. destruct r as [wc|o]; cbn in Hst; injection Hst as <-.
    + by apply (same_sleeps c W t (CallDequeue wait_ms now)).
    + pose proof (same_ends c W t (Dequeued o) q' Hs) as H. cbn in H. rewrite app_nil_r in H.
      destruct o; cbn in H; by rewrite ?app_nil_r in H.
Qed.

Lemma segment_same c W te c' :
  same_world c W -> can_enter (s_asleep c) (fst te) (snd te) -> serial_step c te = Ok c' ->
  exists W', world_run timedout W (segment_event te) = Ok W' /\ same_world c' W'.
Proof.
  intros Hs Hen Hst. destruct te as [t e]. cbn [fst snd] in *. unfold segment_event. cbn [fst snd].
  pose proof (sw_waiting _ _ Hs t) as Hw.
  destruct e as [l|l rval]; cbn [can_enter] in Hen.
  - destruct Hen as [Hen Hc]. destruct l as [cl| | | | | | | | |]; try done. cbn in Hc.
    rewrite Hen in Hw. destruct (w_waiting W !! t) eqn:Ht; [discriminate|].
    destruct (call_same t cl 0 c W c' (Called (QStart cl)) Hs Hc eq_refl Hst) as (W' & Hr & Hs').
    exists W'. split; [|done]. cbn. by rewrite Ht, Hr.
  - rewrite Hen in Hw. destruct (w_waiting W !! t) as [cl|] eqn:Ht; [|discriminate]. injection Hw as ->.
    destruct (call_same t cl rval c W c' (Woken (QWait cl) rval) Hs) as (W' & Hr & Hs'); try done.
    { by eapply sw_items. }
    exists W'. split; [|done]. cbn. by rewrite Ht, Hr.
Qed.

Lemma world_run_app w evs1 evs2 :
  world_run timedout w (evs1 ++ evs2) = world_run timedout w evs1 ≫= fun w => world_run timedout w evs2.
Proof.
  revert w. induction evs1 as [|ev evs1 IH]; intros w; [done|]. cbn.
  destruct (world_step timedout w ev); [apply IH|done].
Qed.

Lemma serial_world q h c :
  serial_run (serial_start q) h c ->
  exists W, world_run timedout (empty_world q) (mjoin (segment_event <$> h)) = Ok W /\ same_world c W.
Proof.
  intros H. remember (serial_start q) as c0 eqn:Hc0. induction H as [c|c h c1 te c2 _ IH Hen Hst]; subst.
  - exists (empty_world q). by split.
  - destruct (IH eq_refl) as (W & HW & Hs). destruct (segment_same c1 W te c2 Hs Hen Hst) as (W' & HW' & Hs').
    exists W'. split; [|done]. rewrite fmap_app, join_app, world_run_app, HW. cbn. by rewrite app_nil_r.
Qed.
(** The items of a serial run come out in the order in which they went in. *)
Lemma serial_world_ok q h W :
  timedout <> 0 -> tsq_wf q -> tsq_items q = [] -> room (zlen h) q ->
  world_run timedout (empty_world q) (mjoin (segment_event <$> h)) = Ok W -> world_ok W.
Proof.
  intros Hnz WF Hi Hr HW.
  assert (world_ok (empty_world q)) as Hw by (split; [done|cbn; by rewrite Hi]).
  change q with (w_queue (empty_world q)) in Hr at 1. revert Hr Hw HW. generalize (empty_world q).
  induction h as [|te h IH]; intros w Hr Hw HW; cbn in HW; [by injection HW as <-|].
  rewrite zlen_cons in Hr. pose proof (zlen_nonneg h).
  assert (forall ev w1, world_step timedout w ev = Ok w1 ->
    world_run timedout w1 (mjoin (segment_event <$> h)) = Ok W -> world_ok W) as Hone.
  { intros ev w1 H1 H2. destruct (world_step_ok timedout ev w (zlen h) Hnz Hw) as (w2 & Hs & Hw2 & Hr2); try done.
    rewrite H1 in Hs. injection Hs as <-. by apply (IH w1). }
  assert (world_run timedout w (mjoin (segment_event <$> h)) = Ok W -> world_ok W) as Hnone
    by (intros H1; apply (IH w); try done; unfold room in *; lia).
  unfold segment_event in HW. destruct te as [t [[]|[] rval]]; cbn in HW; try by apply Hnone.
  - destruct (world_step timedout w (EvCall t c)) as [w1|] eqn:H1; cbn in H1, HW; rewrite ?H1 in HW; [|discriminate].
    by apply (Hone (EvCall t c) w1).
  - destruct (world_step timedout w (EvWake t rval)) as [w1|] eqn:H1; cbn in H1, HW; rewrite ?H1 in HW; [|discriminate].
    by apply (Hone (EvWake t rval) w1).
Qed.
End simulation.

(** ** The property *)

(** Late in the second two threads test a queue with one free cell before either takes
    it. *)
Definition queue_race (now : timespec) : list (mon_event queue_call) :=
  [MCall 1 (QStart (CallEnqueue 9 NO_SLEEP now)) now; MCall 2 (QStart (CallEnqueue 8 NO_SLEEP now)) now] ++
  replicate 2 (MStep 1) ++ replicate 5 (MStep 2) ++ replicate 3 (MStep 1).

Definition race_run (lock : option nat -> lock_call -> option Z) (now : timespec)
  : result (monitor ts_queue_t queue_call queue_result) :=
  let mo := queue_monitored thrd_timedout in
  mon_run lock (mon_start (ex_tsq [1; 2; 3; 4] 3 0)) (queue_race now).

(** C24: The queue that threads share, at the grain of its accesses.  However the calls and
    the accesses in them are interleaved, no access faults and every call that owns the
    mutex gives it up after its accesses; the run is one of the segments of [TsQueue]
    ([world_run]), so between calls the items that enqueue calls have stored are those
    that dequeue calls have returned followed by those in the queue.  This needs every
    [mutex_lock] to be made with less than 705000000 nanoseconds on the clock.  Later in
    the second two calls that find one free cell both use one, and the queue has more
    items than cells. *)
Theorem ts_queue_accesses EBUSY EINVAL lock timedout q evs :
  let mo := queue_monitored timedout in
  posix_mutex EBUSY EINVAL lock -> timedout <> 0 ->
  tsq_wf q -> tsq_items q = [] -> room (zlen evs + 2) q -> Forall legal_event evs ->
  (Forall enters_early evs ->
     exists w W, mon_run lock (mon_start q) evs = Ok w /\
       world_run timedout (empty_world q) (mjoin (segment_event <$> history w)) = Ok W /\
       w_enqueued W = mjoin (enqueued <$> ended w) /\ w_dequeued W = mjoin (dequeued <$> ended w) /\
       (owner (mutex w) = None ->
          w_queue W = shared w /\ tsq_wf (shared w) /\
          mjoin (enqueued <$> ended w) = mjoin (dequeued <$> ended w) ++ tsq_items (shared w)) /\
       (forall t, owner (mutex w) = Some t ->
          exists k e w', mon_run lock w (replicate k (MStep t)) = Ok w' /\
            owner (mutex w') = None /\ history w' = history w ++ [(t, e)])) /\
  (forall now, 705000000 <= tv_nsec now ->
     exists w, race_run lock now = Ok w /\ tsq_held (shared w) = 5 /\ size (shared w) = 4).
Proof.
  intros mo Hp Hnz WF Hi Hr Hl. pose proof (queue_laws timedout Hnz) as Hlaws. fold mo in Hlaws. split.
  - intros He.
    assert (refines (1 + zlen evs) q (mon_start q)) as H0.
    { exists (serial_start q). split; [constructor|]. apply mon_ok_start. split; [done|]. unfold room in *. lia. }
    destruct (mon_run_ok EBUSY EINVAL lock Hp q 1 evs _ ltac:(lia) H0 Hl He) as (w & Hw & Hrf).
    pose proof Hrf as (c & Hc & Hok). destruct (serial_world timedout q _ c Hc) as (W & HW & Hs).
    exists w, W. split; [done|]. split; [done|].
    assert (world_ok W) as Hwo.
    { pose proof (mon_run_history lock _ _ _ Hw) as Hh. cbn in Hh. rewrite zlen_nil in Hh.
      apply (serial_world_ok timedout q (history w)); try done. unfold room in *. lia. }
    split_and!.
    + by rewrite (sw_enqueued _ _ Hs), (mk_ended _ _ _ Hok).
    + by rewrite (sw_dequeued _ _ Hs), (mk_ended _ _ _ Hok).
    + intros Hfree. pose proof (mk_object _ _ _ Hok) as Hsh. rewrite Hfree in Hsh.
      rewrite (sw_queue _ _ Hs), Hsh. destruct (mk_intact _ _ _ Hok) as [WF' _]. split; [done|]. split; [done|].
      destruct Hwo as [_ Hf].
      by rewrite (sw_enqueued _ _ Hs), (sw_dequeued _ _ Hs), (mk_ended _ _ _ Hok), (sw_queue _ _ Hs) in Hf.
    + intros t Ht. destruct (owner_leaves lock q 0 w t ltac:(lia) Hrf Ht) as (k & e & w' & Hrun & _ & Ho & Hh).
      by exists k, e, w'.
  - intros now Hn. unfold race_run, queue_race. cbn [app]. rewrite (late_calls _ _ _ Hp) by done.
    clear - now. eexists. split; [vm_compute; reflexivity|]. by split.
Qed.

(** ** Witness *)

(** A thread waits for an item; two others store one each, the second of them after it
    has waited for the mutex; the first wakes up. *)
Definition ex_queue_events : list (mon_event queue_call) :=
  [MCall 1 (QStart (CallDequeue WAIT_FOREVER ex_now)) ex_now] ++ replicate 3 (MStep 1) ++
  [MCall 2 (QStart (CallEnqueue 11 NO_SLEEP ex_now)) ex_now;
   MCall 3 (QStart (CallEnqueue 12 NO_SLEEP ex_now)) ex_now] ++
  concat (replicate 6 [MStep 2; MStep 3]) ++ [MGranted 3] ++ replicate 6 (MStep 3) ++
  [MWake 1 0] ++ replicate 6 (MStep 1).

Lemma ts_queue_accesses_witness :
  let mo := queue_monitored 110 in
  exists w, mon_run ex_lock (mon_start (ex_tsq [0; 0; 0; 0] 6 6)) ex_queue_events = Ok w /\
    ended w = [(2%nat, Enqueued 11 true); (3%nat, Enqueued 12 true); (1%nat, Dequeued (Some 11))] /\
    [11; 12] = [11] ++ tsq_items (shared w).
Proof.
  intros mo.
  destruct (ts_queue_accesses 16 22 ex_lock 110 (ex_tsq [0; 0; 0; 0] 6 6) ex_queue_events ex_lock_posix) as [H _].
  - discriminate.
  - apply ex_tsq_wf; lia.
  - reflexivity.
  - vm_compute. reflexivity.
  - repeat constructor; cbn; discriminate.
  - destruct H as (w & W & Hw & _ & _ & _ & Hf & _); [repeat constructor; cbn; discriminate|].
    assert (match @mon_run _ _ _ (queue_monitored 110) ex_lock (mon_start (ex_tsq [0; 0; 0; 0] 6 6)) ex_queue_events with
      | Ok w => Some (owner (mutex w), ended w) | Err _ => None end =
      Some (None, [(2%nat, Enqueued 11 true); (3%nat, Enqueued 12 true); (1%nat, Dequeued (Some 11))])) as Hs
      by (vm_compute; reflexivity).
    rewrite Hw in Hs. injection Hs as Ho He. exists w. split; [exact Hw|]. split; [exact He|].
    destruct (Hf Ho) as (_ & _ & Hi). rewrite He in Hi. exact Hi.
Defined.
