(* ===== verification/C11.v ===== *)
(** The c11 port: the thread functions of inc/cutils/c11/c11threads.h over
    pthreads, and the mutex, the event flags and the thread-safe queue of
    inc/cutils/c11/ on them.

    The port's code is the pthread port's with the C11 names, so its operations
    are those of Mutex, EventFlag and TsQueue; what is its own is how the codes
    of the pthread calls reach them.  Here [rc] is always the code of the pthread
    call. *)
From S2P Require Import Prelude TsQueue EventFlag Mutex.
From stdpp Require Import list gmap.
From Stdlib Require Import ZArith Lia.
Local Open Scope Z_scope.

Definition thrd_busy : Z := 2.
Definition thrd_nomem : Z := 4.

Section codes.
(** The codes of the C library that the shim tells apart. *)
Context (ETIMEDOUT EBUSY EDEADLK : Z).

(** ** c11threads.h *)

Definition mtx_init (rc : Z) : Z := if rc =? 0 then thrd_success else thrd_error.

Definition mtx_lock (rc : Z) : Z :=
  if rc =? EDEADLK then thrd_busy else if rc =? 0 then thrd_success else thrd_error.

Definition mtx_trylock (rc : Z) : Z :=
  if rc =? EBUSY then thrd_busy else if rc =? 0 then thrd_success else thrd_error.

Definition mtx_timedlock (rc : Z) : Z :=
  if rc =? ETIMEDOUT then thrd_timedout else if rc =? 0 then thrd_success else thrd_error.

(** The variant for libraries without a timed lock: each attempt has its code, and
    the seconds and microseconds of the clock that is read if the mutex was busy; no
    result while the attempts go on. *)
Fixpoint mtx_timedlock_polling (ts : timespec) (attempts : list (Z * (Z * Z))) : option Z :=
  match attempts with
  | [] => None
  | (res, (sec, usec)) :: attempts =>
      if res =? EBUSY then
        if (tv_sec ts <? sec) || ((sec =? tv_sec ts) && (tv_nsec ts <=? usec * 1000)) then Some thrd_timedout
        else mtx_timedlock_polling ts attempts
      else Some (if res =? 0 then thrd_success else thrd_error)
  end.

Definition mtx_unlock (rc : Z) : Z := if rc =? 0 then thrd_success else thrd_error.

Definition cnd_init (rc : Z) : Z := if rc =? 0 then thrd_success else thrd_error.

Definition cnd_signal (rc : Z) : Z := if rc =? 0 then thrd_success else thrd_error.

Definition cnd_broadcast (rc : Z) : Z := if rc =? 0 then thrd_success else thrd_error.

Definition cnd_wait (rc : Z) : Z := if rc =? 0 then thrd_success else thrd_error.

Definition cnd_timedwait (rc : Z) : Z :=
  if negb (rc =? 0) then if rc =? ETIMEDOUT then thrd_timedout else thrd_error else thrd_success.

(** The code of an attempt to lock, and of a wait. *)
Definition lock_code (c : lock_call) (rc : Z) : Z :=
  match c with TryLock => mtx_trylock rc | TimedLock _ => mtx_timedlock rc end.

Definition wait_code (wait_ms rc : Z) : Z :=
  if wait_ms =? WAIT_FOREVER then cnd_wait rc else cnd_timedwait rc.

(** ** mutex.h *)

Definition mutex_new (mutex : option mutex_t) (rc : Z) : option mutex_t * bool :=
  match mutex with
  | Some m => if negb (mtx_init rc =? 0) then (Some m, false) else (Some {| owner := None |}, true)
  | None => (None, false)
  end.

Definition mutex_lock (lock : option nat -> lock_call -> option Z) (mutex : option mutex_t) (t : nat)
    (wait_ms : Z) (now : timespec) : option mutex_t * option bool :=
  Mutex.mutex_lock (fun o c => lock_code c <$> lock o c) mutex t wait_ms now.

Definition mutex_unlock (mutex : option mutex_t) (rc : Z) : option mutex_t * bool :=
  Mutex.mutex_unlock mutex (mtx_unlock rc).

(** ** event_flag.h *)

Definition event_flag_new (p_flags : option event_flag_t) (mtx_rc cv_rc : Z)
  : option event_flag_t * bool :=
  EventFlag.event_flag_new p_flags (mtx_init mtx_rc =? 0) (cnd_init cv_rc =? 0).

Definition event_flag_free (p_flags : option event_flag_t) : bool :=
  match p_flags with Some _ => true | None => false end.

Definition check_flags (p_flags : event_flag_t) (required_flags : Z)
    (wait_type : event_flag_wait_type_e) : event_flag_t * bool * option Z :=
  EventFlag.check_flags p_flags required_flags wait_type.

Definition event_flag_wait_from (rc : Z) (p_flags : event_flag_t) (required_flags : Z)
    (wait_type : event_flag_wait_type_e) (wait_ms : Z) (now : timespec)
  : event_flag_t * pause (bool * option Z) :=
  EventFlag.event_flag_wait_from c11_gives_up (wait_code wait_ms rc) p_flags required_flags wait_type
    wait_ms now.

Definition event_flag_wait (p_flags : option event_flag_t) (required_flags : Z)
    (wait_type : event_flag_wait_type_e) (wait_ms : Z) (now : timespec) (lock : lock_call -> Z)
  : option event_flag_t * pause (bool * option Z) :=
  EventFlag.event_flag_wait c11_gives_up p_flags required_flags wait_type wait_ms now
    (fun c => lock_code c (lock c)).

Definition event_flag_send (p_flags : option event_flag_t) (flag_bits : Z)
  : option event_flag_t * bool := EventFlag.event_flag_send p_flags flag_bits.

Definition event_flag_clear (p_flags : option event_flag_t) (flag_bits : Z)
  : option event_flag_t * bool := EventFlag.event_flag_clear p_flags flag_bits.

(** ** ts_queue.h *)

Definition ts_queue_init (params : option ts_queue_create_params_t) (mtx_rc cnd_rc full_rc : Z)
  : option ts_queue_t * bool :=
  TsQueue.ts_queue_init params (mtx_init mtx_rc =? 0) (cnd_init cnd_rc =? 0) (cnd_init full_rc =? 0).

(** The waits of one call, with the codes of the pthread calls. *)
Definition wakes_of (wait_ms : Z) (wakes : list wake) : list wake :=
  (fun k => (fst k, wait_code wait_ms (snd k))) <$> wakes.

Definition ts_queue_enqueue (p_queue : option ts_queue_t) (p_item wait_ms : Z)
    (now : timespec) (wakes : list wake) : result (option ts_queue_t * pause bool) :=
  TsQueue.ts_queue_enqueue thrd_timedout p_queue p_item wait_ms now (wakes_of wait_ms wakes).

Definition ts_queue_dequeue (p_queue : option ts_queue_t) (pp_item : bool) (wait_ms : Z)
    (now : timespec) (wakes : list wake) : result (option ts_queue_t * pause (option Z)) :=
  TsQueue.ts_queue_dequeue thrd_timedout p_queue pp_item wait_ms now (wakes_of wait_ms wakes).

Definition ts_queue_get_count (p_queue : ts_queue_t) : Z := TsQueue.ts_queue_get_count p_queue.

(** ** Properties *)

Lemma wait_code_cases wait_ms rc :
  wait_code wait_ms rc = if rc =? 0 then thrd_success
    else if (rc =? ETIMEDOUT) && negb (wait_ms =? WAIT_FOREVER) then thrd_timedout else thrd_error.
Proof.
  unfold wait_code, cnd_wait, cnd_timedwait. destruct (wait_ms =? _), (rc =? 0), (rc =? ETIMEDOUT); done.
Qed.

(** A wait of this port that fails has one of the two codes for which the
    event flags give up. *)
Lemma wait_code_known wait_ms rc :
  wait_code wait_ms rc = 0 \/ c11_gives_up (wait_code wait_ms rc) = true.
Proof. rewrite wait_code_cases. destruct (rc =? 0); [by left|right]. by destruct (_ && _). Qed.

Lemma repeat_failed_wait wait_ms rc n :
  wakes_of wait_ms (repeat (failed_wait rc) n) = repeat (failed_wait (wait_code wait_ms rc)) n.
Proof. unfold wakes_of. induction n as [|n IH]; [done|]. cbn. by rewrite IH. Qed.

(** The polling lock gives up only at a reading of the clock at or behind the deadline,
    where one that is not normalised counts as the next full second; it ends with the
    first attempt that does not find the mutex busy, and at the latest when the clock
    is in a second after the deadline's. *)
Theorem polled_timedlock ts attempts :
  EBUSY <> 0 -> (forall res sec usec, (res, (sec, usec)) ∈ attempts -> 0 <= usec < 1000000) ->
  (mtx_timedlock_polling ts attempts = Some thrd_timedout ->
     exists sec usec, (EBUSY, (sec, usec)) ∈ attempts /\
       tv_sec ts * 1000000000 + Z.min (tv_nsec ts) 1000000000 <= sec * 1000000000 + usec * 1000) /\
  (mtx_timedlock_polling ts attempts = Some thrd_success -> exists now, (0, now) ∈ attempts) /\
  (forall res sec usec, (res, (sec, usec)) ∈ attempts -> res <> EBUSY \/ tv_sec ts < sec ->
     mtx_timedlock_polling ts attempts <> None).
Proof.
  intros HE Hu. induction attempts as [|[res [sec usec]] l IH]; cbn.
  { split_and!; [done|done|]. by intros ? ? ? H%not_elem_of_nil. }
  destruct IH as (IH1 & IH2 & IH3); [intros r s u H; apply (Hu r s u); by right|].
  pose proof (Hu res sec usec ltac:(left)) as Hus.
  destruct (res =? EBUSY) eqn:Er; bdestr; [subst res; destruct (_ || _) eqn:Et|].
  - split_and!; try done. intros _. exists sec, usec. split; [left|].
    apply orb_true_iff in Et as [Et|Et]; bdestr; lia.
  - split_and!.
    + intros H. destruct (IH1 H) as (s & u & ? & ?). exists s, u. split; [by right|done].
    + intros H. destruct (IH2 H) as (now & ?). exists now. by right.
    + intros r s u [[= -> -> ->]|H]%elem_of_cons Hr; [|by eapply IH3].
      destruct Hr as [Hr|Hr]; [done|]. apply orb_false_iff in Et as [Et _]. bdestr. lia.
  - split_and!; [by destruct (res =? 0)| |done]. destruct (res =? 0) eqn:E0; bdestr; [|done].
    intros _. subst. exists (sec, usec). left.
Qed.

(** A deadline 0.9 seconds after the start of a second and 0.9 seconds later, as
    [mutex_lock] makes it, is given up 0.8 seconds early. *)
Lemma polled_timedlock_early :
  EBUSY <> 0 ->
  mtx_timedlock_polling {| tv_sec := 10; tv_nsec := 1800000000 |} [(EBUSY, (10, 999999)); (EBUSY, (11, 0))] =
    Some thrd_timedout.
Proof. intros HE. cbn. by rewrite Z.eqb_refl. Qed.

(** On the c11 port a wait for event flags returns true exactly when its
    condition holds, whatever the pthread calls return, since the shim maps every
    failure to a code for which the port gives up; the pthread port alone can
    return true for nothing.  The queue is no better off: a deadline that the
    library refuses becomes [thrd_error], which is not the code that ends the
    loop, and the call tries again without end. *)
Theorem c11_waits rc f required wait_type wait_ms now q n :
  let r := event_flag_wait_from rc f required wait_type wait_ms now in
  (forall b a, snd r = Returns (b, a) ->
     b = (rc =? 0) /\
     (b = true <-> a = Some (Z.land (val f) required) /\ satisfied (val f) required wait_type = true)) /\
  (rc <> 0 -> rc <> ETIMEDOUT -> tsq_wf q -> tsq_held q = 0 ->
     ts_queue_dequeue (Some q) true wait_ms now (repeat (failed_wait rc) n) =
       Ok (Some q, Waits (the_wait TsQueue.cnd now wait_ms))).
Proof.
  intros r. split.
  - intros b a Hr. unfold r, event_flag_wait_from in Hr.
    pose proof (wait_from_cases c11_gives_up (wait_code wait_ms rc) f required wait_type wait_ms now)
      as (_ & _ & H). rewrite Hr in H. pose proof (wait_code_known wait_ms rc) as Hk.
    destruct a as [a|].
    + destruct H as (Hw & -> & -> & Hs & _). rewrite wait_code_cases in Hw.
      destruct (rc =? 0); [done|]. by destruct (_ && _).
    + destruct H as (_ & Hw & ->). destruct Hk as [|Hk]; [done|]. rewrite Hk. split.
      * rewrite wait_code_cases in Hw. by destruct (rc =? 0).
      * split; [done|]. by intros [[=] _].
  - intros Hrc Ht WF Hh. unfold ts_queue_dequeue. rewrite repeat_failed_wait, wait_code_cases.
    rewrite (proj2 (Z.eqb_neq rc 0)), (proj2 (Z.eqb_neq rc ETIMEDOUT)) by done. cbn [andb].
    rewrite (dequeue_spins thrd_timedout thrd_error) by done. done.
Qed.
End codes.

Lemma c11_waits_witness :
  (forall b a, snd (event_flag_wait_from 110 22 {| val := 5 |} 4 WAIT_AND_CLEAR 500 ex_now) =
     Returns (b, a) -> b = false) /\
  ts_queue_dequeue 110 (Some (ex_tsq [1; 2; 3; 4] 4 4)) true 500 ex_now (repeat (failed_wait 22) 1000) =
    Ok (Some (ex_tsq [1; 2; 3; 4] 4 4), Waits (the_wait TsQueue.cnd ex_now 500)).
Proof.
  destruct (c11_waits 110 22 {| val := 5 |} 4 WAIT_AND_CLEAR 500 ex_now (ex_tsq [1; 2; 3; 4] 4 4) 1000)
    as [H1 H2].
  split; [intros b a H; apply (H1 b a H)|].
  apply H2; [discriminate|discriminate|apply ex_tsq_wf; lia|reflexivity].
Defined.
