(* ===== verification/DispatchQueue.v ===== *)
(** The dispatch queue of src/dispatch_queue.c and inc/cutils/dispatch_queue.h: a
    worker thread that calls the functions posted to a queue.

    Three parties run concurrently: any number of posters, the worker, and the
    threads that destroy the queue.  Each is cut into the steps between its uses
    of shared objects (an atomic flag, the pool, the thread-safe queue, the exit
    signal), and [dq_step] interleaves them.  The pool and the queue are used
    through Pool and the interface [BoundedQueue], so that the theorems hold on
    every port. *)
From S2P Require Import Prelude TsQueue Pool EventFlag.
From stdpp Require Import list gmap.
From Stdlib Require Import ZArith Lia.
Local Open Scope Z_scope.

(** ** Data *)

Record dispatch_queue_post_data_t : Set := { fn : Z; arg1 : Z; arg2 : Z }.

#[export] Instance post_data_eq_dec : EqDecision dispatch_queue_post_data_t.
Proof. solve_decision. Defined.

(** [d_memory] and [post_data] are what the blocks of the pool hold: the pool's
    headers, and the posted calls. *)
Record dispatch_queue_t {Q : Type} := {
  destroying : bool;
  queue : option Q;
  p_task : Z;
  p_pool : option (pool_t Q);
  signal : signal_t;
  d_memory : memory;
  post_data : gmap Z dispatch_queue_post_data_t
}.
Arguments dispatch_queue_t : clear implicits.

Record dispatch_queue_create_params_t : Set := {
  dp_p_queue : bool;
  dp_pool_params : pool_create_params_t;
  dp_queue_size : Z
}.

(** ** Operations *)

Section dispatch_queue.
Context {Q : Type} `{!BoundedQueue Q}.
(** The address of the queue object, which the destroyer posts to end the
    worker. *)
Context (self : Z).

Definition with_destroying (d : dispatch_queue_t Q) (b : bool) : dispatch_queue_t Q :=
  {| destroying := b; queue := queue d; p_task := p_task d; p_pool := p_pool d;
     signal := signal d; d_memory := d_memory d; post_data := post_data d |}.

Definition with_queue (d : dispatch_queue_t Q) (qu : option Q) : dispatch_queue_t Q :=
  {| destroying := destroying d; queue := qu; p_task := p_task d; p_pool := p_pool d;
     signal := signal d; d_memory := d_memory d; post_data := post_data d |}.

Definition with_signal (d : dispatch_queue_t Q) (s : signal_t) : dispatch_queue_t Q :=
  {| destroying := destroying d; queue := queue d; p_task := p_task d; p_pool := p_pool d;
     signal := s; d_memory := d_memory d; post_data := post_data d |}.

Definition with_post_data (d : dispatch_queue_t Q) (pd : gmap Z dispatch_queue_post_data_t)
  : dispatch_queue_t Q :=
  {| destroying := destroying d; queue := queue d; p_task := p_task d; p_pool := p_pool d;
     signal := signal d; d_memory := d_memory d; post_data := pd |}.

(** The pool and its memory after a call of the pool. *)
Definition with_pool (d : dispatch_queue_t Q) (s : option (state Q)) : dispatch_queue_t Q :=
  {| destroying := destroying d; queue := queue d; p_task := p_task d;
     p_pool := match s with Some (p, _) => Some p | None => None end; signal := signal d;
     d_memory := match s with Some (_, m) => m | None => d_memory d end;
     post_data := post_data d |}.

Definition pool_of (d : dispatch_queue_t Q) : option (state Q) :=
  match p_pool d with Some p => Some (p, d_memory d) | None => None end.

(** [mtx_ok] and [cv_ok] are the outcomes of creating the exit signal, [qu] and
    [pool_qu] what [ts_queue_init] returns for the queue and for the pool's
    queue, and [task] what [task_new_static] returns. *)
Definition dispatch_queue_create (params : option dispatch_queue_create_params_t)
    (mtx_ok cv_ok : bool) (qu pool_qu : option Q) (m : memory)
    (pd : gmap Z dispatch_queue_post_data_t) (task : Z) : result (dispatch_queue_t Q) :=
  match params with
  | Some p =>
      assert! negb (dp_queue_size p =? 0) ;;
      assert! dp_p_queue p ;;
      let '(sig, created) := signal_new (Some {| val := 0 |}) mtx_ok cv_ok in
      assert! created ;;
      assert! (match qu with Some _ => true | None => false end) ;;
      r ← pool_create (dp_pool_params p) pool_qu m;
      let '(pool, created, m) := r in
      assert! (created : bool) ;;
      assert! negb (task =? 0) ;;
      Ok {| destroying := false; queue := qu; p_task := task; p_pool := pool;
            signal := default {| val := 0 |} sig; d_memory := m; post_data := pd |}
  | None => Err AssertFailed
  end.

(** [ts_queue_enqueue] on the queue, which may be NULL. *)
Definition enqueue (d : dispatch_queue_t Q) (item : Z) : result (dispatch_queue_t Q * bool) :=
  match queue d with
  | Some qu => r ← bq_enqueue qu item; Ok (with_queue d (Some (fst r)), snd r)
  | None => Ok (d, false)
  end.

(** [dispatch_async_f] after it has read [destroying]: it takes a block. *)
Definition async_alloc (d : dispatch_queue_t Q) : result (dispatch_queue_t Q * Z) :=
  r ← pool_alloc (pool_of d);
  let p_data := match snd r with Returns b => b | Waits _ => 0 end in
  assert! negb (p_data =? 0) ;;
  Ok (with_pool d (fst r), p_data).

(** It fills in the block and puts it into the queue. *)
Definition async_enqueue (d : dispatch_queue_t Q) (p_data : Z) (call : dispatch_queue_post_data_t)
  : result (dispatch_queue_t Q) :=
  r ← enqueue (with_post_data d (<[p_data := call]> (post_data d))) p_data;
  assert! (snd r : bool) ;;
  Ok (fst r).

Definition dispatch_async_f (p_queue : option (dispatch_queue_t Q)) (call : dispatch_queue_post_data_t)
  : result (option (dispatch_queue_t Q) * bool) :=
  match p_queue with
  | Some d =>
      if destroying d then Ok (Some d, false)
      else
        '(d, p_data) ← async_alloc d;
        d ← async_enqueue d p_data call;
        Ok (Some d, true)
  | None => Ok (None, false)
  end.

(** The worker takes an item, or waits. *)
Definition worker_take (d : dispatch_queue_t Q) : result (dispatch_queue_t Q * pause Z) :=
  match queue d with
  | Some qu =>
      r ← bq_dequeue qu WAIT_FOREVER;
      let d := with_queue d (Some (fst r)) in
      match snd r with
      | Waits w => Ok (d, Waits w)
      | Returns (Some p_data) => Ok (d, Returns p_data)
      | Returns None => Err AssertFailed
      end
  | None => Err AssertFailed
  end.

Definition worker_free (d : dispatch_queue_t Q) (p_data : Z) : result (dispatch_queue_t Q) :=
  r ← pool_free (pool_of d) p_data;
  Ok (with_pool d (fst r)).

(** The kill request has been taken. *)
Definition worker_exit (d : dispatch_queue_t Q) : dispatch_queue_t Q :=
  with_signal d (default (signal d) (fst (signal_send (Some (signal d))))).

(** [atomic_flag_test_and_set] of [destroying]. *)
Definition test_and_set_destroying (d : dispatch_queue_t Q) : dispatch_queue_t Q * bool :=
  (with_destroying d true, destroying d).

Definition destroy_kill (d : dispatch_queue_t Q) : result (dispatch_queue_t Q) :=
  r ← enqueue d self;
  assert! (snd r : bool) ;;
  Ok (fst r).

(** [waited]: what [signal_wait] returned. *)
Definition destroy_finish (d : dispatch_queue_t Q) (waited : bool) : result (dispatch_queue_t Q) :=
  assert! waited ;;
  Ok {| destroying := destroying d; queue := None; p_task := 0; p_pool := None;
        signal := signal d; d_memory := d_memory d; post_data := post_data d |}.

(** [others] is what the other threads do until [signal_wait] returns. *)
Definition dispatch_queue_destroy (p_queue : option (dispatch_queue_t Q))
    (others : dispatch_queue_t Q -> result (dispatch_queue_t Q)) (waited : bool)
  : result (option (dispatch_queue_t Q)) :=
  match p_queue with
  | Some d =>
      let '(d, was_set) := test_and_set_destroying d in
      if was_set then Ok (Some d)
      else
        d ← destroy_kill d;
        d ← others d;
        d ← destroy_finish d waited;
        Ok (Some d)
  | None => Ok None
  end.

Section run.
(** A posted function, on its two arguments. *)
Context {W : Type} (exec : Z -> Z -> Z -> W -> W).

Definition worker_call (d : dispatch_queue_t Q) (p_data : Z) (w : W)
  : result (dispatch_queue_post_data_t * W) :=
  match post_data d !! p_data with
  | Some c =>
      if fn c =? 0 then Err BadPointer else Ok (c, exec (fn c) (arg1 c) (arg2 c) w)
  | None => Err BadPointer
  end.

(** The worker alone, until it has to wait ([false]) or has exited ([true]). *)
Fixpoint dispatch_queue_worker (fuel : nat) (d : dispatch_queue_t Q) (w : W)
  : result (dispatch_queue_t Q * W * bool) :=
  match fuel with
  | O => Err OutOfFuel
  | S fuel =>
      '(d, r) ← worker_take d;
      match r with
      | Waits _ => Ok (d, w, false)
      | Returns p_data =>
          if p_data =? self then Ok (worker_exit d, w, true)
          else
            '(_, w) ← worker_call d p_data w;
            d ← worker_free d p_data;
            dispatch_queue_worker fuel d w
      end
  end.
End run.
End dispatch_queue.

(** ** Interleaving *)

(** A poster that has seen the queue not being destroyed, and one that owns a
    block. *)
Inductive poster : Set :=
  | PLoaded (call : dispatch_queue_post_data_t)
  | PAllocated (p_data : Z) (call : dispatch_queue_post_data_t).

Inductive worker : Set := WLoop | WRunning (p_data : Z) | WExited.

(** The thread that destroys the queue: the one that found the flag clear. *)
Inductive destroyer : Set := DNone | DFlagged | DKilled | DDone.

(** The calls in the order in which they were put into the queue, and those that
    the worker has made; how many calls were in front of the kill request; what
    the posts returned. *)
Record dq_world {Q W : Type} := {
  dq : dispatch_queue_t Q;
  client : W;
  posters : gmap nat poster;
  wk : worker;
  ds : destroyer;
  posted : list dispatch_queue_post_data_t;
  done : list dispatch_queue_post_data_t;
  kill_after : option nat;
  returned : list (nat * bool)
}.
Arguments dq_world : clear implicits.

Inductive dq_event : Set :=
  | EPost (t : nat) (call : dispatch_queue_post_data_t)
  | EAlloc (t : nat)
  | EEnqueue (t : nat)
  | EWork
  | EDestroy
  | EKill
  | EFinish.

#[export] Instance worker_eq_dec : EqDecision worker.
Proof. solve_decision. Defined.

#[export] Instance destroyer_eq_dec : EqDecision destroyer.
Proof. solve_decision. Defined.

Section interleaving.
Context {Q : Type} `{!BoundedQueue Q} (self : Z).
Context {W : Type} (exec : Z -> Z -> Z -> W -> W).
(** The port's signal, and the clock when it is waited for. *)
Context (gives_up : Z -> bool) (now : timespec).

Definition set_dq (w : dq_world Q W) (d : dispatch_queue_t Q) : dq_world Q W :=
  {| dq := d; client := client w; posters := posters w; wk := wk w; ds := ds w;
     posted := posted w; done := done w; kill_after := kill_after w; returned := returned w |}.

Definition set_posters (w : dq_world Q W) (p : gmap nat poster) : dq_world Q W :=
  {| dq := dq w; client := client w; posters := p; wk := wk w; ds := ds w;
     posted := posted w; done := done w; kill_after := kill_after w; returned := returned w |}.

Definition set_wk (w : dq_world Q W) (k : worker) : dq_world Q W :=
  {| dq := dq w; client := client w; posters := posters w; wk := k; ds := ds w;
     posted := posted w; done := done w; kill_after := kill_after w; returned := returned w |}.

Definition set_ds (w : dq_world Q W) (s : destroyer) (k : option nat) : dq_world Q W :=
  {| dq := dq w; client := client w; posters := posters w; wk := wk w; ds := s;
     posted := posted w; done := done w; kill_after := k; returned := returned w |}.

Definition add_posted (w : dq_world Q W) (c : dispatch_queue_post_data_t) : dq_world Q W :=
  {| dq := dq w; client := client w; posters := posters w; wk := wk w; ds := ds w;
     posted := posted w ++ [c]; done := done w; kill_after := kill_after w;
     returned := returned w |}.

Definition add_done (w : dq_world Q W) (c : dispatch_queue_post_data_t) (cl : W) : dq_world Q W :=
  {| dq := dq w; client := cl; posters := posters w; wk := wk w; ds := ds w;
     posted := posted w; done := done w ++ [c]; kill_after := kill_after w;
     returned := returned w |}.

Definition add_returned (w : dq_world Q W) (t : nat) (b : bool) : dq_world Q W :=
  {| dq := dq w; client := client w; posters := posters w; wk := wk w; ds := ds w;
     posted := posted w; done := done w; kill_after := kill_after w;
     returned := returned w ++ [(t, b)] |}.

(** An event that its thread cannot make has no effect.  The callback runs to its
    end when the worker calls it; what it posts itself are events of their own. *)
Definition dq_step (w : dq_world Q W) (ev : dq_event) : result (dq_world Q W) :=
  match ev with
  | EPost t call =>
      match posters w !! t with
      | Some _ => Ok w
      | None =>
          if destroying (dq w) then Ok (add_returned w t false)
          else Ok (set_posters w (<[t := PLoaded call]> (posters w)))
      end
  | EAlloc t =>
      match posters w !! t with
      | Some (PLoaded call) =>
          '(d, p_data) ← async_alloc (dq w);
          Ok (set_posters (set_dq w d) (<[t := PAllocated p_data call]> (posters w)))
      | _ => Ok w
      end
  | EEnqueue t =>
      match posters w !! t with
      | Some (PAllocated p_data call) =>
          d ← async_enqueue (dq w) p_data call;
          Ok (add_posted (add_returned (set_posters (set_dq w d) (delete t (posters w))) t true) call)
      | _ => Ok w
      end
  | EWork =>
      match wk w with
      | WLoop =>
          '(d, r) ← worker_take (dq w);
          match r with
          | Waits _ => Ok (set_dq w d)
          | Returns p_data =>
              if p_data =? self then Ok (set_wk (set_dq w (worker_exit d)) WExited)
              else
                '(c, cl) ← worker_call exec d p_data (client w);
                Ok (set_wk (add_done (set_dq w d) c cl) (WRunning p_data))
          end
      | WRunning p_data => d ← worker_free (dq w) p_data; Ok (set_wk (set_dq w d) WLoop)
      | WExited => Ok w
      end
  | EDestroy =>
      match ds w with
      | DNone =>
          let '(d, was_set) := test_and_set_destroying (dq w) in
          Ok (if (was_set : bool) then w else set_ds (set_dq w d) DFlagged None)
      | _ => Ok w
      end
  | EKill =>
      match ds w with
      | DFlagged =>
          d ← destroy_kill self (dq w);
          Ok (set_ds (set_dq w d) DKilled (Some (length (posted w))))
      | _ => Ok w
      end
  | EFinish =>
      match ds w with
      | DKilled =>
          let '(s, r) := signal_wait gives_up (Some (signal (dq w))) now (fun _ => 0) in
          let d := with_signal (dq w) (default (signal (dq w)) s) in
          match r with
          | Waits _ => Ok w
          | Returns (b, _) => d ← destroy_finish d b; Ok (set_ds (set_dq w d) DDone (kill_after w))
          end
      | _ => Ok w
      end
  end.

Fixpoint dq_run (w : dq_world Q W) (evs : list dq_event) : result (dq_world Q W) :=
  match evs with
  | [] => Ok w
  | ev :: evs => w ← dq_step w ev; dq_run w evs
  end.

Definition new_dq_world (d : dispatch_queue_t Q) (cl : W) : dq_world Q W :=
  {| dq := d; client := cl; posters := ∅; wk := WLoop; ds := DNone; posted := []; done := [];
     kill_after := None; returned := [] |}.

Definition make_call (w : W) (c : dispatch_queue_post_data_t) : W :=
  exec (fn c) (arg1 c) (arg2 c) w.

Definition posts_functions (ev : dq_event) : Prop :=
  match ev with EPost _ c => fn c <> 0 | _ => True end.

Definition queue_full (d : dispatch_queue_t Q) : Prop :=
  match queue d with Some qu => bq_capacity qu <= zlen (bq_items qu) | None => True end.

Definition no_free_block (d : dispatch_queue_t Q) : Prop :=
  match p_pool d with
  | Some p => match q p with Some qu => bq_items qu = [] | None => True end
  | None => True
  end.

(** The steps that stop the program. *)
Definition fails (w : dq_world Q W) (ev : dq_event) : Prop :=
  match ev with
  | EAlloc t => exists c, posters w !! t = Some (PLoaded c) /\ no_free_block (dq w)
  | EEnqueue t => exists b c, posters w !! t = Some (PAllocated b c) /\ queue_full (dq w)
  | EKill => ds w = DFlagged /\ queue_full (dq w)
  | _ => False
  end.

(** ** Invariant *)

Section invariant.
Context `{!BoundedQueueLaws Q} (num : Z) (cl0 : W).

Definition running (w : dq_world Q W) : list Z :=
  match wk w with WRunning b => [b] | _ => [] end.

(** The queued blocks: the items without the kill request. *)
Definition data (items : list Z) : list Z := filter (fun b => b <> self) items.

(** The kill request: not made yet; queued, behind as many calls as were posted
    before it; or taken by the worker, which has ended. *)
Abbreviation kill_inv w items := (match kill_after w with
  | None => (ds w = DNone \/ ds w = DFlagged) /\ self ∉ items /\ wk w <> WExited
  | Some n => ds w = DKilled /\
      ((wk w <> WExited /\ exists pre post, items = pre ++ self :: post /\
          self ∉ pre ++ post /\ n = (length (done w) + length pre)%nat) \/
       (wk w = WExited /\ self ∉ items /\ n = length (done w)))
  end).

Record live_inv (k : Z) (w : dq_world Q W) (qu : Q) (a : apool) : Prop := {
  li_queue : queue (dq w) = Some qu /\ bq_ok k qu /\ num <= bq_capacity qu;
  li_pool : exists p, p_pool (dq w) = Some p /\ pool_inv k (p, d_memory (dq w)) a;
  li_size : zlen (free a) + Z.of_nat (size (live a)) = num;
  li_self : self <> 0 /\ self ∉ free a /\ live a !! self = None;
  li_nodup : NoDup (running w ++ data (bq_items qu));
  li_held : forall b, b ∈ running w ++ data (bq_items qu) -> live a !! b = Some 1;
  li_posters : forall t b c, posters w !! t = Some (PAllocated b c) ->
    live a !! b = Some 1 /\ b ∉ running w ++ data (bq_items qu) /\
    forall t' c', posters w !! t' = Some (PAllocated b c') -> t' = t;
  li_calls : exists cs, posted w = done w ++ cs /\
    Forall2 (fun b c => post_data (dq w) !! b = Some c) (data (bq_items qu)) cs;
  li_kill : kill_inv w (bq_items qu);
  li_signal : val (signal (dq w)) = if decide (wk w = WExited) then 1 else 0;
  li_destroying : destroying (dq w) = negb (bool_decide (ds w = DNone))
}.

Record dq_inv (k : Z) (w : dq_world Q W) : Prop := {
  di_client : client w = foldl make_call cl0 (done w);
  di_fns : forall c, c ∈ posted w -> fn c <> 0;
  di_poster_fns : forall t c, posters w !! t = Some (PLoaded c) -> fn c <> 0;
  di_poster_fns' : forall t b c, posters w !! t = Some (PAllocated b c) -> fn c <> 0;
  di_live : if decide (ds w = DDone) then
      wk w = WExited /\ queue (dq w) = None /\ p_pool (dq w) = None /\ destroying (dq w) = true /\
      kill_after w = Some (length (done w)) /\ exists cs, posted w = done w ++ cs
    else exists qu a, live_inv k w qu a
}.


Lemma live_inv_mono k k' w qu a : k' <= k -> live_inv k w qu a -> live_inv k' w qu a.
Proof.
  intros Hk [(? & ? & ?) (p & ? & ?)]. split; try done.
  - split_and!; try done. by eapply bq_ok_mono.
  - exists p. split; [done|]. by eapply pool_inv_mono.
Qed.

Lemma dq_inv_mono k k' w : k' <= k -> dq_inv k w -> dq_inv k' w.
Proof.
  intros Hk [? ? ? ? Hl]. split; try done. destruct (decide (ds w = DDone)); [done|].
  destruct Hl as (qu & a & Hl). exists qu, a. by eapply live_inv_mono.
Qed.

(** The queue is torn down, or the parts are there. *)
Lemma dq_inv_cases k w : dq_inv k w ->
  (ds w = DDone /\ queue (dq w) = None /\ p_pool (dq w) = None /\ wk w = WExited) \/
  (ds w <> DDone /\ exists qu a, live_inv k w qu a).
Proof.
  intros [_ _ _ _ Hl]. destruct (decide (ds w = DDone)) as [Hd|Hd]; [left|right]; [|done].
  destruct Hl as (? & ? & ? & _). auto.
Qed.

(** Replacing the live part of the invariant. *)
Lemma dq_inv_live k w w' qu a :
  dq_inv k w -> live_inv k w' qu a -> ds w' <> DDone ->
  client w' = client w -> done w' = done w -> posted w' = posted w ->
  (forall t c, posters w' !! t = Some (PLoaded c) -> fn c <> 0) ->
  (forall t b c, posters w' !! t = Some (PAllocated b c) -> fn c <> 0) -> dq_inv k w'.
Proof.
  intros [Hc Hf _ _ _] Hl Hd Hcl Hdn Hp H1 H2. split; try done.
  - by rewrite Hcl, Hdn.
  - by rewrite Hp.
  - rewrite decide_False by done. by exists qu, a.
Qed.

Lemma live_no_free_block k w qu a :
  live_inv k w qu a -> no_free_block (dq w) <-> free a = [].
Proof.
  intros Hl. destruct (li_pool _ _ _ _ Hl) as (p & Hp & Hpi).
  destruct (pi_queue _ _ _ Hpi) as (pq & Hq & _ & Hi & _). cbn in Hq.
  unfold no_free_block. by rewrite Hp, Hq, Hi.
Qed.

Lemma live_queue_full k w qu a :
  live_inv k w qu a -> queue_full (dq w) <-> bq_capacity qu <= zlen (bq_items qu).
Proof. intros Hl. destruct (li_queue _ _ _ _ Hl) as [Hq _]. unfold queue_full. by rewrite Hq. Qed.

(** ** Posters *)

Lemma post_step_ok k w t c :
  fn c <> 0 -> dq_inv k w -> exists w', dq_step w (EPost t c) = Ok w' /\ dq_inv k w'.
Proof.
  intros Hfn Hi. pose proof Hi as [H1 H2 H3 H4 H5]. cbn.
  destruct (posters w !! t) eqn:Ht; [by exists w|].
  destruct (destroying (dq w)) eqn:Hd; (eexists; split; [reflexivity|]).
  - split; try done. revert H5. cbn. destruct (decide (ds w = DDone)); [by rewrite Hd|]. intros H5.
    destruct H5 as (qu & a & []). by exists qu, a.
  - destruct (dq_inv_cases _ _ Hi) as [(Hds & _)|(Hds & qu & a & Hl)].
    { rewrite decide_True in H5 by done. destruct H5 as (_ & _ & _ & Hd' & _). congruence. }
    eapply (dq_inv_live k w _ qu a); try done.
    + destruct Hl as [A1 A2 A3 A4 A5 A6 A7 A8 A9 A10 A11]. split; try done.
      cbn. intros t' b' c' [[_ [=]]|[Hne Ht']]%lookup_insert_Some.
      destruct (A7 _ _ _ Ht') as (? & ? & Hu). split_and!; try done.
      intros t2 c2 [[_ [=]]|[_ Ht2]]%lookup_insert_Some. by eapply Hu.
    + cbn. intros t' c' [[_ [= <-]]|[_ Ht']]%lookup_insert_Some; [done|by eapply H3].
    + cbn. intros t' b' c' [[_ [=]]|[_ Ht']]%lookup_insert_Some. by eapply H4.
Qed.

(** A held block is not one that is free. *)
Lemma held_not_free k w qu a b :
  live_inv k w qu a -> b ∈ free a ->
  live a !! b = None /\ b ∉ running w ++ data (bq_items qu) /\
  forall t c, posters w !! t <> Some (PAllocated b c).
Proof.
  intros Hl Hb. destruct (li_pool _ _ _ _ Hl) as (p & _ & Hpi).
  pose proof (pi_disjoint _ _ _ Hpi b Hb) as Hn. split_and!; [done| |].
  - intros Hh. by rewrite (li_held _ _ _ _ Hl b Hh) in Hn.
  - intros t c Ht. destruct (li_posters _ _ _ _ Hl _ _ _ Ht) as [H _]. congruence.
Qed.

Lemma alloc_step_ok k w t c :
  0 <= k -> dq_inv (k + 1) w -> posters w !! t = Some (PLoaded c) ->
  (no_free_block (dq w) /\ dq_step w (EAlloc t) = Err AssertFailed) \/
  (~ no_free_block (dq w) /\ exists w', dq_step w (EAlloc t) = Ok w' /\ dq_inv k w').
Proof.
  intros Hk Hi Ht. cbn. rewrite Ht. unfold async_alloc, pool_of.
  destruct (dq_inv_cases _ _ Hi) as [(Hds & _ & Hp & _)|(Hds & qu & a & Hl)].
  { left. unfold no_free_block. rewrite Hp. done. }
  rewrite (live_no_free_block _ _ _ _ Hl).
  destruct (li_pool _ _ _ _ Hl) as (p & Hp & Hpi). rewrite Hp.
  destruct (free a) as [|b l] eqn:Hfree; [left|right; split; [done|]].
  - destruct (pool_alloc_none k _ _ Hk Hpi Hfree) as (s' & -> & _). done.
  - destruct (pool_alloc_ok k _ _ b l Hk Hpi Hfree) as ([p' m'] & -> & Hpi').
    cbn [mbind result_bind snd fst].
    destruct (pi_free _ _ _ Hpi b) as [Hb0 _]; [rewrite Hfree; left|].
    destruct (held_not_free _ _ _ _ b Hl) as (Hbl & Hbh & Hbp); [rewrite Hfree; left|].
    rewrite (proj2 (Z.eqb_neq b 0)) by done. cbn. eexists. split; [reflexivity|].
    pose proof Hi as [H1 H2 H3 H4 H5].
    apply (dq_inv_mono _ k) in Hi; [|lia].
    eapply (dq_inv_live k w _ qu {| free := l; live := <[b := 1]> (live a); dtors := dtors a |});
      try done.
    + destruct Hl as [(A1 & A2 & A2') A3 A4 (A5 & A5' & A5'') A6 A7 A8 A9 A10 A11].
      cbn [apool_step] in Hpi'. rewrite Hfree in Hpi', A4, A5'. cbn in Hpi'.
      split; try done; cbn.
      * split_and!; [done|eapply bq_ok_mono, A2; lia|done].
      * exists p'. by split.
      * cbn. rewrite map_size_insert_None by done. rewrite zlen_cons in A4. lia.
      * cbn. split_and!; [done|set_solver + A5'|].
        rewrite lookup_insert_ne; [done|]. intros ->. apply A5'. left.
      * intros b' Hb'. rewrite lookup_insert_ne; [by apply A7|]. by intros ->.
      * intros t' b' c' [[<- [= <- <-]]|[Hne Ht']]%lookup_insert_Some.
        -- rewrite lookup_insert_eq. split_and!; [done|done|].
           intros t2 c2 [[<- _]|[_ Ht2]]%lookup_insert_Some; [done|]. by destruct (Hbp t2 c2).
        -- destruct (A8 _ _ _ Ht') as (Hb' & Hn' & Hu). rewrite lookup_insert_ne by congruence.
           split_and!; [done|done|]. intros t2 c2 [[<- [= Hbb _]]|[_ Ht2]]%lookup_insert_Some.
           ++ subst b'. congruence.
           ++ by eapply Hu.
    + cbn. intros t' c' [[_ [=]]|[_ Ht']]%lookup_insert_Some. by eapply H3.
    + cbn. intros t' b' c' [[_ [= _ <-]]|[_ Ht']]%lookup_insert_Some;
        [by eapply H3|by eapply H4].
Qed.

Lemma data_app l1 l2 : data (l1 ++ l2) = data l1 ++ data l2.
Proof. apply filter_app. Qed.

Lemma data_cons x l : x <> self -> data (x :: l) = x :: data l.
Proof. intros Hx. unfold data. by rewrite filter_cons_True by done. Qed.

Lemma data_self l : data (self :: l) = data l.
Proof. unfold data. by rewrite filter_cons_False by auto. Qed.

Lemma Forall2_impl_elem {A B} (R R' : A -> B -> Prop) l k :
  Forall2 R l k -> (forall x y, x ∈ l -> R x y -> R' x y) -> Forall2 R' l k.
Proof.
  induction 1 as [|x y l k Hxy _ IH]; intros H; constructor.
  - apply H; [left|done].
  - apply IH. intros x' y' Hx. apply H. by right.
Qed.

Lemma data_all l : self ∉ l -> data l = l.
Proof.
  induction l as [|x l IH]; [done|]. intros [Hx Hl]%not_elem_of_cons.
  rewrite data_cons by done. by rewrite IH.
Qed.

Lemma live_not_self k w qu a b : live_inv k w qu a -> is_Some (live a !! b) -> b <> self.
Proof. intros Hl [c Hb] ->. destruct (li_self _ _ _ _ Hl) as (_ & _ & H). congruence. Qed.

Lemma live_nonnull k w qu a b : live_inv k w qu a -> live a !! b = Some 1 -> b <> 0.
Proof.
  intros Hl Hb. destruct (li_pool _ _ _ _ Hl) as (p & _ & Hpi).
  by destruct (pi_live _ _ _ Hpi _ _ Hb) as [_ [? _]].
Qed.

(** Before the kill request there is room for every block in use. *)
Lemma room_before_kill k w qu a t b c :
  live_inv k w qu a -> posters w !! t = Some (PAllocated b c) -> kill_after w = None ->
  zlen (bq_items qu) < bq_capacity qu.
Proof.
  intros Hl Ht Hkill. pose proof (li_kill _ _ _ _ Hl) as Hk. rewrite Hkill in Hk.
  destruct Hk as (_ & Hself & _). destruct (li_posters _ _ _ _ Hl _ _ _ Ht) as (Hb & Hn & _).
  destruct (li_queue _ _ _ _ Hl) as (_ & _ & Hcap).
  assert (length (b :: bq_items qu) <= base.size (live a))%nat as Hlen.
  { pose proof (li_nodup _ _ _ _ Hl) as Hnd. pose proof (li_held _ _ _ _ Hl) as Hh.
    rewrite (data_all _ Hself) in *. apply nodup_keys_size.
    - apply NoDup_app in Hnd as (_ & _ & Hnd). apply NoDup_cons. split; [set_solver + Hn|done].
    - intros x [->|Hx]%elem_of_cons; [by eexists|]. exists 1. apply Hh. set_solver + Hx. }
  pose proof (li_size _ _ _ _ Hl). pose proof (zlen_nonneg (free a)). unfold zlen in *. cbn in Hlen. lia.
Qed.

(** A block that is queued comes after the kill request. *)
Lemma kill_inv_snoc (w : dq_world Q W) items b : b <> self -> kill_inv w items -> kill_inv w (items ++ [b]).
Proof.
  intros Hb. assert (self ∉ [b]) as Hb' by (rewrite list_elem_of_singleton; congruence).
  destruct (kill_after w) as [n|].
  - intros [Hd [(Hw & pre & post & -> & Hns & Hn)|(Hw & Hns & Hn)]]; (split; [done|]).
    + left. split; [done|]. exists pre, (post ++ [b]). rewrite <- app_assoc. cbn.
      split_and!; [done| |done]. rewrite app_assoc, elem_of_app. tauto.
    + right. rewrite elem_of_app. split_and!; [done|tauto|done].
  - intros (Hd & Hns & Hw). rewrite elem_of_app. split_and!; [done|tauto|done].
Qed.

(** The block of a thread is queued: it passes from the thread to the queue. *)
Lemma enqueue_live k w t b c qu qu' a w' :
  live_inv (k + 1) w qu a -> posters w !! t = Some (PAllocated b c) ->
  bq_ok k qu' -> bq_items qu' = bq_items qu ++ [b] -> bq_capacity qu' = bq_capacity qu ->
  queue (dq w') = Some qu' -> p_pool (dq w') = p_pool (dq w) -> d_memory (dq w') = d_memory (dq w) ->
  post_data (dq w') = <[b := c]> (post_data (dq w)) -> signal (dq w') = signal (dq w) ->
  destroying (dq w') = destroying (dq w) -> posters w' = delete t (posters w) ->
  posted w' = posted w ++ [c] -> done w' = done w -> wk w' = wk w -> ds w' = ds w ->
  kill_after w' = kill_after w -> live_inv k w' qu' a.
Proof.
  intros Hl Ht Hok Hit Hcap Eq Ep Em Ed Es Ede Epo Eps Edo Ew Eds Ek.
  destruct (li_posters _ _ _ _ Hl _ _ _ Ht) as (Hb1 & Hbn & Hbu).
  assert (b <> self) as Hbs by (eapply live_not_self; [done|by eexists]).
  pose proof Hl as [(A1 & A2 & A2') (p & Hp & Hpi) A4 A5 A6 A7 A8 (cs & Hcs & Hf) A10 A11 A12].
  assert (Hdata : data (bq_items qu') = data (bq_items qu) ++ [b])
    by (rewrite Hit, data_app, data_cons by done; done).
  assert (Hrun : running w' = running w) by (unfold running; by rewrite Ew).
  split; rewrite ?Hrun, ?Hdata, ?Eds, ?Ew, ?Es, ?Ede; try done.
  - split_and!; [done|done|lia].
  - exists p. rewrite Ep, Em. split; [done|]. eapply pool_inv_mono, Hpi. lia.
  - rewrite app_assoc. apply NoDup_app. split_and!; [done| |apply NoDup_singleton].
    intros x Hx Hxb. apply list_elem_of_singleton in Hxb as ->. done.
  - rewrite app_assoc. intros x [Hx|Hx]%elem_of_app; [by apply A7|]. by apply list_elem_of_singleton in Hx as ->.
  - rewrite app_assoc, Epo. intros t' b' c' [Hne Ht']%lookup_delete_Some.
    destruct (A8 _ _ _ Ht') as (? & Hn' & Hu'). split_and!; [done| |].
    + rewrite elem_of_app, list_elem_of_singleton. intros [?| ->]; [done|]. apply Hne. by eapply Hu'.
    + intros t2 c2 [_ Ht2]%lookup_delete_Some. by eapply Hu'.
  - exists (cs ++ [c]). rewrite Eps, Edo, Hcs, app_assoc, Ed. split; [done|]. apply Forall2_app.
    + eapply Forall2_impl_elem; [exact Hf|]. intros x y Hx Hxy. cbn.
      rewrite lookup_insert_ne; [done|]. intros ->. apply Hbn. rewrite elem_of_app. auto.
    + repeat constructor. by rewrite lookup_insert_eq.
  - rewrite Ek, Edo, Hit. exact (kill_inv_snoc w _ b Hbs A10).
Qed.

Lemma enqueue_step_ok k w t b c :
  0 <= k -> dq_inv (k + 1) w -> posters w !! t = Some (PAllocated b c) ->
  (queue_full (dq w) /\ kill_after w <> None /\ dq_step w (EEnqueue t) = Err AssertFailed) \/
  (~ queue_full (dq w) /\ exists w', dq_step w (EEnqueue t) = Ok w' /\ dq_inv k w').
Proof.
  intros Hk Hi Ht. pose proof Hi as [H1 H2 H3 H4 H5]. cbn. rewrite Ht. unfold async_enqueue, enqueue. cbn.
  destruct (dq_inv_cases _ _ Hi) as [(Hds & Hq & _)|(Hds & qu & a & Hl)].
  { left. unfold queue_full. rewrite decide_True in H5 by done.
    destruct H5 as (_ & _ & _ & _ & Hka & _). by rewrite Hq, Hka. }
  rewrite (live_queue_full _ _ _ _ Hl). clear H5. destruct (li_posters _ _ _ _ Hl _ _ _ Ht) as (Hb1 & _).
  pose proof (live_nonnull _ _ _ _ _ Hl Hb1) as Hb0. destruct (li_queue _ _ _ _ Hl) as (A1 & A2 & _).
  rewrite A1. destruct (decide (bq_capacity qu <= zlen (bq_items qu))) as [Hfull|Hroom].
  - left. split_and!; [done| |by rewrite (bq_enqueue_full k qu b Hk A2 Hfull)].
    intros Hka. pose proof (room_before_kill _ _ _ _ _ _ _ Hl Ht Hka). lia.
  - right. split; [done|].
    destruct (bq_enqueue_room k qu b Hk A2 Hb0) as (qu' & -> & Hok' & Hi' & Hcap'); [lia|].
    cbn. eexists. split; [reflexivity|]. split; cbn; try done.
    + intros c' [Hc'|Hc']%elem_of_app; [by apply H2|]. apply list_elem_of_singleton in Hc' as ->. by eapply H4.
    + intros t' c' [_ Ht']%lookup_delete_Some. by eapply H3.
    + intros t' b' c' [_ Ht']%lookup_delete_Some. by eapply H4.
    + rewrite decide_False by done. exists qu', a. by eapply enqueue_live.
Qed.

(** ** The worker *)

(** The worker waits where the queue is empty. *)
Lemma take_none_ok k w qu a :
  0 <= k -> dq_inv (k + 1) w -> live_inv (k + 1) w qu a -> wk w = WLoop -> bq_items qu = [] ->
  exists w', dq_step w EWork = Ok w' /\ dq_inv k w'.
Proof.
  intros Hk Hi Hl Hwk Hit. pose proof Hl as [(A1 & A2 & A2') (p & Hp & Hpi) A4 A5 A6 A7 A8 (cs & Hcs & Hf) A10 A11 A12].
  cbn. rewrite Hwk. unfold worker_take. rewrite A1. unfold running in A6, A7, A8.
  rewrite Hwk in A6, A7, A8, A10, A11. rewrite Hit in *.
  destruct (bq_dequeue_waits k qu Hk A2 Hit) as (wc & ->). cbn.
  assert (ds w <> DDone) as Hds by (destruct (dq_inv_cases _ _ Hi) as [(_ & _ & _ & Hw)|[? _]]; congruence).
  eexists. split; [reflexivity|]. eapply (dq_inv_live k w _ qu a); try done;
    [apply (dq_inv_mono (k + 1)); [lia|done]| |apply Hi|apply Hi].
  split; unfold running; cbn; rewrite ?Hit, ?Hwk; try done.
  - split_and!; [done|eapply bq_ok_mono, A2; lia|done].
  - exists p. split; [done|]. eapply pool_inv_mono, Hpi. lia.
  - by exists cs.
Qed.

(** It ends where the kill request is next: then all calls before the request are
    done. *)
Lemma take_self_ok k w qu a l :
  0 <= k -> dq_inv (k + 1) w -> live_inv (k + 1) w qu a -> wk w = WLoop -> bq_items qu = self :: l ->
  exists w', dq_step w EWork = Ok w' /\ dq_inv k w'.
Proof.
  intros Hk Hi Hl Hwk Hit. pose proof Hl as [(A1 & A2 & A2') (p & Hp & Hpi) A4 A5 A6 A7 A8 (cs & Hcs & Hf) A10 A11 A12].
  cbn. rewrite Hwk. unfold worker_take. rewrite A1. unfold running in A6, A7, A8.
  rewrite Hwk in A6, A7, A8, A10, A11. rewrite Hit in *.
  destruct (bq_dequeue_some k qu self l WAIT_FOREVER Hk A2 Hit) as (qu' & -> & Hok' & Hi' & Hcap'). cbn.
  rewrite Z.eqb_refl. assert (ds w <> DDone) as Hds
    by (destruct (dq_inv_cases _ _ Hi) as [(_ & _ & _ & Hw)|[? _]]; congruence).
  eexists. split; [reflexivity|]. rewrite data_self in *.
  destruct (kill_after w) as [n|] eqn:Hka.
  2:{ destruct A10 as (_ & Hn & _). destruct Hn. left. }
  destruct A10 as [Hd [(_ & pre & post & Hpre & Hns & Hn)|([=] & _)]].
  assert (pre = [] /\ post = l) as [-> ->].
  { destruct pre as [|y pre]; [by injection Hpre as ->|]. injection Hpre as -> _. destruct Hns. left. }
  eapply (dq_inv_live k w _ qu' a); try done;
    [apply (dq_inv_mono (k + 1)); [lia|done]| |apply Hi|apply Hi].
  split; unfold running; cbn; rewrite ?Hi', ?Hwk, ?Hka; try done.
  - split_and!; [done|done|lia].
  - exists p. split; [done|]. eapply pool_inv_mono, Hpi. lia.
  - by exists cs.
  - split; [done|]. right. cbn in *. split_and!; [done|done|lia].
  - change (Z.lor (val (signal (dq w))) 1 = 1). rewrite A11. done.
Qed.

(** Otherwise it makes the call of the block that is next. *)
Lemma take_call_ok k w qu a x l :
  0 <= k -> dq_inv (k + 1) w -> live_inv (k + 1) w qu a -> wk w = WLoop -> bq_items qu = x :: l ->
  x <> self -> exists w', dq_step w EWork = Ok w' /\ dq_inv k w'.
Proof.
  intros Hk Hi Hl Hwk Hit Hx. pose proof Hi as [H1 H2 H3 H4 _].
  pose proof Hl as [(A1 & A2 & A2') (p & Hp & Hpi) A4 A5 A6 A7 A8 (cs & Hcs & Hf) A10 A11 A12].
  cbn. rewrite Hwk. unfold worker_take. rewrite A1. unfold running in A6, A7, A8.
  rewrite Hwk in A6, A7, A8, A10, A11. rewrite Hit in *.
  destruct (bq_dequeue_some k qu x l WAIT_FOREVER Hk A2 Hit) as (qu' & -> & Hok' & Hi' & Hcap'). cbn.
  rewrite (proj2 (Z.eqb_neq x self)) by done. assert (ds w <> DDone) as Hds
    by (destruct (dq_inv_cases _ _ Hi) as [(_ & _ & _ & Hw)|[? _]]; congruence).
  rewrite data_cons in * by done. inversion Hf as [|? c ? cs' Hxc Hf']; subst. unfold worker_call. cbn. rewrite Hxc.
  assert (fn c <> 0) as Hfn by (apply H2; rewrite Hcs, elem_of_app; right; left).
  rewrite (proj2 (Z.eqb_neq (fn c) 0)) by done. cbn. eexists. split; [reflexivity|].
  split; cbn; try done; [by rewrite foldl_snoc, <- H1|].
  rewrite decide_False by done. exists qu', a. split; unfold running; cbn; rewrite ?Hi'; try done.
  - split_and!; [done|done|lia].
  - exists p. split; [done|]. eapply pool_inv_mono, Hpi. lia.
  - exists cs'. by rewrite <- app_assoc.
  - destruct (kill_after w) as [n|].
    + destruct A10 as [Hd [(_ & pre & post & Hpre & Hns & Hn)|([=] & _)]].
      split; [done|]. left. split; [done|]. destruct pre as [|y pre]; [injection Hpre as ? _; congruence|].
      injection Hpre as <- Hl'. exists pre, post. split_and!; [done|set_solver + Hns|].
      rewrite length_app. cbn in *. lia.
    + destruct A10 as (? & Hn & _). split_and!; [done|set_solver + Hn|done].
Qed.

Lemma take_step_ok k w :
  0 <= k -> dq_inv (k + 1) w -> wk w = WLoop -> exists w', dq_step w EWork = Ok w' /\ dq_inv k w'.
Proof.
  intros Hk Hi Hwk. destruct (dq_inv_cases _ _ Hi) as [(_ & _ & _ & Hw)|(_ & qu & a & Hl)]; [congruence|].
  destruct (bq_items qu) as [|x l] eqn:Hit; [by eapply take_none_ok|].
  destruct (decide (x = self)) as [->|Hx]; [by eapply take_self_ok|by eapply take_call_ok].
Qed.

Lemma free_step_ok k w b :
  0 <= k -> dq_inv (k + 1) w -> wk w = WRunning b ->
  exists w', dq_step w EWork = Ok w' /\ dq_inv k w'.
Proof.
  intros Hk Hi Hwk. pose proof Hi as [H1 H2 H3 H4 _]. cbn. rewrite Hwk.
  destruct (dq_inv_cases _ _ Hi) as [(_ & _ & _ & Hw)|(Hds & qu & a & Hl)]; [congruence|].
  assert (Hlive : live a !! b = Some 1).
  { apply (li_held _ _ _ _ Hl). unfold running. rewrite Hwk. left. }
  assert (Hbs : b <> self) by (eapply live_not_self; [done|by eexists]).
  pose proof Hl as [(A1 & A2 & A2') (p & Hp & Hpi) A4 (A5 & A5' & A5'') A6 A7 A8 A9 A10 A11 A12].
  destruct (pool_free_ok k _ _ b Hk Hpi ltac:(by eexists)) as ([p' m'] & calls & Hfree & Hpi').
  unfold worker_free, pool_of. rewrite Hp, Hfree. cbn. eexists. split; [reflexivity|].
  cbn [apool_step] in Hpi'. rewrite Hlive in Hpi'. cbn in Hpi'.
  unfold running in A6, A7, A8. rewrite Hwk in A6, A7, A8, A10, A11.
  apply NoDup_cons in A6 as [Hbd A6].
  eapply (dq_inv_live k w _ qu {| free := free a ++ [b]; live := delete b (live a); dtors := dtors a |});
    try done; [apply (dq_inv_mono (k + 1)); [lia|done]|].
  split; cbn; try done.
  - split_and!; [done|eapply bq_ok_mono, A2; lia|done].
  - by exists p'.
  - rewrite zlen_app, map_size_delete_Some by by eexists. cbn.
    assert (base.size (live a) <> 0%nat).
    { intros H0. apply map_size_empty_inv in H0. rewrite H0 in Hlive. done. }
    change (zlen [b]) with 1. lia.
  - rewrite lookup_delete_ne by done. rewrite elem_of_app, list_elem_of_singleton.
    split_and!; [done|intros [?|?]; [done|congruence]|done].
  - intros x Hx. rewrite lookup_delete_ne by (by intros ->). apply A7. by right.
  - intros t b' c' Ht'. destruct (A8 _ _ _ Ht') as (Hb' & Hn' & Hu).
    rewrite lookup_delete_ne by (intros ->; apply Hn'; left).
    split_and!; [done|set_solver + Hn'|done].
  - destruct (kill_after w) as [n|].
    + destruct A10 as [Hd [(_ & H)|([=] & _)]]. split; [done|]. by left.
    + destruct A10 as (? & ? & ?). by split_and!.
Qed.

Lemma work_step_ok k w :
  0 <= k -> dq_inv (k + 1) w -> exists w', dq_step w EWork = Ok w' /\ dq_inv k w'.
Proof.
  intros Hk Hi. destruct (wk w) as [|b|] eqn:Hwk;
    [by apply take_step_ok|by eapply free_step_ok|].
  cbn. rewrite Hwk. exists w. split; [done|]. apply (dq_inv_mono (k + 1)); [lia|done].
Qed.

(** ** The destroyer *)

Lemma destroy_step_ok k w : dq_inv k w -> exists w', dq_step w EDestroy = Ok w' /\ dq_inv k w'.
Proof.
  intros Hi. cbn. destruct (ds w) eqn:Hds; try (by exists w).
  destruct (dq_inv_cases _ _ Hi) as [(Hd & _)|(_ & qu & a & Hl)]; [congruence|].
  pose proof Hi as [H1 H2 H3 H4 _].
  pose proof Hl as [A1 A2 A4 A5 A6 A7 A8 A9 A10 A11 A12]. rewrite Hds in A10, A12.
  rewrite bool_decide_eq_true_2 in A12 by done. rewrite A12. cbn. eexists. split; [reflexivity|].
  eapply (dq_inv_live k w _ qu a); try done. split; try done. cbn.
  destruct (kill_after w); [by destruct A10 as [[=] _]|]. destruct A10 as (_ & ? & ?). auto.
Qed.

Lemma kill_step_ok k w :
  0 <= k -> dq_inv (k + 1) w -> ds w = DFlagged ->
  (queue_full (dq w) /\ dq_step w EKill = Err AssertFailed) \/
  (~ queue_full (dq w) /\ exists w', dq_step w EKill = Ok w' /\ dq_inv k w').
Proof.
  intros Hk Hi Hds. cbn. rewrite Hds.
  destruct (dq_inv_cases _ _ Hi) as [(Hd & _)|(_ & qu & a & Hl)]; [congruence|].
  pose proof Hi as [H1 H2 H3 H4 _].
  rewrite (live_queue_full _ _ _ _ Hl).
  pose proof Hl as [(A1 & A2 & A2') (p & Hp & Hpi) A4 A5 A6 A7 A8 (cs & Hcs & Hf) A10 A11 A12].
  unfold destroy_kill, enqueue. rewrite A1.
  destruct (decide (bq_capacity qu <= zlen (bq_items qu))) as [Hfull|Hroom].
  - left. by rewrite (bq_enqueue_full k qu self Hk A2 Hfull).
  - right. split; [done|]. destruct A5 as (A5 & A5').
    destruct (bq_enqueue_room k qu self Hk A2 A5) as (qu' & -> & Hok' & Hi' & Hcap'); [lia|].
    cbn. eexists. split; [reflexivity|]. rewrite Hds in A10, A12.
    destruct (kill_after w); [by destruct A10 as [[=] _]|]. destruct A10 as (_ & Hns & Hw).
    assert (Hdata : data (bq_items qu') = data (bq_items qu)).
    { rewrite Hi', data_app, data_self. apply app_nil_r. }
    assert (Hlen : length (bq_items qu) = length cs).
    { rewrite data_all in Hf by done. by eapply Forall2_length. }
    apply (dq_inv_mono _ k) in Hi; [|lia].
    eapply (dq_inv_live k w _ qu' a); try done. split; cbn; rewrite ?Hdata; try done.
    + split_and!; [done|done|lia].
    + exists p. split; [done|]. eapply pool_inv_mono, Hpi. lia.
    + by exists cs.
    + split; [done|]. left. split; [done|]. exists (bq_items qu), [].
      rewrite app_nil_r, Hcs, length_app, Hlen. by split_and!.
Qed.

Lemma finish_step_ok k w : dq_inv k w -> exists w', dq_step w EFinish = Ok w' /\ dq_inv k w'.
Proof.
  intros Hi. cbn -[signal_wait]. destruct (ds w) eqn:Hds; try (by exists w).
  destruct (dq_inv_cases _ _ Hi) as [(Hd & _)|(_ & qu & a & Hl)]; [congruence|].
  pose proof Hi as [H1 H2 H3 H4 _].
  pose proof Hl as [A1 A2 A4 A5 A6 A7 A8 (cs & Hcs & _) A10 A11 A12]. rewrite Hds in A10, A12.
  destruct (signal (dq w)) as [v]. cbn in A11. subst v. destruct (decide (wk w = WExited)) as [Hw|Hw].
  - cbn. eexists. split; [reflexivity|]. split; cbn; try done.
    destruct (kill_after w) as [n|]; [|by destruct A10 as ([[=]|[=]] & _)].
    destruct A10 as (_ & [(? & _)|(_ & _ & ->)]); [done|]. split_and!; try done. by exists cs.
  - cbn. by exists w.
Qed.

Lemma dq_step_ok k w ev :
  0 <= k -> dq_inv (k + 1) w -> posts_functions ev ->
  match dq_step w ev with
  | Ok w' => dq_inv k w' /\ ~ fails w ev
  | Err f => f = AssertFailed /\ fails w ev
  end.
Proof.
  intros Hk Hi Hp. assert (Hi' : dq_inv k w) by (apply (dq_inv_mono (k + 1)); [lia|done]).
  destruct ev as [t c|t|t| | | |].
  - destruct (post_step_ok k w t c Hp Hi') as (w' & -> & ?). split; [done|intros []].
  - destruct (posters w !! t) as [[c|b c]|] eqn:Ht.
    + destruct (alloc_step_ok k w t c Hk Hi Ht) as [[Hf ->]|[Hf (w' & -> & Hw')]]; [split; [done|by exists c]|].
      split; [done|]. intros (c' & _ & H). done.
    + cbn. rewrite Ht. split; [done|]. intros (c' & [=] & _).
    + cbn. rewrite Ht. split; [done|]. intros (c' & [=] & _).
  - destruct (posters w !! t) as [[c|b c]|] eqn:Ht.
    + cbn. rewrite Ht. split; [done|]. intros (b' & c' & [=] & _).
    + destruct (enqueue_step_ok k w t b c Hk Hi Ht) as [(Hf & _ & ->)|[Hf (w' & -> & Hw')]]; [split; [done|by exists b, c]|]. split; [done|]. intros (b' & c' & _ & H). done.
    + cbn. rewrite Ht. split; [done|]. intros (b' & c' & [=] & _).
  - destruct (work_step_ok k w Hk Hi) as (w' & -> & ?). split; [done|intros []].
  - destruct (destroy_step_ok k w Hi') as (w' & -> & ?). split; [done|intros []].
  - destruct (decide (ds w = DFlagged)) as [Hds|Hds].
    + destruct (kill_step_ok k w Hk Hi Hds) as [[Hf ->]|[Hf (w' & -> & Hw')]]; [done|].
      split; [done|]. by intros [_ H].
    + assert (dq_step w EKill = Ok w) as -> by (cbn; by destruct (ds w)).
      split; [done|]. by intros [H _].
  - destruct (finish_step_ok k w Hi') as (w' & -> & ?). split; [done|intros []].
Qed.

Lemma dq_run_ok evs : forall k w,
  0 <= k -> dq_inv (k + zlen evs) w -> Forall posts_functions evs ->
  match dq_run w evs with Ok w' => dq_inv k w' | Err f => f = AssertFailed end.
Proof.
  induction evs as [|ev evs IH]; intros k w Hk Hi Hp; cbn.
  - rewrite zlen_nil in Hi. by replace (k + 0) with k in Hi by lia.
  - inversion Hp; subst. rewrite zlen_cons in Hi. pose proof (zlen_nonneg evs).
    pose proof (dq_step_ok (k + zlen evs) w ev ltac:(lia)) as Hs. rewrite <- Z.add_assoc in Hs.
    specialize (Hs Hi ltac:(done)).
    destruct (dq_step w ev) as [w'|f]; cbn; [|by destruct Hs]. by apply IH; [|apply Hs|].
Qed.

(** ** The worker left alone *)

Lemma take_length k w :
  dq_inv (k + 1) w -> 0 <= k -> wk w = WLoop ->
  exists w', dq_step w EWork = Ok w' /\ dq_inv k w' /\
  match queue (dq w) with
  | Some qu =>
      match bq_items qu with
      | [] => wk w' = WLoop /\ done w' = done w /\ posted w = done w /\ kill_after w = None /\
              forall fuel, dispatch_queue_worker self exec (S fuel) (dq w) (client w) =
                Ok (dq w', client w', false)
      | b :: l =>
          if decide (b = self) then wk w' = WExited /\ done w' = done w /\
              forall fuel, dispatch_queue_worker self exec (S fuel) (dq w) (client w) =
                Ok (dq w', client w', true)
          else wk w' = WRunning b /\ (exists qu', queue (dq w') = Some qu' /\ bq_items qu' = l) /\
              forall fuel, dispatch_queue_worker self exec (S fuel) (dq w) (client w) =
                (d ← worker_free (dq w') b; dispatch_queue_worker self exec fuel d (client w'))
      end
  | None => False
  end.
Proof.
  intros Hi Hk Hwk. destruct (take_step_ok k w Hk Hi Hwk) as (w' & Hs & Hi').
  exists w'. split; [done|]. split; [done|].
  destruct (dq_inv_cases _ _ Hi) as [(_ & _ & _ & Hw)|(Hds & qu & a & Hl)]; [congruence|].
  destruct Hl as [(A1 & A2 & A2') _ _ _ _ _ _ (cs & Hcs & Hf) A10 _ _].
  cbn in Hs. rewrite Hwk in Hs. rewrite Hwk in A10. rewrite A1.
  unfold worker_take in Hs. rewrite A1 in Hs.
  destruct (bq_items qu) as [|b l] eqn:Hit.
  - destruct (bq_dequeue_waits k qu Hk A2 Hit) as (wc & Hd).
    rewrite Hd in Hs. cbn in Hs. injection Hs as <-. inversion Hf; subst cs. rewrite app_nil_r in Hcs.
    destruct (kill_after w) as [n|].
    { destruct A10 as (_ & [(_ & pre & post & H & _)|(? & _)]); [by destruct pre|done]. }
    split_and!; try done. intros fuel. cbn. unfold worker_take. rewrite A1, Hd. done.
  - destruct (bq_dequeue_some k qu b l WAIT_FOREVER Hk A2 Hit) as (qu' & Hd & _ & Hi2 & _).
    rewrite Hd in Hs. cbn in Hs. destruct (decide (b = self)) as [->|Hb].
    + rewrite Z.eqb_refl in Hs. injection Hs as <-. split_and!; [done|done|]. intros fuel. cbn.
      unfold worker_take. rewrite A1, Hd. cbn. by rewrite Z.eqb_refl.
    + rewrite (proj2 (Z.eqb_neq b self)) in Hs by done.
      apply bind_ok in Hs as ([c cl] & Hc & Hs). injection Hs as <-.
      split_and!; [done|by exists qu'|]. intros fuel. cbn. unfold worker_take. rewrite A1, Hd. cbn.
      rewrite (proj2 (Z.eqb_neq b self)) by done. by rewrite Hc.
Qed.

Lemma worker_alone fuel : forall k w qu,
  0 <= k -> dq_inv (k + 2 * Z.of_nat fuel) w -> wk w = WLoop -> queue (dq w) = Some qu ->
  (length (bq_items qu) < fuel)%nat ->
  exists w' b, dispatch_queue_worker self exec fuel (dq w) (client w) = Ok (dq w', client w', b) /\
    dq_inv k w' /\ posted w' = posted w /\ kill_after w' = kill_after w /\
    if (b : bool) then wk w' = WExited else kill_after w' = None /\ posted w' = done w'.
Proof.
  induction fuel as [|fuel IH]; intros k w qu Hk Hi Hwk Hq Hlen; [lia|].
  apply (dq_inv_mono _ (k + 1 + 2 * Z.of_nat fuel + 1)) in Hi; [|lia].
  pose proof (take_length _ _ Hi ltac:(lia) Hwk) as (w1 & Hs & Hi1 & Hcase). rewrite Hq in Hcase.
  assert (posted w1 = posted w /\ kill_after w1 = kill_after w) as [Hp1 Hk1].
  { cbn in Hs. rewrite Hwk in Hs. apply bind_ok in Hs as ([d [wc|p]] & _ & Hs); [by injection Hs as <-|].
    destruct (p =? self); [by injection Hs as <-|].
    apply bind_ok in Hs as ([c cl] & _ & Hs). by injection Hs as <-. }
  destruct (bq_items qu) as [|b l] eqn:Hit.
  - destruct Hcase as (Hw1 & Hd1 & Hp & Hka & Hrun). exists w1, false. rewrite Hrun, Hp1, Hk1, Hd1.
    split_and!; try done. by eapply dq_inv_mono, Hi1; lia.
  - destruct (decide (b = self)).
    + destruct Hcase as (Hw1 & Hd1 & Hrun). exists w1, true. rewrite Hrun.
      split_and!; try done. by eapply dq_inv_mono, Hi1; lia.
    + destruct Hcase as (Hw1 & (qu1 & Hq1 & Hi2) & Hrun).
      destruct (free_step_ok (k + 2 * Z.of_nat fuel) w1 b) as (w2 & Hs2 & Hinv2); [lia| |done|].
      { eapply dq_inv_mono, Hi1. lia. }
      cbn in Hs2. rewrite Hw1 in Hs2. apply bind_ok in Hs2 as (d2 & Hfree & Hs2). injection Hs2 as <-.
      assert (queue d2 = Some qu1).
      { unfold worker_free in Hfree. apply bind_ok in Hfree as (r & _ & Hfree).
        by injection Hfree as <-. }
      destruct (IH k _ qu1 Hk Hinv2) as (w' & b' & Hrun' & Hinv' & Hp' & Hk' & Hres);
        [done|done|rewrite Hi2; cbn in Hlen; lia|].
      exists w', b'. rewrite Hrun, Hfree. cbn in *. rewrite Hrun'.
      split_and!; try done; congruence.
Qed.

End invariant.
End interleaving.

(** ** Creation *)

Section creation.
Context {Q : Type} `{!BoundedQueue Q} `{!BoundedQueueLaws Q} (self : Z).
Context {W : Type} (exec : Z -> Z -> Z -> W -> W) (gives_up : Z -> bool) (now : timespec).

(** What the macros of dispatch_queue.h build: a pool of no more blocks than the
    queue has cells, in other memory than the queue object. *)
Record dispatch_ok (n : Z) (params : dispatch_queue_create_params_t) (qu pool_qu : Q) : Prop := {
  do_size : dp_queue_size params <> 0;
  do_p_queue : dp_p_queue params = true;
  do_pool : create_ok n (dp_pool_params params) pool_qu;
  do_queue : bq_ok n qu /\ bq_items qu = [] /\
    pp_num_of_elements (dp_pool_params params) <= bq_capacity qu;
  do_self : self <> 0 /\ self ∉ blocks (dp_pool_params params)
}.

Lemma dispatch_queue_create_inv n params qu pool_qu m pd task cl0 :
  0 <= n -> dispatch_ok n params qu pool_qu -> task <> 0 ->
  exists d, dispatch_queue_create (Some params) true true (Some qu) (Some pool_qu) m pd task = Ok d /\
    dq_inv self exec (pp_num_of_elements (dp_pool_params params)) cl0 n (new_dq_world d cl0).
Proof.
  intros Hn [Hs Hp Hpool (Hok & Hi & Hcap) [Hself0 Hself]] Ht.
  destruct (pool_create_inv n (dp_pool_params params) pool_qu m Hn Hpool) as (p & m' & Hc & Hpi).
  unfold dispatch_queue_create. rewrite (proj2 (Z.eqb_neq _ _) Hs), Hp. cbn. rewrite Hc. cbn.
  rewrite (proj2 (Z.eqb_neq task 0) Ht). cbn. eexists. split; [reflexivity|].
  split; try done; [intros c Hc'; by apply elem_of_nil in Hc'|].
  exists qu. eexists. split; cbn; try done.
  - exists p. split; [done|exact Hpi].
  - cbn. rewrite map_size_empty. unfold zlen, blocks. rewrite length_fmap, length_seq.
    pose proof (co_num _ _ _ Hpool). lia.
  - by split_and!.
  - unfold running. cbn. rewrite Hi. apply NoDup_nil_2.
  - unfold running. cbn. rewrite Hi. intros b Hb. by apply elem_of_nil in Hb.
  - rewrite Hi. by exists [].
  - rewrite Hi. split_and!; [by left|by apply not_elem_of_nil|done].
Qed.


(** C18: the worker terminates.  Left alone in any reachable state, it makes the
    calls that are queued and then exits if a kill request is queued, or waits
    with every posted call made; one more iteration than there are queued items
    is enough. *)
Theorem dispatch_queue_worker_drains params qu pool_qu m pd task evs cl0 fuel :
  dispatch_ok (zlen evs + 2 * Z.of_nat fuel) params qu pool_qu -> task <> 0 ->
  Forall posts_functions evs ->
  exists d,
    dispatch_queue_create (Some params) true true (Some qu) (Some pool_qu) m pd task = Ok d /\
    forall w qu', dq_run self exec gives_up now (new_dq_world d cl0) evs = Ok w -> wk w = WLoop ->
      queue (dq w) = Some qu' -> (length (bq_items qu') < fuel)%nat ->
      exists d', dispatch_queue_worker self exec fuel (dq w) (client w) =
        Ok (d', foldl (make_call exec) cl0
                  (match kill_after w with Some n => take n (posted w) | None => posted w end),
            bool_decide (is_Some (kill_after w))).
Proof.
  intros Hok Ht Hp. pose proof (zlen_nonneg evs) as Hz.
  destruct (dispatch_queue_create_inv (zlen evs + 2 * Z.of_nat fuel) params qu pool_qu m pd task cl0)
    as (d & Hd & Hi); [lia|done|done|]. exists d. split; [done|]. rewrite (Z.add_comm (zlen evs)) in Hi.
  pose proof (dq_run_ok self exec gives_up now _ cl0 evs (2 * Z.of_nat fuel) (new_dq_world d cl0)
                ltac:(lia) Hi Hp) as Hr.
  intros w qu' Hw Hwk Hq Hlen. rewrite Hw in Hr.
  destruct (worker_alone self exec gives_up now (pp_num_of_elements (dp_pool_params params)) cl0
              fuel 0 w qu')
    as (w' & b & Hrun & Hi' & Hpo & Hka & Hres); try done.
  exists (dq w'). rewrite Hrun. pose proof Hi' as [Hcl _ _ _ Hl]. rewrite Hcl, <- Hpo, <- Hka.
  destruct b.
  - destruct (decide (ds w' = DDone)).
    + destruct Hl as (_ & _ & _ & _ & Hk & cs & Hcs). rewrite Hk, Hcs, take_app_length. done.
    + destruct Hl as (qu2 & a & Hl). destruct (li_calls _ _ _ _ _ _ Hl) as (cs & Hcs & _).
      pose proof (li_kill _ _ _ _ _ _ Hl) as Hk. destruct (kill_after w') as [kn|];
        [|by destruct Hk as (_ & _ & ?)].
      destruct Hk as (_ & [(? & _)|(_ & _ & ->)]); [done|].
      rewrite Hcs, take_app_length. done.
  - destruct Hres as [-> ->]. done.
Qed.
End creation.

(** ** Witnesses, on the c11 port *)

#[local] Instance ex_bq : BoundedQueue ts_queue_t := port_queue thrd_timedout ex_now.

#[local] Instance ex_bq_laws : BoundedQueueLaws ts_queue_t.
Proof. apply (port_queue_laws thrd_timedout ltac:(discriminate) ex_now). Qed.

(** The queue object is at address 7. *)
Definition ex_dispatch_params : dispatch_queue_create_params_t :=
  {| dp_p_queue := true; dp_pool_params := ex_pool_params 2; dp_queue_size := 2 |}.

Lemma ex_dispatch_ok n : 0 <= n <= 900 -> dispatch_ok 7 n ex_dispatch_params ex_pool_queue ex_pool_queue.
Proof.
  intros Hn. split; try done.
  - apply ex_create_ok; [lia|by right].
  - split_and!; [|done|done]. eapply bq_ok_mono, (co_queue _ _ _ (ex_create_ok n 2 ltac:(lia) ltac:(by right))).
    cbn. lia.
  - split; [done|]. by apply (bool_decide_unpack _).
Qed.

Definition ex_create : result (dispatch_queue_t ts_queue_t) :=
  dispatch_queue_create (Some ex_dispatch_params) true true (Some ex_pool_queue) (Some ex_pool_queue)
    ex_memory ∅ 1.

Definition ex_call (n : Z) : dispatch_queue_post_data_t := {| fn := 50; arg1 := n; arg2 := 0 |}.

Definition ex_exec (f a1 a2 : Z) (w : list Z) : list Z := w ++ [a1].

(** Thread 2 has seen the queue alive, and puts its call behind the kill request. *)
Definition ex_dispatch_events : list dq_event :=
  [EPost 1 (ex_call 11); EAlloc 1; EPost 2 (ex_call 12); EEnqueue 1; EDestroy; EKill; EAlloc 2;
   EWork; EWork; EEnqueue 2; EWork].


Definition ex_posts : list dq_event :=
  [EPost 1 (ex_call 11); EAlloc 1; EEnqueue 1; EPost 1 (ex_call 12); EAlloc 1; EEnqueue 1].

Lemma dispatch_queue_worker_drains_witness :
  exists d w d', ex_create = Ok d /\
    dq_run 7 ex_exec c11_gives_up ex_now (new_dq_world d []) ex_posts = Ok w /\
    dispatch_queue_worker 7 ex_exec 3 (dq w) (client w) = Ok (d', [11; 12], false).
Proof.
  destruct (dispatch_queue_worker_drains 7 ex_exec c11_gives_up ex_now ex_dispatch_params
      ex_pool_queue ex_pool_queue ex_memory ∅ 1 ex_posts [] 3) as (d & Hd & H).
  - apply ex_dispatch_ok. vm_compute. split; discriminate.
  - discriminate.
  - repeat constructor; discriminate.
  - assert (exists w qu, dq_run 7 ex_exec c11_gives_up ex_now (new_dq_world d []) ex_posts = Ok w /\
        wk w = WLoop /\ queue (dq w) = Some qu /\ (length (bq_items qu) < 3)%nat /\
        posted w = [ex_call 11; ex_call 12] /\ kill_after w = None)
      as (w & qu & Hw & Hk & Hq & Hl & Hp & Hka).
    { vm_compute in Hd. injection Hd as <-. eexists _, _. split; [vm_compute; reflexivity|].
      split_and!; try reflexivity. vm_compute. lia. }
    destruct (H w qu Hw Hk Hq Hl) as (d' & Hrun). rewrite Hp, Hka in Hrun.
    exists d, w, d'. auto.
Defined.
