(* ===== verification/Objects.v ===== *)
(** The thread objects of the pthread and the c11 port: the mutexes and condition
    variables that the components create and destroy inside their structs.

    POSIX leaves it undefined to initialise an object that is initialised already, and to
    destroy one that is not; both are faults here.  The operations are those of the
    components' files with the outcomes that the library gives them, in the order of the
    code. *)
From stdpp Require Import base list gmap sets.
From Stdlib Require Import ZArith Lia.
From S2P Require Import Prelude Mutex EventFlag TsQueue Pool Notifier LogBuffer DispatchQueue.
Local Open Scope Z_scope.
#[local] Set Warnings "-clear-no-such-hyp".

(** ** The library *)

(** The members that are thread objects, of a [mutex_t], an [event_flag_t] or a
    [ts_queue_t]. *)
Inductive member : Set := MtxMember | CvMember | CndMember | FullCndMember.

#[export] Instance member_eq_dec : EqDecision member.
Proof. solve_decision. Defined.

#[export] Instance member_countable : Countable member.
Proof.
  apply (inj_countable'
    (fun m => match m with MtxMember => 0%nat | CvMember => 1%nat | CndMember => 2%nat | FullCndMember => 3%nat end)
    (fun n => match n with 0%nat => MtxMember | 1%nat => CvMember | 2%nat => CndMember | _ => FullCndMember end)).
  by intros [].
Defined.

(** An object is a member of the struct at an address. *)
Definition object : Type := Z * member.

(** The initialised objects, and the codes that the next initialisations return: 0 when
    there are no more. *)
Record objects := { live : gset object; codes : list Z }.

Definition M (A : Type) : Type := objects -> result (objects * A).
#[export] Instance M_ret : MRet M := fun A a st => Ok (st, a).
#[export] Instance M_bind : MBind M := fun A B k m st => r ← m st; k (snd r) (fst r).

Definition lift {A} (r : result A) : M A := fun st => a ← r; Ok (st, a).

(** [pthread_mutex_init] and [pthread_cond_init]. *)
Definition object_init (o : object) : M Z := fun st =>
  if bool_decide (o ∈ live st) then Err BadObject
  else
    let code := default 0 (list.head (codes st)) in
    Ok ({| live := if code =? 0 then {[o]} ∪ live st else live st; codes := list.tail (codes st) |}, code).

(** [pthread_mutex_destroy] and [pthread_cond_destroy] of an object nobody uses. *)
Definition object_destroy (o : object) : M Z := fun st =>
  if bool_decide (o ∈ live st) then Ok ({| live := live st ∖ {[o]}; codes := codes st |}, 0)
  else Err BadObject.

(** ** Mutexes, event flags and signals *)

Definition mutex_new (at_ : Z) (m : mutex_t) : M (mutex_t * bool) :=
  c ← object_init (at_, MtxMember); mret (Mutex.mutex_new (c =? 0) m).

Definition mutex_free (mutex : option Z) : M unit :=
  match mutex with
  | Some at_ => _ ← object_destroy (at_, MtxMember); mret tt
  | None => mret tt
  end.

(** The condition variable is not initialised if the mutex is not; the mutex stays if
    the condition variable fails. *)
Definition event_flag_new (at_ : Z) (p_flags : option event_flag_t) : M (option event_flag_t * bool) :=
  match p_flags with
  | Some _ =>
      c ← object_init (at_, MtxMember);
      if c =? 0 then
        c' ← object_init (at_, CvMember); mret (EventFlag.event_flag_new p_flags true (c' =? 0))
      else mret (EventFlag.event_flag_new p_flags false false)
  | None => mret (EventFlag.event_flag_new None false false)
  end.

Definition event_flag_free (p_flags : option Z) : M bool :=
  match p_flags with
  | Some at_ =>
      c ← object_destroy (at_, CvMember);
      if c =? 0 then c' ← object_destroy (at_, MtxMember); mret (c' =? 0) else mret false
  | None => mret false
  end.

(** The c11 port does not look at the results, which it does not get. *)
Definition c11_event_flag_free (flags : option Z) : M bool :=
  match flags with
  | Some at_ => _ ← object_destroy (at_, CvMember); _ ← object_destroy (at_, MtxMember); mret true
  | None => mret false
  end.

Definition signal_new (at_ : Z) (p_signal : option signal_t) : M (option signal_t * bool) :=
  event_flag_new at_ p_signal.

Definition signal_free (p_signal : option Z) : M bool := event_flag_free p_signal.

(** ** Queues and pools *)

(** [full_cnd] is not initialised if [cnd] is not.  When one of them fails only the
    mutex is destroyed. *)
Definition ts_queue_init (at_ : Z) (params : option ts_queue_create_params_t) : M (option ts_queue_t * bool) :=
  match params with
  | Some p =>
      match qp_queue p, qp_ptr_array p with
      | Some _, Some _ =>
          if negb ((0 <? qp_size p) && (Z.land (qp_size p) (u64 (qp_size p - 1)) =? 0))
          then mret (TsQueue.ts_queue_init params true true true)
          else
            '(_, mtx_ok) ← mutex_new at_ {| owner := None |};
            if negb mtx_ok then mret (TsQueue.ts_queue_init params false true true)
            else
              c ← object_init (at_, CndMember);
              full_ok ← (if c =? 0 then c' ← object_init (at_, FullCndMember); mret (c' =? 0)
                         else mret false);
              if negb ((c =? 0) && full_ok)
              then _ ← mutex_free (Some at_); mret (TsQueue.ts_queue_init params true (c =? 0) full_ok)
              else mret (TsQueue.ts_queue_init params true true true)
      | _, _ => mret (TsQueue.ts_queue_init params true true true)
      end
  | None => mret (TsQueue.ts_queue_init None true true true)
  end.

Definition ts_queue_destroy (p_queue : option Z) : M unit :=
  match p_queue with
  | Some at_ => _ ← object_destroy (at_, CndMember); mutex_free (Some at_)
  | None => mret tt
  end.

Section port.
(** [ETIMEDOUT] and the clock of the calls that do not wait. *)
Context (timedout : Z) (now : timespec).
#[local] Instance queue_of_port : BoundedQueue ts_queue_t := port_queue timedout now.

Definition returned (r : option ts_queue_t * bool) : option ts_queue_t := if snd r then fst r else None.

(** [at_] is the address of the pool's queue. *)
Definition pool_create (at_ : Z) (params : pool_create_params_t) (queue_params : option ts_queue_create_params_t)
    (m : memory) : M (option (pool_t ts_queue_t) * bool * memory) :=
  if negb (pp_pool params) then lift (Pool.pool_create params None m)
  else r ← ts_queue_init at_ queue_params; lift (Pool.pool_create params (returned r) m).

Definition pool_destroy (at_ : Z) (p_pool : option (pool_t ts_queue_t)) : M (option (pool_t ts_queue_t)) :=
  match p_pool with
  | Some p =>
      _ ← ts_queue_destroy (match q p with Some _ => Some at_ | None => None end);
      mret (Pool.pool_destroy p_pool)
  | None => mret (Pool.pool_destroy None)
  end.

(** ** The components over them *)

Definition ts_log_buffer_init (at_ : Z) (pLb : option TsLogBuffer.ts_log_buffer_t) (pBuffer : option (list Z))
    (size : Z) : M (option TsLogBuffer.ts_log_buffer_t * bool) :=
  match pLb with
  | Some _ =>
      '(_, created) ← mutex_new at_ {| owner := None |};
      mret (TsLogBuffer.ts_log_buffer_init pLb created pBuffer size)
  | None => mret (TsLogBuffer.ts_log_buffer_init None false pBuffer size)
  end.

Definition ts_log_buffer_deinit (pLb : option Z) : M unit :=
  match pLb with Some at_ => mutex_free (Some at_) | None => mret tt end.

(** [at_] is the address of the notifier, [q_at] that of the queue of its pool.  The
    assertions come before the mutex is created. *)
Definition notifier_init (at_ q_at : Z) (params : option notifier_create_params_t)
    (queue_params : option ts_queue_create_params_t) (m : memory) (h : KList.heap) (cats : gmap Z Z)
  : M (notifier_t ts_queue_t * bool) :=
  match params with
  | Some p =>
      if np_notifier p && bool_decide (is_Some (np_notif_array p)) then
        '(_, mtx_ok) ← mutex_new at_ {| owner := None |};
        if negb mtx_ok then lift (Notifier.notifier_init params false None m h cats)
        else
          queue ← (if pp_pool (np_pool_params p)
                   then r ← ts_queue_init q_at queue_params; mret (returned r) else mret None);
          r ← lift (Notifier.notifier_init params true queue m h cats);
          if snd r : bool then mret r else _ ← mutex_free (Some at_); mret r
      else lift (Notifier.notifier_init params false None m h cats)
  | None => lift (Notifier.notifier_init None false None m h cats)
  end.

Definition notifier_deinit (at_ q_at : Z) (n : notifier_t ts_queue_t) : M (notifier_t ts_queue_t) :=
  _ ← pool_destroy q_at (n_pool n);
  _ ← mutex_free (Some at_);
  mret (Notifier.notifier_deinit n).

(** The signal, the queue and the pool's queue of a dispatch queue are at the three
    addresses.  A part that could not be created stops the program. *)
Definition dispatch_queue_create (sig_at q_at p_at : Z) (params : option dispatch_queue_create_params_t)
    (queue_params pool_queue_params : option ts_queue_create_params_t) (m : memory)
    (pd : gmap Z dispatch_queue_post_data_t) (task : Z) : M (dispatch_queue_t ts_queue_t) :=
  match params with
  | Some p =>
      if negb (dp_queue_size p =? 0) && dp_p_queue p then
        '(_, created) ← signal_new sig_at (Some {| val := 0 |});
        if negb created then lift (Err AssertFailed)
        else
          qu ← ts_queue_init q_at queue_params;
          if negb (bool_decide (is_Some (returned qu))) then lift (Err AssertFailed)
          else
            pool_qu ← (if pp_pool (dp_pool_params p)
                       then r ← ts_queue_init p_at pool_queue_params; mret (returned r) else mret None);
            lift (DispatchQueue.dispatch_queue_create params true true (returned qu) pool_qu m pd task)
      else lift (Err AssertFailed)
  | None => lift (Err AssertFailed)
  end.

(** What [dispatch_queue_destroy] does when the worker has ended. *)
Definition dispatch_queue_finish (sig_at q_at p_at : Z) (d : dispatch_queue_t ts_queue_t)
  : M (dispatch_queue_t ts_queue_t) :=
  _ ← pool_destroy p_at (p_pool d);
  _ ← ts_queue_destroy (match queue d with Some _ => Some q_at | None => None end);
  _ ← signal_free (Some sig_at);
  lift (destroy_finish d true).
End port.

(** ** What the operations do to the objects *)

Definition mutex_objects (at_ : Z) : gset object := {[(at_, MtxMember)]}.
Definition flag_objects (at_ : Z) : gset object := {[(at_, MtxMember); (at_, CvMember)]}.
Definition queue_objects (at_ : Z) : gset object :=
  {[(at_, MtxMember); (at_, CndMember); (at_, FullCndMember)]}.

(** [full_cnd], which nobody destroys. *)
Definition leftover (at_ : Z) : gset object := {[(at_, FullCndMember)]}.

Lemma queue_flag_apart a b : a <> b -> queue_objects a ## flag_objects b.
Proof. intros Hne [c m] Hx Hy. unfold queue_objects, flag_objects in *. set_unfold. intuition congruence. Qed.

Lemma queue_queue_apart a b : a <> b -> queue_objects a ## queue_objects b.
Proof. intros Hne [c m] Hx Hy. unfold queue_objects in *. set_unfold. intuition congruence. Qed.

Lemma M_bind_ok {A B} (m : M A) (k : A -> M B) st st1 a :
  m st = Ok (st1, a) -> (m ≫= k) st = k a st1.
Proof. intros H. unfold mbind, M_bind. by rewrite H. Qed.

Lemma M_bind_err {A B} (m : M A) (k : A -> M B) st f : m st = Err f -> (m ≫= k) st = Err f.
Proof. intros H. unfold mbind, M_bind. by rewrite H. Qed.

Lemma object_init_ok o st :
  o ∉ live st -> exists st' c, object_init o st = Ok (st', c) /\
    live st' = (if c =? 0 then {[o]} ∪ live st else live st) /\ (codes st = [] -> c = 0 /\ codes st' = []).
Proof.
  intros Ho. unfold object_init. rewrite bool_decide_eq_false_2 by done. do 2 eexists. split; [done|].
  split; [done|]. cbn. by intros ->.
Qed.

Lemma object_init_again o st : o ∈ live st -> object_init o st = Err BadObject.
Proof. intros Ho. unfold object_init. by rewrite bool_decide_eq_true_2. Qed.

Lemma object_destroy_ok o st :
  o ∈ live st -> exists st', object_destroy o st = Ok (st', 0) /\ live st' = live st ∖ {[o]} /\ codes st' = codes st.
Proof. intros Ho. unfold object_destroy. rewrite bool_decide_eq_true_2 by done. by eexists. Qed.

(** Step through an operation on an object whose state is known. *)
Ltac objects_step :=
  match goal with
  | |- context [(object_init ?o ≫= ?k) ?st] =>
      let st' := fresh "st" in let c := fresh "c" in let H := fresh "H" in let Hl := fresh "Hl" in let Hc := fresh "Hc" in
      destruct (object_init_ok o st) as (st' & c & H & Hl & Hc);
      [set_solver|rewrite (M_bind_ok _ k st st' c H); destruct (c =? 0) eqn:?; clear H]
  | |- context [(object_destroy ?o ≫= ?k) ?st] =>
      let st' := fresh "st" in let H := fresh "H" in let Hl := fresh "Hl" in let Hc := fresh "Hc" in
      destruct (object_destroy_ok o st) as (st' & H & Hl & Hc);
      [set_solver|rewrite (M_bind_ok _ k st st' 0 H); clear H]
  end.

Lemma mutex_new_objects at_ m st :
  mutex_objects at_ ## live st ->
  exists st' m' b, mutex_new at_ m st = Ok (st', (m', b)) /\
    live st' = (if b then mutex_objects at_ else ∅) ∪ live st /\ (codes st = [] -> b = true /\ codes st' = []).
Proof.
  intros Hf. unfold mutex_objects in *. unfold mutex_new. objects_step.
  - do 3 eexists. split; [done|]. cbn. split; [set_solver|]. by intros [_ ->]%Hc.
  - do 3 eexists. split; [done|]. cbn. split; [set_solver|]. intros [-> _]%Hc. discriminate.
Qed.

Lemma mutex_free_objects at_ st :
  mutex_objects at_ ⊆ live st ->
  exists st', mutex_free (Some at_) st = Ok (st', tt) /\ live st' = live st ∖ mutex_objects at_ /\ codes st' = codes st.
Proof.
  intros Hf. unfold mutex_objects in *. unfold mutex_free. objects_step. by eexists.
Qed.

(** A flag that could not be created leaves its mutex behind if the condition variable
    is what failed. *)
Lemma event_flag_new_objects at_ f st :
  flag_objects at_ ## live st ->
  exists st' f' b, event_flag_new at_ (Some f) st = Ok (st', (f', b)) /\
    (if b then live st' = flag_objects at_ ∪ live st
     else live st' = live st \/ live st' = mutex_objects at_ ∪ live st) /\
    (codes st = [] -> b = true /\ codes st' = []).
Proof.
  intros Hf. unfold flag_objects, mutex_objects in *. unfold event_flag_new. objects_step.
  - objects_step.
    + do 3 eexists. split; [done|]. cbn. split; [set_solver|]. intros [_ H]%Hc. by apply Hc0 in H as [_ ->].
    + do 3 eexists. split; [done|]. cbn. split; [right; set_solver|]. intros [_ H]%Hc. apply Hc0 in H as [-> _]. done.
  - do 3 eexists. split; [done|]. cbn. split; [by left|]. intros [-> _]%Hc. done.
Qed.

Lemma event_flag_free_objects at_ st :
  flag_objects at_ ⊆ live st ->
  exists st', event_flag_free (Some at_) st = Ok (st', true) /\ c11_event_flag_free (Some at_) st = Ok (st', true) /\
    live st' = live st ∖ flag_objects at_ /\ codes st' = codes st.
Proof.
  intros Hf. unfold flag_objects in *.
  destruct (object_destroy_ok (at_, CvMember) st) as (st1 & H1 & Hl1 & Hc1); [set_solver|].
  destruct (object_destroy_ok (at_, MtxMember) st1) as (st2 & H2 & Hl2 & Hc2); [set_solver|].
  exists st2. unfold event_flag_free, c11_event_flag_free. rewrite !(M_bind_ok _ _ _ _ _ H1). cbn [Z.eqb].
  rewrite !(M_bind_ok _ _ _ _ _ H2). split; [done|]. split; [done|]. split; [set_solver|congruence].
Qed.

(** ** Queues *)

(** The tests of [ts_queue_init] that come before the first object. *)
Definition usable (params : option ts_queue_create_params_t) : bool :=
  match params with
  | Some p =>
      match qp_queue p, qp_ptr_array p with
      | Some _, Some _ => (0 <? qp_size p) && (Z.land (qp_size p) (u64 (qp_size p - 1)) =? 0)
      | _, _ => false
      end
  | None => false
  end.

Lemma init_refused params mtx_ok cnd_ok full_ok :
  usable params && mtx_ok && cnd_ok && full_ok = false ->
  snd (TsQueue.ts_queue_init params mtx_ok cnd_ok full_ok) = false.
Proof.
  intros H. unfold TsQueue.ts_queue_init, usable in *. destruct params as [p|]; [|done].
  destruct (qp_queue p), (qp_ptr_array p); try done. cbn [TsQueue.size].
  destruct ((0 <? qp_size p) && _); cbn in *; [|done]. destruct mtx_ok; [|done]. by destruct cnd_ok, full_ok.
Qed.

Lemma init_created params :
  usable params = true -> exists q, TsQueue.ts_queue_init params true true true = (Some q, true).
Proof.
  intros H. unfold TsQueue.ts_queue_init, usable in *. destruct params as [p|]; [|done].
  destruct (qp_queue p), (qp_ptr_array p); try done. cbn [TsQueue.size]. rewrite H. cbn. by eexists.
Qed.

Lemma ts_queue_init_usable at_ params st :
  ts_queue_init at_ params st =
    if usable params then
      ('(_, mtx_ok) ← mutex_new at_ {| owner := None |};
       if negb mtx_ok then mret (TsQueue.ts_queue_init params false true true)
       else
         c ← object_init (at_, CndMember);
         full_ok ← (if c =? 0 then c' ← object_init (at_, FullCndMember); mret (c' =? 0) else mret false);
         if negb ((c =? 0) && full_ok)
         then _ ← mutex_free (Some at_); mret (TsQueue.ts_queue_init params true (c =? 0) full_ok)
         else mret (TsQueue.ts_queue_init params true true true)) st
    else Ok (st, TsQueue.ts_queue_init params true true true).
Proof.
  unfold ts_queue_init, usable. destruct params as [p|]; [|done].
  destruct (qp_queue p), (qp_ptr_array p); try done. by destruct ((0 <? qp_size p) && _).
Qed.

(** A queue that could not be created leaves [cnd] behind if [full_cnd] is what failed. *)
Lemma ts_queue_init_objects at_ params st :
  queue_objects at_ ## live st ->
  exists st' r, ts_queue_init at_ params st = Ok (st', r) /\
    (if snd r then live st' = queue_objects at_ ∪ live st /\ usable params = true /\ is_Some (fst r)
     else live st' = live st \/ live st' = {[(at_, CndMember)]} ∪ live st) /\
    (codes st = [] -> snd r = usable params /\ codes st' = []).
Proof.
  intros Hf. unfold queue_objects in *. rewrite ts_queue_init_usable. destruct (usable params) eqn:Hu.
  2: { do 2 eexists. split; [done|]. rewrite init_refused by by rewrite Hu. by split; [left|]. }
  assert ((at_, MtxMember) ∉ live st /\ (at_, CndMember) ∉ live st /\ (at_, FullCndMember) ∉ live st)
    as (Hm & Hn & Hx) by set_solver + Hf. clear Hf.
  destruct (init_created params Hu) as [q Hq].
  destruct (mutex_new_objects at_ {| owner := None |} st) as (st1 & m & b & H1 & Hl1 & Hc1);
    unfold mutex_objects in *; [set_solver + Hm|].
  rewrite (M_bind_ok _ _ _ _ _ H1). destruct b; cbn [negb].
  2: { do 2 eexists. split; [done|]. rewrite init_refused by by rewrite Hu.
       split; [left; rewrite Hl1; set_solver +|]. intros [? _]%Hc1. done. }
  destruct (object_init_ok (at_, CndMember) st1) as (st2 & c2 & H2 & Hl2 & Hc2);
    [rewrite Hl1; set_solver + Hn|]. rewrite (M_bind_ok _ _ _ _ _ H2).
  destruct (c2 =? 0) eqn:E2.
  2: { rewrite (M_bind_ok _ _ st2 st2 false) by done. cbn [andb negb].
       destruct (mutex_free_objects at_ st2) as (st3 & H3 & Hl3 & _); unfold mutex_objects in *;
         [rewrite Hl2, Hl1; set_solver +|].
       rewrite (M_bind_ok _ _ _ _ _ H3). do 2 eexists. split; [done|].
       rewrite init_refused by by rewrite Hu. split; [left; rewrite Hl3, Hl2, Hl1; set_solver + Hm|].
       intros [_ H]%Hc1. apply Hc2 in H as [-> _]. done. }
  destruct (object_init_ok (at_, FullCndMember) st2) as (st3 & c3 & H3 & Hl3 & Hc3);
    [rewrite Hl2, Hl1; set_solver + Hx|].
  rewrite (M_bind_ok _ _ st2 st3 (c3 =? 0)) by by rewrite (M_bind_ok _ _ _ _ _ H3).
  destruct (c3 =? 0) eqn:E3; cbn [andb negb].
  - do 2 eexists. split; [done|]. rewrite Hq. cbn.
    split; [split_and!; [rewrite Hl3, Hl2, Hl1; set_solver +|done|by eexists]|].
    intros [_ H]%Hc1. apply Hc2 in H as [_ H]. apply Hc3 in H as [_ H]. done.
  - destruct (mutex_free_objects at_ st3) as (st4 & H4 & Hl4 & _); unfold mutex_objects in *;
      [rewrite Hl3, Hl2, Hl1; set_solver +|].
    rewrite (M_bind_ok _ _ _ _ _ H4). do 2 eexists. split; [done|].
    rewrite init_refused by by rewrite Hu. split; [right; rewrite Hl4, Hl3, Hl2, Hl1; set_solver + Hm|].
    intros [_ H]%Hc1. apply Hc2 in H as [_ H]. apply Hc3 in H as [-> _]. done.
Qed.

Lemma ts_queue_destroy_objects at_ st :
  queue_objects at_ ⊆ live st ->
  exists st', ts_queue_destroy (Some at_) st = Ok (st', tt) /\
    live st' = live st ∖ {[(at_, MtxMember); (at_, CndMember)]} /\ codes st' = codes st.
Proof.
  intros Hf. unfold queue_objects in *. unfold ts_queue_destroy. objects_step.
  destruct (mutex_free_objects at_ st0) as (st2 & H2 & Hl2 & Hc2); [unfold mutex_objects; set_solver|].
  unfold mutex_objects in *. rewrite H2. exists st2. split; [done|]. split; [set_solver|congruence].
Qed.

(** The queue cannot be initialised where [full_cnd] is left over. *)
Lemma ts_queue_init_again at_ params st :
  usable params = true -> codes st = [] -> leftover at_ ⊆ live st ->
  {[(at_, MtxMember); (at_, CndMember)]} ## live st ->
  ts_queue_init at_ params st = Err BadObject.
Proof.
  intros Hu Hcs Hl Hf. unfold leftover in *. rewrite ts_queue_init_usable, Hu.
  destruct (mutex_new_objects at_ {| owner := None |} st) as (st1 & m & b & H1 & Hl1 & Hc1);
    [unfold mutex_objects; set_solver|]. unfold mutex_objects in *.
  destruct (Hc1 Hcs) as [-> Hcs1]. rewrite (M_bind_ok _ _ _ _ _ H1). cbn [negb].
  destruct (object_init_ok (at_, CndMember) st1) as (st2 & c & H2 & Hl2 & Hc2); [set_solver|].
  destruct (Hc2 Hcs1) as [-> Hcs2]. rewrite (M_bind_ok _ _ _ _ _ H2). cbn [Z.eqb].
  apply M_bind_err, M_bind_err, object_init_again. rewrite Hl2. set_solver.
Qed.

(** ** Pools and dispatch queues *)

Section lifecycle.
Context (timedout : Z) (now : timespec).
#[local] Instance the_port : BoundedQueue ts_queue_t := port_queue timedout now.

Lemma pool_create_objects at_ params qp m st st' p m' :
  queue_objects at_ ## live st ->
  pool_create timedout now at_ params qp m st = Ok (st', (Some p, true, m')) ->
  live st' = queue_objects at_ ∪ live st /\ usable qp = true /\ pp_pool params = true /\ is_Some (q p).
Proof.
  intros Hf H. unfold pool_create in H. destruct (pp_pool params) eqn:Hpp; cbn [negb] in H.
  2: { unfold lift, Pool.pool_create in H. rewrite Hpp in H. discriminate H. }
  destruct (ts_queue_init_objects at_ qp st Hf) as (st1 & r & H1 & Hl1 & _).
  rewrite (M_bind_ok _ _ _ _ _ H1) in H. unfold lift, Pool.pool_create, returned in H. rewrite Hpp in H. cbn [negb] in H.
  destruct (snd r); [|discriminate H]. destruct Hl1 as (Hl1 & Hu & [qu Hq]). rewrite Hq in H.
  destruct (pool_create_loop _ _ _ _ _) as [lr|] eqn:Hloop; [|discriminate H].
  injection H as <- <- _. by split_and!.
Qed.

Lemma pool_destroy_objects at_ p st :
  queue_objects at_ ⊆ live st -> is_Some (q p) ->
  exists st', pool_destroy at_ (Some p) st = Ok (st', Pool.pool_destroy (Some p)) /\
    live st' = live st ∖ {[(at_, MtxMember); (at_, CndMember)]} /\ codes st' = codes st.
Proof.
  intros Hf [qu Hq]. unfold pool_destroy. rewrite Hq.
  destruct (ts_queue_destroy_objects at_ st Hf) as (st1 & H1 & Hl1 & Hc1).
  rewrite (M_bind_ok _ _ _ _ _ H1). by eexists.
Qed.

Lemma pool_create_again at_ params qp m st :
  pp_pool params = true -> usable qp = true -> codes st = [] -> leftover at_ ⊆ live st ->
  {[(at_, MtxMember); (at_, CndMember)]} ## live st ->
  pool_create timedout now at_ params qp m st = Err BadObject.
Proof.
  intros Hpp Hu Hc Hl Hf. unfold pool_create. rewrite Hpp. cbn [negb].
  by apply M_bind_err, ts_queue_init_again.
Qed.

Lemma three_distinct (a b c : Z) : NoDup [a; b; c] -> a <> b /\ a <> c /\ b <> c.
Proof.
  rewrite !NoDup_cons, !not_elem_of_cons. intros ((H1 & H2 & _) & (H3 & _) & _). done.
Qed.

Lemma dispatch_queue_create_objects sig_at q_at p_at params qp pqp m pd task st st' d :
  NoDup [sig_at; q_at; p_at] ->
  flag_objects sig_at ∪ queue_objects q_at ∪ queue_objects p_at ## live st ->
  dispatch_queue_create timedout now sig_at q_at p_at params qp pqp m pd task st = Ok (st', d) ->
  live st' = queue_objects p_at ∪ (queue_objects q_at ∪ (flag_objects sig_at ∪ live st)) /\
  usable qp = true /\ is_Some (queue d) /\ (exists p, p_pool d = Some p /\ is_Some (q p)) /\
  (exists p, params = Some p /\ negb (dp_queue_size p =? 0) && dp_p_queue p = true).
Proof.
  intros Hnd [[HF HQ]%disjoint_union_l HP]%disjoint_union_l H. unfold dispatch_queue_create in H. destruct params as [p|]; [|discriminate H].
  destruct (negb (dp_queue_size p =? 0) && dp_p_queue p) eqn:Ht; [|discriminate H].
  destruct (three_distinct _ _ _ Hnd) as (Hsq & Hsp & Hqp).
  destruct (event_flag_new_objects sig_at {| val := 0 |} st) as (st1 & f & b & H1 & Hl1 & _); [done|].
  unfold signal_new in H. rewrite (M_bind_ok _ _ _ _ _ H1) in H. destruct b; [|discriminate H]. cbn [negb] in H.
  destruct (ts_queue_init_objects q_at qp st1) as (st2 & r & H2 & Hl2 & _).
  { rewrite Hl1. apply disjoint_union_r. split; [by apply queue_flag_apart|done]. }
  rewrite (M_bind_ok _ _ _ _ _ H2) in H. unfold returned in H. destruct (snd r); [|discriminate H].
  destruct Hl2 as (Hl2 & Hu & [qu Hqu]). rewrite Hqu in H. rewrite bool_decide_eq_true_2 in H by by eexists. cbn [negb] in H.
  unfold DispatchQueue.dispatch_queue_create in H.
  pose proof Ht as Hvalid. apply andb_true_iff in Ht as [Ht1 Ht2]. rewrite Ht1, Ht2 in H. cbn in H.
  destruct (pp_pool (dp_pool_params p)) eqn:Hpp.
  2: { unfold lift, Pool.pool_create in H. rewrite Hpp in H. discriminate H. }
  destruct (ts_queue_init_objects p_at pqp st2) as (st3 & r3 & H3 & Hl3 & _).
  { rewrite Hl2, Hl1, !disjoint_union_r.
    split_and!; [by apply queue_queue_apart|by apply queue_flag_apart|done]. }
  rewrite (M_bind_ok _ _ st2 st3 (returned r3)) in H by by rewrite (M_bind_ok _ _ _ _ _ H3).
  unfold lift, Pool.pool_create, returned in H. rewrite Hpp in H. cbn [negb] in H.
  destruct (snd r3); [|discriminate H]. destruct Hl3 as (Hl3 & Hu3 & [qu3 Hqu3]). rewrite Hqu3 in H.
  destruct (pool_create_loop _ _ _ _ _) as [lr|] eqn:Hloop; [|discriminate H]. cbn in H.
  destruct (task =? 0); [discriminate H|]. injection H as <- <-. cbn.
  split; [by rewrite Hl3, Hl2, Hl1|]. split; [done|]. split; [by eexists|]. split; [eexists; split; [done|by eexists]|by eexists].
Qed.

(** A dispatch queue cannot be created where [full_cnd] of its queue is left over. *)
Lemma dispatch_queue_create_again sig_at q_at p_at p qp pqp m pd task st :
  negb (dp_queue_size p =? 0) && dp_p_queue p = true -> usable qp = true -> codes st = [] ->
  flag_objects sig_at ## live st -> flag_objects sig_at ## {[(q_at, MtxMember); (q_at, CndMember)]} ->
  leftover q_at ⊆ live st -> {[(q_at, MtxMember); (q_at, CndMember)]} ## live st ->
  dispatch_queue_create timedout now sig_at q_at p_at (Some p) qp pqp m pd task st = Err BadObject.
Proof.
  intros Ht Hu Hc Hf Hfq Hl Hq. unfold dispatch_queue_create. rewrite Ht.
  destruct (event_flag_new_objects sig_at {| val := 0 |} st Hf) as (st1 & f & b & H1 & Hl1 & Hc1).
  destruct (Hc1 Hc) as [-> Hc1']. unfold signal_new. rewrite (M_bind_ok _ _ _ _ _ H1). cbn [negb].
  apply M_bind_err, ts_queue_init_again; try done; rewrite Hl1; [set_solver + Hl|].
  apply disjoint_union_r. split; [by symmetry|done].
Qed.

(** The worker's pool, its queue and its signal, in the order in which they go. *)
Lemma dispatch_queue_finish_objects sig_at q_at p_at d st live0 :
  NoDup [sig_at; q_at; p_at] ->
  flag_objects sig_at ∪ queue_objects q_at ∪ queue_objects p_at ## live0 ->
  live st = queue_objects p_at ∪ (queue_objects q_at ∪ (flag_objects sig_at ∪ live0)) ->
  is_Some (queue d) -> (exists p, p_pool d = Some p /\ is_Some (q p)) ->
  exists st' d', dispatch_queue_finish sig_at q_at p_at d st = Ok (st', d') /\
    destroy_finish d true = Ok d' /\
    live st' = leftover p_at ∪ (leftover q_at ∪ live0) /\ codes st' = codes st.
Proof.
  intros Hnd Hf Hl [qu Hq] (p & Hp & Hqp). unfold dispatch_queue_finish. rewrite Hp, Hq.
  destruct (three_distinct _ _ _ Hnd) as (Hsq & Hsp & Hqp').
  pose proof (queue_flag_apart p_at sig_at ltac:(done)) as Ha1.
  pose proof (queue_flag_apart q_at sig_at ltac:(done)) as Ha2.
  pose proof (queue_queue_apart p_at q_at ltac:(done)) as Ha3.
  assert (forall a, queue_objects a = {[(a, MtxMember); (a, CndMember)]} ∪ leftover a) as Hsplit by (intros a; done).
  destruct (pool_destroy_objects p_at p st) as (st1 & H1 & Hl1 & Hc1); [rewrite Hl; set_solver +|done|].
  rewrite (M_bind_ok _ _ _ _ _ H1).
  destruct (ts_queue_destroy_objects q_at st1) as (st2 & H2 & Hl2 & Hc2).
  { rewrite Hl1, Hl. rewrite (Hsplit p_at) in Ha3 |- *. set_solver + Ha3. }
  rewrite (M_bind_ok _ _ _ _ _ H2).
  destruct (event_flag_free_objects sig_at st2) as (st3 & H3 & _ & Hl3 & Hc3).
  { rewrite Hl2, Hl1, Hl. rewrite (Hsplit p_at), (Hsplit q_at) in *. set_solver + Ha1 Ha2. }
  unfold signal_free. rewrite (M_bind_ok _ _ _ _ _ H3). cbn. do 2 eexists. split; [done|]. split; [done|].
  split; [|congruence]. rewrite Hl3, Hl2, Hl1, Hl. rewrite (Hsplit p_at), (Hsplit q_at) in *.
  assert (leftover p_at ## {[(p_at, MtxMember); (p_at, CndMember)]}) as Hd1 by (unfold leftover; set_solver +).
  assert (leftover q_at ## {[(q_at, MtxMember); (q_at, CndMember)]}) as Hd2 by (unfold leftover; set_solver +).
  clear - Hf Ha1 Ha2 Ha3 Hd1 Hd2. revert Hf Ha1 Ha2 Ha3 Hd1 Hd2.
  generalize (leftover p_at), (leftover q_at), (flag_objects sig_at).
  generalize ({[(p_at, MtxMember); (p_at, CndMember)]} : gset object), ({[(q_at, MtxMember); (q_at, CndMember)]} : gset object).
  intros P Q X Y F. set_solver.
Qed.
End lifecycle.

(** ** The property *)

Lemma queue_gone (at_ : Z) (L : gset object) :
  queue_objects at_ ## L ->
  (queue_objects at_ ∪ L) ∖ {[(at_, MtxMember); (at_, CndMember)]} = leftover at_ ∪ L.
Proof.
  intros Hf. unfold queue_objects, leftover in *.
  assert (leftover at_ ## {[(at_, MtxMember); (at_, CndMember)]}) as Hd by (unfold leftover; set_solver +).
  unfold leftover in Hd. revert Hf Hd.
  generalize ({[(at_, MtxMember); (at_, CndMember)]} : gset object), ({[(at_, FullCndMember)]} : gset object).
  intros X F. set_solver.
Qed.

Lemma queue_free_again (at_ : Z) (L : gset object) :
  queue_objects at_ ## L -> {[(at_, MtxMember); (at_, CndMember)]} ## leftover at_ ∪ L.
Proof.
  intros Hf. unfold queue_objects in Hf. apply disjoint_union_l in Hf as [Hf _].
  apply disjoint_union_r. split; [unfold leftover; set_solver +|done].
Qed.

Section property.
Context (timedout : Z) (now : timespec).

End property.

(** ** Witness *)

Definition no_objects : objects := {| live := ∅; codes := [] |}.

Definition ex_params : option ts_queue_create_params_t := Some (ex_tsq_params 4 [7; 7; 7; 7]).

