(* ===== verification/FreeRtos.v ===== *)
(** The FreeRTOS port: the thread-safe queue, the event flags and the mutex of
    inc/cutils/freertos/, thin layers over the kernel's queues, event groups and
    semaphores.

    The kernel is not part of the repository: its functions are the fields of
    [KernelQueue], [EventGroup] and [Semaphore], and [KernelQueueLaws] and
    [EventGroupLaws] state their documented behaviour.  A kernel call either
    returns or, with a timeout that is not zero, waits. *)
From S2P Require Import Prelude TsQueue EventFlag.
From stdpp Require Import list gmap.
From Stdlib Require Import ZArith Lia.
Local Open Scope Z_scope.

Definition pdPASS : Z := 1.
Definition pdTRUE : Z := 1.
Definition pdFALSE : Z := 0.

(** ** The kernel *)

(** [xQueueSend] returns its code, [xQueueReceive] also the item it wrote; the
    versions for interrupts also whether a task of higher priority was woken. *)
Class KernelQueue (K : Type) := {
  xQueueCreateStatic : Z -> option K;
  xQueueSend : K -> Z -> Z -> K * pause Z;
  xQueueReceive : K -> Z -> K * pause (Z * option Z);
  xQueueSendFromISR : K -> Z -> K * Z * Z;
  xQueueReceiveFromISR : K -> K * Z * option Z * Z;
  uxQueueMessagesWaiting : K -> Z;
  kq_items : K -> list Z;
  kq_length : K -> Z
}.

(** A queue of [kq_length] cells is first-in first-out; only a call with a
    timeout waits.  The code for a full or an empty queue is [pdFALSE]. *)
Class KernelQueueLaws (K : Type) {kq : KernelQueue K} : Prop := {
  kq_create n : 0 < n -> exists k, xQueueCreateStatic n = Some k /\ kq_items k = [] /\ kq_length k = n;
  kq_send_room k x ticks : zlen (kq_items k) < kq_length k ->
    exists k', xQueueSend k x ticks = (k', Returns pdPASS) /\
      kq_items k' = kq_items k ++ [x] /\ kq_length k' = kq_length k;
  kq_send_full k x : kq_length k <= zlen (kq_items k) -> xQueueSend k x 0 = (k, Returns pdFALSE);
  kq_receive_some k x l ticks : kq_items k = x :: l ->
    exists k', xQueueReceive k ticks = (k', Returns (pdPASS, Some x)) /\
      kq_items k' = l /\ kq_length k' = kq_length k;
  kq_receive_none k : kq_items k = [] -> xQueueReceive k 0 = (k, Returns (pdFALSE, None));
  kq_receive_waits k ticks : kq_items k = [] -> ticks <> 0 ->
    xQueueReceive k ticks = (k, Waits (KernelWait ticks));
  kq_send_isr k x : exists woken, xQueueSendFromISR k x =
    match xQueueSend k x 0 with (k', Returns c) => (k', c, woken) | (k', Waits _) => (k', pdFALSE, woken) end;
  kq_receive_isr k : exists woken, xQueueReceiveFromISR k =
    match xQueueReceive k 0 with
    | (k', Returns (c, o)) => (k', c, o, woken)
    | (k', Waits _) => (k', pdFALSE, None, woken)
    end;
  kq_waiting k : uxQueueMessagesWaiting k = zlen (kq_items k)
}.

(** The bits of an event group, and the three calls.  [xEventGroupWaitBits]
    returns the bits. *)
Class EventGroup (G : Type) := {
  xEventGroupCreateStatic : option G;
  xEventGroupWaitBits : G -> Z -> bool -> bool -> Z -> G * pause Z;
  xEventGroupSetBits : G -> Z -> G;
  xEventGroupClearBits : G -> Z -> G;
  eg_bits : G -> Z
}.

(** The bits returned are those before the awaited ones are cleared, which
    happens only if the condition holds. *)
Class EventGroupLaws (G : Type) {eg : EventGroup G} : Prop := {
  eg_wait_now g bits clear all ticks :
    (if (all : bool) then Z.land (eg_bits g) bits = bits else Z.land (eg_bits g) bits <> 0) ->
    exists g', xEventGroupWaitBits g bits clear all ticks = (g', Returns (eg_bits g)) /\
      eg_bits g' = if (clear : bool) then Z.ldiff (eg_bits g) bits else eg_bits g;
  eg_wait_fails g bits clear all :
    ~ (if (all : bool) then Z.land (eg_bits g) bits = bits else Z.land (eg_bits g) bits <> 0) ->
    xEventGroupWaitBits g bits clear all 0 = (g, Returns (eg_bits g));
  eg_set g bits : eg_bits (xEventGroupSetBits g bits) = Z.lor (eg_bits g) bits;
  eg_clear g bits : eg_bits (xEventGroupClearBits g bits) = Z.ldiff (eg_bits g) bits
}.

(** A mutex semaphore: [xSemaphoreTake] and [xSemaphoreGive] return their
    codes. *)
Class Semaphore (S : Type) := {
  xSemaphoreCreateMutexStatic : option S;
  xSemaphoreTake : S -> Z -> S * pause Z;
  xSemaphoreGive : S -> S * Z
}.

Section port.
Context (portMAX_DELAY : Z) (pdMS_TO_TICKS : Z -> Z).

Definition wait_ticks (wait_ms : Z) : Z :=
  if wait_ms =? WAIT_FOREVER then portMAX_DELAY else pdMS_TO_TICKS wait_ms.

(** ** ts_queue.h *)

Section ts_queue.
Context {K : Type} `{!KernelQueue K}.

Record ts_queue_t := { handle : option K }.

(** [fq_queue] is the queue object the parameters point to. *)
Record ts_queue_create_params_t := { fq_queue : ts_queue_t; fq_size : Z }.

(** The queue object and whether it is returned; the kernel's failure is not
    looked at. *)
Definition ts_queue_init (params : option ts_queue_create_params_t) : option ts_queue_t * bool :=
  match params with
  | Some p =>
      if (fq_size p =? 0) || negb (Z.land (fq_size p) (fq_size p - 1) =? 0)
      then (Some (fq_queue p), false)
      else (Some {| handle := xQueueCreateStatic (fq_size p) |}, true)
  | None => (None, false)
  end.

Definition ts_queue_destroy (queue : option ts_queue_t) : option ts_queue_t :=
  match queue with
  | Some q => match handle q with Some _ => Some {| handle := None |} | None => Some q end
  | None => None
  end.

Definition ts_queue_enqueue (queue : option ts_queue_t) (item wait_ms : Z)
  : option ts_queue_t * pause bool :=
  match queue with
  | Some q =>
      match handle q with
      | Some k =>
          let '(k, r) := xQueueSend k item (wait_ticks wait_ms) in
          (Some {| handle := Some k |},
           match r with Waits w => Waits w | Returns c => Returns (c =? pdPASS) end)
      | None => (queue, Returns false)
      end
  | None => (None, Returns false)
  end.

(** The item is what the kernel wrote through [item]. *)
Definition ts_queue_dequeue (queue : option ts_queue_t) (wait_ms : Z)
  : option ts_queue_t * pause (bool * option Z) :=
  match queue with
  | Some q =>
      match handle q with
      | Some k =>
          let '(k, r) := xQueueReceive k (wait_ticks wait_ms) in
          (Some {| handle := Some k |},
           match r with Waits w => Waits w | Returns (c, o) => Returns (c =? pdPASS, o) end)
      | None => (queue, Returns (false, None))
      end
  | None => (None, Returns (false, None))
  end.

(** [higher_priority_task_woken] is the flag's value, nothing for NULL. *)
Definition ts_queue_enqueue_from_isr (queue : option ts_queue_t) (item : Z)
    (higher_priority_task_woken : option bool) : option ts_queue_t * option bool * bool :=
  match queue with
  | Some q =>
      match handle q with
      | Some k =>
          let '(k, res, woken) := xQueueSendFromISR k item in
          (Some {| handle := Some k |},
           match higher_priority_task_woken with
           | Some b => if negb (woken =? pdFALSE) then Some true else Some b
           | None => None
           end, res =? pdPASS)
      | None => (queue, higher_priority_task_woken, false)
      end
  | None => (None, higher_priority_task_woken, false)
  end.

Definition ts_queue_dequeue_from_isr (queue : option ts_queue_t)
    (higher_priority_task_woken : option bool)
  : option ts_queue_t * option bool * (bool * option Z) :=
  match queue with
  | Some q =>
      match handle q with
      | Some k =>
          let '(k, res, item, woken) := xQueueReceiveFromISR k in
          (Some {| handle := Some k |},
           match higher_priority_task_woken with
           | Some b => if negb (woken =? pdFALSE) then Some true else Some b
           | None => None
           end, (res =? pdPASS, item))
      | None => (queue, higher_priority_task_woken, (false, None))
      end
  | None => (None, higher_priority_task_woken, (false, None))
  end.

Definition ts_queue_get_count (queue : option ts_queue_t) : Z :=
  match queue with
  | Some q => match handle q with Some k => uxQueueMessagesWaiting k | None => 0 end
  | None => 0
  end.
End ts_queue.

(** ** event_flag.h *)

Definition EVENT_FLAG_VALID_BITS : Z := 16777215.

Section event_flag.
Context {G : Type} `{!EventGroup G}.

Record event_flag_t := { group : option G }.

Definition event_flag_new (flags : option event_flag_t) : option event_flag_t * bool :=
  match flags with
  | Some _ => let h := xEventGroupCreateStatic in
              (Some {| group := h |}, match h with Some _ => true | None => false end)
  | None => (None, false)
  end.

Definition event_flag_free (flags : option event_flag_t) : option event_flag_t * bool :=
  match flags with
  | Some f => match group f with Some _ => (Some {| group := None |}, true) | None => (flags, false) end
  | None => (None, false)
  end.

(** [xWaitForAllBits] and [xClearOnExit]. *)
Definition wait_for_all (wait_type : event_flag_wait_type_e) : bool :=
  match wait_type with WAIT_AND | WAIT_AND_CLEAR => true | _ => false end.

Definition clear_on_exit (wait_type : event_flag_wait_type_e) : bool :=
  match wait_type with WAIT_OR_CLEAR | WAIT_AND_CLEAR => true | _ => false end.

(** What is returned, and written through [actual_flags], for the bits [got]. *)
Definition wait_result (got required_flags : Z) (wait_type : event_flag_wait_type_e)
  : bool * option Z :=
  (if wait_for_all wait_type then Z.land got required_flags =? required_flags
   else negb (Z.land got required_flags =? 0), Some got).

Definition event_flag_wait (flags : option event_flag_t) (required_flags : Z)
    (wait_type : event_flag_wait_type_e) (wait_ms : Z)
  : option event_flag_t * pause (bool * option Z) :=
  match flags with
  | Some f =>
      match group f with
      | Some g =>
          let '(g, r) := xEventGroupWaitBits g (Z.land required_flags EVENT_FLAG_VALID_BITS)
                           (clear_on_exit wait_type) (wait_for_all wait_type) (wait_ticks wait_ms) in
          (Some {| group := Some g |},
           match r with
           | Waits w => Waits w
           | Returns got => Returns (wait_result got required_flags wait_type)
           end)
      | None => (flags, Returns (false, None))
      end
  | None => (None, Returns (false, None))
  end.

Definition event_flag_send (flags : option event_flag_t) (flag_bits : Z)
  : option event_flag_t * bool :=
  match flags with
  | Some f =>
      match group f with
      | Some g =>
          (Some {| group := Some (xEventGroupSetBits g (Z.land flag_bits EVENT_FLAG_VALID_BITS)) |}, true)
      | None => (flags, false)
      end
  | None => (None, false)
  end.

Definition event_flag_clear (flags : option event_flag_t) (flag_bits : Z)
  : option event_flag_t * bool :=
  match flags with
  | Some f =>
      match group f with
      | Some g =>
          (Some {| group := Some (xEventGroupClearBits g (Z.land flag_bits EVENT_FLAG_VALID_BITS)) |},
           true)
      | None => (flags, false)
      end
  | None => (None, false)
  end.
End event_flag.

(** ** mutex.h *)

Section mutex.
Context {S : Type} `{!Semaphore S}.

Record mutex_t := { semaphore : option S }.

Definition mutex_new (mutex : option mutex_t) : option mutex_t * bool :=
  match mutex with
  | Some _ => let h := xSemaphoreCreateMutexStatic in
              (Some {| semaphore := h |}, match h with Some _ => true | None => false end)
  | None => (None, false)
  end.

Definition mutex_free (mutex : option mutex_t) : option mutex_t :=
  match mutex with
  | Some m => match semaphore m with Some _ => Some {| semaphore := None |} | None => Some m end
  | None => None
  end.

Definition mutex_lock (mutex : option mutex_t) (wait_ms : Z) : option mutex_t * pause bool :=
  match mutex with
  | Some m =>
      match semaphore m with
      | Some s =>
          let '(s, r) := xSemaphoreTake s (wait_ticks wait_ms) in
          (Some {| semaphore := Some s |},
           match r with Waits w => Waits w | Returns c => Returns (c =? pdTRUE) end)
      | None => (mutex, Returns false)
      end
  | None => (None, Returns false)
  end.

Definition mutex_unlock (mutex : option mutex_t) : option mutex_t * bool :=
  match mutex with
  | Some m =>
      match semaphore m with
      | Some s => let '(s, c) := xSemaphoreGive s in (Some {| semaphore := Some s |}, c =? pdTRUE)
      | None => (mutex, false)
      end
  | None => (None, false)
  end.
End mutex.
End port.
Arguments ts_queue_t : clear implicits.
Arguments ts_queue_create_params_t : clear implicits.
Arguments event_flag_t : clear implicits.
Arguments mutex_t : clear implicits.

(** ** The queue behind the interface of the other components

    A wait of less than a tick does not wait, so only the two timeouts that the
    components use are determined: no wait, and [WAIT_FOREVER]. *)
Section instance.
Context (portMAX_DELAY : Z) (pdMS_TO_TICKS : Z -> Z).
Context (max_delay : portMAX_DELAY <> 0) (no_ticks : pdMS_TO_TICKS 0 = 0).
Context {K : Type} `{!KernelQueue K} `{!KernelQueueLaws K}.

Lemma wait_ticks_none : wait_ticks portMAX_DELAY pdMS_TO_TICKS NO_SLEEP = 0.
Proof using no_ticks. exact no_ticks. Qed.

Lemma wait_ticks_forever : wait_ticks portMAX_DELAY pdMS_TO_TICKS WAIT_FOREVER = portMAX_DELAY.
Proof. done. Qed.

#[export] Instance freertos_queue : BoundedQueue (ts_queue_t K) := {
  bq_enqueue q x :=
    let '(q', r) := ts_queue_enqueue portMAX_DELAY pdMS_TO_TICKS (Some q) x NO_SLEEP in
    Ok (default q q', match r with Returns b => b | Waits _ => false end);
  bq_dequeue q wait_ms :=
    let '(q', r) := ts_queue_dequeue portMAX_DELAY pdMS_TO_TICKS (Some q) wait_ms in
    Ok (default q q', match r with
                      | Returns (b, o) => Returns (if (b : bool) then o else None)
                      | Waits w => Waits w
                      end);
  bq_items q := match handle q with Some k => kq_items k | None => [] end;
  bq_capacity q := match handle q with Some k => kq_length k | None => 0 end;
  bq_ok _ q := is_Some (handle q)
}.

(** The FreeRTOS queue keeps the promises of a bounded queue, so that the pool,
    the notifier and the dispatch queue are correct on this port too. *)
#[export] Instance freertos_queue_laws : BoundedQueueLaws (ts_queue_t K) (bq := freertos_queue).
Proof using max_delay no_ticks KernelQueueLaws0.
  split; cbn -[wait_ticks]; [done|..]; intros n [h]; cbn -[wait_ticks].
  - intros x _ [k ->] _ Hr. destruct (kq_send_room k x (wait_ticks portMAX_DELAY pdMS_TO_TICKS NO_SLEEP) Hr)
      as (k' & -> & Hi & Hl). by eexists.
  - intros x _ [k ->] Hf. rewrite wait_ticks_none, kq_send_full by done. done.
  - intros x l wait_ms _ [k ->] Hi.
    destruct (kq_receive_some k x l (wait_ticks portMAX_DELAY pdMS_TO_TICKS wait_ms) Hi)
      as (k' & -> & Hi' & Hl). by eexists.
  - intros _ [k ->] Hi. by rewrite wait_ticks_none, kq_receive_none.
  - intros _ [k ->] Hi. rewrite wait_ticks_forever, kq_receive_waits by done. by eexists.
Qed.

(** The calls for interrupts are the calls that do not wait, and they only ever
    set the flag of their caller. *)
Lemma isr_calls q x woken :
  (exists w', ts_queue_enqueue_from_isr (Some q) x woken =
     match ts_queue_enqueue portMAX_DELAY pdMS_TO_TICKS (Some q) x NO_SLEEP with
     | (q', r) => (q', w', match r with Returns b => b | Waits _ => false end)
     end /\ (woken = Some true -> w' = Some true) /\ (woken = None -> w' = None)) /\
  (exists w', ts_queue_dequeue_from_isr (Some q) woken =
     match ts_queue_dequeue portMAX_DELAY pdMS_TO_TICKS (Some q) NO_SLEEP with
     | (q', r) => (q', w', match r with Returns b => b | Waits _ => (false, None) end)
     end /\ (woken = Some true -> w' = Some true) /\ (woken = None -> w' = None)).
Proof using no_ticks KernelQueueLaws0.
  unfold ts_queue_enqueue_from_isr, ts_queue_dequeue_from_isr, ts_queue_enqueue, ts_queue_dequeue.
  rewrite wait_ticks_none. destruct q as [[k|]]; cbn; split; try by exists woken.
  - destruct (kq_send_isr k x) as (kw & ->). destruct (xQueueSend k x 0) as [k' [w|c]];
      eexists; (split; [reflexivity|]); (split; [intros ->; by destruct (negb _)|by intros ->]).
  - destruct (kq_receive_isr k) as (kw & ->). destruct (xQueueReceive k 0) as [k' [w|[c o]]];
      eexists; (split; [reflexivity|]); (split; [intros ->; by destruct (negb _)|by intros ->]).
Qed.
End instance.

(** ** Event flags *)

Lemma clear_bits v bits :
  is_u32 v -> Z.land v (u32 (Z.lnot (Z.land v bits))) = Z.ldiff v bits.
Proof.
  intros Hv. apply Z.bits_inj'. intros i Hi. rewrite Z.ldiff_spec.
  destruct (decide (i < 32)) as [Hlt|Hge].
  - rewrite land_not_bit, Z.land_spec by done. by destruct (Z.testbit v i).
  - assert (Z.testbit v i = false) as Hf.
    { apply is_u32_land in Hv. rewrite <- Hv, Z.land_spec, (Z.ones_spec_high 32 i) by lia.
      apply andb_false_r. }
    by rewrite Z.land_spec, Hf.
Qed.


(** ** Witness: an event group that is its bits *)

#[local] Instance ex_group : EventGroup Z := {
  xEventGroupCreateStatic := Some 0;
  xEventGroupWaitBits g bits clear all ticks :=
    if (if (all : bool) then Z.land g bits =? bits else negb (Z.land g bits =? 0))
    then (if (clear : bool) then Z.ldiff g bits else g, Returns g)
    else if ticks =? 0 then (g, Returns g) else (g, Waits (KernelWait ticks));
  xEventGroupSetBits g bits := Z.lor g bits;
  xEventGroupClearBits g bits := Z.ldiff g bits;
  eg_bits g := g
}.

#[local] Instance ex_group_laws : EventGroupLaws Z.
Proof.
  split; cbn; try done.
  - intros g bits clear all ticks H. eexists. destruct all.
    + rewrite (proj2 (Z.eqb_eq _ _)) by done. split; [reflexivity|]. by destruct clear.
    + rewrite (proj2 (Z.eqb_neq _ _)) by done. split; [reflexivity|]. by destruct clear.
  - intros g bits clear all H. destruct all.
    + by rewrite (proj2 (Z.eqb_neq _ _)).
    + by destruct (Z.eqb_spec (Z.land g bits) 0).
Qed.

