(* ===== verification/StateEventLoop.v ===== *)
(** The state event loop of src/state_event_loop.c and
    inc/cutils/state_event_loop.h: a dispatch queue whose worker takes posted
    events through a number of state machines and then to the listeners.

    The loop is composed from DispatchQueue, StateMachine, Notifier and Pool as
    the code composes them.  [sel] is what belongs to the loop and to the objects
    it points to, except for the dispatch queue, which the operations take as a
    second argument.  A callback gets the event it is called with by its contents
    and changes the machine, the states and the client's world; what it posts
    itself are posts of their own, as in DispatchQueue.  Logging is left out. *)
From S2P Require Import Prelude KList TsQueue Pool StateMachine Notifier EventFlag DispatchQueue.
From stdpp Require Import list gmap sets.
From Stdlib Require Import ZArith Lia.
Local Open Scope Z_scope.

(** ** Data *)

(** [payload]: the bytes of the client's event behind the base. *)
Record event_t : Set := { event_id : Z; event_loop : Z; to_string : Z; payload : list Z }.

(** A [uint32_t] and two pointers. *)
Definition sizeof_event_t : Z := 24.

Record state_event_loop_t {Q : Type} := {
  machines : list state_machine_t;
  num_machines : Z;
  p_exec_queue : Z;
  p_pool_of_events : option (pool_t Q);
  notifier : option (notifier_t Q);
  event_data_size : Z;
  name : Z;
  event_pre_proc_f : Z;
  client_data : Z
}.
Arguments state_event_loop_t : clear implicits.

(** [sp_loop] and [sp_machines] are nullable pointers. *)
Record state_event_loop_create_params_t := {
  sp_loop : bool;
  sp_notifier_params : notifier_create_params_t;
  sp_queue_params : dispatch_queue_create_params_t;
  sp_event_pool_params : pool_create_params_t;
  sp_sm_create_params : list state_machine_create_params_t;
  sp_machines : option (list state_machine_t);
  sp_num_machines : Z;
  sp_loop_name : Z;
  sp_event_data_size : Z
}.

(** The loop, the client's states by address, the event pool's headers, what its
    blocks hold, the registrations' [p_event_loop] by address, and the client's
    world. *)
Record sel {Q C : Type} := {
  lp : state_event_loop_t Q;
  state_mem : gmap Z state_t;
  event_mem : memory;
  events : gmap Z event_t;
  reg_loops : gmap Z Z;
  cl : C
}.
Arguments sel : clear implicits.

(** What the creation of the parts meets: mutexes, condition variable, queues and
    the worker's task; and the memory before, with what the loop's storage holds in
    the two fields that the creation does not write. *)
Record sel_env {Q C : Type} := {
  en_queue_address : Z;
  en_signal_mtx : bool;
  en_signal_cv : bool;
  en_queue : option Q;
  en_queue_pool : option Q;
  en_queue_memory : memory;
  en_task : Z;
  en_notifier_mtx : bool;
  en_notifier_queue : option Q;
  en_notifier_memory : memory;
  en_event_queue : option Q;
  en_event_memory : memory;
  en_states : gmap Z state_t;
  en_client : C;
  en_pre_proc_f : Z;
  en_client_data : Z
}.
Arguments sel_env : clear implicits.

Section loop.
Context {Q : Type} `{!BoundedQueue Q} {C : Type}.

Definition with_loop (s : sel Q C) (l : state_event_loop_t Q) : sel Q C :=
  {| lp := l; state_mem := state_mem s; event_mem := event_mem s; events := events s;
     reg_loops := reg_loops s; cl := cl s |}.

Definition with_client (s : sel Q C) (c : C) : sel Q C :=
  {| lp := lp s; state_mem := state_mem s; event_mem := event_mem s; events := events s;
     reg_loops := reg_loops s; cl := c |}.

Definition with_events (s : sel Q C) (e : gmap Z event_t) : sel Q C :=
  {| lp := lp s; state_mem := state_mem s; event_mem := event_mem s; events := e;
     reg_loops := reg_loops s; cl := cl s |}.

Definition set_machines (l : state_event_loop_t Q) (ms : list state_machine_t)
  : state_event_loop_t Q :=
  {| machines := ms; num_machines := num_machines l; p_exec_queue := p_exec_queue l;
     p_pool_of_events := p_pool_of_events l; notifier := notifier l;
     event_data_size := event_data_size l; name := name l;
     event_pre_proc_f := event_pre_proc_f l; client_data := client_data l |}.

Definition set_notifier (l : state_event_loop_t Q) (n : option (notifier_t Q))
  : state_event_loop_t Q :=
  {| machines := machines l; num_machines := num_machines l; p_exec_queue := p_exec_queue l;
     p_pool_of_events := p_pool_of_events l; notifier := n;
     event_data_size := event_data_size l; name := name l;
     event_pre_proc_f := event_pre_proc_f l; client_data := client_data l |}.

Definition set_event_pool (l : state_event_loop_t Q) (p : option (pool_t Q))
  : state_event_loop_t Q :=
  {| machines := machines l; num_machines := num_machines l; p_exec_queue := p_exec_queue l;
     p_pool_of_events := p; notifier := notifier l;
     event_data_size := event_data_size l; name := name l;
     event_pre_proc_f := event_pre_proc_f l; client_data := client_data l |}.

Definition set_pre_proc (l : state_event_loop_t Q) (f data : Z) : state_event_loop_t Q :=
  {| machines := machines l; num_machines := num_machines l; p_exec_queue := p_exec_queue l;
     p_pool_of_events := p_pool_of_events l; notifier := notifier l;
     event_data_size := event_data_size l; name := name l;
     event_pre_proc_f := f; client_data := data |}.

Definition event_pool (s : sel Q C) : option (state Q) :=
  match p_pool_of_events (lp s) with Some p => Some (p, event_mem s) | None => None end.

(** The event pool after a call of it. *)
Definition with_event_pool (s : sel Q C) (st : option (state Q)) : sel Q C :=
  {| lp := set_event_pool (lp s) (match st with Some (p, _) => Some p | None => None end);
     state_mem := state_mem s;
     event_mem := match st with Some (_, m) => m | None => event_mem s end;
     events := events s; reg_loops := reg_loops s; cl := cl s |}.

Definition the_notifier (s : sel Q C) : result (notifier_t Q) :=
  match notifier (lp s) with Some n => Ok n | None => Err BadPointer end.

Definition with_notifier (s : sel Q C) (n : notifier_t Q) : sel Q C :=
  with_loop s (set_notifier (lp s) (Some n)).

(** An operation on the [i]-th machine. *)
Definition at_machine (i : Z) (f : sys C -> result (sys C)) (s : sel Q C) : result (sel Q C) :=
  m ← load_at (machines (lp s)) i;
  y ← f {| sm := m; mem := state_mem s; world := cl s |};
  ms ← store_at (machines (lp s)) i (sm y);
  Ok {| lp := set_machines (lp s) ms; state_mem := mem y; event_mem := event_mem s;
        events := events s; reg_loops := reg_loops s; cl := world y |}.

(** The [for] loops over the machines, with [n] iterations left. *)
Fixpoint for_machines (n : nat) (i : Z) (f : sys C -> result (sys C)) (s : sel Q C)
  : result (sel Q C) :=
  match n with
  | O => Ok s
  | S n => s ← at_machine i f s; for_machines n (i + 1) f s
  end.

(** ** Creation and destruction *)

(** The loop that creates the first [k] machines. *)
Fixpoint create_machines (k : nat) (params : list state_machine_create_params_t)
    (ms : list state_machine_t) : result (list state_machine_t) :=
  match k with
  | O => Ok ms
  | S k =>
      ms ← create_machines k params ms;
      p ← load_at params (Z.of_nat k);
      m ← state_machine_create (Some p);
      store_at ms (Z.of_nat k) m
  end.

(** The branches that give the pool and the notifier up. *)
Definition tear_down (s : sel Q C) : sel Q C :=
  with_loop s (set_notifier (set_event_pool (lp s) None) None).

(** The loop and its dispatch queue, and whether the loop is returned. *)
Definition state_event_loop_init (create_params : state_event_loop_create_params_t)
    (en : sel_env Q C) : result (sel Q C * dispatch_queue_t Q * bool) :=
  assert! sp_loop create_params ;;
  ms ← (match sp_machines create_params with Some ms => Ok ms | None => Err AssertFailed end);
  assert! sizeof_event_t <? sp_event_data_size create_params ;;
  d ← dispatch_queue_create (Some (sp_queue_params create_params)) (en_signal_mtx en)
        (en_signal_cv en) (en_queue en) (en_queue_pool en) (en_queue_memory en) ∅ (en_task en);
  ms ← create_machines (Z.to_nat (sp_num_machines create_params))
         (sp_sm_create_params create_params) ms;
  '(n, ok) ← notifier_init (Some (sp_notifier_params create_params)) (en_notifier_mtx en)
               (en_notifier_queue en) (en_notifier_memory en) ∅ ∅;
  assert! (ok : bool) ;;
  r ← pool_create (sp_event_pool_params create_params) (en_event_queue en) (en_event_memory en);
  let '(p, created, m) := r in
  assert! (created : bool) ;;
  let s := {| lp := {| machines := ms; num_machines := sp_num_machines create_params;
                       p_exec_queue := en_queue_address en; p_pool_of_events := p;
                       notifier := Some n; event_data_size := sp_event_data_size create_params;
                       name := sp_loop_name create_params; event_pre_proc_f := en_pre_proc_f en;
                       client_data := en_client_data en |};
              state_mem := en_states en; event_mem := m; events := ∅; reg_loops := ∅;
              cl := en_client en |} in
  match p with
  | Some p =>
      if negb (element_size p =? sp_event_data_size create_params) then Ok (tear_down s, d, false)
      else if negb (num_of_elements p =? dp_queue_size (sp_queue_params create_params))
      then Ok (tear_down s, d, false)
      else Ok (s, d, true)
  | None => Err BadPointer
  end.

Section callbacks.
(** The client's callbacks by address; those that see an event get its contents. *)
Context (call : Z -> state_enter_f C).
Context (call_valid : event_t -> Z -> state_is_valid_event_f C).
Context (call_handle : event_t -> Z -> state_handle_event_f C).
Context (pre_proc : Z -> event_t -> Z -> C -> C).
Context (listener : event_t -> Z -> notifier_f C).
(** The address of the loop, of its machines, and of the function that the worker
    calls. *)
Context (self : Z) (sm_address : Z -> Z) (exec_f : Z).

Definition state_event_loop_add_state (s : option (sel Q C)) (state state_mac_id : Z)
  : result (option (sel Q C)) :=
  match s with
  | None => Ok None
  | Some s =>
      s ← at_machine state_mac_id (fun y =>
            y' ← state_machine_register_state (sm_address state_mac_id) (Some y) state;
            Ok (default y y')) s;
      Ok (Some s)
  end.

Definition state_event_loop_start (s : option (sel Q C)) : result (option (sel Q C)) :=
  match s with
  | None => Ok None
  | Some s =>
      s ← for_machines (Z.to_nat (num_machines (lp s))) 0 (state_machine_start call) s;
      Ok (Some s)
  end.

Definition state_event_loop_stop (s : option (sel Q C)) : result (option (sel Q C)) :=
  match s with
  | None => Ok None
  | Some s =>
      s ← for_machines (Z.to_nat (num_machines (lp s))) 0
            (fun y => y' ← state_machine_stop call (Some y); Ok (default y y')) s;
      Ok (Some s)
  end.

(** [others] and [waited] are those of [dispatch_queue_destroy]. *)
Definition state_event_loop_deinit (s : option (sel Q C)) (d : dispatch_queue_t Q)
    (others : dispatch_queue_t Q -> result (dispatch_queue_t Q)) (waited : bool)
  : result (sel Q C * dispatch_queue_t Q) :=
  match s with
  | None => Err AssertFailed
  | Some s =>
      d' ← dispatch_queue_destroy (p_exec_queue (lp s)) (Some d) others waited;
      s' ← state_event_loop_stop (Some s);
      let s := default s s' in
      n ← the_notifier s;
      let s := with_notifier s (notifier_deinit n) in
      Ok (with_loop s (set_event_pool (lp s) None), default d d')
  end.

(** The first machine decides whether the loop has been started. *)
Definition state_event_loop_install_event_pre_proc (s : sel Q C) (f data : Z)
  : result (sel Q C * bool) :=
  let retval := false in
  m ← load_at (machines (lp s)) 0;
  if negb (state_machine_started m) then Ok (with_loop s (set_pre_proc (lp s) f data), retval)
  else Ok (s, retval).

(** ** Listeners *)

Definition state_event_loop_allocate_registration (s : option (sel Q C))
  : result (option (sel Q C) * Z) :=
  match s with
  | None => Ok (None, 0)
  | Some s =>
      n ← the_notifier s;
      '(n, retval) ← notifier_allocate_notification_block n;
      Ok (Some (with_notifier s n), retval)
  end.

Definition state_event_loop_register_notification (s : option (sel Q C)) (event_type p_reg : Z)
  : result (option (sel Q C) * bool) :=
  match s with
  | None => Ok (None, false)
  | Some s =>
      if p_reg =? 0 then Ok (Some s, false)
      else
        n ← the_notifier s;
        '(n, ok) ← notifier_register_notification_block n event_type p_reg;
        let s := with_notifier s n in
        if (ok : bool) then
          Ok (Some {| lp := lp s; state_mem := state_mem s; event_mem := event_mem s;
                      events := events s; reg_loops := <[p_reg := self]> (reg_loops s);
                      cl := cl s |}, true)
        else Ok (Some s, false)
  end.

Definition state_event_loop_deregister_notification (s : option (sel Q C)) (p_reg : Z)
  : result (option (sel Q C)) :=
  match s with
  | None => Ok None
  | Some s =>
      if p_reg =? 0 then Ok (Some s)
      else
        n ← the_notifier s;
        '(n, _) ← notifier_deregister_notification_block n p_reg;
        Ok (Some (with_notifier s n))
  end.

Definition state_event_loop_get_current_state (s : option (sel Q C)) (state_mac_index : Z)
  : result Z :=
  match s with
  | None => Err AssertFailed
  | Some s =>
      assert! state_mac_index <? num_machines (lp s) ;;
      m ← load_at (machines (lp s)) state_mac_index;
      Ok (current_state m)
  end.

Definition state_event_loop_get_current_state_id (s : option (sel Q C)) (state_mac_index : Z)
  : result Z :=
  match s with
  | None => Err AssertFailed
  | Some s =>
      assert! state_mac_index <? num_machines (lp s) ;;
      m ← load_at (machines (lp s)) state_mac_index;
      assert! negb (current_state m =? 0) ;;
      st ← deref (state_mem s) (current_state m);
      Ok (stateId st)
  end.

(** ** Events *)

Definition state_event_loop_allocate_event (s : option (sel Q C))
  : result (option (sel Q C) * Z) :=
  match s with
  | None => Ok (None, 0)
  | Some s =>
      r ← pool_alloc (event_pool s);
      let retval := match snd r with Returns b => b | Waits _ => 0 end in
      assert! negb (retval =? 0) ;;
      Ok (Some (with_event_pool s (fst r)), retval)
  end.

Definition state_event_loop_retain_event (s : option (sel Q C)) (event : Z)
  : result (option (sel Q C)) :=
  match s with
  | None => Err AssertFailed
  | Some s =>
      assert! negb (event =? 0) ;;
      r ← pool_retain (event_pool s) event;
      Ok (Some (with_event_pool s r))
  end.

Definition state_event_loop_release_event (s : option (sel Q C)) (event : Z)
  : result (option (sel Q C)) :=
  match s with
  | None => Err AssertFailed
  | Some s =>
      assert! negb (event =? 0) ;;
      r ← pool_free (event_pool s) event;
      Ok (Some (with_event_pool s (fst r)))
  end.

(** [memcpy] of the block's size from the client's event: reading more bytes than
    it has is a fault. *)
Definition copy_event (s : sel Q C) (evt : event_t) : result (list Z) :=
  match p_pool_of_events (lp s) with
  | Some p =>
      let n := Z.to_nat (element_size p - sizeof_event_t) in
      if bool_decide (n <= length (payload evt))%nat then Ok (take n (payload evt))
      else Err BadPointer
  | None => Err BadPointer
  end.

(** The first half of [state_event_loop_post]: the event's block, filled in. *)
Definition post_event (s : sel Q C) (category : Z) (evt : event_t) : result (sel Q C * Z) :=
  '(s', event) ← state_event_loop_allocate_event (Some s);
  let s := default s s' in
  assert! negb (event =? 0) ;;
  bytes ← copy_event s evt;
  Ok (with_events s (<[event := {| event_id := category; event_loop := self;
                                   to_string := to_string evt; payload := bytes |}]> (events s)),
      event).

Definition exec_call (event : Z) : dispatch_queue_post_data_t :=
  {| fn := exec_f; arg1 := event; arg2 := 0 |}.

(** [evt] is the client's event, or NULL; nothing looks at what
    [dispatch_async_f] returns. *)
Definition state_event_loop_post (s : option (sel Q C)) (d : dispatch_queue_t Q) (category : Z)
    (evt : option event_t) : result (option (sel Q C) * dispatch_queue_t Q * bool) :=
  match s, evt with
  | Some s, Some evt =>
      '(s, event) ← post_event s category evt;
      '(d', _) ← dispatch_async_f (Some d) (exec_call event);
      Ok (Some s, default d d', true)
  | s, _ => Ok (s, d, false)
  end.

Definition read_event (s : sel Q C) (event : Z) : result event_t :=
  match events s !! event with Some ev => Ok ev | None => Err BadPointer end.

(** What the loop does with an event for one machine. *)
Definition handle_and_transition (ev : event_t) (event : Z) (y : sys C) : result (sys C) :=
  y ← state_machine_handle_event (call_valid ev) (call_handle ev) y event;
  state_machine_transition call y.

(** [state_event_loop_exec_queue_f] up to the release of the event; an event
    belongs to this loop. *)
Definition exec_handlers (s : sel Q C) (event : Z) : result (sel Q C) :=
  ev ← read_event s event;
  _ ← (if event_loop ev =? self then Ok tt else Err BadPointer);
  let s := if event_pre_proc_f (lp s) =? 0 then s
           else with_client s (pre_proc (event_pre_proc_f (lp s)) ev (client_data (lp s)) (cl s)) in
  s ← for_machines (Z.to_nat (num_machines (lp s))) 0 (handle_and_transition ev event) s;
  n ← the_notifier s;
  '(n, c) ← notifier_post_notification (listener ev) (S (base.size (links n))) n (event_id ev)
              event (cl s);
  Ok (with_client (with_notifier s n) c).

Definition state_event_loop_exec_queue_f (s : sel Q C) (arg1 : Z) : result (sel Q C) :=
  s ← exec_handlers s arg1;
  s' ← state_event_loop_release_event (Some s) arg1;
  Ok (default s s').
End callbacks.
End loop.

(** ** Abstract event loop *)

(** The current state of every machine, the states that have been entered, the
    client's world, and the registered listeners. *)
Record aloop {C : Type} := { curs : list Z; ent : gset Z; aw : C; areg : registry }.
Arguments aloop : clear implicits.

Inductive listener_op : Set :=
  | RAllocate
  | RRegister (category : nat) (block : Z)
  | RDeregister (block : Z).

Definition n_op_of (o : listener_op) : n_op :=
  match o with
  | RAllocate => NAllocate
  | RRegister c b => NRegister c b
  | RDeregister b => NDeregister b
  end.

Definition registry_after (r : registry) (o : listener_op) : registry :=
  fst (fst (registry_step (fun _ _ _ _ u => u) 0 r tt (n_op_of o))).

(** What the worker and the clients did: an event with its address was processed,
    or the listeners changed. *)
Inductive a_op : Set :=
  | AEvent (event : Z) (ev : event_t)
  | AListener (o : listener_op).

(** The events of a history. *)
Definition processed (h : list a_op) : list (Z * event_t) :=
  omap (fun o => match o with AEvent e ev => Some (e, ev) | AListener _ => None end) h.

Section abstract.
Context {C : Type}.
(** The states, the ids registered with each machine, and the callbacks; they
    change nothing but the client's world. *)
Context (desc : gmap Z state_t) (regs : list (list Z)).
Context (eff : Z -> Z -> C -> C) (vld : event_t -> Z -> Z -> Z -> C -> bool)
        (hnd : event_t -> Z -> Z -> Z -> C -> C * Z).
Context (pre_proc : Z -> event_t -> Z -> C -> C) (pre_f pre_data : Z).
Context (listener : event_t -> Z -> notifier_f C) (notify_f : Z).

(** A step of every machine in turn, on some data per machine. *)
Fixpoint all_machines {X : Type} (astep : list Z -> X -> gset Z -> C -> result (Z * gset Z * C))
    (rs : list (list Z)) (xs : list X) (en : gset Z) (c : C) : result (list Z * gset Z * C) :=
  match rs, xs with
  | r :: rs, x :: xs =>
      '(y, en, c) ← astep r x en c;
      '(ys, en, c) ← all_machines astep rs xs en c;
      Ok (y :: ys, en, c)
  | _, _ => Ok ([], en, c)
  end.

Definition astep_event (event : Z) (ev : event_t) (r : list Z) (x : Z) (en : gset Z) (c : C)
  : result (Z * gset Z * C) :=
  m ← fsm_step desc r eff (vld ev) (hnd ev) {| cur := x; entered := en; w := c |} event;
  Ok (cur m, entered m, w m).

Definition astep_start (r : list Z) (id : Z) (en : gset Z) (c : C) : result (Z * gset Z * C) :=
  match lookup_id desc r id with
  | Some a => let m := fsm_enter desc eff {| cur := 0; entered := en; w := c |} a in
              Ok (cur m, entered m, w m)
  | None => Err AssertFailed
  end.

(** One event: the pre-processor if there is one, every machine in order, then the
    listeners of the event's category, newest first. *)
Definition process_event (a : aloop C) (event : Z) (ev : event_t) : result (aloop C) :=
  let c := if pre_f =? 0 then aw a else pre_proc pre_f ev pre_data (aw a) in
  '(xs, en, c) ← all_machines (astep_event event ev) regs (curs a) (ent a) c;
  if event_id ev <? zlen (reg (areg a)) then
    let k := Z.to_nat (event_id ev) in
    Ok {| curs := xs; ent := en; areg := areg a;
          aw := Notifier.post (listener ev) notify_f k event (default [] (reg (areg a) !! k)) c |}
  else Err AssertFailed.

Definition aloop_step (a : aloop C) (o : a_op) : result (aloop C) :=
  match o with
  | AEvent e ev => process_event a e ev
  | AListener o => Ok {| curs := curs a; ent := ent a; aw := aw a; areg := registry_after (areg a) o |}
  end.

Fixpoint aloop_run (a : aloop C) (h : list a_op) : result (aloop C) :=
  match h with [] => Ok a | o :: h => a ← aloop_step a o; aloop_run a h end.

Lemma aloop_run_snoc a h o : aloop_run a (h ++ [o]) = a' ← aloop_run a h; aloop_step a' o.
Proof.
  revert a. induction h as [|o' h IH]; intros a; cbn.
  - by destruct (aloop_step a o).
  - destruct (aloop_step a o'); [apply IH|done].
Qed.
End abstract.

(** ** The loops over the machines *)

(** The states in memory, the ones entered marked. *)
Definition mem_ok (desc m : gmap Z state_t) (en : gset Z) : Prop :=
  forall a, m !! a = (fun st => set_entered st (bool_decide (a ∈ en))) <$> desc !! a.

(** The states in the cells of a machine. *)
Definition holds (r : list Z) (m : state_machine_t) : Prop :=
  take (Z.to_nat (num_of_states m)) (states m) = r.

(** A machine that runs, in its current state; one that can be started, with its
    start state's id. *)
Definition machine_running (r : list Z) (m : state_machine_t) (x : Z) : Prop :=
  holds r m /\ current_state m = x /\ x ∈ r /\ state_machine_started m = true /\
  transition_requested m = false.

Definition machine_new (r : list Z) (m : state_machine_t) (id : Z) : Prop :=
  holds r m /\ start_state_id m = id /\ transition_requested m = false.

Section machine_loop.
Context {Q : Type} `{!BoundedQueue Q} {C X : Type} (desc : gmap Z state_t).
Context (op : sys C -> result (sys C)) (astep : list Z -> X -> gset Z -> C -> result (Z * gset Z * C)).
Context (A : list Z -> state_machine_t -> X -> Prop).

(** [op] refines [astep] on a machine. *)
Definition refines_step (r : list Z) : Prop := forall m x mm en c,
  A r m x -> mem_ok desc mm en ->
  match astep r x en c with
  | Ok (y, en', c') => exists s', op {| sm := m; mem := mm; world := c |} = Ok s' /\
      machine_running r (sm s') y /\ mem_ok desc (mem s') en' /\ world s' = c'
  | Err f => op {| sm := m; mem := mm; world := c |} = Err f
  end.

(** The loop over the machines behind the first [ms] refines [all_machines]. *)
Lemma for_machines_ok rs : forall ms2 xs ms (s : sel Q C) en,
  Forall refines_step rs -> machines (lp s) = ms ++ ms2 -> Forall3 A rs ms2 xs ->
  mem_ok desc (state_mem s) en ->
  match all_machines astep rs xs en (cl s) with
  | Ok (ys, en', c') => exists ms' mm,
      for_machines (length rs) (zlen ms) op s =
        Ok {| lp := set_machines (lp s) (ms ++ ms'); state_mem := mm; event_mem := event_mem s;
              events := events s; reg_loops := reg_loops s; cl := c' |} /\
      Forall3 machine_running rs ms' ys /\ mem_ok desc mm en'
  | Err f => for_machines (length rs) (zlen ms) op s = Err f
  end.
Proof.
  induction rs as [|r rs IH]; intros ms2 xs ms s en Hr Hms HA Hm;
    inversion HA as [|? m x ? ms2' xs' HAm HAs]; subst; cbn.
  { exists [], (state_mem s). rewrite app_nil_r in *. split_and!; [|constructor|done].
    destruct s as [l ? ? ? ? ?], l. cbn in *. by subst. }
  apply Forall_cons in Hr as [Hr Hrs].
  pose proof (zlen_nonneg ms) as Hz.
  unfold at_machine. rewrite (load_at_eq _ _ m); [|done|].
  2:{ unfold zlen. rewrite Nat2Z.id, Hms, list_lookup_middle; done. }
  cbn. specialize (Hr m x (state_mem s) en (cl s)). cbn in Hr.
  specialize (Hr HAm Hm).
  destruct (astep r x en (cl s)) as [[[y en1] c1]|f]; cbn; [|by rewrite Hr].
  destruct Hr as (s1 & -> & Hrun & Hm1 & Hw). cbn. rewrite store_at_eq.
  2:{ rewrite Hms. unfold zlen in *. rewrite length_app. cbn. lia. }
  cbn. replace (Z.to_nat (zlen ms)) with (length ms) by (unfold zlen; lia).
  rewrite Hms, insert_app_r_alt, Nat.sub_diag by lia. cbn.
  set (s2 := {| lp := _ |}).
  specialize (IH ms2' xs' (ms ++ [sm s1]) s2 en1 Hrs). cbn in IH.
  rewrite <- app_assoc in IH. specialize (IH eq_refl ltac:(done) Hm1). subst c1.
  replace (zlen (ms ++ [sm s1])) with (zlen ms + 1) in IH
    by (unfold zlen; rewrite length_app; cbn; lia).
  destruct (all_machines astep rs xs' en1 (world s1)) as [[[ys en2] c2]|f]; cbn; [|done].
  destruct IH as (ms' & mm & Hf & HB & Hmm). exists (sm s1 :: ms'), mm. rewrite Hf.
  rewrite <- app_assoc. split_and!; [done|by constructor|done].
Qed.
End machine_loop.

Section machine_steps.
Context {C : Type} (desc : gmap Z state_t).
Context (eff : Z -> Z -> C -> C) (vld : event_t -> Z -> Z -> Z -> C -> bool)
        (hnd : event_t -> Z -> Z -> Z -> C -> C * Z).

Lemma event_step_refines event ev r :
  desc_ok desc r -> event <> 0 ->
  refines_step desc (handle_and_transition (c_call eff) (fun ev => c_valid (vld ev))
                 (fun ev => c_handle (hnd ev)) ev event)
    (astep_event desc eff vld hnd event ev) machine_running r.
Proof.
  intros Hd He m x mm en c (Hh & Hx & Hxr & Hst & Hidle) Hm. unfold astep_event.
  pose proof (sm_step_ok desc r eff (vld ev) (hnd ev) {| sm := m; mem := mm; world := c |}
    {| cur := x; entered := en; w := c |} event Hd) as H.
  specialize (H ltac:(split; [split; done|done..]) He).
  destruct (fsm_step _ _ _ _ _ _ _) as [m'|f]; cbn; [|exact H].
  destruct H as (s' & Hs & [[Hc1 Hc2] Hcur Hreg Hs2 Hi Hw]). exists s'. split; [exact Hs|].
  split_and!; done.
Qed.

Lemma start_step_refines r :
  desc_ok desc r ->
  refines_step desc (state_machine_start (c_call eff)) (astep_start desc eff) machine_new r.
Proof.
  intros Hd m id mm en c (Hh & Hid & Hidle) Hm. unfold astep_start, state_machine_start. cbn.
  rewrite (find_state_lookup desc r _ en) by first [done | by split]. cbn. rewrite Hid.
  destruct (lookup_id desc r id) as [a|] eqn:El; cbn; [|done].
  apply lookup_id_registered in El as [Ha _].
  destruct (proj2 Hd _ Ha) as (st & Hst & Ha0 & _). rewrite (proj2 (Z.eqb_neq a 0)) by done. cbn.
  match goal with |- context [enter_state _ ?s0 a] => set (s1 := s0) end.
  destruct (enter_state_ok desc r eff s1 {| cur := 0; entered := en; w := c |} a Hd)
    as (s2 & Hr & [Hc1 Hc2] & Hsm & Hw); [split; done|done|done|].
  rewrite Hr. exists s2. split_and!; [done| |done|done]. cbn. rewrite Hsm. by split_and!.
Qed.
End machine_steps.

(** ** Refinement of the handlers and of the registrations *)

Section refinement.
Context {Q : Type} `{!BoundedQueue Q} `{!BoundedQueueLaws Q} {C : Type}.
Context (desc : gmap Z state_t) (regs : list (list Z)).
Context (eff : Z -> Z -> C -> C) (vld : event_t -> Z -> Z -> Z -> C -> bool)
        (hnd : event_t -> Z -> Z -> Z -> C -> C * Z).
Context (pre_proc : Z -> event_t -> Z -> C -> C) (pre_f pre_data : Z).
Context (listener : event_t -> Z -> notifier_f C) (notify_f : Z).
Context (self : Z).

Abbreviation handlers := (exec_handlers (Q := Q) (c_call eff) (fun ev => c_valid (vld ev))
  (fun ev => c_handle (hnd ev)) pre_proc listener self).
Abbreviation process := (process_event desc regs eff vld hnd pre_proc pre_f pre_data listener notify_f).

(** The loop [s] is at [a]; its notifier can serve [k] more calls. *)
Record loop_inv (k : Z) (s : sel Q C) (a : aloop C) : Prop := {
  lv_num : num_machines (lp s) = zlen regs;
  lv_machines : Forall3 machine_running regs (machines (lp s)) (curs a);
  lv_mem : mem_ok desc (state_mem s) (ent a);
  lv_client : cl s = aw a;
  lv_notifier : exists n, notifier (lp s) = Some n /\ n_inv notify_f k n (areg a);
  lv_pre : event_pre_proc_f (lp s) = pre_f /\ client_data (lp s) = pre_data
}.

Lemma loop_inv_mono k k' s a : k' <= k -> loop_inv k s a -> loop_inv k' s a.
Proof.
  intros Hk [? ? ? ? (n & ? & ?) ?]. split; try done. exists n. split; [done|].
  by eapply n_inv_mono.
Qed.

(** What does not touch the events and their pool. *)
Definition same_events (s s' : sel Q C) : Prop :=
  events s' = events s /\ event_pool s' = event_pool s.

Definition all_desc_ok : Prop := Forall (desc_ok desc) regs.

Lemma exec_handlers_ok k s a e ev :
  all_desc_ok -> loop_inv k s a -> events s !! e = Some ev -> event_loop ev = self -> e <> 0 ->
  0 <= event_id ev ->
  match process a e ev with
  | Ok a' => exists s', handlers s e = Ok s' /\ loop_inv k s' a' /\ same_events s s'
  | Err f => handlers s e = Err f
  end.
Proof.
  intros Hd [Hnum Hms Hm Hcl (n & Hn & Hni) [Hp1 Hp2]] He Hself He0 Hid.
  unfold exec_handlers, read_event. rewrite He. cbn. rewrite Hself, Z.eqb_refl. cbn.
  rewrite Hp1, Hp2, Hcl. unfold process_event.
  set (c := if pre_f =? 0 then aw a else _).
  set (s0 := if pre_f =? 0 then s else _).
  assert (exists c0, s0 = with_client s c0 /\ c0 = c) as (c0 & -> & ->).
  { unfold s0, c. destruct (pre_f =? 0); eexists; (split; [|done]); [|done].
    by destruct s. }
  cbn. rewrite Hnum.
  replace (Z.to_nat (zlen regs)) with (length regs) by (unfold zlen; lia).
  pose proof (for_machines_ok desc _ _ machine_running regs (machines (lp s)) (curs a) []
    (with_client s c) (ent a)
    (Forall_impl _ _ _ Hd (fun r H => event_step_refines desc eff vld hnd e ev r H He0))
    eq_refl Hms Hm) as Hf.
  change (zlen (@nil state_machine_t)) with 0 in Hf. cbn in Hf.
  destruct (all_machines _ _ _ _ _) as [[[xs en] c1]|f]; cbn; [|by rewrite Hf].
  destruct Hf as (ms' & mm & -> & Hrun & Hmm). unfold the_notifier. cbn. rewrite Hn. cbn.
  destruct (event_id ev <? zlen (reg (areg a))) eqn:Ec; bdestr.
  - pose proof (post_ok (listener ev) notify_f k n (areg a) c1 (Z.to_nat (event_id ev)) e Hni) as Hp.
    specialize (Hp ltac:(unfold zlen in *; lia)). cbn [n_step] in Hp. rewrite Z2Nat.id in Hp by done.
    apply bind_ok in Hp as ([n' c'] & -> & Hp). injection Hp as -> ->. cbn.
    eexists. split; [reflexivity|]. split; [|done]. split; cbn; try done. by exists n.
  - unfold notifier_post_notification. rewrite (ni_total _ _ _ _ Hni).
    by rewrite (proj2 (Z.ltb_ge _ _)).
Qed.

(** The client's calls of the registration functions. *)
Definition listener_call (s : sel Q C) (o : listener_op) : result (sel Q C) :=
  match o with
  | RAllocate => '(s', _) ← state_event_loop_allocate_registration (Some s); Ok (default s s')
  | RRegister c b =>
      '(s', _) ← state_event_loop_register_notification self (Some s) (Z.of_nat c) b;
      Ok (default s s')
  | RDeregister b =>
      s' ← state_event_loop_deregister_notification (Some s) b; Ok (default s s')
  end.

Lemma listener_call_ok k s a o :
  0 <= k -> loop_inv (k + 1) s a -> n_legal (areg a) (n_op_of o) ->
  exists s', listener_call s o = Ok s' /\
    loop_inv k s' {| curs := curs a; ent := ent a; aw := aw a; areg := registry_after (areg a) o |} /\
    same_events s s'.
Proof.
  intros Hk [Hnum Hms Hm Hcl (n & Hn & Hni) Hp] Hl.
  pose proof (n_step_ok (fun _ _ _ _ u => u) notify_f k n (areg a) tt (n_op_of o) Hk Hni Hl)
    as (n' & Hs & Hni').
  assert (registry_after (areg a) o = fst (fst (registry_step (fun _ _ _ _ u => u) notify_f
            (areg a) tt (n_op_of o)))) as Hr by by destruct o.
  rewrite <- Hr in Hni'.
  assert (forall s', num_machines (lp s') = num_machines (lp s) ->
    machines (lp s') = machines (lp s) -> state_mem s' = state_mem s -> cl s' = cl s ->
    event_pre_proc_f (lp s') = event_pre_proc_f (lp s) -> client_data (lp s') = client_data (lp s) ->
    notifier (lp s') = Some n' -> loop_inv k s' {| curs := curs a; ent := ent a; aw := aw a;
      areg := registry_after (areg a) o |}) as Hinv.
  { intros s' E1 E2 E3 E4 E5 E6 E7. split; cbn; rewrite ?E1, ?E2, ?E3, ?E4, ?E5, ?E6; try done.
    by exists n'. }
  unfold listener_call, state_event_loop_allocate_registration,
    state_event_loop_register_notification, state_event_loop_deregister_notification, the_notifier.
  rewrite Hn. destruct o as [|c b|b]; cbn [n_op_of n_step] in Hs;
    apply bind_ok in Hs as ([n1 out] & Hs & E);
    assert (n1 = n') as -> by (cbn in E; congruence).
  - cbn. rewrite Hs. cbn. eexists. split; [reflexivity|]. split; [by apply Hinv|done].
  - assert (b <> 0) as Hb by (eapply (n_inv_live_nonnull _ _ _ _ _ Hni); apply Hl).
    rewrite (proj2 (Z.eqb_neq b 0)) by done. cbn. rewrite Hs. cbn.
    destruct out; (eexists; split; [reflexivity|]; split; [by apply Hinv|done]).
  - assert (b <> 0) as Hb.
    { destruct Hl as (c & l & Hc & Hb). eapply (n_inv_live_nonnull _ _ _ _ _ Hni).
      destruct (ni_chains _ _ _ _ Hni _ _ Hc) as (_ & _ & _ & H). apply (H b Hb). }
    rewrite (proj2 (Z.eqb_neq b 0)) by done. cbn. rewrite Hs. cbn.
    eexists. split; [reflexivity|]. split; [by apply Hinv|done].
Qed.
End refinement.

(** ** Creation, registration of states, start *)

(** The machine that [state_machine_create] leaves. *)
Definition machine_of (p : state_machine_create_params_t) : state_machine_t :=
  {| p_name := sp_name p; num_of_states := 0; current_state := 0;
     states := replicate (Z.to_nat STATE_MAC_MAX_STATES) 0; transition_requested := false;
     next_state_requested := 0; p_private := sp_private p; state_machine_started := false;
     start_state_id := sp_start_state_id p |}.

Section creation.
Context {Q : Type} `{!BoundedQueue Q} `{!BoundedQueueLaws Q} {C : Type}.
Context (notify_f : Z).

(** What the macros of state_event_loop.h build, with resources for all parts. *)
Record setup_ok (n : Z) (p : state_event_loop_create_params_t) (en : sel_env Q C) : Prop := {
  so_loop : sp_loop p = true;
  so_machines : exists ms, sp_machines p = Some ms /\ zlen ms = sp_num_machines p;
  so_sm_params : zlen (sp_sm_create_params p) = sp_num_machines p /\
    Forall (fun q => sp_state_mac q = true) (sp_sm_create_params p);
  so_size : sizeof_event_t < sp_event_data_size p;
  so_queue : exists qu pool_qu, en_queue en = Some qu /\ en_queue_pool en = Some pool_qu /\
    dispatch_ok (en_queue_address en) n (sp_queue_params p) qu pool_qu;
  so_signal : en_signal_mtx en = true /\ en_signal_cv en = true /\ en_task en <> 0;
  so_notifier : exists arr qu, en_notifier_queue en = Some qu /\
    init_ok n (sp_notifier_params p) arr qu /\ en_notifier_mtx en = true;
  so_callback : np_execute_f (sp_notifier_params p) = notify_f;
  so_pool : exists qu, en_event_queue en = Some qu /\ create_ok n (sp_event_pool_params p) qu
}.

(** The sizes that have to agree. *)
Definition sizes_agree (p : state_event_loop_create_params_t) : bool :=
  (pp_element_size_requested (sp_event_pool_params p) =? sp_event_data_size p) &&
  (pp_num_of_elements (sp_event_pool_params p) =? dp_queue_size (sp_queue_params p)).

(** A loop that has been created. *)
Record created_loop (n : Z) (p : state_event_loop_create_params_t) (en : sel_env Q C) (s : sel Q C)
  : Prop := {
  cr_num : num_machines (lp s) = zlen (sp_sm_create_params p);
  cr_machines : machines (lp s) = machine_of <$> sp_sm_create_params p;
  cr_notifier : exists nn, notifier (lp s) = Some nn /\
    n_inv notify_f n nn (initial_registry (sp_notifier_params p));
  cr_pool : exists pl, p_pool_of_events (lp s) = Some pl /\
    pool_inv n (pl, event_mem s)
      {| free := blocks (sp_event_pool_params p); live := ∅; dtors := ∅ |};
  cr_memory : state_mem s = en_states en /\ events s = ∅ /\ cl s = en_client en;
  cr_pre : event_pre_proc_f (lp s) = en_pre_proc_f en /\ client_data (lp s) = en_client_data en
}.

Lemma create_machines_ok k ps ms :
  (k <= length ps)%nat -> (k <= length ms)%nat -> Forall (fun q => sp_state_mac q = true) ps ->
  create_machines k ps ms = Ok ((machine_of <$> take k ps) ++ drop k ms).
Proof.
  intros Hp Hm Hall. induction k as [|k IH]; [done|]. cbn [create_machines].
  rewrite IH by lia. cbn [mbind result_bind].
  destruct (lookup_lt_is_Some_2 ps k Hp) as [p Hpk].
  rewrite (load_at_eq _ _ p) by (lia || by rewrite Nat2Z.id). cbn [mbind result_bind].
  unfold state_machine_create. rewrite (proj1 (Forall_lookup _ _) Hall _ _ Hpk).
  cbn [cassert mbind result_bind state_machine_set_private_data].
  assert (length (machine_of <$> take k ps) = k) as Hlen by (rewrite length_fmap, length_take; lia).
  rewrite store_at_eq by (unfold zlen; rewrite length_app, Hlen, length_drop; lia).
  rewrite Nat2Z.id, insert_app_r_alt, Hlen, Nat.sub_diag by lia.
  rewrite (take_S_r _ _ _ Hpk), fmap_app, <- app_assoc. f_equal. f_equal.
  destruct (drop k ms) as [|x l] eqn:E.
  - apply (f_equal length) in E. rewrite length_drop in E. cbn in E. lia.
  - cbn. replace (S k) with (k + 1)%nat by lia. by rewrite <- drop_drop, E.
Qed.

Lemma init_cases n p en :
  0 <= n -> setup_ok n p en ->
  exists s d, state_event_loop_init p en = Ok (s, d, sizes_agree p) /\
    dq_inv (en_queue_address en) (fun _ _ _ u => u) (pp_num_of_elements (dp_pool_params (sp_queue_params p)))
      tt n (new_dq_world d tt) /\
    if sizes_agree p then created_loop n p en s
    else p_pool_of_events (lp s) = None /\ notifier (lp s) = None.
Proof.
  intros Hn [Hl (ms & Hms & Hlm) [Hlp Hmac] Hsz (qu & pqu & Hqu & Hpqu & Hdq) (Hs1 & Hs2 & Ht)
    (arr & nq & Hnq & Hni & Hmtx) Hcb (eq & Heq & Hpool)].
  unfold state_event_loop_init. rewrite Hl, Hms, (proj2 (Z.ltb_lt _ _) Hsz), Hs1, Hs2, Hqu, Hpqu.
  cbn [cassert mbind result_bind].
  destruct (dispatch_queue_create_inv (en_queue_address en) (fun _ _ _ u => u) n _ qu pqu
    (en_queue_memory en) ∅ (en_task en) tt Hn Hdq Ht) as (d & -> & Hd). cbn [mbind result_bind].
  rewrite create_machines_ok by (done || unfold zlen in *; lia). cbn [mbind result_bind].
  rewrite Hnq, Hmtx. destruct (notifier_init_inv n _ arr nq (en_notifier_memory en) ∅ ∅ Hn Hni)
    as (nn & -> & Hnn). rewrite Hcb in Hnn. cbn [mbind result_bind cassert].
  rewrite Heq. destruct (pool_create_inv n _ eq (en_event_memory en) Hn Hpool) as (pl & m' & Hpc & Hpi).
  rewrite Hpc. cbn [mbind result_bind cassert].
  assert (element_size pl = pp_element_size_requested (sp_event_pool_params p) /\
    num_of_elements pl = pp_num_of_elements (sp_event_pool_params p)) as [-> ->].
  { unfold pool_create in Hpc. rewrite (co_pool _ _ _ Hpool) in Hpc. cbn [negb] in Hpc.
    apply bind_ok in Hpc as (r & _ & Hpc). by injection Hpc as <- _. }
  rewrite firstn_all2, drop_ge, app_nil_r by (unfold zlen in *; lia). unfold sizes_agree.
  destruct (pp_element_size_requested _ =? _); cbn [negb andb].
  2:{ eexists _, d. split; [reflexivity|]. done. }
  destruct (pp_num_of_elements _ =? _); cbn [negb].
  2:{ eexists _, d. split; [reflexivity|]. done. }
  eexists _, d. split; [reflexivity|]. split; [done|]. split; cbn; try done.
  - by exists nn.
  - by exists pl.
Qed.
End creation.

Section configuration.
Context {Q : Type} `{!BoundedQueue Q} `{!BoundedQueueLaws Q} {C : Type}.
Context (sm_address : Z -> Z).

(** The client's calls of [state_event_loop_add_state]: a state and the index of a
    machine each. *)
Fixpoint add_states (s : option (sel Q C)) (adds : list (Z * Z)) : result (option (sel Q C)) :=
  match adds with
  | [] => Ok s
  | (st, i) :: adds => s ← state_event_loop_add_state sm_address s st i; add_states s adds
  end.

(** A state that registration accepts. *)
Definition complete (m : gmap Z state_t) (a : Z) : Prop :=
  a <> 0 /\ exists st, m !! a = Some st /\
    f_enter st <> 0 /\ f_exit st <> 0 /\ f_valid_event st <> 0 /\ f_handle_event st <> 0.

(** The states of every machine after the calls. *)
Definition regs_after (regs : list (list Z)) (adds : list (Z * Z)) : list (list Z) :=
  foldl (fun regs '(st, i) => alter (fun r => r ++ [st]) (Z.to_nat i) regs) regs adds.

Fixpoint adds_legal (m : gmap Z state_t) (regs : list (list Z)) (adds : list (Z * Z)) : Prop :=
  match adds with
  | [] => True
  | (st, i) :: adds => complete m st /\ 0 <= i /\
      (exists r, regs !! Z.to_nat i = Some r /\ (length r < 20)%nat) /\
      adds_legal m (alter (fun r => r ++ [st]) (Z.to_nat i) regs) adds
  end.

(** A machine with the states [r] that has not been started. *)
Definition machine_configured (r : list Z) (m : state_machine_t) (id : Z) : Prop :=
  machine_new r m id /\ num_of_states m = zlen r /\ zlen (states m) = STATE_MAC_MAX_STATES /\
  (length r <= 20)%nat.

Definition never_entered (m : gmap Z state_t) : Prop :=
  forall a st, m !! a = Some st -> entered_once st = false.

Record configured_loop (s : sel Q C) (regs : list (list Z)) (ids : list Z) : Prop := {
  cf_num : num_machines (lp s) = zlen regs;
  cf_machines : Forall3 machine_configured regs (machines (lp s)) ids;
  cf_states : forall r a, r ∈ regs -> a ∈ r -> complete (state_mem s) a;
  cf_fresh : never_entered (state_mem s)
}.

(** Everything but the machines and their states is as before. *)
Definition same_parts (s s' : sel Q C) : Prop :=
  exists ms mm, s' = {| lp := set_machines (lp s) ms; state_mem := mm; event_mem := event_mem s;
                        events := events s; reg_loops := reg_loops s; cl := cl s |}.

Lemma complete_set_machine m a b st x :
  m !! a = Some st -> complete m b <-> complete (<[a := set_machine st x]> m) b.
Proof.
  intros Ha. unfold complete. destruct (decide (a = b)) as [<-|Hne].
  - rewrite lookup_insert_eq, Ha.
    split; (intros [? (st' & [= <-] & ?)]; split; [done|]; eexists; by split).
  - by rewrite lookup_insert_ne.
Qed.

Lemma Forall3_alter {A B D} (P : A -> B -> D -> Prop) l1 l2 l3 i f y :
  Forall3 P l1 l2 l3 -> (forall x y0 z, l1 !! i = Some x -> l2 !! i = Some y0 -> l3 !! i = Some z ->
    P x y0 z -> P (f x) y z) -> Forall3 P (alter f i l1) (<[i := y]> l2) l3.
Proof.
  intros H. revert i. induction H as [|x y0 z l1 l2 l3 Hp H IH]; intros i Hi; [constructor|].
  destruct i as [|i]; cbn; constructor; try done.
  - by apply (Hi x y0 z).
  - apply IH. intros. by eapply (Hi x0).
Qed.

(** Registering one state. *)
Lemma add_state_ok s regs ids st i r :
  configured_loop s regs ids -> complete (state_mem s) st -> 0 <= i ->
  regs !! Z.to_nat i = Some r -> (length r < 20)%nat ->
  exists s', state_event_loop_add_state sm_address (Some s) st i = Ok (Some s') /\
    configured_loop s' (alter (fun r => r ++ [st]) (Z.to_nat i) regs) ids /\ same_parts s s' /\
    (forall a, complete (state_mem s) a <-> complete (state_mem s') a).
Proof.
  intros [Hnum Hms Hst Hfresh] (Hst0 & sto & Hsto & He & Hx & Hv & Hh) Hi Hr Hlen.
  destruct (Forall3_lookup_l _ _ _ _ _ _ Hms Hr) as (m & sid & Hm & Hid & Hconf).
  pose proof Hconf as ((Hho & Hsi & Htr) & Hns & Hcells & _).
  cbn [state_event_loop_add_state]. unfold at_machine. rewrite (load_at_eq _ _ m) by done.
  cbn [mbind result_bind]. unfold state_machine_register_state. cbn [sm mem].
  rewrite (proj2 (Z.eqb_neq st 0)), Hns by done. unfold STATE_MAC_MAX_STATES in *.
  rewrite (proj2 (Z.ltb_lt _ _)) by (unfold zlen; lia). cbn [negb andb]. unfold deref.
  rewrite Hsto. cbn [mbind result_bind].
  rewrite (proj2 (Z.eqb_neq _ _) He), (proj2 (Z.eqb_neq _ _) Hx), (proj2 (Z.eqb_neq _ _) Hv),
    (proj2 (Z.eqb_neq _ _) Hh). cbn [negb cassert mbind result_bind].
  rewrite store_at_eq by (unfold zlen in *; lia).
  cbn [mbind result_bind default sm mem world set_sm set_mem]. unfold id. cbn [sm mem world].
  rewrite store_at_eq.
  2:{ apply lookup_lt_Some in Hm. unfold zlen. lia. }
  cbn [mbind result_bind]. eexists. split; [reflexivity|].
  assert (forall a, complete (state_mem s) a <->
    complete (<[st := set_machine sto (sm_address i)]> (state_mem s)) a) as Hcomp
    by (intros a; by apply complete_set_machine).
  split_and!; [|by eexists _, _|done]. split; cbn.
  - rewrite Hnum. unfold zlen. by rewrite length_alter.
  - apply Forall3_alter; [done|]. intros x y0 z Hx1 Hx2 Hx3 _.
    assert (x = r /\ y0 = m) as [-> ->] by (split; congruence).
    assert (z = sid) as -> by congruence. split_and!; cbn.
    + unfold machine_new, holds in *. cbn. split_and!; [|done..].
      rewrite Hns in *. replace (Z.to_nat (zlen r + 1)) with (S (Z.to_nat (zlen r)))
        by (unfold zlen; lia).
      erewrite take_S_r by (apply list_lookup_insert_eq; unfold zlen in *; lia).
      by rewrite take_insert_ge, Hho by lia.
    + unfold zlen. rewrite length_app. cbn. lia.
    + unfold zlen. by rewrite length_insert.
    + rewrite length_app. cbn. lia.
  - intros r' a Hr' Ha. apply Hcomp. apply list_elem_of_lookup in Hr' as [j Hj].
    destruct (decide (Z.to_nat i = j)) as [<-|Hne].
    + rewrite list_lookup_alter_eq, Hr in Hj. injection Hj as <-.
      apply elem_of_app in Ha as [Ha|Ha%list_elem_of_singleton].
      * eapply Hst; [|done]. by eapply list_elem_of_lookup_2.
      * subst a. split; [done|]. exists sto. by split_and!.
    + rewrite list_lookup_alter_ne in Hj by done. eapply Hst; [|done]. by eapply list_elem_of_lookup_2.
  - intros a st' [[<- <-]|[_ Ha]]%lookup_insert_Some; [exact (Hfresh _ _ Hsto)|by eapply Hfresh].
Qed.

Lemma add_states_ok adds : forall s regs ids,
  configured_loop s regs ids -> adds_legal (state_mem s) regs adds ->
  exists s', add_states (Some s) adds = Ok (Some s') /\
    configured_loop s' (regs_after regs adds) ids /\ same_parts s s'.
Proof.
  induction adds as [|[st i] adds IH]; intros s regs ids Hc Hl; cbn [add_states].
  { exists s. split_and!; [done..|]. exists (machines (lp s)), (state_mem s).
    by destruct s as [[] ? ? ? ? ?]. }
  destruct Hl as (Hst & Hi & (r & Hr & Hlen) & Hl).
  destruct (add_state_ok s regs ids st i r Hc Hst Hi Hr Hlen) as (s1 & -> & Hc1 & Hp1 & Hcomp).
  cbn [mbind result_bind].
  destruct (IH s1 _ ids Hc1) as (s2 & -> & Hc2 & Hp2).
  { clear - Hl Hcomp. revert Hl. generalize (alter (fun r => r ++ [st]) (Z.to_nat i) regs).
    induction adds as [|[st' i'] adds IH]; intros regs' Hl; [done|].
    destruct Hl as (H1 & H2 & H3 & H4). split_and!; [by apply Hcomp|done..|by apply IH]. }
  exists s2. split_and!; [done..|].
  destruct Hp1 as (ms1 & mm1 & ->), Hp2 as (ms2 & mm2 & ->). by exists ms2, mm2.
Qed.

(** Starting a configured loop. *)
Lemma start_ok (eff : Z -> Z -> C -> C) s regs ids :
  configured_loop s regs ids ->
  all_desc_ok (state_mem s) regs /\
  match all_machines (astep_start (state_mem s) eff) regs ids ∅ (cl s) with
  | Ok (xs, en, c) => exists ms mm,
      state_event_loop_start (c_call eff) (Some s) =
        Ok (Some {| lp := set_machines (lp s) ms; state_mem := mm; event_mem := event_mem s;
                    events := events s; reg_loops := reg_loops s; cl := c |}) /\
      Forall3 machine_running regs ms xs /\ mem_ok (state_mem s) mm en
  | Err f => state_event_loop_start (c_call eff) (Some s) = Err f
  end.
Proof.
  intros [Hnum Hms Hst Hfresh].
  assert (all_desc_ok (state_mem s) regs) as Hd.
  { apply Forall_forall. intros r Hr. split.
    - apply list_elem_of_lookup in Hr as [j Hj].
      by destruct (Forall3_lookup_l _ _ _ _ _ _ Hms Hj) as (m & id & _ & _ & _ & _ & _ & ?).
    - intros a Ha. destruct (Hst r a Hr Ha) as (H0 & st & Hl & ? & ? & ? & ?). exists st. by split_and!. }
  split; [done|]. cbn [state_event_loop_start]. rewrite Hnum.
  replace (Z.to_nat (zlen regs)) with (length regs) by (unfold zlen; lia).
  assert (mem_ok (state_mem s) (state_mem s) ∅) as Hm.
  { intros a. rewrite bool_decide_eq_false_2 by set_solver +.
    destruct (state_mem s !! a) as [st|] eqn:Ha; [|done]. cbn. f_equal.
    pose proof (Hfresh a st Ha) as Hf. destruct st. cbn in *. by rewrite Hf. }
  pose proof (for_machines_ok (state_mem s) _ _ machine_new regs (machines (lp s)) ids [] s ∅
    (Forall_impl _ _ _ Hd (fun r H => start_step_refines (state_mem s) eff r H)) eq_refl
    (Forall3_impl _ _ _ _ _ Hms (fun _ _ _ H => proj1 H)) Hm) as Hf.
  change (zlen (@nil state_machine_t)) with 0 in Hf.
  destruct (all_machines _ _ _ _ _) as [[[xs en] c]|f]; [|by rewrite Hf].
  destruct Hf as (ms & mm & -> & Hr & Hmm). by exists ms, mm.
Qed.
End configuration.

Section initial.
Context {Q : Type} `{!BoundedQueue Q} `{!BoundedQueueLaws Q} {C : Type}.

(** A loop that has been created is configured with no states. *)
Lemma created_configured notify_f n p (en : sel_env Q C) s :
  created_loop notify_f n p en s -> never_entered (en_states en) ->
  configured_loop s (replicate (length (sp_sm_create_params p)) [])
    (sp_start_state_id <$> sp_sm_create_params p).
Proof.
  intros [Hnum Hms _ _ (Hmem & _) _] Hf. split.
  - rewrite Hnum. unfold zlen. by rewrite length_replicate.
  - rewrite Hms. clear Hnum Hms. induction (sp_sm_create_params p) as [|q l IH]; cbn; constructor;
      [|done]. split_and!; try done. cbn. lia.
  - intros r a [-> _]%elem_of_replicate Ha. by apply elem_of_nil in Ha.
  - by rewrite Hmem.
Qed.

(** Creating the loop.  A NULL loop, NULL machines, and events no longer than
    their base stop the program.  With resources for every part, the dispatch queue
    is created and its worker runs; the loop is returned exactly when the blocks of
    the event pool have the size of an event and are as many as the dispatch queue
    has cells.  Then every machine is reset with its parameters, the listeners are
    empty and every event block is free.  Otherwise NULL is returned with the pool
    and the notifier given up, but the dispatch queue and its worker are left
    running. *)
Theorem state_event_loop_init_outcome notify_f n p (en : sel_env Q C) :
  0 <= n ->
  (sp_loop p = false \/ sp_machines p = None \/ sp_event_data_size p <= sizeof_event_t ->
     state_event_loop_init p en = Err AssertFailed) /\
  (setup_ok notify_f n p en ->
     exists s d, state_event_loop_init p en = Ok (s, d, sizes_agree p) /\
       dq_inv (en_queue_address en) (fun _ _ _ u => u)
         (pp_num_of_elements (dp_pool_params (sp_queue_params p))) tt n (new_dq_world d tt) /\
       queue d <> None /\
       if sizes_agree p then created_loop notify_f n p en s
       else p_pool_of_events (lp s) = None /\ notifier (lp s) = None).
Proof.
  intros Hn. split.
  - intros H. unfold state_event_loop_init.
    destruct (sp_loop p); cbn; [|done]. destruct (sp_machines p); cbn; [|done].
    destruct H as [H|[H|H]]; [done..|]. by rewrite (proj2 (Z.ltb_ge _ _) H).
  - intros Hs. destruct (init_cases notify_f n p en Hn Hs) as (s & d & Hi & Hd & Hc).
    exists s, d. split_and!; [done|done| |done].
    destruct (dq_inv_cases _ _ _ _ _ _ Hd) as [(Hds & _)|(_ & qu & a & Hl)]; [done|].
    destruct (li_queue _ _ _ _ _ _ Hl) as [Hq _]. cbn in Hq. congruence.
Qed.
End initial.

(** Installing the pre-processor of a loop that has not been started sets it, and
    returns false as in every other case. *)
Lemma install_event_pre_proc_result {Q C : Type} (s : sel Q C) f data m ms :
  machines (lp s) = m :: ms ->
  state_event_loop_install_event_pre_proc s f data =
    Ok (if state_machine_started m then s else with_loop s (set_pre_proc (lp s) f data), false).
Proof.
  intros Hm. unfold state_event_loop_install_event_pre_proc.
  rewrite (load_at_eq _ _ m) by (lia || by rewrite Hm). cbn [mbind result_bind].
  by destruct (state_machine_started m).
Qed.

(** ** Witness, on the c11 port *)

#[local] Instance ex_bq : BoundedQueue ts_queue_t := port_queue thrd_timedout ex_now.

#[local] Instance ex_bq_laws : BoundedQueueLaws ts_queue_t.
Proof. apply (port_queue_laws thrd_timedout ltac:(discriminate) ex_now). Qed.

(** An event has 8 bytes behind its base; blocks for [num] events. *)
Definition ex_event_pool_params (num : Z) : pool_create_params_t :=
  {| pp_pool := true; pp_num_of_elements := num; pp_element_size_requested := 32;
     pp_total_element_size := 64; pp_backing := 3000; pp_offset_data_from_header := 16 |}.

(** Two machines that start in the states 1 and 2. *)
Definition ex_sm_params (id : Z) : state_machine_create_params_t :=
  {| sp_state_mac := true; sp_name := 0; sp_private := 0; sp_start_state_id := id |}.

Definition ex_loop_params (num : Z) : state_event_loop_create_params_t :=
  {| sp_loop := true; sp_notifier_params := ex_params; sp_queue_params := ex_dispatch_params;
     sp_event_pool_params := ex_event_pool_params num;
     sp_sm_create_params := [ex_sm_params 1; ex_sm_params 2];
     sp_machines := Some [state_machine_initialize; state_machine_initialize];
     sp_num_machines := 2; sp_loop_name := 0; sp_event_data_size := 32 |}.

(** The states of StateMachine's witness; the client's world is the trace of
    callbacks. *)
Definition ex_env : sel_env ts_queue_t (list Z) :=
  {| en_queue_address := 7; en_signal_mtx := true; en_signal_cv := true;
     en_queue := Some ex_pool_queue; en_queue_pool := Some ex_pool_queue;
     en_queue_memory := ex_memory; en_task := 1; en_notifier_mtx := true;
     en_notifier_queue := Some ex_pool_queue; en_notifier_memory := ex_memory;
     en_event_queue := Some ex_pool_queue; en_event_memory := ex_memory;
     en_states := ex_desc; en_client := []; en_pre_proc_f := 0; en_client_data := 0 |}.

Lemma ex_event_pool_ok n num :
  0 <= n <= 900 -> num = 1 \/ num = 2 -> create_ok n (ex_event_pool_params num) ex_pool_queue.
Proof.
  intros Hn Hnum. pose proof (ex_create_ok n num ltac:(lia) Hnum) as [? ? _ _ ? ? ?].
  split; try done; destruct Hnum as [->| ->]; by apply (bool_decide_unpack _).
Qed.

Lemma ex_setup_ok n num : 0 <= n <= 900 -> num = 1 \/ num = 2 ->
  setup_ok 99 n (ex_loop_params num) ex_env.
Proof.
  intros Hn Hnum. split; try done.
  - by eexists.
  - split; [done|]. by repeat constructor.
  - exists ex_pool_queue, ex_pool_queue. split_and!; [done..|]. by apply ex_dispatch_ok.
  - exists [7; 7], ex_pool_queue. split_and!; [done| |done]. split; try done.
    apply ex_create_ok; [lia|by right].
  - exists ex_pool_queue. split; [done|]. by apply ex_event_pool_ok.
Qed.

(** Blocks for one event do not suit a queue of two. *)
Lemma state_event_loop_init_outcome_witness :
  (exists s d, state_event_loop_init (ex_loop_params 2) ex_env = Ok (s, d, true) /\
     created_loop 99 10 (ex_loop_params 2) ex_env s) /\
  (exists s d, state_event_loop_init (ex_loop_params 1) ex_env = Ok (s, d, false) /\
     p_pool_of_events (lp s) = None /\ queue d <> None).
Proof.
  split.
  - destruct (state_event_loop_init_outcome 99 10 (ex_loop_params 2) ex_env ltac:(lia)) as [_ H].
    destruct (H (ex_setup_ok 10 2 ltac:(lia) ltac:(by right))) as (s & d & Hi & _ & _ & Hc).
    exists s, d. split; [exact Hi|exact Hc].
  - destruct (state_event_loop_init_outcome 99 10 (ex_loop_params 1) ex_env ltac:(lia)) as [_ H].
    destruct (H (ex_setup_ok 10 1 ltac:(lia) ltac:(by left))) as (s & d & Hi & _ & Hq & Hc & _).
    exists s, d. split; [exact Hi|]. split; [exact Hc|exact Hq].
Defined.
