(* ===== verification/EventLoopRun.v ===== *)
(** The state event loop at work: threads that post events, the worker that takes
    them through the machines and to the listeners, clients that change the
    listeners and a thread that destroys the dispatch queue, in every order.

    A post is cut at the event pool, at the flag of the dispatch queue, at the pool
    of the dispatch queue and at its queue; the worker's call is cut between the
    handlers and the release of the event.  [sel_step] is built on [dq_step], and
    the theorems on the invariant of DispatchQueue. *)
From S2P Require Import Prelude TsQueue Pool StateMachine Notifier EventFlag DispatchQueue.
From S2P Require Import StateEventLoop.
From stdpp Require Import list gmap sets.
From Stdlib Require Import ZArith Lia.
Local Open Scope Z_scope.

(** ** Interleaving *)

(** The event blocks of the threads that are posting; the event whose handlers have
    run and that is not released yet; the blocks of events that the queue refused.
    The events in the order in which they were queued, and what was done. *)
Record sel_world {Q C : Type} := {
  sl : sel Q C;
  dw : dq_world Q unit;
  senders : gmap nat Z;
  finishing : option Z;
  leaked : list Z;
  sposted : list (Z * event_t);
  hist : list a_op
}.
Arguments sel_world : clear implicits.

Inductive sel_event : Set :=
  | SAlloc (t : nat) (category : Z) (evt : event_t)
  | SSubmit (t : nat)
  | STakeBlock (t : nat)
  | SEnqueue (t : nat)
  | SWork
  | SListener (o : listener_op)
  | SDestroy
  | SKill
  | SFinish.

Section interleaving.
Context {Q : Type} `{!BoundedQueue Q} {C : Type}.
Context (call : Z -> state_enter_f C) (call_valid : event_t -> Z -> state_is_valid_event_f C)
        (call_handle : event_t -> Z -> state_handle_event_f C)
        (pre_proc : Z -> event_t -> Z -> C -> C) (listener : event_t -> Z -> notifier_f C).
(** The addresses of the loop, of its dispatch queue and of the worker's function;
    the port's signal, and the clock when it is waited for. *)
Context (self qself exec_f : Z) (gives_up : Z -> bool) (now : timespec).

(** The world of the dispatch queue: its calls are looked up in [done]. *)
Definition queue_step (w : sel_world Q C) (ev : dq_event) : result (dq_world Q unit) :=
  dq_step qself (fun _ _ _ u => u) gives_up now (dw w) ev.

Definition set_sl (w : sel_world Q C) (s : sel Q C) : sel_world Q C :=
  {| sl := s; dw := dw w; senders := senders w; finishing := finishing w; leaked := leaked w;
     sposted := sposted w; hist := hist w |}.

Definition set_dw (w : sel_world Q C) (d : dq_world Q unit) : sel_world Q C :=
  {| sl := sl w; dw := d; senders := senders w; finishing := finishing w; leaked := leaked w;
     sposted := sposted w; hist := hist w |}.

Definition set_senders (w : sel_world Q C) (m : gmap nat Z) : sel_world Q C :=
  {| sl := sl w; dw := dw w; senders := m; finishing := finishing w; leaked := leaked w;
     sposted := sposted w; hist := hist w |}.

Definition set_finishing (w : sel_world Q C) (f : option Z) : sel_world Q C :=
  {| sl := sl w; dw := dw w; senders := senders w; finishing := f; leaked := leaked w;
     sposted := sposted w; hist := hist w |}.

Definition add_leaked (w : sel_world Q C) (e : Z) : sel_world Q C :=
  {| sl := sl w; dw := dw w; senders := senders w; finishing := finishing w;
     leaked := e :: leaked w; sposted := sposted w; hist := hist w |}.

Definition add_sposted (w : sel_world Q C) (l : list (Z * event_t)) : sel_world Q C :=
  {| sl := sl w; dw := dw w; senders := senders w; finishing := finishing w; leaked := leaked w;
     sposted := sposted w ++ l; hist := hist w |}.

Definition add_hist (w : sel_world Q C) (o : a_op) : sel_world Q C :=
  {| sl := sl w; dw := dw w; senders := senders w; finishing := finishing w; leaked := leaked w;
     sposted := sposted w; hist := hist w ++ [o] |}.

(** An event that its thread cannot make has no effect. *)
Definition sel_step (w : sel_world Q C) (ev : sel_event) : result (sel_world Q C) :=
  match ev with
  | SAlloc t category evt =>
      match senders w !! t with
      | Some _ => Ok w
      | None =>
          '(s, event) ← post_event self (sl w) category evt;
          Ok (set_senders (set_sl w s) (<[t := event]> (senders w)))
      end
  | SSubmit t =>
      match senders w !! t, posters (dw w) !! t with
      | Some e, None =>
          d ← queue_step w (EPost t (exec_call exec_f e));
          if destroying (dq (dw w))
          then Ok (add_leaked (set_senders (set_dw w d) (delete t (senders w))) e)
          else Ok (set_dw w d)
      | _, _ => Ok w
      end
  | STakeBlock t => d ← queue_step w (EAlloc t); Ok (set_dw w d)
  | SEnqueue t =>
      match senders w !! t, posters (dw w) !! t with
      | Some e, Some (PAllocated _ _) =>
          d ← queue_step w (EEnqueue t);
          ev ← read_event (sl w) e;
          Ok (add_sposted (set_senders (set_dw w d) (delete t (senders w))) [(e, ev)])
      | _, _ => Ok w
      end
  | SWork =>
      match finishing w with
      | Some e =>
          s ← state_event_loop_release_event (Some (sl w)) e;
          Ok (set_finishing (set_sl w (default (sl w) s)) None)
      | None =>
          d ← queue_step w EWork;
          match drop (length (done (dw w))) (done d) with
          | c :: _ =>
              ev ← read_event (sl w) (arg1 c);
              s ← exec_handlers call call_valid call_handle pre_proc listener self (sl w) (arg1 c);
              Ok (add_hist (set_finishing (set_sl (set_dw w d) s) (Some (arg1 c)))
                    (AEvent (arg1 c) ev))
          | [] => Ok (set_dw w d)
          end
      end
  | SListener o => s ← listener_call self (sl w) o; Ok (add_hist (set_sl w s) (AListener o))
  | SDestroy => d ← queue_step w EDestroy; Ok (set_dw w d)
  | SKill => d ← queue_step w EKill; Ok (set_dw w d)
  | SFinish => d ← queue_step w EFinish; Ok (set_dw w d)
  end.

Fixpoint sel_run (w : sel_world Q C) (evs : list sel_event) : result (sel_world Q C) :=
  match evs with [] => Ok w | ev :: evs => w ← sel_step w ev; sel_run w evs end.

Definition new_sel_world (s : sel Q C) (d : dispatch_queue_t Q) : sel_world Q C :=
  {| sl := s; dw := new_dq_world d tt; senders := ∅; finishing := None; leaked := [];
     sposted := []; hist := [] |}.

(** The listeners as the history leaves them. *)
Definition registry_at (r : registry) (h : list a_op) : registry :=
  foldl (fun r o => match o with AListener o => registry_after r o | AEvent _ _ => r end) r h.

(** The client's part: an event is as long as the blocks, and the registration
    functions are called on blocks as [n_legal] says. *)
Definition sel_legal (r0 : registry) (w : sel_world Q C) (ev : sel_event) : Prop :=
  match ev with
  | SAlloc _ category evt => 0 <= category /\ exists bytes, copy_event (sl w) evt = Ok bytes
  | SListener o => n_legal (registry_at r0 (hist w)) (n_op_of o)
  | _ => True
  end.

Fixpoint sel_all_legal (r0 : registry) (w : sel_world Q C) (evs : list sel_event) : Prop :=
  match evs with
  | [] => True
  | ev :: evs => sel_legal r0 w ev /\
      match sel_step w ev with Ok w => sel_all_legal r0 w evs | Err _ => True end
  end.
End interleaving.

(** ** The steps of the dispatch queue *)

Section effects.
Context {Q W : Type} `{!BoundedQueue Q} (self : Z) (exec : Z -> Z -> Z -> W -> W).
Context (gives_up : Z -> bool) (now : timespec).

Definition poster_call (p : poster) : dispatch_queue_post_data_t :=
  match p with PLoaded c | PAllocated _ c => c end.

Definition pending (w : dq_world Q W) : list dispatch_queue_post_data_t :=
  drop (length (done w)) (posted w).

Lemma post_effect w t c w' :
  dq_step self exec gives_up now w (EPost t c) = Ok w' -> posters w !! t = None ->
  posted w' = posted w /\ done w' = done w /\
  posters w' = if destroying (dq w) then posters w else <[t := PLoaded c]> (posters w).
Proof.
  cbn. intros H Ht. rewrite Ht in H. by destruct (destroying (dq w)); injection H as <-.
Qed.

Lemma alloc_effect w t w' :
  dq_step self exec gives_up now w (EAlloc t) = Ok w' ->
  posted w' = posted w /\ done w' = done w /\
  forall t', poster_call <$> posters w' !! t' = poster_call <$> posters w !! t'.
Proof.
  cbn. intros H. destruct (posters w !! t) as [[c|b c]|] eqn:Ht; [|by injection H as <-..].
  apply bind_ok in H as ([d b] & _ & H). injection H as <-. cbn. split_and!; [done..|].
  intros t'. destruct (decide (t = t')) as [<-|Hne].
  - by rewrite lookup_insert_eq, Ht.
  - by rewrite lookup_insert_ne.
Qed.

Lemma enqueue_effect w t b c w' :
  dq_step self exec gives_up now w (EEnqueue t) = Ok w' -> posters w !! t = Some (PAllocated b c) ->
  posted w' = posted w ++ [c] /\ done w' = done w /\ posters w' = delete t (posters w).
Proof.
  cbn. intros H Ht. rewrite Ht in H. apply bind_ok in H as (d & _ & H). by injection H as <-.
Qed.

Lemma work_effect w w' :
  dq_step self exec gives_up now w EWork = Ok w' ->
  posted w' = posted w /\ posters w' = posters w /\
  (done w' = done w \/ exists c, done w' = done w ++ [c]).
Proof.
  cbn. intros H. destruct (wk w) as [|b|].
  - apply bind_ok in H as ([d [wc|p]] & _ & H); [injection H as <-; auto|].
    destruct (p =? self); [injection H as <-; auto|].
    apply bind_ok in H as ([c cl] & _ & H). injection H as <-. cbn. eauto.
  - apply bind_ok in H as (d & _ & H). injection H as <-. auto.
  - injection H as <-. auto.
Qed.

(** The steps of the destroyer. *)
Lemma destroyer_effect w ev w' :
  dq_step self exec gives_up now w ev = Ok w' -> ev = EDestroy \/ ev = EKill \/ ev = EFinish ->
  posted w' = posted w /\ done w' = done w /\ posters w' = posters w.
Proof.
  intros H [->|[->| ->]]; cbn -[signal_wait] in H.
  - destruct (ds w); [|by injection H as <-..].
    destruct (destroying (dq w)); by injection H as <-.
  - destruct (ds w); [by injection H as <-| |by injection H as <-..].
    apply bind_ok in H as (d & _ & H). by injection H as <-.
  - destruct (ds w); [by injection H as <-..| |by injection H as <-].
    destruct (signal_wait _ _ _ _) as [s [wc|[b z]]]; [by injection H as <-|].
    apply bind_ok in H as (d & _ & H). by injection H as <-.
Qed.
End effects.

Arguments pending : simpl never.

(** ** Invariant *)

Section invariant.
Context {Q : Type} `{!BoundedQueue Q} `{!BoundedQueueLaws Q} {C : Type}.
Context (desc : gmap Z state_t) (regs : list (list Z)).
Context (eff : Z -> Z -> C -> C) (vld : event_t -> Z -> Z -> Z -> C -> bool)
        (hnd : event_t -> Z -> Z -> Z -> C -> C * Z).
Context (pre_proc : Z -> event_t -> Z -> C -> C) (pre_f pre_data : Z).
Context (listener : event_t -> Z -> notifier_f C) (notify_f : Z).
Context (self qself exec_f : Z) (gives_up : Z -> bool) (now : timespec).
(** The loop in the beginning, and the number of blocks of the dispatch queue. *)
Context (a0 : aloop C) (num : Z).

Abbreviation step := (sel_step (Q := Q) (c_call eff) (fun ev => c_valid (vld ev))
  (fun ev => c_handle (hnd ev)) pre_proc listener self qself exec_f gives_up now).
Abbreviation arun := (aloop_run desc regs eff vld hnd pre_proc pre_f pre_data listener notify_f a0).
Abbreviation process := (process_event desc regs eff vld hnd pre_proc pre_f pre_data listener notify_f).

(** The event blocks in use, with their owners. *)
Definition owned (w : sel_world Q C) : list Z :=
  (map_to_list (senders w)).*2 ++ (arg1 <$> pending (dw w)) ++ option_list (finishing w) ++ leaked w.

Definition good_event (s : sel Q C) (x : Z * event_t) : Prop :=
  events s !! fst x = Some (snd x) /\ event_loop (snd x) = self /\ 0 <= event_id (snd x).

Definition carries (s : sel Q C) (c : dispatch_queue_post_data_t) (x : Z * event_t) : Prop :=
  c = exec_call exec_f (fst x) /\ good_event s x.

Record sel_inv (k : Z) (w : sel_world Q C) : Prop := {
  sv_dq : dq_inv qself (fun _ _ _ u => u) num tt k (dw w);
  sv_loop : exists a, arun (hist w) = Ok a /\
    loop_inv desc regs pre_f pre_data notify_f k (sl w) a;
  sv_pool : exists p ea, p_pool_of_events (lp (sl w)) = Some p /\
    pool_inv k (p, event_mem (sl w)) ea /\ owns ea (owned w);
  sv_senders : forall t e, senders w !! t = Some e -> exists ev, good_event (sl w) (e, ev);
  sv_posters : forall t p, posters (dw w) !! t = Some p ->
    exists e, senders w !! t = Some e /\ poster_call p = exec_call exec_f e;
  sv_queue : exists evs, sposted w = processed (hist w) ++ evs /\
    Forall2 (carries (sl w)) (pending (dw w)) evs
}.

Definition no_free_event (s : sel Q C) : Prop :=
  match p_pool_of_events (lp s) with
  | Some p => match q p with Some qu => bq_items qu = [] | None => True end
  | None => True
  end.

(** The steps that stop the program: no event block, no block or no room in the
    dispatch queue, or the loop's own failure on the next event. *)
Definition stops (w : sel_world Q C) (ev : sel_event) (f : fault) : Prop :=
  match ev with
  | SAlloc _ _ _ => f = AssertFailed /\ no_free_event (sl w)
  | STakeBlock t => f = AssertFailed /\ no_free_block (dq (dw w))
  | SEnqueue t => f = AssertFailed /\ queue_full (dq (dw w))
  | SKill => f = AssertFailed /\ queue_full (dq (dw w))
  | SWork => exists a e ev, arun (hist w) = Ok a /\
      sposted w !! length (processed (hist w)) = Some (e, ev) /\ process a e ev = Err f
  | _ => False
  end.

(** ** Lemmas on the parts *)

Lemma processed_snoc h o :
  processed (h ++ [o]) =
  processed h ++ match o with AEvent e ev => [(e, ev)] | AListener _ => [] end.
Proof. unfold processed. rewrite omap_app. by destruct o. Qed.

(** The registry of the loop is that of the history. *)
Lemma registry_of_run h a : arun h = Ok a -> areg a = registry_at (areg a0) h.
Proof.
  revert a. induction h as [|o h IH] using rev_ind; intros a Ha.
  - by injection Ha as <-.
  - rewrite aloop_run_snoc in Ha. apply bind_ok in Ha as (a1 & Ha1 & Ha).
    unfold registry_at. rewrite foldl_snoc. change (foldl _ _ h) with (registry_at (areg a0) h).
    rewrite <- (IH a1 Ha1). destruct o as [e ev|o]; cbn in Ha |- *; [|by injection Ha as <-].
    unfold process_event in Ha. apply bind_ok in Ha as ([[xs en] c] & _ & Ha).
    destruct (_ <? _); [|done]. by injection Ha as <-.
Qed.

Lemma sel_inv_mono k k' w : k' <= k -> sel_inv k w -> sel_inv k' w.
Proof.
  intros Hk [? (a & ? & ?) (p & ea & ? & ? & ?) ? ? ?]. split; try done.
  - by eapply dq_inv_mono.
  - exists a. split; [done|]. by eapply loop_inv_mono.
  - exists p, ea. split_and!; [done|by eapply pool_inv_mono|done].
Qed.

(** The posted calls are the ones made and the pending ones. *)
Lemma pending_split k d :
  dq_inv qself (fun _ _ _ u => u) num tt k d -> posted d = done d ++ pending d.
Proof.
  intros [_ _ _ _ Hl]. assert (exists cs, posted d = done d ++ cs) as [cs Hcs].
  { destruct (decide (ds d = DDone)); [by destruct Hl as (_ & _ & _ & _ & _ & H)|].
    destruct Hl as (qu & a & Hl). destruct (li_calls _ _ _ _ _ _ Hl) as (cs & H & _). by exists cs. }
  unfold pending. by rewrite Hcs, drop_app_length.
Qed.

(** The loop is at its place and unchanged up to the events. *)
Lemma loop_inv_same k (s s' : sel Q C) a :
  loop_inv desc regs pre_f pre_data notify_f k s a -> machines (lp s') = machines (lp s) ->
  num_machines (lp s') = num_machines (lp s) -> state_mem s' = state_mem s -> cl s' = cl s ->
  notifier (lp s') = notifier (lp s) -> event_pre_proc_f (lp s') = event_pre_proc_f (lp s) ->
  client_data (lp s') = client_data (lp s) ->
  loop_inv desc regs pre_f pre_data notify_f k s' a.
Proof.
  intros [? ? ? ? ? ?] E1 E2 E3 E4 E5 E6 E7. split; by rewrite ?E1, ?E2, ?E3, ?E4, ?E5, ?E6, ?E7.
Qed.

(** ** The steps *)

Context (exec_nonnull : exec_f <> 0).

(** A step that leaves the loop and the history alone. *)
Lemma sel_inv_frame k w w' :
  sel_inv (k + 1) w -> sl w' = sl w -> hist w' = hist w ->
  dq_inv qself (fun _ _ _ u => u) num tt k (dw w') -> owned w' ≡ₚ owned w ->
  (forall t e, senders w' !! t = Some e -> senders w !! t = Some e) ->
  (forall t p, posters (dw w') !! t = Some p ->
     exists e, senders w' !! t = Some e /\ poster_call p = exec_call exec_f e) ->
  (exists evs, sposted w' = processed (hist w) ++ evs /\
     Forall2 (carries (sl w)) (pending (dw w')) evs) ->
  sel_inv k w'.
Proof.
  intros Hi Hsl Hh Hd Ho Hs Hp Hq.
  destruct (sel_inv_mono (k + 1) k w ltac:(lia) Hi) as [_ Hloop (p & ea & E & Hpi & Hown) Hse _ _].
  split; rewrite ?Hsl, ?Hh; try done.
  - exists p, ea. split_and!; [done..|]. by eapply owns_perm, Hown.
  - intros t e He. eapply Hse, Hs, He.
Qed.

(** Steps of the dispatch queue keep its invariant or stop the program. *)
Lemma queue_step_ok k w ev :
  0 <= k -> sel_inv (k + 1) w -> posts_functions ev ->
  match queue_step qself gives_up now w ev with
  | Ok d => dq_inv qself (fun _ _ _ u => u) num tt k d
  | Err f => f = AssertFailed /\ fails (dw w) ev
  end.
Proof.
  intros Hk Hi Hp.
  pose proof (dq_step_ok qself (fun _ _ _ u => u) gives_up now num tt k (dw w) ev Hk (sv_dq _ _ Hi) Hp)
    as H. unfold queue_step. destruct (dq_step _ _ _ _ _ _); [by destruct H|done].
Qed.

Lemma sel_alloc_step_ok k w t category evt :
  0 <= k -> sel_inv (k + 1) w -> 0 <= category -> (exists bytes, copy_event (sl w) evt = Ok bytes) ->
  match step w (SAlloc t category evt) with
  | Ok w' => sel_inv k w'
  | Err f => stops w (SAlloc t category evt) f
  end.
Proof.
  intros Hk Hi Hc [bytes Hb]. cbn. destruct (senders w !! t) eqn:Ht.
  { eapply sel_inv_mono, Hi. lia. }
  pose proof Hi as [Hd (a & Ha & Hloop) (p & ea & Hp & Hpi & Hown) Hse Hpo (evs & Hq & Hf)].
  unfold post_event, state_event_loop_allocate_event, event_pool. rewrite Hp.
  destruct (free ea) as [|b fl] eqn:Hfree.
  { destruct (pool_alloc_none k _ _ Hk Hpi Hfree) as (s' & -> & _). split; [done|].
    destruct (pi_queue _ _ _ Hpi) as (qu & Hqu & _ & Hit & _). unfold no_free_event.
    cbn in Hqu. by rewrite Hp, Hqu, Hit, Hfree. }
  destruct (pool_alloc_ok k _ _ b fl Hk Hpi Hfree) as ([p' m'] & Halloc & Hpi').
  rewrite Halloc. cbn [mbind result_bind fst snd].
  destruct (pi_free _ _ _ Hpi b) as [Hb0 _]; [rewrite Hfree; left|].
  assert (Hlive : live ea !! b = None) by (apply (pi_disjoint _ _ _ Hpi); rewrite Hfree; left).
  rewrite (proj2 (Z.eqb_neq b 0)) by done. cbn [negb cassert mbind result_bind default].
  unfold id. rewrite (proj2 (Z.eqb_neq b 0)) by done. cbn [negb cassert mbind result_bind].
  assert (copy_event (with_event_pool (sl w) (Some (p', m'))) evt = Ok bytes) as ->.
  { unfold copy_event in Hb |- *. rewrite Hp in Hb. cbn. by rewrite (pool_alloc_size _ _ _ _ _ Halloc). }
  cbn. set (x := {| event_id := category |}).
  assert (Hfresh : b ∉ owned w) by (intros [c Hin]%(proj1 (proj2 Hown) b); congruence).
  assert (Hgood : forall y, good_event (sl w) y -> fst y ∈ owned w ->
    good_event (with_events (with_event_pool (sl w) (Some (p', m'))) (<[b := x]> (events (sl w)))) y).
  { intros y (Hy & ? & ?) Hin. split; [|done]. cbn. rewrite lookup_insert_ne; [done|].
    intros ->. done. }
  split; cbn.
  - apply (dq_inv_mono _ _ _ _ (k + 1)); [lia|done].
  - exists a. split; [done|]. eapply loop_inv_same; [eapply loop_inv_mono, Hloop; lia|done..].
  - exists p', (fst (apool_step ea (PAlloc 0 0))). split_and!; [done|done|].
    eapply owns_perm, owns_alloc; [|done..]. unfold owned. cbn.
    by rewrite map_to_list_insert by done.
  - intros t' e [[<- <-]|[_ He]]%lookup_insert_Some.
    + exists x. by split; cbn; [rewrite lookup_insert_eq|].
    + destruct (Hse _ _ He) as [ev Hev]. exists ev. apply Hgood; [done|]. apply elem_of_app. left.
      apply list_elem_of_fmap. exists (t', e). split; [done|]. by apply elem_of_map_to_list.
  - intros t' po Hpt. destruct (Hpo _ _ Hpt) as (e & He & ?). exists e. split; [|done].
    rewrite lookup_insert_ne; [done|]. intros <-. congruence.
  - exists evs. split; [done|]. eapply Forall2_impl_elem; [exact Hf|]. intros c y Hin [-> Hy].
    split; [done|]. apply Hgood; [done|]. unfold owned. rewrite !elem_of_app. right. left.
    apply list_elem_of_fmap. by exists (exec_call exec_f (fst y)).
Qed.

Lemma submit_step_ok k w t :
  0 <= k -> sel_inv (k + 1) w ->
  match step w (SSubmit t) with Ok w' => sel_inv k w' | Err f => False end.
Proof.
  intros Hk Hi. cbn [sel_step]. destruct (senders w !! t) as [e|] eqn:Ht; [|eapply sel_inv_mono, Hi; lia].
  destruct (posters (dw w) !! t) eqn:Hpt; [eapply sel_inv_mono, Hi; lia|].
  pose proof (queue_step_ok k w (EPost t (exec_call exec_f e)) Hk Hi exec_nonnull) as Hd.
  destruct (queue_step _ _ _ _ _) as [d|f] eqn:Hs; cbn [mbind result_bind];
    [|by destruct Hd as [_ []]].
  destruct (post_effect _ _ _ _ _ _ _ _ Hs Hpt) as (E1 & E2 & E3).
  assert (Hpe : pending d = pending (dw w)) by (unfold pending; by rewrite E1, E2).
  destruct (destroying (dq (dw w))); apply (sel_inv_frame k w); try done; cbn.
  - unfold owned. cbn. rewrite Hpe. rewrite <- (map_to_list_delete _ _ _ Ht). cbn.
    solve_Permutation.
  - intros t' e' [_ He]%lookup_delete_Some. done.
  - rewrite E3. intros t' p Hp. destruct (sv_posters _ _ Hi _ _ Hp) as (e' & He & ?). exists e'.
    rewrite lookup_delete_ne; [done|]. intros <-. congruence.
  - rewrite Hpe. apply (sv_queue _ _ Hi).
  - unfold owned. cbn. by rewrite Hpe.
  - rewrite E3. intros t' p [[<- <-]|[_ Hp]]%lookup_insert_Some; [by exists e|].
    by apply (sv_posters _ _ Hi).
  - rewrite Hpe. apply (sv_queue _ _ Hi).
Qed.

Lemma take_block_step_ok k w t :
  0 <= k -> sel_inv (k + 1) w ->
  match step w (STakeBlock t) with Ok w' => sel_inv k w' | Err f => stops w (STakeBlock t) f end.
Proof.
  intros Hk Hi. cbn [sel_step]. pose proof (queue_step_ok k w (EAlloc t) Hk Hi I) as Hd.
  destruct (queue_step _ _ _ _ _) as [d|f] eqn:Hs; cbn [mbind result_bind];
    [|by destruct Hd as (? & c & _ & ?)].
  destruct (alloc_effect _ _ _ _ _ _ _ Hs) as (E1 & E2 & E3).
  assert (Hpe : pending d = pending (dw w)) by (unfold pending; by rewrite E1, E2).
  apply (sel_inv_frame k w); try done; cbn.
  - unfold owned. cbn. by rewrite Hpe.
  - intros t' p Hp. specialize (E3 t'). rewrite Hp in E3.
    destruct (posters (dw w) !! t') as [p'|] eqn:Hp'; [|done]. injection E3 as ->.
    by apply (sv_posters _ _ Hi).
  - rewrite Hpe. apply (sv_queue _ _ Hi).
Qed.

Lemma sel_enqueue_step_ok k w t :
  0 <= k -> sel_inv (k + 1) w ->
  match step w (SEnqueue t) with Ok w' => sel_inv k w' | Err f => stops w (SEnqueue t) f end.
Proof.
  intros Hk Hi. cbn [sel_step]. destruct (senders w !! t) as [e|] eqn:Ht; [|eapply sel_inv_mono, Hi; lia].
  destruct (posters (dw w) !! t) as [[c|b c]|] eqn:Hpt; try (eapply sel_inv_mono, Hi; lia).
  pose proof (queue_step_ok k w (EEnqueue t) Hk Hi I) as Hd.
  destruct (queue_step _ _ _ _ _) as [d|f] eqn:Hs; cbn [mbind result_bind];
    [|by destruct Hd as (? & b' & c' & _ & ?)].
  destruct (enqueue_effect _ _ _ _ _ _ _ _ _ Hs Hpt) as (E1 & E2 & E3).
  destruct (sv_posters _ _ Hi _ _ Hpt) as (e' & He' & Hc). rewrite Ht in He'. injection He' as <-.
  cbn in Hc. subst c. destruct (sv_senders _ _ Hi _ _ Ht) as [ev Hev]. unfold read_event.
  pose proof Hev as (Hee & _). cbn in Hee. rewrite Hee. cbn.
  assert (Hpe : pending d = pending (dw w) ++ [exec_call exec_f e]).
  { unfold pending. rewrite E1, E2. apply drop_app_le.
    rewrite (pending_split _ _ (sv_dq _ _ Hi)), length_app. lia. }
  apply (sel_inv_frame k w); try done; cbn.
  - unfold owned. cbn. rewrite Hpe, fmap_app, <- (map_to_list_delete _ _ _ Ht). cbn.
    solve_Permutation.
  - intros t' e' [_ He]%lookup_delete_Some. done.
  - rewrite E3. intros t' p [Hne Hp]%lookup_delete_Some.
    destruct (sv_posters _ _ Hi _ _ Hp) as (e' & He & ?). exists e'. by rewrite lookup_delete_ne.
  - destruct (sv_queue _ _ Hi) as (evs & Hq & Hf). exists (evs ++ [(e, ev)]).
    rewrite Hq, app_assoc, Hpe. split; [done|].
    apply Forall2_app; [done|]. by constructor.
Qed.

Lemma destroyer_step_ok k w ev dev :
  0 <= k -> sel_inv (k + 1) w -> (ev, dev) ∈ [(SDestroy, EDestroy); (SKill, EKill); (SFinish, EFinish)] ->
  match step w ev with Ok w' => sel_inv k w' | Err f => stops w ev f end.
Proof.
  intros Hk Hi Hev.
  assert (step w ev = (d ← queue_step qself gives_up now w dev; Ok (set_dw w d)) /\
    posts_functions dev /\ (dev = EDestroy \/ dev = EKill \/ dev = EFinish) /\
    (fails (dw w) dev -> forall f, f = AssertFailed -> stops w ev f)) as (-> & Hp & Hdev & Hst).
  { rewrite !elem_of_cons, elem_of_nil in Hev.
    destruct Hev as [[= -> ->]|[[= -> ->]|[[= -> ->]|[]]]]; split_and!; auto; try exact I;
      (intros [] f' -> || intros []); by split. }
  pose proof (queue_step_ok k w dev Hk Hi Hp) as Hd.
  destruct (queue_step _ _ _ _ dev) as [d|f] eqn:Hs; cbn [mbind result_bind];
    [|destruct Hd; by apply Hst].
  destruct (destroyer_effect _ _ _ _ _ _ _ Hs Hdev) as (E1 & E2 & E3).
  assert (Hpe : pending d = pending (dw w)) by (unfold pending; by rewrite E1, E2).
  apply (sel_inv_frame k w); try done; cbn.
  - unfold owned. cbn. by rewrite Hpe.
  - rewrite E3. apply (sv_posters _ _ Hi).
  - rewrite Hpe. apply (sv_queue _ _ Hi).
Qed.

Context (states_ok : all_desc_ok desc regs).

Lemma event_pool_same (s s' : sel Q C) p :
  same_events s s' -> p_pool_of_events (lp s) = Some p ->
  p_pool_of_events (lp s') = Some p /\ event_mem s' = event_mem s.
Proof.
  unfold same_events, event_pool. intros [_ H] Hp. rewrite Hp in H.
  destruct (p_pool_of_events (lp s')); [|done]. by injection H as -> ->.
Qed.

Lemma good_event_same s s' x : same_events s s' -> good_event s x -> good_event s' x.
Proof. intros [H _]. unfold good_event. by rewrite H. Qed.

Lemma owned_live k w p ea b :
  pool_inv k (p, event_mem (sl w)) ea -> owns ea (owned w) -> b ∈ owned w ->
  is_Some (live ea !! b) /\ b <> 0.
Proof.
  intros Hpi (_ & Hl & _) Hb. apply Hl in Hb as [c Hc]. split; [by exists c|].
  by destruct (pi_live _ _ _ Hpi _ _ Hc) as [_ [? _]].
Qed.

Lemma sel_release_step_ok k w e :
  0 <= k -> sel_inv (k + 1) w -> finishing w = Some e ->
  exists w', step w SWork = Ok w' /\ sel_inv k w' /\ hist w' = hist w /\ sposted w' = sposted w /\
    finishing w' = None.
Proof.
  intros Hk Hi Hfin. pose proof Hi as [Hd (a & Ha & Hloop) (p & ea & Hp & Hpi & Hown) Hse Hpo Hq].
  assert (owned w ≡ₚ e :: owned (set_finishing w None)) as Ho
    by (unfold owned; cbn; rewrite Hfin; cbn; solve_Permutation).
  destruct (owned_live _ _ _ _ e Hpi Hown) as [Hlive He0]; [rewrite Ho; left|].
  destruct (pool_free_ok k _ _ e Hk Hpi Hlive) as ([p' m'] & calls & Hfree & Hpi').
  cbn [sel_step]. rewrite Hfin. unfold state_event_loop_release_event.
  rewrite (proj2 (Z.eqb_neq e 0)) by done. cbn [negb cassert mbind result_bind].
  unfold event_pool. rewrite Hp, Hfree. cbn [mbind result_bind fst].
  eexists. split; [reflexivity|]. split_and!; [|done..]. split; cbn; try done.
  - apply (dq_inv_mono _ _ _ _ (k + 1)); [lia|done].
  - exists a. split; [done|]. eapply loop_inv_same; [eapply loop_inv_mono, Hloop; lia|done..].
  - exists p', (fst (apool_step ea (PFree e))). split_and!; [done|done|].
    apply owns_free. by eapply owns_perm, Hown.
Qed.

(** The worker's other steps: it takes no call, or it takes an event. *)
Lemma sel_take_step_ok k w :
  0 <= k -> sel_inv (k + 1) w -> finishing w = None ->
  match step w SWork with Ok w' => sel_inv k w' | Err f => stops w SWork f end.
Proof.
  intros Hk Hi Hfin. cbn [sel_step]. rewrite Hfin.
  pose proof (queue_step_ok k w EWork Hk Hi I) as Hd.
  destruct (queue_step _ _ _ _ _) as [d|f] eqn:Hs; cbn [mbind result_bind]; [|by destruct Hd as [_ []]].
  destruct (work_effect _ _ _ _ _ _ Hs) as (E1 & E3 & [E2|(c & E2)]); rewrite E2.
  { rewrite drop_all. assert (Hpe : pending d = pending (dw w)) by (unfold pending; by rewrite E1, E2).
    apply (sel_inv_frame k w); try done; cbn.
    - unfold owned. cbn. by rewrite Hpe.
    - rewrite E3. apply (sv_posters _ _ Hi).
    - rewrite Hpe. apply (sv_queue _ _ Hi). }
  rewrite drop_app_length. assert (pending (dw w) = c :: pending d) as Hpe.
  { unfold pending at 1. rewrite <- E1, (pending_split _ _ Hd), E2, <- app_assoc.
    by rewrite drop_app_length. }
  pose proof Hi as [_ (a & Ha & Hloop) (p & ea & Hp & Hpi & Hown) Hse Hpo (evs & Hq & Hf)].
  rewrite Hpe in Hf. inversion Hf as [|? [e ev] ? evs' Hc Hf']; subst. destruct Hc as [-> Hev].
  pose proof Hev as (Hee & Hself & Hid). cbn [exec_call arg1 fst snd] in *. unfold read_event.
  rewrite Hee. cbn [mbind result_bind].
  destruct (owned_live _ _ _ _ e Hpi Hown) as [_ He0].
  { unfold owned. rewrite Hpe. cbn. rewrite elem_of_app. right. left. }
  pose proof (exec_handlers_ok desc regs eff vld hnd pre_proc pre_f pre_data listener notify_f self
    (k + 1) (sl w) a e ev states_ok Hloop Hee Hself He0 Hid) as Hx.
  destruct (process_event _ _ _ _ _ _ _ _ _ _ a e ev) as [a'|f] eqn:Hpr.
  2:{ rewrite Hx. exists a, e, ev. split_and!; [done| |done]. rewrite Hq. by apply list_lookup_middle. }
  destruct Hx as (s' & -> & Hloop' & Hsame). cbn [mbind result_bind].
  destruct (event_pool_same _ _ _ Hsame Hp) as [Hp' Hm'].
  split; cbn; try done.
  - exists a'. rewrite aloop_run_snoc, Ha. split; [done|]. eapply loop_inv_mono, Hloop'. lia.
  - exists p, ea. rewrite Hm'. split_and!; [done|by eapply pool_inv_mono, Hpi; lia|].
    eapply owns_perm, Hown. unfold owned. cbn. rewrite Hpe, Hfin. cbn. solve_Permutation.
  - intros t e' He'. destruct (Hse _ _ He') as [ev' Hev']. exists ev'. by eapply good_event_same.
  - by rewrite E3.
  - exists evs'. rewrite processed_snoc, <- app_assoc. split; [done|].
    eapply Forall2_impl; [exact Hf'|]. intros c x [-> Hx]. split; [done|]. by eapply good_event_same.
Qed.

Lemma listener_step_ok k w o :
  0 <= k -> sel_inv (k + 1) w -> n_legal (registry_at (areg a0) (hist w)) (n_op_of o) ->
  exists w', step w (SListener o) = Ok w' /\ sel_inv k w'.
Proof.
  intros Hk Hi Hl. pose proof Hi as [Hd (a & Ha & Hloop) (p & ea & Hp & Hpi & Hown) Hse Hpo (evs & Hq & Hf)].
  rewrite <- (registry_of_run _ _ Ha) in Hl.
  destruct (listener_call_ok desc regs pre_f pre_data notify_f self k _ _ o Hk Hloop Hl)
    as (s' & Hs & Hloop' & Hsame).
  destruct (event_pool_same _ _ _ Hsame Hp) as [Hp' Hm'].
  cbn [sel_step]. rewrite Hs. cbn [mbind result_bind]. eexists. split; [reflexivity|].
  split; cbn; try done.
  - apply (dq_inv_mono _ _ _ _ (k + 1)); [lia|done].
  - eexists. rewrite aloop_run_snoc, Ha. by split.
  - exists p, ea. rewrite Hm'. split_and!; [done|by eapply pool_inv_mono, Hpi; lia|done].
  - intros t e' He'. destruct (Hse _ _ He') as [ev' Hev']. exists ev'. by eapply good_event_same.
  - exists evs. rewrite processed_snoc, app_nil_r. split; [done|].
    eapply Forall2_impl; [exact Hf|]. intros c x [-> Hx]. split; [done|]. by eapply good_event_same.
Qed.

Lemma sel_step_ok k w ev :
  0 <= k -> sel_inv (k + 1) w -> sel_legal (areg a0) w ev ->
  match step w ev with Ok w' => sel_inv k w' | Err f => stops w ev f end.
Proof.
  intros Hk Hi Hl. destruct ev as [t c evt|t|t|t| |o| | |].
  - by apply sel_alloc_step_ok; [..|apply Hl|apply Hl].
  - pose proof (submit_step_ok k w t Hk Hi). by destruct (step w (SSubmit t)).
  - by apply take_block_step_ok.
  - by apply sel_enqueue_step_ok.
  - destruct (finishing w) as [e|] eqn:Hfin; [|by apply sel_take_step_ok].
    by destruct (sel_release_step_ok k w e Hk Hi Hfin) as (w' & -> & ? & _).
  - by destruct (listener_step_ok k w o Hk Hi Hl) as (w' & -> & ?).
  - apply (destroyer_step_ok k w _ EDestroy); [done..|]. left.
  - apply (destroyer_step_ok k w _ EKill); [done..|]. right. left.
  - apply (destroyer_step_ok k w _ EFinish); [done..|]. right. right. left.
Qed.

Abbreviation run := (sel_run (Q := Q) (c_call eff) (fun ev => c_valid (vld ev))
  (fun ev => c_handle (hnd ev)) pre_proc listener self qself exec_f gives_up now).
Abbreviation all_legal := (sel_all_legal (Q := Q) (c_call eff) (fun ev => c_valid (vld ev))
  (fun ev => c_handle (hnd ev)) pre_proc listener self qself exec_f gives_up now).

Lemma sel_run_ok evs : forall k w,
  0 <= k -> sel_inv (k + zlen evs) w -> all_legal (areg a0) w evs ->
  match run w evs with
  | Ok w' => sel_inv k w'
  | Err f => exists evs1 ev evs2 w1, evs = evs1 ++ ev :: evs2 /\ run w evs1 = Ok w1 /\ stops w1 ev f
  end.
Proof.
  induction evs as [|ev evs IH]; intros k w Hk Hi Hl; cbn [sel_run].
  { rewrite zlen_nil, Z.add_0_r in Hi. done. }
  destruct Hl as [Hev Hl]. rewrite zlen_cons in Hi. pose proof (zlen_nonneg evs).
  pose proof (sel_step_ok (k + zlen evs) w ev ltac:(lia)) as Hs. rewrite <- Z.add_assoc in Hs.
  specialize (Hs Hi Hev). destruct (step w ev) as [w1|f] eqn:Hst; cbn [mbind result_bind].
  - specialize (IH k w1 Hk Hs Hl). destruct (run w1 evs); [done|].
    destruct IH as (evs1 & ev' & evs2 & w2 & -> & Hr & Hstop).
    exists (ev :: evs1), ev', evs2, w2. cbn [sel_run]. by rewrite Hst.
  - by exists [], ev, evs, w.
Qed.

(** A loop that has been created and started: nothing is posted yet. *)
Record ready (n : Z) (s : sel Q C) (d : dispatch_queue_t Q) : Prop := {
  rd_queue : dq_inv qself (fun _ _ _ u => u) num tt n (new_dq_world d tt);
  rd_loop : loop_inv desc regs pre_f pre_data notify_f n s a0;
  rd_pool : exists p ea, p_pool_of_events (lp s) = Some p /\
    pool_inv n (p, event_mem s) ea /\ live ea = ∅
}.

Lemma sel_ready_inv n s d : ready n s d -> sel_inv n (new_sel_world s d).
Proof.
  intros [Hd Hl (p & ea & Hp & Hpi & Hlive)]. split; cbn; try done.
  - by exists a0.
  - exists p, ea. split_and!; [done..|]. unfold owned. cbn. rewrite map_to_list_empty. cbn.
    split_and!; [constructor| |intros b c; by rewrite Hlive].
    intros b. rewrite Hlive, lookup_empty. split; [by intros []|by intros ?%elem_of_nil].
  - exists []. by split; [|constructor].
Qed.

(** ** The worker drains the queue *)

Definition worker_work (w : sel_world Q C) : nat :=
  3 * length (pending (dw w)) +
  match finishing w with Some _ => 2 | None => match wk (dw w) with WRunning _ => 1 | _ => 0 end end.

(** A step of the worker of a dispatch queue that nobody destroys. *)
Lemma work_progress k d d' :
  0 <= k -> dq_inv qself (fun _ _ _ u => u) num tt (k + 1) d -> ds d = DNone ->
  dq_step qself (fun _ _ _ u => u) gives_up now d EWork = Ok d' ->
  ds d' = DNone /\ posted d' = posted d /\
  match wk d with
  | WLoop => if pending d is [] then wk d' = WLoop /\ done d' = done d
             else exists c b, done d' = done d ++ [c] /\ wk d' = WRunning b
  | WRunning _ => wk d' = WLoop /\ done d' = done d
  | WExited => False
  end.
Proof.
  intros Hk Hi Hds Hs.
  destruct (work_effect _ _ _ _ _ _ Hs) as (Hpo & _ & _).
  assert (ds d' = DNone) as Hds'.
  { cbn in Hs. destruct (wk d); [|apply bind_ok in Hs as (? & _ & Hs); by injection Hs as <-|by injection Hs as <-].
    apply bind_ok in Hs as ([d1 [wc|p]] & _ & Hs); [by injection Hs as <-|].
    destruct (p =? qself); [by injection Hs as <-|].
    apply bind_ok in Hs as ([c cl] & _ & Hs). by injection Hs as <-. }
  split_and!; [done..|]. destruct (dq_inv_cases _ _ _ _ _ _ Hi) as [(? & _)|(_ & qu & a & Hl)]; [congruence|].
  pose proof (li_kill _ _ _ _ _ _ Hl) as Hkill.
  assert (kill_after d = None) as Hka by (destruct (kill_after d); [destruct Hkill; congruence|done]).
  rewrite Hka in Hkill. destruct Hkill as (_ & Hself & Hwk).
  destruct (wk d) as [|b|] eqn:Ew; [|cbn in Hs; rewrite Ew in Hs;
    apply bind_ok in Hs as (? & _ & Hs); by injection Hs as <-|done].
  destruct (take_length qself _ gives_up now _ _ k d Hi Hk Ew) as (d1 & Hs1 & _ & Hcase).
  rewrite Hs in Hs1. injection Hs1 as <-.
  destruct (li_queue _ _ _ _ _ _ Hl) as (Hq & _). rewrite Hq in Hcase.
  destruct (li_calls _ _ _ _ _ _ Hl) as (cs & Hcs & Hf).
  assert (pending d = cs) as -> by (unfold pending; by rewrite Hcs, drop_app_length).
  rewrite (data_all _ _ Hself) in Hf. destruct (bq_items qu) as [|b l]; inversion Hf; subst.
  - by destruct Hcase as (? & ? & _).
  - rewrite decide_False in Hcase by (intros ->; apply Hself; left).
    destruct Hcase as (Hw' & _). cbn in Hs. rewrite Ew in Hs.
    apply bind_ok in Hs as ([d1 [wc|p]] & _ & Hs); [injection Hs as <-; cbn in Hw'; congruence|].
    destruct (p =? qself); [by injection Hs as <-|].
    apply bind_ok in Hs as ([c cl] & _ & Hs). injection Hs as <-. by exists c, p.
Qed.

(** A step of the worker brings the end nearer. *)
Lemma worker_progress k w w' :
  0 <= k -> sel_inv (k + 1) w -> ds (dw w) = DNone -> step w SWork = Ok w' ->
  ds (dw w') = DNone /\ sposted w' = sposted w /\ (worker_work w' <= worker_work w - 1)%nat.
Proof.
  intros Hk Hi Hds Hs. cbn [sel_step] in Hs. unfold worker_work.
  destruct (finishing w) as [e|] eqn:Hfin.
  { apply bind_ok in Hs as (s & _ & Hs). injection Hs as <-. cbn. split_and!; [done..|].
    destruct (wk (dw w)); lia. }
  apply bind_ok in Hs as (d & Hd & Hs).
  destruct (work_progress k _ _ Hk (sv_dq _ _ Hi) Hds Hd) as (Hds' & Hpo & Hcase).
  assert (forall l, done d = done (dw w) ++ l -> pending (dw w) = l ++ pending d) as Hpe.
  { intros l Hl. unfold pending. rewrite Hpo, Hl. pose proof (queue_step_ok k w EWork Hk Hi I) as Hdi.
    rewrite Hd in Hdi. pose proof (pending_split _ _ Hdi) as Hps. rewrite <- Hpo, Hps, Hl, <- app_assoc.
    rewrite drop_app_length. by rewrite app_assoc, drop_app_length. }
  destruct (wk (dw w)) as [|b|]; [|destruct Hcase as [Hwk Hdn]|done].
  - destruct (pending (dw w)) as [|c0 l0] eqn:Hp0.
    + destruct Hcase as [Hwk Hdn]. rewrite Hdn, drop_all in Hs. injection Hs as <-. cbn.
      pose proof (Hpe [] ltac:(by rewrite app_nil_r)) as E. cbn in E. by rewrite Hfin, Hwk, <- E.
    + destruct Hcase as (c & b & Hdn & Hwk). rewrite Hdn, drop_app_length in Hs.
      apply bind_ok in Hs as (ev & _ & Hs). apply bind_ok in Hs as (s & _ & Hs). injection Hs as <-.
      pose proof (Hpe [c] Hdn) as E. injection E as _ ->. cbn. split_and!; [done..|lia].
  - rewrite Hdn, drop_all in Hs. injection Hs as <-. cbn. rewrite Hfin, Hwk.
    rewrite (Hpe []) by (by rewrite app_nil_r). split_and!; [done..|cbn; lia].
Qed.

Lemma worker_drains n : forall k w,
  0 <= k -> sel_inv (k + Z.of_nat n) w -> ds (dw w) = DNone -> (worker_work w <= n)%nat ->
  match run w (replicate n SWork) with
  | Ok w' => sel_inv k w' /\ worker_work w' = 0%nat /\ sposted w' = sposted w
  | Err f => exists j w', run w (replicate j SWork) = Ok w' /\ stops w' SWork f
  end.
Proof.
  induction n as [|n IH]; intros k w Hk Hi Hds Hw; cbn [replicate sel_run].
  { rewrite Z.add_0_r in Hi. split_and!; [done|lia|done]. }
  replace (k + Z.of_nat (S n)) with (k + Z.of_nat n + 1) in Hi by lia.
  pose proof (sel_step_ok (k + Z.of_nat n) w SWork ltac:(lia) Hi I) as Hs.
  destruct (step w SWork) as [w1|f] eqn:Hst; cbn [mbind result_bind].
  - destruct (worker_progress (k + Z.of_nat n) w w1 ltac:(lia) Hi Hds Hst) as (Hds1 & Hp1 & Hw1).
    specialize (IH k w1 Hk Hs Hds1 ltac:(lia)). destruct (run w1 _) as [w2|f].
    + destruct IH as (? & ? & ?). split_and!; [done..|congruence].
    + destruct IH as (j & w2 & Hr & Hstop). exists (S j), w2. cbn [replicate sel_run]. by rewrite Hst.
  - exists 0%nat, w. by split.
Qed.
End invariant.

(** ** Properties *)

Section start.
Context {Q : Type} `{!BoundedQueue Q} `{!BoundedQueueLaws Q} {C : Type}.
Context (eff : Z -> Z -> C -> C) (sm_address : Z -> Z).

(** The machines' states after registration, and their start states. *)
Definition initial_regs (p : state_event_loop_create_params_t) (adds : list (Z * Z))
  : list (list Z) :=
  regs_after (replicate (length (sp_sm_create_params p)) []) adds.

Definition initial_machines (desc : gmap Z state_t) (p : state_event_loop_create_params_t)
    (adds : list (Z * Z)) (c : C) : result (list Z * gset Z * C) :=
  all_machines (astep_start desc eff) (initial_regs p adds)
    (sp_start_state_id <$> sp_sm_create_params p) ∅ c.

Definition initial_aloop (p : state_event_loop_create_params_t) (x : list Z * gset Z * C) : aloop C :=
  {| curs := fst (fst x); ent := snd (fst x); aw := snd x;
     areg := initial_registry (sp_notifier_params p) |}.

Lemma created_starts notify_f n p (en : sel_env Q C) s d adds :
  created_loop notify_f n p en s ->
  dq_inv (en_queue_address en) (fun _ _ _ u => u) (pp_num_of_elements (dp_pool_params (sp_queue_params p)))
    tt n (new_dq_world d tt) ->
  never_entered (en_states en) ->
  adds_legal (en_states en) (replicate (length (sp_sm_create_params p)) []) adds ->
  exists s1, add_states sm_address (Some s) adds = Ok (Some s1) /\
    all_desc_ok (state_mem s1) (initial_regs p adds) /\
    match initial_machines (state_mem s1) p adds (en_client en) with
    | Err f => state_event_loop_start (c_call eff) (Some s1) = Err f
    | Ok x => exists s2, state_event_loop_start (c_call eff) (Some s1) = Ok (Some s2) /\
        ready (state_mem s1) (initial_regs p adds) (en_pre_proc_f en) (en_client_data en) notify_f
          (en_queue_address en) (initial_aloop p x)
          (pp_num_of_elements (dp_pool_params (sp_queue_params p))) n s2 d
    end.
Proof.
  intros Hc Hd Hf Hl. pose proof (created_configured notify_f n p en s Hc Hf) as Hcf.
  destruct Hc as [Hnum Hms (nn & Hnn & Hni) (pl & Hpl & Hpi) (Hm & He & Hcl) Hpre].
  rewrite <- Hm in Hl.
  destruct (add_states_ok sm_address adds s _ _ Hcf Hl) as (s1 & Ha & Hcf1 & (ms & mm & Hs1)).
  exists s1. split; [done|].
  destruct (start_ok eff s1 _ _ Hcf1) as [Hdesc Hst]. split; [done|].
  assert (cl s1 = en_client en) as Hcl1 by (by subst s1). rewrite Hcl1 in Hst.
  unfold initial_machines, initial_regs. destruct (all_machines _ _ _ _ _) as [[[xs en'] c]|f]; [|done].
  destruct Hst as (ms2 & mm2 & Hst & Hrun & Hmem). rewrite Hst. eexists. split; [reflexivity|].
  subst s1. split; [done| |].
  - split; cbn; try done; [exact (cf_num _ _ _ Hcf1)|by exists nn].
  - by exists pl, {| free := blocks (sp_event_pool_params p); live := ∅; dtors := ∅ |}.
Qed.

(** C32: from creation to running.  After [state_event_loop_init], the client's
    calls of [state_event_loop_add_state] put the states into the machines in
    order, and [state_event_loop_start] enters the start state of every machine in
    order, calling its init and enter callbacks.  If a machine has no state with
    the start id the program stops; otherwise the loop is ready for events, with
    nothing posted, no listener registered and every event block free. *)
Theorem state_event_loop_starts notify_f n p (en : sel_env Q C) adds :
  0 <= n -> setup_ok notify_f n p en -> sizes_agree p = true -> never_entered (en_states en) ->
  adds_legal (en_states en) (replicate (length (sp_sm_create_params p)) []) adds ->
  exists s d s1, state_event_loop_init p en = Ok (s, d, true) /\
    add_states sm_address (Some s) adds = Ok (Some s1) /\
    match initial_machines (state_mem s1) p adds (en_client en) with
    | Err f => state_event_loop_start (c_call eff) (Some s1) = Err f
    | Ok x => exists s2, state_event_loop_start (c_call eff) (Some s1) = Ok (Some s2) /\
        ready (state_mem s1) (initial_regs p adds) (en_pre_proc_f en) (en_client_data en) notify_f
          (en_queue_address en) (initial_aloop p x)
          (pp_num_of_elements (dp_pool_params (sp_queue_params p))) n s2 d
    end.
Proof.
  intros Hn Hs Hsz Hf Hl. destruct (init_cases notify_f n p en Hn Hs) as (s & d & Hi & Hd & Hc).
  rewrite Hsz in Hi, Hc.
  destruct (created_starts notify_f n p en s d adds Hc Hd Hf Hl) as (s1 & Ha & _ & Hst).
  by exists s, d, s1.
Qed.
End start.

Section properties.
Context {Q : Type} `{!BoundedQueue Q} `{!BoundedQueueLaws Q} {C : Type}.
Context (desc : gmap Z state_t) (regs : list (list Z)).
Context (eff : Z -> Z -> C -> C) (vld : event_t -> Z -> Z -> Z -> C -> bool)
        (hnd : event_t -> Z -> Z -> Z -> C -> C * Z).
Context (pre_proc : Z -> event_t -> Z -> C -> C) (pre_f pre_data : Z).
Context (listener : event_t -> Z -> notifier_f C) (notify_f : Z).
Context (self qself exec_f : Z) (gives_up : Z -> bool) (now : timespec).
Context (a0 : aloop C) (num : Z).

Abbreviation run := (sel_run (Q := Q) (c_call eff) (fun ev => c_valid (vld ev))
  (fun ev => c_handle (hnd ev)) pre_proc listener self qself exec_f gives_up now).
Abbreviation all_legal := (sel_all_legal (Q := Q) (c_call eff) (fun ev => c_valid (vld ev))
  (fun ev => c_handle (hnd ev)) pre_proc listener self qself exec_f gives_up now).
Abbreviation arun := (aloop_run desc regs eff vld hnd pre_proc pre_f pre_data listener notify_f).
Abbreviation stops_at := (stops desc regs eff vld hnd pre_proc pre_f pre_data listener notify_f a0).



(** Posting.  [state_event_loop_post] is what a thread does in its four steps of
    [sel_step] when no other thread runs in between: it takes an event block, fills
    it in and hands it to the dispatch queue, stops the program where a step does,
    and returns true.  It also returns true when the dispatch queue is being
    destroyed and refuses the call: nothing is queued then, and the event's block is
    left without an owner.  Without a loop or an event it returns false. *)
Theorem state_event_loop_post_in_steps (w : sel_world Q C) t category evt :
  senders w !! t = None -> posters (dw w) !! t = None ->
  let steps := [SAlloc t category evt; SSubmit t; STakeBlock t; SEnqueue t] in
  (match state_event_loop_post self exec_f (Some (sl w)) (dq (dw w)) category (Some evt) with
   | Ok (s, d, r) => exists w', run w steps = Ok w' /\ s = Some (sl w') /\ d = dq (dw w') /\
       r = true /\
       exists e ev, events (sl w') !! e = Some ev /\ event_id ev = category /\
         if destroying (dq (dw w))
         then dq (dw w') = dq (dw w) /\ leaked w' = e :: leaked w /\ sposted w' = sposted w
         else sposted w' = sposted w ++ [(e, ev)] /\ leaked w' = leaked w
   | Err f => run w steps = Err f
   end) /\
  state_event_loop_post (Q := Q) (C := C) self exec_f None (dq (dw w)) category (Some evt) =
    Ok (None, dq (dw w), false) /\
  state_event_loop_post self exec_f (Some (sl w)) (dq (dw w)) category None =
    Ok (Some (sl w), dq (dw w), false).
Proof.
  intros Ht Hp steps. split; [|done]. unfold steps. cbn [state_event_loop_post sel_run sel_step].
  rewrite Ht. destruct (post_event self (sl w) category evt) as [[s e]|f] eqn:Hpe;
    cbn [mbind result_bind]; [|done].
  assert (exists ev, events s !! e = Some ev /\ event_id ev = category) as (ev & Hev & Hid).
  { unfold post_event in Hpe. apply bind_ok in Hpe as ([s1 e1] & _ & Hpe).
    apply bind_ok in Hpe as (u & _ & Hpe). apply bind_ok in Hpe as (bytes & _ & Hpe).
    injection Hpe as <- <-. eexists. cbn. rewrite lookup_insert_eq. by split. }
  unfold queue_step. cbn [set_senders set_sl senders dw sl dispatch_async_f]. rewrite lookup_insert_eq, Hp.
  cbn [dq_step]. rewrite Hp.
  destruct (destroying (dq (dw w))) eqn:Hd; cbn [mbind result_bind].
  { cbn. rewrite Hp. cbn. rewrite lookup_delete_eq. cbn.
    eexists. split; [reflexivity|]. cbn. split_and!; [done..|]. by exists e, ev. }
  cbn [set_dw dw set_posters posters dq]. rewrite lookup_insert_eq.
  destruct (async_alloc (dq (dw w))) as [[d b]|f]; cbn [mbind result_bind]; [|done].
  cbn [set_dw dw set_posters posters dq senders set_dq set_senders set_sl]. rewrite !lookup_insert_eq.
  destruct (async_enqueue d b _) as [d'|f]; cbn [mbind result_bind]; [|done].
  cbn [set_dw sl]. unfold read_event. cbn. rewrite Hev. cbn.
  eexists. split; [reflexivity|]. cbn. split_and!; [done..|]. by exists e, ev.
Qed.
End properties.

(** ** Witnesses, on the c11 port *)

#[local] Instance ex_bq : BoundedQueue ts_queue_t := port_queue thrd_timedout ex_now.

#[local] Instance ex_bq_laws : BoundedQueueLaws ts_queue_t.
Proof. apply (port_queue_laws thrd_timedout ltac:(discriminate) ex_now). Qed.

#[local] Instance copied_dec {Q C} (s : sel Q C) evt : Decision (exists bytes, copy_event s evt = Ok bytes).
Proof. destruct (copy_event s evt) as [l|f]; [left; by exists l|right; by intros []]. Defined.

#[local] Instance sel_all_legal_dec {Q C} `{!BoundedQueue Q} a b c p l self qself x g now r
  (w : sel_world Q C) evs : Decision (sel_all_legal a b c p l self qself x g now r w evs).
Proof.
  revert w. induction evs as [|ev evs IH]; intros w; cbn; [apply _|]. apply and_dec.
  - destruct ev; cbn; apply _.
  - destruct (sel_step _ _ _ _ _ _ _ _ _ _ w ev); [apply IH|apply _].
Defined.

(** Two states for each of the two machines; the second one starts in 400. *)
Definition ex_states : gmap Z state_t :=
  <[300 := ex_state 1 30]> (<[400 := ex_state 2 40]> ex_desc).

Definition ex_adds : list (Z * Z) := [(100, 0); (200, 0); (300, 1); (400, 1)].

Definition ex_run_env : sel_env ts_queue_t (list Z) :=
  {| en_queue_address := 7; en_signal_mtx := true; en_signal_cv := true;
     en_queue := Some ex_pool_queue; en_queue_pool := Some ex_pool_queue;
     en_queue_memory := ex_memory; en_task := 1; en_notifier_mtx := true;
     en_notifier_queue := Some ex_pool_queue; en_notifier_memory := ex_memory;
     en_event_queue := Some ex_pool_queue; en_event_memory := ex_memory;
     en_states := ex_states; en_client := []; en_pre_proc_f := 0; en_client_data := 0 |}.

(** The callbacks leave a trace; an event whose payload starts with 8 is refused,
    the others move every machine to its other state. *)
Definition ex_vld (ev : event_t) (f a e : Z) (t : list Z) : bool :=
  negb (default 0 (head (payload ev)) =? 8).

Definition ex_hnd (ev : event_t) (f a e : Z) (t : list Z) : list Z * Z :=
  (t ++ [f; default 0 (head (payload ev))], if (a =? 100) || (a =? 300) then 2 else 1).

Definition ex_listener (ev : event_t) (f b category data : Z) (t : list Z) : list Z :=
  t ++ [f; b; default 0 (head (payload ev))].

Definition ex_pre (f : Z) (ev : event_t) (data : Z) (t : list Z) : list Z := t.

Definition ex_running : result (sel ts_queue_t (list Z) * dispatch_queue_t ts_queue_t) :=
  '(s, d, _) ← state_event_loop_init (ex_loop_params 2) ex_run_env;
  s1 ← add_states (fun i => 5000 + i) (Some s) ex_adds;
  s2 ← state_event_loop_start (c_call ex_eff) s1;
  match s2 with Some s2 => Ok (s2, d) | None => Err BadPointer end.

Definition ex_regs : list (list Z) := [[100; 200]; [300; 400]].

Lemma ex_run_setup_ok n : 0 <= n <= 900 -> setup_ok 99 n (ex_loop_params 2) ex_run_env.
Proof. intros Hn. destruct (ex_setup_ok n 2 Hn ltac:(by right)). by split. Qed.

Lemma ex_never_entered : never_entered ex_states.
Proof.
  intros a st. unfold ex_states, ex_desc.
  rewrite !lookup_insert_Some, lookup_empty. by intros [[_ <-]|[_ [[_ <-]|[_ [[_ <-]|[_ [[_ <-]|[_ [=]]]]]]]]].
Qed.

Lemma ex_adds_legal :
  adds_legal ex_states (replicate (length (sp_sm_create_params (ex_loop_params 2))) []) ex_adds.
Proof.
  cbn. split_and!; try done; try (split; [done|]; eexists; split; [vm_compute; reflexivity|]; done);
    (eexists; split; [reflexivity|]; cbn; lia).
Qed.

(** The loop with its states. *)
Definition ex_started (n : Z) (s : sel ts_queue_t (list Z)) (d : dispatch_queue_t ts_queue_t)
    (desc : gmap Z state_t) (a0 : aloop (list Z)) : Prop :=
  ex_running = Ok (s, d) /\ all_desc_ok desc ex_regs /\
  ready desc ex_regs 0 0 99 7 a0 2 n s d /\ areg a0 = initial_registry ex_params.

Lemma ex_started_ok n : 0 <= n <= 900 -> exists s d desc a0, ex_started n s d desc a0.
Proof.
  intros Hn. destruct (init_cases 99 n (ex_loop_params 2) ex_run_env ltac:(lia) (ex_run_setup_ok n Hn))
    as (s & d & Hi & Hd & Hc).
  destruct (created_starts ex_eff (fun i => 5000 + i) 99 n _ _ s d ex_adds Hc Hd ex_never_entered
    ex_adds_legal) as (s1 & Ha & Hdesc & Hst).
  unfold ex_started, ex_running. rewrite Hi. cbn [mbind result_bind]. rewrite Ha. cbn [mbind result_bind].
  destruct (initial_machines _ _ _ _) as [x|f] eqn:Hx.
  - destruct Hst as (s2 & -> & Hr). exists s2, d, (state_mem s1), (initial_aloop (ex_loop_params 2) x).
    by split_and!.
  - exfalso. assert (match ex_running with Ok _ => true | Err _ => false end = true) as H
      by (vm_compute; reflexivity).
    unfold ex_running in H. rewrite Hi in H. cbn [mbind result_bind] in H. rewrite Ha in H.
    cbn [mbind result_bind] in H. by rewrite Hst in H.
Qed.

Definition ex_sel_run := sel_run (c_call ex_eff) (fun ev => c_valid (ex_vld ev))
  (fun ev => c_handle (ex_hnd ev)) ex_pre ex_listener 6 7 60 c11_gives_up ex_now.

Definition ex_evt (x : Z) : event_t :=
  {| event_id := 0; event_loop := 0; to_string := 0; payload := [x; 0; 0; 0; 0; 0; 0; 0] |}.

(** A listener for category 1; thread 1 posts an event of category 1, thread 2 one
    that the states refuse, and the worker handles the first. *)
Definition ex_sel_events : list sel_event :=
  [SListener RAllocate; SListener (RRegister 1 1032);
   SAlloc 1 1 (ex_evt 5); SAlloc 2 0 (ex_evt 8); SSubmit 2; SSubmit 1; STakeBlock 1; STakeBlock 2;
   SEnqueue 1; SWork; SEnqueue 2].

Lemma ex_legal s d desc a0 n : ex_started n s d desc a0 ->
  sel_all_legal (c_call ex_eff) (fun ev => c_valid (ex_vld ev)) (fun ev => c_handle (ex_hnd ev)) ex_pre
    ex_listener 6 7 60 c11_gives_up ex_now (areg a0) (new_sel_world s d) ex_sel_events.
Proof.
  intros (Hl & _ & _ & ->).
  assert (match ex_running with
    | Ok (s, d) => bool_decide (sel_all_legal (c_call ex_eff) (fun ev => c_valid (ex_vld ev))
        (fun ev => c_handle (ex_hnd ev)) ex_pre ex_listener 6 7 60 c11_gives_up ex_now
        (initial_registry ex_params) (new_sel_world s d) ex_sel_events)
    | Err _ => false end = true) as H by (vm_compute; reflexivity).
  rewrite Hl in H. by apply bool_decide_eq_true in H.
Qed.

Lemma state_event_loop_starts_witness :
  exists s d s1 x s2, state_event_loop_init (ex_loop_params 2) ex_run_env = Ok (s, d, true) /\
    add_states (fun i => 5000 + i) (Some s) ex_adds = Ok (Some s1) /\
    initial_machines ex_eff (state_mem s1) (ex_loop_params 2) ex_adds [] = Ok x /\
    state_event_loop_start (c_call ex_eff) (Some s1) = Ok (Some s2) /\
    ready (state_mem s1) ex_regs 0 0 99 7 (initial_aloop (ex_loop_params 2) x) 2 10 s2 d.
Proof.
  destruct (state_event_loop_starts ex_eff (fun i => 5000 + i) 99 10 (ex_loop_params 2) ex_run_env ex_adds
    ltac:(lia) (ex_run_setup_ok 10 ltac:(lia)) eq_refl ex_never_entered ex_adds_legal)
    as (s & d & s1 & Hi & Ha & Hst).
  destruct (initial_machines ex_eff (state_mem s1) (ex_loop_params 2) ex_adds (en_client ex_run_env))
    as [x|f] eqn:Hx.
  - destruct Hst as (s2 & Hs & Hr). exists s, d, s1, x, s2. split_and!; [exact Hi|exact Ha|exact Hx|exact Hs|exact Hr].
  - exfalso. assert (match ex_running with Ok _ => true | Err _ => false end = true) as H
      by (vm_compute; reflexivity).
    unfold ex_running in H. rewrite Hi in H. cbn [mbind result_bind] in H. rewrite Ha in H.
    cbn [mbind result_bind] in H. rewrite Hst in H. discriminate H.
Defined.

(** What the run leaves: the trace, and the event that is still queued. *)
Lemma ex_run_result s d : ex_running = Ok (s, d) ->
  exists w, ex_sel_run (new_sel_world s d) ex_sel_events = Ok w /\
    cl (sl w) = [11; 12; 41; 42; 15; 5; 13; 21; 22; 45; 5; 43; 31; 32; 99; 1032; 5] /\
    ds (dw w) = DNone /\ length (pending (dw w)) = 1%nat /\
    sposted w = [(3016, {| event_id := 1; event_loop := 6; to_string := 0; payload := payload (ex_evt 5) |});
                 (3080, {| event_id := 0; event_loop := 6; to_string := 0; payload := payload (ex_evt 8) |})] /\
    owned w = [3080; 3016].
Proof.
  intros Hl.
  assert (match ex_running with
    | Ok (s, d) => match ex_sel_run (new_sel_world s d) ex_sel_events with
                   | Ok w => Some (cl (sl w), ds (dw w), length (pending (dw w)), sposted w, owned w)
                   | Err _ => None end
    | Err _ => None end =
    Some ([11; 12; 41; 42; 15; 5; 13; 21; 22; 45; 5; 43; 31; 32; 99; 1032; 5], DNone, 1%nat,
      [(3016, {| event_id := 1; event_loop := 6; to_string := 0; payload := payload (ex_evt 5) |});
       (3080, {| event_id := 0; event_loop := 6; to_string := 0; payload := payload (ex_evt 8) |})],
      [3080; 3016])) as H by (vm_compute; reflexivity).
  rewrite Hl in H. destruct (ex_sel_run _ _) as [w|f]; [|discriminate H].
  injection H as H1 H2 H3 H4 H5. exists w. by split_and!.
Qed.



Lemma state_event_loop_post_in_steps_witness :
  exists s d s' d', ex_running = Ok (s, d) /\
    state_event_loop_post 6 60 (Some s) d 1 (Some (ex_evt 5)) = Ok (Some s', d', true) /\
    exists w', ex_sel_run (new_sel_world s d) [SAlloc 1 1 (ex_evt 5); SSubmit 1; STakeBlock 1; SEnqueue 1] = Ok w' /\
      s' = sl w' /\ d' = dq (dw w') /\ length (sposted w') = 1%nat.
Proof.
  destruct (ex_started_ok 10 ltac:(lia)) as (s & d & desc & a0 & Hl & _).
  destruct (state_event_loop_post_in_steps ex_eff ex_vld ex_hnd ex_pre ex_listener 6 7 60 c11_gives_up
    ex_now (new_sel_world s d) 1 1 (ex_evt 5) eq_refl eq_refl) as [H _].
  assert (match ex_running with
    | Ok (s, d) => match state_event_loop_post 6 60 (Some s) d 1 (Some (ex_evt 5)) with
                   | Ok _ => destroying d | Err _ => true end
    | Err _ => true end = false) as Hv by (vm_compute; reflexivity).
  rewrite Hl in Hv. cbn [sl dw new_sel_world dq new_dq_world] in H.
  destruct (state_event_loop_post 6 60 (Some s) d 1 (Some (ex_evt 5))) as [[[s' d'] r]|f] eqn:Hpost; [|discriminate Hv].
  destruct H as (w' & Hw & -> & -> & -> & e & ev & _ & _ & Hq). cbn in Hv. rewrite Hv in Hq.
  exists s, d, (sl w'), (dq (dw w')). split_and!; [exact Hl|exact Hpost|]. exists w'.
  split_and!; [exact Hw|reflexivity..|]. destruct Hq as [Hq _]. rewrite Hq. reflexivity.
Defined.

(** The worker releases an event before the dispatch queue has its own block back:
    with as many events outstanding as there are blocks, a post made in between
    gets an event block and then stops the program. *)
Definition ex_race_events : list sel_event :=
  [SAlloc 1 0 (ex_evt 1); SSubmit 1; STakeBlock 1; SEnqueue 1;
   SAlloc 1 0 (ex_evt 2); SSubmit 1; STakeBlock 1; SEnqueue 1;
   SWork; SWork; SAlloc 1 0 (ex_evt 3); SSubmit 1].

Lemma event_block_without_dispatch_block :
  exists s d w, ex_running = Ok (s, d) /\
    ex_sel_run (new_sel_world s d) ex_race_events = Ok w /\
    ex_sel_run w [STakeBlock 1] = Err AssertFailed /\
    exists w' w'', ex_sel_run w [SWork; STakeBlock 1; SEnqueue 1] = Ok w' /\
      ex_sel_run w' (replicate 6 SWork) = Ok w'' /\ length (processed (hist w'')) = 3%nat.
Proof.
  destruct (ex_started_ok 10 ltac:(lia)) as (s & d & desc & a0 & Hl & _).
  assert (match ex_running with
    | Ok (s, d) => w ← ex_sel_run (new_sel_world s d) ex_race_events;
        w' ← ex_sel_run w [SWork; STakeBlock 1; SEnqueue 1];
        w'' ← ex_sel_run w' (replicate 6 SWork);
        Ok (match ex_sel_run w [STakeBlock 1] with Err f => Some f | Ok _ => None end,
            length (processed (hist w'')))
    | Err f => Err f end = Ok (Some AssertFailed, 3%nat)) as Hv by (vm_compute; reflexivity).
  rewrite Hl in Hv. apply bind_ok in Hv as (w & Hw & Hv). apply bind_ok in Hv as (w' & Hw' & Hv).
  apply bind_ok in Hv as (w'' & Hw'' & Hv). exists s, d, w.
  destruct (ex_sel_run w [STakeBlock 1]) as [x|f] eqn:Hf; [discriminate Hv|].
  injection Hv as -> Hn. split; [exact Hl|]. split; [exact Hw|]. split; [reflexivity|].
  exists w', w''. split; [exact Hw'|]. split; [exact Hw''|exact Hn].
Qed.
