(* ===== verification/Dispatcher.v ===== *)
(** What the clients of a dispatch queue rely on, as an interface.

    A [Dispatcher] is a dispatch queue with its worker: calls are put in at one end
    by [dispatch_async_f], and the worker takes them out at the other end, makes
    them, and gives their block back.  The dispatch queue of DispatchQueue
    implements it as long as nobody destroys it and no two posts overlap; what
    overlapping posts do is in DispatchQueue. *)
From S2P Require Import Prelude TsQueue Pool EventFlag DispatchQueue.
From stdpp Require Import list gmap.
From Stdlib Require Import ZArith Lia.
Local Open Scope Z_scope.

(** ** Interface *)

Class Dispatcher (D : Type) := {
  dp_async : D -> dispatch_queue_post_data_t -> result (D * bool);
  dp_take : D -> result (D * pause dispatch_queue_post_data_t);
  dp_finish : D -> result D;
  dp_calls : D -> list dispatch_queue_post_data_t;
  dp_room : D -> Z;
  dp_busy : D -> bool;
  dp_ok : Z -> D -> Prop
}.

(** [dp_calls] are the calls that wait, oldest first; [dp_room] is the number of
    calls that can still be posted; the worker is [dp_busy] from taking a call
    until it has given its block back.  [dp_ok n] allows [n] more uses. *)
Class DispatcherLaws (D : Type) {disp : Dispatcher D} : Prop := {
  dp_ok_mono n m d : m <= n -> dp_ok n d -> dp_ok m d;
  dp_room_nonneg n d : dp_ok n d -> 0 <= dp_room d;
  dp_async_room n d c : 0 <= n -> dp_ok (n + 1) d -> fn c <> 0 -> 0 < dp_room d ->
    exists d', dp_async d c = Ok (d', true) /\ dp_ok n d' /\ dp_calls d' = dp_calls d ++ [c] /\
      dp_room d' = dp_room d - 1 /\ dp_busy d' = dp_busy d;
  dp_async_full n d c : 0 <= n -> dp_ok (n + 1) d -> fn c <> 0 -> dp_room d = 0 ->
    dp_async d c = Err AssertFailed;
  dp_take_call n d c l : 0 <= n -> dp_ok (n + 1) d -> dp_busy d = false -> dp_calls d = c :: l ->
    exists d', dp_take d = Ok (d', Returns c) /\ dp_ok n d' /\ dp_calls d' = l /\
      dp_room d' = dp_room d /\ dp_busy d' = true;
  dp_take_waits n d : 0 <= n -> dp_ok (n + 1) d -> dp_busy d = false -> dp_calls d = [] ->
    exists d' wc, dp_take d = Ok (d', Waits wc) /\ dp_ok n d' /\ dp_calls d' = [] /\
      dp_room d' = dp_room d /\ dp_busy d' = false;
  dp_finish_call n d : 0 <= n -> dp_ok (n + 1) d -> dp_busy d = true ->
    exists d', dp_finish d = Ok d' /\ dp_ok n d' /\ dp_calls d' = dp_calls d /\
      dp_room d' = dp_room d + 1 /\ dp_busy d' = false;
  dp_calls_fn n d c : dp_ok n d -> c ∈ dp_calls d -> fn c <> 0
}.

(** ** The dispatch queue is one *)

(** The queue, and the block of the call that its worker is making. *)
Record worker_queue {Q : Type} := { wq : dispatch_queue_t Q; wq_running : option Z }.
Arguments worker_queue : clear implicits.

Section instance.
Context {Q : Type} `{!BoundedQueue Q} (self num : Z).

Definition wq_async (d : worker_queue Q) (c : dispatch_queue_post_data_t)
  : result (worker_queue Q * bool) :=
  '(q', b) ← dispatch_async_f (Some (wq d)) c;
  Ok ({| wq := default (wq d) q'; wq_running := wq_running d |}, b).

Definition wq_call (d : dispatch_queue_t Q) (b : Z) : option dispatch_queue_post_data_t :=
  post_data d !! b.

(** The worker takes an item; an exit is none of the interface's steps. *)
Definition wq_take (d : worker_queue Q) : result (worker_queue Q * pause dispatch_queue_post_data_t) :=
  '(q', r) ← worker_take (wq d);
  match r with
  | Waits wc => Ok ({| wq := q'; wq_running := wq_running d |}, Waits wc)
  | Returns b =>
      '(c, _) ← worker_call (fun _ _ _ u => u) q' b tt;
      Ok ({| wq := q'; wq_running := Some b |}, Returns c)
  end.

Definition wq_finish (d : worker_queue Q) : result (worker_queue Q) :=
  match wq_running d with
  | None => Ok d
  | Some b => q' ← worker_free (wq d) b; Ok {| wq := q'; wq_running := None |}
  end.

Definition wq_calls (d : worker_queue Q) : list dispatch_queue_post_data_t :=
  match queue (wq d) with Some qu => omap (wq_call (wq d)) (bq_items qu) | None => [] end.

Definition wq_room (d : worker_queue Q) : Z :=
  match p_pool (wq d) with
  | Some p => match q p with Some qu => zlen (bq_items qu) | None => 0 end
  | None => 0
  end.

Definition wq_busy (d : worker_queue Q) : bool :=
  match wq_running d with Some _ => true | None => false end.

(** The queue is that of some run of DispatchQueue without posters under way and
    without destroyer; a post takes three of its steps. *)
Definition wq_ok (n : Z) (d : worker_queue Q) : Prop :=
  exists w, dq w = wq d /\ dq_inv self (fun _ _ _ u => u) num tt (3 * n) w /\ posters w = ∅ /\
    ds w = DNone /\ wk w = match wq_running d with Some b => WRunning b | None => WLoop end.

Definition queue_dispatcher : Dispatcher (worker_queue Q) := {|
  dp_async := wq_async; dp_take := wq_take; dp_finish := wq_finish; dp_calls := wq_calls;
  dp_room := wq_room; dp_busy := wq_busy; dp_ok := wq_ok
|}.

Context `{!BoundedQueueLaws Q} (gives_up : Z -> bool) (now : timespec).

Abbreviation step := (dq_step self (fun _ _ _ (u : unit) => u) gives_up now).
Abbreviation inv := (dq_inv (W := unit) self (fun _ _ _ u => u) num tt).

(** The live part of a queue that nobody destroys. *)
Lemma alive k (w : dq_world Q unit) : inv k w -> ds w = DNone -> posters w = ∅ ->
  exists qu a cs, live_inv self num k w qu a /\ destroying (dq w) = false /\ kill_after w = None /\
    (self ∉ bq_items qu) /\ posted w = done w ++ cs /\
    Forall2 (fun b c => post_data (dq w) !! b = Some c) (bq_items qu) cs.
Proof.
  intros Hi Hds Hp. destruct (dq_inv_cases _ _ _ _ _ _ Hi) as [(? & _)|(_ & qu & a & Hl)]; [congruence|].
  pose proof (li_destroying _ _ _ _ _ _ Hl) as Hd. rewrite Hds in Hd.
  pose proof (li_kill _ _ _ _ _ _ Hl) as Hk.
  assert (kill_after w = None) as Hka by (destruct (kill_after w); [destruct Hk; congruence|done]).
  rewrite Hka in Hk. destruct Hk as (_ & Hself & _).
  destruct (li_calls _ _ _ _ _ _ Hl) as (cs & Hcs & Hf). rewrite (data_all _ _ Hself) in Hf.
  exists qu, a, cs. split_and!; try done.
Qed.

Lemma calls_of k (w : dq_world Q unit) d qu a cs :
  live_inv self num k w qu a -> dq w = wq d ->
  Forall2 (fun b c => post_data (dq w) !! b = Some c) (bq_items qu) cs -> wq_calls d = cs.
Proof.
  intros Hl Hd Hf. destruct (li_queue _ _ _ _ _ _ Hl) as [Hq _]. unfold wq_calls, wq_call.
  rewrite <- Hd, Hq. induction Hf as [|b c bs cs Hb _ IH]; [done|]. cbn. by rewrite Hb, IH.
Qed.

Lemma room_of k (w : dq_world Q unit) d qu a : live_inv self num k w qu a -> dq w = wq d -> wq_room d = zlen (free a).
Proof.
  intros Hl Hd. destruct (li_pool _ _ _ _ _ _ Hl) as (p & Hp & Hpi).
  destruct (pi_queue _ _ _ Hpi) as (pq & Hpq & _ & Hit & _). cbn in Hpq.
  unfold wq_room. by rewrite <- Hd, Hp, Hpq, Hit.
Qed.

(** What the steps do to the free blocks. *)
Lemma alloc_free k (w : dq_world Q unit) t c qu a w' qu' a' :
  0 <= k -> live_inv self num (k + 1) w qu a -> posters w !! t = Some (PLoaded c) ->
  step w (EAlloc t) = Ok w' -> live_inv self num k w' qu' a' ->
  zlen (free a') = zlen (free a) - 1.
Proof.
  intros Hk Hl Ht Hs Hl'. cbn in Hs. rewrite Ht in Hs. unfold async_alloc, DispatchQueue.pool_of in Hs.
  destruct (li_pool _ _ _ _ _ _ Hl) as (p & Hp & Hpi). rewrite Hp in Hs.
  rewrite <- (room_of _ _ {| wq := dq w'; wq_running := None |} _ _ Hl' eq_refl).
  destruct (free a) as [|b l] eqn:Hfree.
  { destruct (pool_alloc_none k _ _ Hk Hpi Hfree) as (s' & E & _). by rewrite E in Hs. }
  destruct (pool_alloc_ok k _ _ b l Hk Hpi Hfree) as ([p' m'] & E & Hpi'). rewrite E in Hs.
  cbn [mbind result_bind fst snd] in Hs. destruct (negb (b =? 0)); [|done]. injection Hs as <-.
  unfold wq_room. cbn. destruct (pi_queue _ _ _ Hpi') as (pq & Hpq & _ & Hit & _). cbn in Hpq.
  rewrite Hpq, Hit. cbn [apool_step]. rewrite Hfree. cbn. rewrite zlen_cons. lia.
Qed.

Lemma finish_free k (w : dq_world Q unit) b qu a w' qu' a' :
  0 <= k -> live_inv self num (k + 1) w qu a -> wk w = WRunning b ->
  step w EWork = Ok w' -> live_inv self num k w' qu' a' ->
  zlen (free a') = zlen (free a) + 1.
Proof.
  intros Hk Hl Hw Hs Hl'. cbn in Hs. rewrite Hw in Hs. unfold worker_free, DispatchQueue.pool_of in Hs.
  destruct (li_pool _ _ _ _ _ _ Hl) as (p & Hp & Hpi). rewrite Hp in Hs.
  rewrite <- (room_of _ _ {| wq := dq w'; wq_running := None |} _ _ Hl' eq_refl).
  assert (Hlive : live a !! b = Some 1).
  { apply (li_held _ _ _ _ _ _ Hl). unfold running. rewrite Hw. left. }
  destruct (pool_free_ok k _ _ b Hk Hpi ltac:(by eexists)) as ([p' m'] & calls & E & Hpi').
  rewrite E in Hs. cbn [mbind result_bind fst snd] in Hs. injection Hs as <-.
  unfold wq_room. cbn. destruct (pi_queue _ _ _ Hpi') as (pq & Hpq & _ & Hit & _). cbn in Hpq.
  rewrite Hpq, Hit. cbn [apool_step]. rewrite Hlive. cbn. rewrite zlen_app. done.
Qed.

(** A step that is known to succeed. *)
Lemma step_inv k w w' ev :
  0 <= k -> inv (k + 1) w -> posts_functions ev -> step w ev = Ok w' -> inv k w'.
Proof.
  intros Hk Hi Hp Hs.
  pose proof (dq_step_ok self (fun _ _ _ u => u) gives_up now num tt k w ev Hk Hi Hp) as H.
  rewrite Hs in H. by destruct H.
Qed.

Lemma live_of k (w : dq_world Q unit) : inv k w -> ds w <> DDone -> exists qu a, live_inv self num k w qu a.
Proof. intros Hi Hd. by destruct (dq_inv_cases _ _ _ _ _ _ Hi) as [(? & _)|(_ & ?)]. Qed.

(** [dispatch_async_f] is the three steps of a post that nothing overlaps. *)
Lemma async_steps (w : dq_world Q unit) c :
  posters w = ∅ -> destroying (dq w) = false ->
  dispatch_async_f (Some (dq w)) c =
    (w1 ← step w (EPost 0 c); w2 ← step w1 (EAlloc 0); w3 ← step w2 (EEnqueue 0);
     Ok (Some (dq w3), true)).
Proof.
  intros Hp Hd. unfold dispatch_async_f. cbn [dq_step]. rewrite Hp, Hd, lookup_empty.
  cbn [mbind result_bind set_posters posters dq]. rewrite lookup_insert_eq.
  destruct (async_alloc (dq w)) as [[d b]|f]; [|done].
  cbn [mbind result_bind set_posters posters dq set_dq]. rewrite lookup_insert_eq.
  by destruct (async_enqueue d b c).
Qed.

(** The steps of a post: where they stop, and what they leave. *)
Lemma post_steps n (w : dq_world Q unit) c :
  0 <= n -> inv (n + 3) w -> posters w = ∅ -> ds w = DNone -> destroying (dq w) = false -> fn c <> 0 ->
  exists w1, step w (EPost 0 c) = Ok w1 /\ dq w1 = dq w /\
  ((no_free_block (dq w) /\ step w1 (EAlloc 0) = Err AssertFailed) \/
   exists w2 w3, step w1 (EAlloc 0) = Ok w2 /\ step w2 (EEnqueue 0) = Ok w3 /\ inv n w3 /\
     posters w3 = ∅ /\ ds w3 = DNone /\ wk w3 = wk w /\ done w3 = done w /\
     posted w3 = posted w ++ [c] /\
     forall r, wq_room {| wq := dq w3; wq_running := r |} = wq_room {| wq := dq w; wq_running := r |} - 1).
Proof.
  intros Hn Hi Hp Hds Hdes Hfn.
  set (w1 := set_posters w (<[0%nat := PLoaded c]> (posters w))).
  assert (step w (EPost 0 c) = Ok w1) as H1.
  { assert (posters w !! 0%nat = None) as Hp0 by by rewrite Hp. cbn [dq_step]. by rewrite Hp0, Hdes. }
  exists w1. split; [done|]. split; [done|].
  assert (inv (n + 1 + 1) w1) as Hi1
    by (eapply step_inv; [..|exact H1]; [lia| |done]; by replace (n + 1 + 1 + 1) with (n + 3) by lia).
  assert (posters w1 !! 0%nat = Some (PLoaded c)) as Hp1 by apply lookup_insert_eq.
  destruct (alloc_step_ok self _ gives_up now _ _ (n + 1) w1 0%nat c ltac:(lia) Hi1 Hp1)
    as [[Hnf Ha]|[Hnf (w2 & Ha & Hi2)]]; [by left|right].
  destruct (live_of _ _ Hi1) as (qu1 & a1 & Hl1); [cbn; congruence|].
  assert (exists b, posters w2 = <[0%nat := PAllocated b c]> (posters w1) /\ posted w2 = posted w /\
    done w2 = done w /\ wk w2 = wk w /\ ds w2 = DNone) as (b & Hp2 & E1 & E2 & E3 & E4).
  { cbn [dq_step] in Ha. rewrite Hp1 in Ha. apply bind_ok in Ha as ([d b] & _ & Ha).
    injection Ha as <-. by exists b. }
  destruct (live_of _ _ Hi2) as (qu2 & a2 & Hl2); [congruence|].
  pose proof (alloc_free (n + 1) w1 0%nat c qu1 a1 w2 qu2 a2 ltac:(lia) Hl1 Hp1 Ha Hl2) as Hfree.
  assert (posters w2 !! 0%nat = Some (PAllocated b c)) as Hpp2 by (rewrite Hp2; apply lookup_insert_eq).
  pose proof (li_kill _ _ _ _ _ _ Hl2) as Hk2.
  assert (kill_after w2 = None) as Hka by (destruct (kill_after w2); [destruct Hk2; congruence|done]).
  destruct (enqueue_step_ok self _ gives_up now _ _ n w2 0%nat b c Hn Hi2 Hpp2)
    as [(_ & Hk & _)|[_ (w3 & He & Hi3)]]; [congruence|].
  exists w2, w3. split; [done|]. split; [done|]. split; [done|].
  cbn [dq_step] in He. rewrite Hpp2 in He. apply bind_ok in He as (d & Hd & He). injection He as <-.
  cbn [posters ds wk done posted add_posted add_returned set_posters set_dq dq].
  rewrite Hp2, E1, E2, E3, E4. cbn [w1 posters set_posters]. rewrite Hp, insert_insert_eq, delete_insert_id by done.
  split_and!; [done..|]. intros r.
  rewrite <- (room_of _ w1 {| wq := dq w; wq_running := r |} _ _ Hl1 eq_refl),
    <- (room_of _ w2 {| wq := dq w2; wq_running := r |} _ _ Hl2 eq_refl) in Hfree. rewrite <- Hfree.
  unfold async_enqueue, enqueue in Hd. apply bind_ok in Hd as ([d1 ok] & Hd & Hok).
  apply bind_ok in Hok as (u & _ & Hok). injection Hok as <-. cbn [fst].
  destruct (queue _); [|by injection Hd as <- _].
  apply bind_ok in Hd as (x & _ & Hd). by injection Hd as <- _.
Qed.

Lemma wq_async_room n d c :
  0 <= n -> wq_ok (n + 1) d -> fn c <> 0 -> 0 < wq_room d ->
  exists d', wq_async d c = Ok (d', true) /\ wq_ok n d' /\ wq_calls d' = wq_calls d ++ [c] /\
    wq_room d' = wq_room d - 1 /\ wq_busy d' = wq_busy d.
Proof.
  intros Hn (w & Hd & Hi & Hp & Hds & Hwk) Hfn Hroom.
  destruct (alive _ _ Hi Hds Hp) as (qu & a & cs & Hl & Hdes & Hka & _ & Hpo & Hf).
  replace (3 * (n + 1)) with (3 * n + 3) in Hi by lia.
  destruct (post_steps (3 * n) w c ltac:(lia) Hi Hp Hds Hdes Hfn)
    as (w1 & H1 & Hd1 & [[Hnf _]|(w2 & w3 & H2 & H3 & Hi3 & Hp3 & Hds3 & Hwk3 & Hdn3 & Hpo3 & Hr3)]).
  { exfalso. unfold no_free_block in Hnf. unfold wq_room in Hroom. rewrite Hd in Hnf.
    destruct (p_pool (wq d)) as [p|]; [|lia]. destruct (q p); [|lia]. rewrite Hnf in Hroom. done. }
  unfold wq_async. rewrite <- Hd, (async_steps w c Hp Hdes), H1. cbn [mbind result_bind].
  rewrite H2. cbn [mbind result_bind]. rewrite H3. cbn [mbind result_bind].
  exists {| wq := dq w3; wq_running := wq_running d |}. split; [done|].
  destruct (alive _ _ Hi3 Hds3 Hp3) as (qu3 & a3 & cs3 & Hl3 & _ & _ & _ & Hpo3' & Hf3).
  split_and!.
  - exists w3. cbn. by rewrite Hwk3.
  - rewrite (calls_of _ w3 {| wq := dq w3; wq_running := wq_running d |} _ _ _ Hl3 eq_refl Hf3), (calls_of _ _ _ _ _ _ Hl Hd Hf).
    rewrite Hpo3, Hpo, Hdn3, <- app_assoc in Hpo3'. by apply app_inv_head in Hpo3'.
  - etransitivity; [exact (Hr3 (wq_running d))|]. by rewrite Hd.
  - done.
Qed.

Lemma wq_async_full n d c :
  0 <= n -> wq_ok (n + 1) d -> fn c <> 0 -> wq_room d = 0 -> wq_async d c = Err AssertFailed.
Proof.
  intros Hn (w & Hd & Hi & Hp & Hds & Hwk) Hfn Hroom.
  destruct (alive _ _ Hi Hds Hp) as (qu & a & cs & Hl & Hdes & Hka & _ & Hpo & Hf).
  replace (3 * (n + 1)) with (3 * n + 3) in Hi by lia.
  destruct (post_steps (3 * n) w c ltac:(lia) Hi Hp Hds Hdes Hfn)
    as (w1 & H1 & Hd1 & [[_ H2]|(w2 & w3 & _ & _ & Hi3 & Hp3 & Hds3 & _ & _ & _ & Hr3)]).
  - unfold wq_async. rewrite <- Hd, (async_steps w c Hp Hdes), H1. cbn [mbind result_bind].
    by rewrite H2.
  - exfalso. destruct (alive _ _ Hi3 Hds3 Hp3) as (qu3 & a3 & cs3 & Hl3 & _).
    specialize (Hr3 (wq_running d)). rewrite (room_of _ w3 {| wq := dq w3; wq_running := wq_running d |} _ _ Hl3 eq_refl) in Hr3.
    rewrite Hd in Hr3. destruct d. cbn in *. pose proof (zlen_nonneg (free a3)). lia.
Qed.

(** The worker's steps. *)
Lemma wq_take_step n d :
  0 <= n -> wq_ok (n + 1) d -> wq_running d = None ->
  exists w w', dq w = wq d /\ inv (3 * n + 3) w /\ posters w = ∅ /\ ds w = DNone /\
    step w EWork = Ok w' /\ inv (3 * n) w' /\ posters w' = ∅ /\ ds w' = DNone /\ wk w = WLoop /\
    posted w' = posted w.
Proof.
  intros Hn (w & Hd & Hi & Hp & Hds & Hwk) Hr. rewrite Hr in Hwk.
  replace (3 * (n + 1)) with (3 * n + 3) in Hi by lia.
  destruct (work_step_ok self (fun _ _ _ u => u) gives_up now num tt (3 * n) w ltac:(lia)) as (w' & Hs & Hi').
  { apply (dq_inv_mono _ _ _ _ (3 * n + 3)); [lia|done]. }
  exists w, w'. split_and!; try done; cbn [dq_step] in Hs; rewrite Hwk in Hs;
    apply bind_ok in Hs as ([d1 [wc|p]] & _ & Hs); try (by injection Hs as <-);
    (destruct (p =? self); [by injection Hs as <-|]);
    apply bind_ok in Hs as ([c cl] & _ & Hs); by injection Hs as <-.
Qed.

Lemma wq_take_call n d c l :
  0 <= n -> wq_ok (n + 1) d -> wq_busy d = false -> wq_calls d = c :: l ->
  exists d', wq_take d = Ok (d', Returns c) /\ wq_ok n d' /\ wq_calls d' = l /\
    wq_room d' = wq_room d /\ wq_busy d' = true.
Proof.
  intros Hn Hok Hb Hc. assert (wq_running d = None) as Hr by (unfold wq_busy in Hb; by destruct (wq_running d)).
  destruct (wq_take_step n d Hn Hok Hr) as (w & w' & Hd & Hi & Hp & Hds & Hs & Hi' & Hp' & Hds' & Hwk & Hpo').
  destruct (alive _ _ Hi Hds Hp) as (qu & a & cs & Hl & _ & _ & Hself & Hpo & Hf).
  rewrite (calls_of _ _ _ _ _ _ Hl Hd Hf) in Hc. subst cs.
  destruct (li_queue _ _ _ _ _ _ Hl) as (Hq & Hqok & _).
  inversion Hf as [|b ? bs ? Hbc Hf' Hit]; subst. symmetry in Hit.
  destruct (bq_dequeue_some (3 * n + 2) qu b bs WAIT_FOREVER ltac:(lia)) as (qu' & Hdq & _ & Hi2 & _);
    [by replace (3 * n + 2 + 1) with (3 * n + 3) by lia|done|].
  rewrite Hit in Hself. apply not_elem_of_cons in Hself as [Hbs _].
  cbn [dq_step] in Hs. rewrite Hwk in Hs. unfold wq_take. rewrite <- Hd. unfold worker_take in *.
  rewrite Hq, Hdq in *. cbn [mbind result_bind fst snd] in *.
  rewrite (proj2 (Z.eqb_neq b self)) in Hs by congruence.
  unfold worker_call in *. cbn [with_queue post_data] in *. rewrite Hbc in *.
  destruct (fn c =? 0); [done|]. cbn [mbind result_bind] in *. injection Hs as <-.
  eexists. split; [reflexivity|].
  destruct (alive _ _ Hi' Hds' Hp') as (qu2 & a2 & cs2 & Hl2 & _ & _ & _ & Hpo2 & Hf2).
  split_and!; [|  |by unfold wq_room; cbn; rewrite Hd|done].
  { eexists. split; [|split; [exact Hi'|]]; [done|]. by split_and!. }
  rewrite (calls_of _ _ {| wq := with_queue (dq w) (Some qu'); wq_running := Some b |} _ _ _ Hl2 eq_refl Hf2).
  cbn [posted done set_wk add_done set_dq] in Hpo2, Hpo'. rewrite Hpo, <- app_assoc in Hpo2.
  apply app_inv_head in Hpo2. by injection Hpo2.
Qed.

Lemma wq_take_waits n d :
  0 <= n -> wq_ok (n + 1) d -> wq_busy d = false -> wq_calls d = [] ->
  exists d' wc, wq_take d = Ok (d', Waits wc) /\ wq_ok n d' /\ wq_calls d' = [] /\
    wq_room d' = wq_room d /\ wq_busy d' = false.
Proof.
  intros Hn Hok Hb Hc. assert (wq_running d = None) as Hr by (unfold wq_busy in Hb; by destruct (wq_running d)).
  destruct (wq_take_step n d Hn Hok Hr) as (w & w' & Hd & Hi & Hp & Hds & Hs & Hi' & Hp' & Hds' & Hwk & _).
  destruct (alive _ _ Hi Hds Hp) as (qu & a & cs & Hl & _ & _ & _ & Hpo & Hf).
  rewrite (calls_of _ _ _ _ _ _ Hl Hd Hf) in Hc. subst cs. inversion Hf as [Hit|]; symmetry in Hit.
  destruct (li_queue _ _ _ _ _ _ Hl) as (Hq & Hqok & _).
  destruct (bq_dequeue_waits (3 * n + 2) qu ltac:(lia)) as (wc & Hdq);
    [by replace (3 * n + 2 + 1) with (3 * n + 3) by lia|done|].
  cbn [dq_step] in Hs. rewrite Hwk in Hs. unfold wq_take. rewrite <- Hd. unfold worker_take in *.
  rewrite Hq, Hdq in *. cbn [mbind result_bind fst snd] in *. injection Hs as <-.
  eexists _, wc. split; [reflexivity|]. rewrite Hr. split_and!.
  - eexists. split; [|split; [exact Hi'|]]; [done|]. by split_and!.
  - unfold wq_calls. cbn. by rewrite Hit.
  - unfold wq_room. cbn. by rewrite Hd.
  - done.
Qed.

Lemma wq_finish_call n d :
  0 <= n -> wq_ok (n + 1) d -> wq_busy d = true ->
  exists d', wq_finish d = Ok d' /\ wq_ok n d' /\ wq_calls d' = wq_calls d /\
    wq_room d' = wq_room d + 1 /\ wq_busy d' = false.
Proof.
  intros Hn (w & Hd & Hi & Hp & Hds & Hwk) Hb. unfold wq_busy in Hb. unfold wq_finish.
  destruct (wq_running d) as [b|] eqn:Hr; [|done].
  replace (3 * (n + 1)) with (3 * n + 2 + 1) in Hi by lia.
  destruct (free_step_ok self (fun _ _ _ u => u) gives_up now num tt (3 * n + 2) w b ltac:(lia) Hi Hwk)
    as (w' & Hs & Hi').
  assert (posters w' = ∅ /\ ds w' = DNone /\ wk w' = WLoop /\ posted w' = posted w /\ done w' = done w)
    as (Hp' & Hds' & Hwk' & Hpo' & Hdn').
  { cbn [dq_step] in Hs. rewrite Hwk in Hs. apply bind_ok in Hs as (d1 & _ & Hs). by injection Hs as <-. }
  destruct (alive _ _ Hi Hds Hp) as (qu & a & cs & Hl & _ & _ & _ & Hpo & Hf).
  destruct (alive _ _ Hi' Hds' Hp') as (qu2 & a2 & cs2 & Hl2 & _ & _ & _ & Hpo2 & Hf2).
  pose proof (finish_free (3 * n + 2) w b qu a w' qu2 a2 ltac:(lia) Hl Hwk Hs) as Hfree.
  cbn [dq_step] in Hs. rewrite Hwk in Hs. rewrite <- Hd.
  apply bind_ok in Hs as (d1 & -> & Hs). cbn [mbind result_bind].
  assert (dq w' = d1) as Hd1 by by injection Hs as <-.
  exists {| wq := d1; wq_running := None |}. split; [done|]. split_and!; [| | |done].
  - exists w'. split_and!; try done. apply (dq_inv_mono _ _ _ _ (3 * n + 2)); [lia|done].
  - rewrite (calls_of _ _ {| wq := d1; wq_running := None |} _ _ _ Hl2 Hd1 Hf2), (calls_of _ _ _ _ _ _ Hl Hd Hf).
    rewrite Hpo', Hdn', Hpo in Hpo2. by apply app_inv_head in Hpo2.
  - rewrite (room_of _ _ {| wq := d1; wq_running := None |} _ _ Hl2 Hd1), (room_of _ _ _ _ _ Hl Hd).
    by apply Hfree.
Qed.

(** The dispatch queue with its worker is a [Dispatcher]. *)
Lemma queue_dispatcher_laws : DispatcherLaws (worker_queue Q) (disp := queue_dispatcher).
Proof.
  split; cbn.
  - intros n m d Hm (w & ? & Hi & ? & ? & ?). exists w. split_and!; try done.
    apply (dq_inv_mono _ _ _ _ (3 * n)); [lia|done].
  - intros n d _. unfold wq_room. destruct (p_pool _) as [p|]; [|done].
    destruct (q p); [apply zlen_nonneg|done].
  - apply wq_async_room.
  - apply wq_async_full.
  - apply wq_take_call.
  - apply wq_take_waits.
  - apply wq_finish_call.
  - intros n d c (w & Hd & Hi & Hp & Hds & _) Hc.
    destruct (alive _ _ Hi Hds Hp) as (qu & a & cs & Hl & _ & _ & _ & Hpo & Hf).
    rewrite (calls_of _ _ _ _ _ _ Hl Hd Hf) in Hc. eapply di_fns; [exact Hi|].
    rewrite Hpo. apply elem_of_app. by right.
Qed.
End instance.

(** A queue that [dispatch_queue_create] has made. *)
Lemma created_queue_ok {Q : Type} `{!BoundedQueue Q} `{!BoundedQueueLaws Q} self n params qu pool_qu m pd task :
  0 <= n -> dispatch_ok self (3 * n) params qu pool_qu -> task <> 0 ->
  exists d, dispatch_queue_create (Some params) true true (Some qu) (Some pool_qu) m pd task = Ok d /\
    let w := {| wq := d; wq_running := None |} in
    wq_ok self (pp_num_of_elements (dp_pool_params params)) n w /\ wq_calls w = [] /\
    wq_busy w = false.
Proof.
  intros Hn Hok Ht.
  destruct (dispatch_queue_create_inv self (fun _ _ _ u => u) (3 * n) params qu pool_qu m pd task tt
    ltac:(lia) Hok Ht) as (d & Hc & Hi).
  exists d. split; [done|]. split_and!; [| |done].
  { eexists. split; [|split; [exact Hi|]]; [done|]. by split_and!. }
  destruct (alive self _ _ _ Hi) as (qu' & a & cs & Hl & _ & _ & _ & Hpo & Hf); [done..|].
  cbn in Hpo. subst cs. by rewrite (calls_of self _ _ _ {| wq := d; wq_running := None |} _ _ _ Hl eq_refl Hf).
Qed.
