(* ===== verification/Asyncio.v ===== *)
(** The asynchronous I/O service of src/asyncio.c and inc/cutils/asyncio.h: reading
    and writing an interface on the workers of two dispatch queues.

    The workers are used through the interface [Dispatcher] and the buffer pools
    through Pool, so that nothing here depends on a port.  A worker is named by its
    address, so that the two channels may share one.  The interface's read and write
    functions and the callbacks are client code on the client's world; what the
    receive callback does with the service itself is an argument of [rx_f].  Logging
    is left out. *)
From S2P Require Import Prelude TsQueue Pool EventFlag DispatchQueue Dispatcher.
From stdpp Require Import list gmap.
From Stdlib Require Import ZArith Lia.
Local Open Scope Z_scope.

(** ** Data *)

Inductive asyncio_init_state_e : Set :=
  | AsyncioUninitialized
  | AsyncioUninitializing
  | AsyncioInitializing
  | AsyncioInitialized.

#[export] Instance init_state_eq_dec : EqDecision asyncio_init_state_e.
Proof. solve_decision. Defined.

Inductive asyncio_tx_send_status_e : Set :=
  | StreamTxSendSuccess
  | StreamTxSendHeaderFail
  | StreamTxSendMessageFail
  | StreamTxInterfaceInError.

Definition ASYNCIO_MAX_THREAD_NAME : Z := 40.

Definition STREAM_STARTED_FLAG : Z := Z.shiftl 1 0.
Definition STREAM_STOPPED_FLAG : Z := Z.shiftl 1 1.

Record asyncio_tx_request_t : Set := {
  rq_size : Z;
  buffer_offset : Z;
  rq_fn : Z;
  rq_private : Z
}.

(** [rx_memory] and [tx_memory] hold the headers of the pools' blocks. *)
Record asyncio_rx_thread_context_t {Q : Type} := {
  rx_worker : Z;
  rx_pool_params : pool_create_params_t;
  rx_pool : option (pool_t Q);
  rx_thread_name : list Z;
  rx_callback : Z;
  rx_client_data : Z;
  rx_init : asyncio_init_state_e;
  rx_memory : memory
}.
Arguments asyncio_rx_thread_context_t : clear implicits.

Record asyncio_tx_thread_context_t {Q : Type} := {
  tx_worker : Z;
  tx_pool_params : pool_create_params_t;
  tx_thread_name : list Z;
  tx_pool : option (pool_t Q);
  max_tx_data_chunk_size : Z;
  tx_write_timeout : Z;
  tx_buffer_offset : Z;
  tx_init : asyncio_init_state_e;
  tx_memory : memory
}.
Arguments asyncio_tx_thread_context_t : clear implicits.

Record asyncio_interface_instance_t {Q : Type} := {
  rx_task : asyncio_rx_thread_context_t Q;
  tx_task : asyncio_tx_thread_context_t Q;
  f_stream_interface_read : Z;
  f_stream_interface_write : Z;
  is_in_error : bool;
  stream_stopped : bool;
  stream_name : list Z;
  stream_flag : event_flag_t;
  init_state : asyncio_init_state_e
}.
Arguments asyncio_interface_instance_t : clear implicits.

(** [ap_instance]: whether the storage of the instance was provided. *)
Record asyncio_create_params_t := {
  ap_stream_name : list Z;
  ap_instance : bool;
  ap_read_f : Z;
  ap_write_f : Z;
  ap_rx_callback : Z;
  ap_client_data : Z;
  ap_rx_worker : Z;
  ap_rx_pool_params : pool_create_params_t;
  ap_tx_worker : Z;
  ap_tx_pool_params : pool_create_params_t;
  ap_tx_max_chunk_size : Z;
  ap_tx_write_timeout : Z;
  ap_tx_buffer_offset : Z
}.

(** The instance, the requests in the transmit blocks, the bytes in the data
    buffers, the workers by address, and the client's world. *)
Record aio {Q D C : Type} := {
  inst : asyncio_interface_instance_t Q;
  requests : gmap Z asyncio_tx_request_t;
  buffers : gmap Z (list Z);
  workers : gmap Z D;
  user : C
}.
Arguments aio : clear implicits.

(** ** Thread names *)

(** [strncpy] of [n] characters into [dst], which has at least that many. *)
Definition strncpy (dst src : list Z) (n : Z) : list Z :=
  let k := Z.to_nat n in
  take k (src ++ replicate k 0) ++ drop k dst.

(** [strcat]: the terminator has to be found, and the text and its terminator have
    to fit. *)
Definition strcat (dst src : list Z) : result (list Z) :=
  match list_find (fun c => c = 0) dst with
  | Some (i, _) =>
      if bool_decide (i + length src < length dst)%nat
      then Ok (take i dst ++ src ++ 0 :: drop (i + length src + 1) dst)
      else Err OutOfBounds
  | None => Err OutOfBounds
  end.

(** ["Tx"] and ["Rx"]. *)
Definition name_tx : list Z := [84; 120].
Definition name_rx : list Z := [82; 120].

Definition thread_name (old stream : list Z) (suffix : list Z) : result (list Z) :=
  strcat (strncpy old stream (ASYNCIO_MAX_THREAD_NAME - 3)) suffix.

(** ** Creation *)

Section asyncio.
Context {Q : Type} `{!BoundedQueue Q}.

Definition is_uninitialized (st : asyncio_init_state_e) : bool :=
  match st with AsyncioUninitialized => true | _ => false end.

Definition is_initialized (st : asyncio_init_state_e) : bool :=
  match st with AsyncioInitialized => true | _ => false end.

Definition asyncio_configure_tx_thread (p : asyncio_create_params_t)
    (ctx : asyncio_tx_thread_context_t Q) : result (asyncio_tx_thread_context_t Q) :=
  assert! is_uninitialized (tx_init ctx) ;;
  nm ← thread_name (tx_thread_name ctx) (ap_stream_name p) name_tx;
  Ok {| tx_worker := ap_tx_worker p; tx_pool_params := ap_tx_pool_params p; tx_thread_name := nm;
        tx_pool := tx_pool ctx; max_tx_data_chunk_size := ap_tx_max_chunk_size p;
        tx_write_timeout := ap_tx_write_timeout p; tx_buffer_offset := ap_tx_buffer_offset p;
        tx_init := tx_init ctx; tx_memory := tx_memory ctx |}.

Definition asyncio_configure_rx_thread (p : asyncio_create_params_t)
    (ctx : asyncio_rx_thread_context_t Q) : result (asyncio_rx_thread_context_t Q) :=
  assert! is_uninitialized (rx_init ctx) ;;
  nm ← thread_name (rx_thread_name ctx) (ap_stream_name p) name_rx;
  Ok {| rx_worker := ap_rx_worker p; rx_pool_params := ap_rx_pool_params p; rx_pool := rx_pool ctx;
        rx_thread_name := nm; rx_callback := ap_rx_callback p; rx_client_data := ap_client_data p;
        rx_init := rx_init ctx; rx_memory := rx_memory ctx |}.

Definition nonnull (p : Z) : bool := negb (p =? 0).

(** [old] is what the storage of the instance holds; [mtx_ok] and [cv_ok] are the
    outcomes of creating the event flag. *)
Definition asyncio_create_instance (p : asyncio_create_params_t)
    (old : asyncio_interface_instance_t Q) (mtx_ok cv_ok : bool)
  : result (asyncio_interface_instance_t Q) :=
  let reads := nonnull (ap_read_f p) && nonnull (ap_rx_callback p) in
  assert! ap_instance p && (reads || nonnull (ap_write_f p)) &&
          (reads || (negb (nonnull (ap_read_f p)) && negb (nonnull (ap_rx_callback p)))) ;;
  assert! (nonnull (ap_rx_worker p) && nonnull (ap_read_f p)) ||
          (nonnull (ap_tx_worker p) && nonnull (ap_write_f p)) ;;
  let '(fl, created) := event_flag_new (Some (stream_flag old)) mtx_ok cv_ok in
  assert! created ;;
  rx ← asyncio_configure_rx_thread p (rx_task old);
  tx ← asyncio_configure_tx_thread p (tx_task old);
  Ok {| rx_task := rx; tx_task := tx; f_stream_interface_read := ap_read_f p;
        f_stream_interface_write := ap_write_f p; is_in_error := false; stream_stopped := true;
        stream_name := ap_stream_name p; stream_flag := default (stream_flag old) fl;
        init_state := init_state old |}.

(** ** Parts of the instance *)

Definition set_rx (i : asyncio_interface_instance_t Q) (rx : asyncio_rx_thread_context_t Q)
  : asyncio_interface_instance_t Q :=
  {| rx_task := rx; tx_task := tx_task i; f_stream_interface_read := f_stream_interface_read i;
     f_stream_interface_write := f_stream_interface_write i; is_in_error := is_in_error i;
     stream_stopped := stream_stopped i; stream_name := stream_name i;
     stream_flag := stream_flag i; init_state := init_state i |}.

Definition set_tx (i : asyncio_interface_instance_t Q) (tx : asyncio_tx_thread_context_t Q)
  : asyncio_interface_instance_t Q :=
  {| rx_task := rx_task i; tx_task := tx; f_stream_interface_read := f_stream_interface_read i;
     f_stream_interface_write := f_stream_interface_write i; is_in_error := is_in_error i;
     stream_stopped := stream_stopped i; stream_name := stream_name i;
     stream_flag := stream_flag i; init_state := init_state i |}.

Definition set_stopped (i : asyncio_interface_instance_t Q) (b : bool)
  : asyncio_interface_instance_t Q :=
  {| rx_task := rx_task i; tx_task := tx_task i;
     f_stream_interface_read := f_stream_interface_read i;
     f_stream_interface_write := f_stream_interface_write i; is_in_error := is_in_error i;
     stream_stopped := b; stream_name := stream_name i; stream_flag := stream_flag i;
     init_state := init_state i |}.

Definition set_flag (i : asyncio_interface_instance_t Q) (f : option event_flag_t)
  : asyncio_interface_instance_t Q :=
  {| rx_task := rx_task i; tx_task := tx_task i;
     f_stream_interface_read := f_stream_interface_read i;
     f_stream_interface_write := f_stream_interface_write i; is_in_error := is_in_error i;
     stream_stopped := stream_stopped i; stream_name := stream_name i;
     stream_flag := default (stream_flag i) f; init_state := init_state i |}.

Definition set_init (i : asyncio_interface_instance_t Q) (st : asyncio_init_state_e)
  : asyncio_interface_instance_t Q :=
  {| rx_task := rx_task i; tx_task := tx_task i;
     f_stream_interface_read := f_stream_interface_read i;
     f_stream_interface_write := f_stream_interface_write i; is_in_error := is_in_error i;
     stream_stopped := stream_stopped i; stream_name := stream_name i;
     stream_flag := stream_flag i; init_state := st |}.

Definition set_rx_init (c : asyncio_rx_thread_context_t Q) (st : asyncio_init_state_e)
  : asyncio_rx_thread_context_t Q :=
  {| rx_worker := rx_worker c; rx_pool_params := rx_pool_params c; rx_pool := rx_pool c;
     rx_thread_name := rx_thread_name c; rx_callback := rx_callback c;
     rx_client_data := rx_client_data c; rx_init := st; rx_memory := rx_memory c |}.

Definition set_tx_init (c : asyncio_tx_thread_context_t Q) (st : asyncio_init_state_e)
  : asyncio_tx_thread_context_t Q :=
  {| tx_worker := tx_worker c; tx_pool_params := tx_pool_params c;
     tx_thread_name := tx_thread_name c; tx_pool := tx_pool c;
     max_tx_data_chunk_size := max_tx_data_chunk_size c; tx_write_timeout := tx_write_timeout c;
     tx_buffer_offset := tx_buffer_offset c; tx_init := st; tx_memory := tx_memory c |}.

(** The pools and their memory, and the contexts after a call of them. *)
Definition rx_state (c : asyncio_rx_thread_context_t Q) : option (state Q) :=
  match rx_pool c with Some p => Some (p, rx_memory c) | None => None end.

Definition tx_state (c : asyncio_tx_thread_context_t Q) : option (state Q) :=
  match tx_pool c with Some p => Some (p, tx_memory c) | None => None end.

Definition set_rx_state (c : asyncio_rx_thread_context_t Q) (s : option (state Q))
  : asyncio_rx_thread_context_t Q :=
  {| rx_worker := rx_worker c; rx_pool_params := rx_pool_params c;
     rx_pool := match s with Some (p, _) => Some p | None => None end;
     rx_thread_name := rx_thread_name c; rx_callback := rx_callback c;
     rx_client_data := rx_client_data c; rx_init := rx_init c;
     rx_memory := match s with Some (_, m) => m | None => rx_memory c end |}.

Definition set_tx_state (c : asyncio_tx_thread_context_t Q) (s : option (state Q))
  : asyncio_tx_thread_context_t Q :=
  {| tx_worker := tx_worker c; tx_pool_params := tx_pool_params c;
     tx_thread_name := tx_thread_name c;
     tx_pool := match s with Some (p, _) => Some p | None => None end;
     max_tx_data_chunk_size := max_tx_data_chunk_size c; tx_write_timeout := tx_write_timeout c;
     tx_buffer_offset := tx_buffer_offset c; tx_init := tx_init c;
     tx_memory := match s with Some (_, m) => m | None => tx_memory c end |}.

Section service.
Context {D : Type} `{!Dispatcher D} {C : Type}.
(** The address of the instance, those of the functions that the workers call, and
    what [ts_queue_init] returns for the queues of the pools. *)
Context (self starter_a finisher_a tx_a rx_a : Z) (rx_queue tx_queue : option Q).
(** The client's functions by address: reading returns what it put into the buffer
    and the number of bytes it reports, writing the number of bytes written. *)
Context (read_f : Z -> Z -> Z -> C -> list Z * Z * C)
        (write_f : Z -> Z -> list Z -> Z -> C -> Z * C)
        (rx_callback_f : Z -> Z -> list Z -> Z -> C -> C)
        (tx_notification_f : Z -> Z -> asyncio_tx_send_status_e -> Z -> Z -> C -> C).

Definition with_inst (s : aio Q D C) (i : asyncio_interface_instance_t Q) : aio Q D C :=
  {| inst := i; requests := requests s; buffers := buffers s; workers := workers s; user := user s |}.

Definition with_workers (s : aio Q D C) (ws : gmap Z D) : aio Q D C :=
  {| inst := inst s; requests := requests s; buffers := buffers s; workers := ws; user := user s |}.

Definition with_user (s : aio Q D C) (u : C) : aio Q D C :=
  {| inst := inst s; requests := requests s; buffers := buffers s; workers := workers s; user := u |}.

Definition with_requests (s : aio Q D C) (r : gmap Z asyncio_tx_request_t) : aio Q D C :=
  {| inst := inst s; requests := r; buffers := buffers s; workers := workers s; user := user s |}.

Definition with_buffers (s : aio Q D C) (b : gmap Z (list Z)) : aio Q D C :=
  {| inst := inst s; requests := requests s; buffers := b; workers := workers s; user := user s |}.

(** [dispatch_async_f] on a worker, which may be NULL. *)
Definition dispatch (s : aio Q D C) (worker : Z) (c : dispatch_queue_post_data_t)
  : result (aio Q D C * bool) :=
  if worker =? 0 then Ok (s, false)
  else
    match workers s !! worker with
    | Some d => '(d, b) ← dp_async d c; Ok (with_workers s (<[worker := d]> (workers s)), b)
    | None => Err BadPointer
    end.

Definition job (f arg : Z) : dispatch_queue_post_data_t := {| fn := f; arg1 := self; arg2 := arg |}.

(** ** Starting *)

(** [atomic_compare_exchange_strong] from [expected]: the new state, and whether it
    was exchanged. *)
Definition cas (st expected new : asyncio_init_state_e) : asyncio_init_state_e * bool :=
  if bool_decide (st = expected) then (new, true) else (st, false).

Definition asyncio_start_rx_thread (s : aio Q D C) : result (aio Q D C) :=
  let ctx := rx_task (inst s) in
  assert! nonnull (rx_worker ctx) ;;
  assert! nonnull (rx_callback ctx) ;;
  let s := with_inst s (set_rx (inst s) (set_rx_init ctx AsyncioInitializing)) in
  '(s, _) ← dispatch s (rx_worker ctx) (job starter_a 0);
  Ok s.

Definition asyncio_start_tx_thread (s : aio Q D C) : result (aio Q D C) :=
  let ctx := tx_task (inst s) in
  let s := with_inst s (set_tx (inst s) (set_tx_init ctx AsyncioInitializing)) in
  '(s, _) ← dispatch s (tx_worker ctx) (job starter_a 1);
  Ok s.

(** [asyncio_start] up to its compare-exchange. *)
Definition start_begin (s : aio Q D C) : aio Q D C * bool :=
  let '(st, won) := cas (init_state (inst s)) AsyncioUninitialized AsyncioInitializing in
  (with_inst s (set_init (inst s) st), won).

Definition clear_flag (s : aio Q D C) (bits : Z) : aio Q D C :=
  with_inst s (set_flag (inst s) (fst (event_flag_clear (Some (stream_flag (inst s))) bits))).

Definition start_rx (s : aio Q D C) : result (aio Q D C) :=
  if nonnull (rx_worker (rx_task (inst s))) then asyncio_start_rx_thread s else Ok s.

Definition start_tx (s : aio Q D C) : result (aio Q D C) :=
  if nonnull (tx_worker (tx_task (inst s))) then asyncio_start_tx_thread s else Ok s.

Definition open_stream (s : aio Q D C) : aio Q D C := with_inst s (set_stopped (inst s) false).

(** The whole call: starting the threads never fails, so it ends with the wait.
    [others] is what the other threads do until the wait ends, [waited] its
    result. *)
Definition asyncio_start (s : aio Q D C) (others : aio Q D C -> result (aio Q D C)) (waited : bool)
  : result (aio Q D C * bool) :=
  let '(s, won) := start_begin s in
  if won then
    let s := clear_flag s STREAM_STARTED_FLAG in
    s ← start_rx s;
    s ← start_tx s;
    s ← others (open_stream s);
    assert! waited ;;
    Ok (s, true)
  else Ok (s, false).

(** The first half of [starter_f]. *)
Definition starter_body (s : aio Q D C) (arg2 : Z) : result (aio Q D C) :=
  if arg2 =? 0 then
    let ctx := rx_task (inst s) in
    r ← pool_create (rx_pool_params ctx) rx_queue (rx_memory ctx);
    let '(p, created, m) := r in
    assert! (created : bool) ;;
    let ctx := set_rx_state ctx (match p with Some p => Some (p, m) | None => None end) in
    let s := with_inst s (set_rx (inst s) (set_rx_init ctx AsyncioInitialized)) in
    '(s, _) ← dispatch s (rx_worker ctx) (job rx_a 0);
    Ok s
  else
    let ctx := tx_task (inst s) in
    r ← pool_create (tx_pool_params ctx) tx_queue (tx_memory ctx);
    let '(p, created, m) := r in
    assert! (created : bool) ;;
    let ctx := set_tx_state ctx (match p with Some p => Some (p, m) | None => None end) in
    Ok (with_inst s (set_tx (inst s) (set_tx_init ctx AsyncioInitialized))).

(** The two tests of [trigger_start_completion], and what it does then. *)
Definition rx_started (s : aio Q D C) : bool :=
  let ctx := rx_task (inst s) in negb (nonnull (rx_worker ctx)) || is_initialized (rx_init ctx).

Definition tx_started (s : aio Q D C) : bool :=
  let ctx := tx_task (inst s) in negb (nonnull (tx_worker ctx)) || is_initialized (tx_init ctx).

Definition store_init (s : aio Q D C) (st : asyncio_init_state_e) : aio Q D C :=
  with_inst s (set_init (inst s) st).

Definition send_flag (s : aio Q D C) (bits : Z) : aio Q D C :=
  with_inst s (set_flag (inst s) (fst (event_flag_send (Some (stream_flag (inst s))) bits))).

Definition trigger_start_completion (s : aio Q D C) : aio Q D C :=
  if rx_started s && tx_started s
  then send_flag (store_init s AsyncioInitialized) STREAM_STARTED_FLAG else s.

Definition starter_f (s : aio Q D C) (arg2 : Z) : result (aio Q D C) :=
  s ← starter_body s arg2; Ok (trigger_start_completion s).

(** ** Stopping *)

Definition asyncio_stop_rx_thread (s : aio Q D C) : result (aio Q D C) :=
  let ctx := rx_task (inst s) in
  let '(st, won) := cas (rx_init ctx) AsyncioInitialized AsyncioUninitializing in
  if won then
    let s := with_inst s (set_rx (inst s) (set_rx_init ctx st)) in
    '(s, _) ← dispatch s (rx_worker ctx) (job finisher_a 0);
    Ok s
  else
    assert! negb (bool_decide (rx_init ctx = AsyncioInitializing)) ;;
    Ok s.

Definition asyncio_stop_tx_thread (s : aio Q D C) : result (aio Q D C) :=
  let ctx := tx_task (inst s) in
  let '(st, won) := cas (tx_init ctx) AsyncioInitialized AsyncioUninitializing in
  if won then
    let s := with_inst s (set_tx (inst s) (set_tx_init ctx st)) in
    '(s, _) ← dispatch s (tx_worker ctx) (job finisher_a 1);
    Ok s
  else
    assert! negb (bool_decide (tx_init ctx = AsyncioInitializing)) ;;
    Ok s.

Definition stop_begin (s : aio Q D C) : aio Q D C * bool :=
  let '(st, won) := cas (init_state (inst s)) AsyncioInitialized AsyncioUninitializing in
  (with_inst s (set_init (inst s) st), won).

Definition close_stream (s : aio Q D C) : aio Q D C := with_inst s (set_stopped (inst s) true).

Definition asyncio_stop (s : aio Q D C) (others : aio Q D C -> result (aio Q D C)) (waited : bool)
  : result (aio Q D C) :=
  let '(s, won) := stop_begin s in
  if won && negb (stream_stopped (inst s)) then
    let s := close_stream (clear_flag s STREAM_STOPPED_FLAG) in
    s ← asyncio_stop_rx_thread s;
    s ← asyncio_stop_tx_thread s;
    s ← others s;
    assert! waited ;;
    Ok s
  else Ok s.

(** The first half of [finisher_f]. *)
Definition finisher_body (s : aio Q D C) (arg2 : Z) : aio Q D C :=
  if arg2 =? 0 then
    let ctx := rx_task (inst s) in
    let '(st, won) := cas (rx_init ctx) AsyncioUninitializing AsyncioUninitialized in
    let ctx := set_rx_init ctx st in
    if won then
      with_inst s (set_rx (inst s)
        (set_rx_state ctx (match pool_destroy (rx_pool ctx) with
                           | Some p => Some (p, rx_memory ctx) | None => None end)))
    else s
  else
    let ctx := tx_task (inst s) in
    let '(st, won) := cas (tx_init ctx) AsyncioUninitializing AsyncioUninitialized in
    let ctx := set_tx_init ctx st in
    if won then
      with_inst s (set_tx (inst s)
        (set_tx_state ctx (match pool_destroy (tx_pool ctx) with
                           | Some p => Some (p, tx_memory ctx) | None => None end)))
    else s.

Definition rx_stopped (s : aio Q D C) : bool := is_uninitialized (rx_init (rx_task (inst s))).

Definition tx_stopped (s : aio Q D C) : bool := is_uninitialized (tx_init (tx_task (inst s))).

Definition trigger_stop_completion (s : aio Q D C) : aio Q D C :=
  if rx_stopped s && tx_stopped s
  then send_flag (store_init s AsyncioUninitialized) STREAM_STOPPED_FLAG else s.

Definition finisher_f (s : aio Q D C) (arg2 : Z) : aio Q D C :=
  trigger_stop_completion (finisher_body s arg2).

(** The event flag itself has no further state. *)
Definition asyncio_destroy_instance (s : option (aio Q D C))
    (others : aio Q D C -> result (aio Q D C)) (waited : bool) : result (option (aio Q D C)) :=
  match s with
  | Some s => s ← asyncio_stop s others waited; Ok (Some s)
  | None => Ok None
  end.

(** ** Transmission *)

Definition asyncio_allocate_tx_token (s : aio Q D C) : result (aio Q D C * Z) :=
  let ctx := tx_task (inst s) in
  if is_initialized (tx_init ctx) then
    r ← pool_alloc (tx_state ctx);
    let p_req := match snd r with Returns b => b | Waits _ => 0 end in
    let s := with_inst s (set_tx (inst s) (set_tx_state ctx (fst r))) in
    if nonnull p_req then
      Ok (with_requests s (<[p_req := {| rq_size := 0; buffer_offset := tx_buffer_offset ctx;
                                         rq_fn := 0; rq_private := 0 |}]> (requests s)), p_req)
    else Ok (s, p_req)
  else Ok (s, 0).

Definition asyncio_release_tx_token (s : option (aio Q D C)) (token : Z)
  : result (option (aio Q D C)) :=
  match s with
  | Some s =>
      let ctx := tx_task (inst s) in
      if nonnull token && is_initialized (tx_init ctx) then
        r ← pool_free (tx_state ctx) token;
        Ok (Some (with_inst s (set_tx (inst s) (set_tx_state ctx (fst r)))))
      else Ok (Some s)
  | None => Ok None
  end.

Definition read_request (s : aio Q D C) (token : Z) : result asyncio_tx_request_t :=
  match requests s !! token with Some r => Ok r | None => Err BadPointer end.

Definition asyncio_tx_request_get_buffer (s : aio Q D C) (p_req : Z) : result Z :=
  r ← read_request s p_req; Ok (p_req + buffer_offset r).

Definition asyncio_tx_token_get_data_buffer (s : aio Q D C) (token : Z) : result Z :=
  if nonnull token then asyncio_tx_request_get_buffer s token else Ok 0.

Definition asyncio_tx_token_get_max_data_size (s : aio Q D C) : Z :=
  max_tx_data_chunk_size (tx_task (inst s)).

Definition asyncio_send_buffer (s : option (aio Q D C)) (token size f private : Z)
  : result (option (aio Q D C) * bool) :=
  match s with
  | Some s =>
      let ctx := tx_task (inst s) in
      if negb (stream_stopped (inst s)) && is_initialized (tx_init ctx) && nonnull token &&
         (0 <? size) && (size <? max_tx_data_chunk_size ctx)
      then
        r ← read_request s token;
        let s := with_requests s (<[token := {| rq_size := size; buffer_offset := buffer_offset r;
                                                rq_fn := f; rq_private := private |}]> (requests s)) in
        '(s, b) ← dispatch s (tx_worker ctx) (job tx_a token);
        Ok (Some s, b)
      else Ok (Some s, false)
  | None => Ok (None, false)
  end.

Definition tx_f (s : aio Q D C) (p_req : Z) : result (aio Q D C) :=
  let i := inst s in
  let timeout := tx_write_timeout (tx_task i) in
  s ← (if is_initialized (init_state i) then
         r ← read_request s p_req;
         '(u, status, written) ←
           (if negb (is_in_error i) then
              buf ← asyncio_tx_request_get_buffer s p_req;
              _ ← (if nonnull (f_stream_interface_write i) then Ok tt else Err BadPointer);
              let '(n, u) := write_f (f_stream_interface_write i) (rq_size r)
                               (default [] (buffers s !! buf)) timeout (user s) in
              Ok (u, if n =? rq_size r then StreamTxSendSuccess else StreamTxSendMessageFail, n)
            else Ok (user s, StreamTxInterfaceInError, 0));
         let u := if nonnull (rq_fn r)
                  then tx_notification_f (rq_fn r) p_req status (u32 written) (rq_private r) u
                  else u in
         Ok (with_user s u)
       else Ok s);
  r ← pool_free (tx_state (tx_task (inst s))) p_req;
  Ok (with_inst s (set_tx (inst s) (set_tx_state (tx_task (inst s)) (fst r)))).

(** ** Reception *)

Definition asyncio_release_rx_buffer (s : option (aio Q D C)) (message : Z)
  : result (option (aio Q D C)) :=
  match s with
  | Some s =>
      if nonnull message then
        r ← pool_free (rx_state (rx_task (inst s))) message;
        Ok (Some (with_inst s (set_rx (inst s) (set_rx_state (rx_task (inst s)) (fst r)))))
      else Ok (Some s)
  | None => Ok None
  end.

(** [in_callback] is what the callback does with the service, besides its effect on
    the client's world.  The sleeps change nothing. *)
Definition rx_f (in_callback : aio Q D C -> Z -> result (aio Q D C)) (s : aio Q D C)
  : result (aio Q D C) :=
  let ctx := rx_task (inst s) in
  if is_initialized (rx_init ctx) then
    r ← pool_alloc (rx_state ctx);
    let p_buf := match snd r with Returns b => b | Waits _ => 0 end in
    let s := with_inst s (set_rx (inst s) (set_rx_state ctx (fst r))) in
    if nonnull p_buf then
      _ ← (if nonnull (f_stream_interface_read (inst s)) then Ok tt else Err BadPointer);
      let '(bytes, bytes_read, u) := read_f (f_stream_interface_read (inst s)) p_buf 1000 (user s) in
      let s := with_user (with_buffers s (<[p_buf := bytes]> (buffers s))) u in
      s ← (if nonnull bytes_read then
             _ ← (if nonnull (rx_callback ctx) then Ok tt else Err BadPointer);
             in_callback (with_user s (rx_callback_f (rx_callback ctx) p_buf bytes bytes_read (user s)))
               p_buf
           else Ok s);
      '(s, _) ← dispatch s (rx_worker ctx) (job rx_a 0);
      r ← pool_free (rx_state (rx_task (inst s))) p_buf;
      Ok (with_inst s (set_rx (inst s) (set_rx_state (rx_task (inst s)) (fst r))))
    else '(s, _) ← dispatch s (rx_worker ctx) (job rx_a 0); Ok s
  else Ok s.

Definition asyncio_get_private_data (s : option (aio Q D C)) : Z :=
  match s with Some s => rx_client_data (rx_task (inst s)) | None => 0 end.
End service.
End asyncio.

(** ** Creating an instance *)

(** The text in a buffer: what is in front of the first terminator. *)
Fixpoint cstring (l : list Z) : list Z :=
  match l with [] => [] | c :: l => if c =? 0 then [] else c :: cstring l end.

Lemma list_find_app_zero l k :
  0 ∉ l -> list_find (fun c => c = 0) (l ++ 0 :: k) = Some (length l, 0).
Proof.
  induction l as [|c l IH]; intros Hl; [done|]. apply not_elem_of_cons in Hl as [Hc Hl]. cbn.
  rewrite decide_False by congruence. by rewrite IH.
Qed.

Lemma strcat_app l k src :
  0 ∉ l -> (length src <= length k)%nat ->
  strcat (l ++ 0 :: k) src = Ok (l ++ src ++ 0 :: drop (length src) k).
Proof.
  intros Hl Hk. unfold strcat. rewrite list_find_app_zero by done.
  rewrite bool_decide_eq_true_2 by (rewrite length_app; cbn; lia).
  rewrite take_app_length, drop_app_ge by lia.
  by replace (length l + length src + 1 - length l)%nat with (S (length src)) by lia.
Qed.

Lemma strcat_full l src : 0 ∉ l -> src <> [] -> strcat (l ++ [0]) src = Err OutOfBounds.
Proof.
  intros Hl Hs. unfold strcat. rewrite list_find_app_zero by done.
  rewrite bool_decide_eq_false_2; [done|]. rewrite length_app. cbn.
  destruct src; [done|]. cbn. lia.
Qed.

Lemma cstring_app l k : 0 ∉ l -> cstring (l ++ 0 :: k) = l.
Proof.
  induction l as [|c l IH]; intros Hl; [done|]. apply not_elem_of_cons in Hl as [Hc Hl]. cbn.
  rewrite (proj2 (Z.eqb_neq c 0)) by congruence. by rewrite IH.
Qed.

(** The name of a thread in zeroed storage, and again in the same storage. *)
Lemma thread_name_fresh stream suffix :
  0 ∉ stream -> 0 ∉ suffix -> length suffix = 2%nat ->
  exists nm, thread_name (replicate 40 0) stream suffix = Ok nm /\
    cstring nm = take 37 stream ++ suffix /\
    (37 <= length stream -> thread_name nm stream suffix = Err OutOfBounds)%nat.
Proof.
  intros Hs Hx Hlen. unfold thread_name, strncpy, ASYNCIO_MAX_THREAD_NAME.
  change (Z.to_nat (40 - 3)) with 37%nat.
  assert (0 ∉ take 37 stream) as Ht by (intros H; apply Hs; by apply elem_of_take in H as (i & ? & _); eapply list_elem_of_lookup_2).
  assert (take 37 (stream ++ replicate 37 0) ++ drop 37 (replicate 40 0) =
    take 37 stream ++ 0 :: replicate (39 - length (take 37 stream)) 0) as ->.
  { rewrite take_app, <- app_assoc. f_equal. rewrite length_take, drop_replicate, take_replicate.
    change 0 with (id 0). unfold id.
    rewrite <- replicate_add. change (0 :: replicate ?n 0) with (replicate (S n) 0). f_equal. lia. }
  rewrite strcat_app by (done || rewrite length_replicate, length_take; lia).
  eexists. split; [reflexivity|]. split.
  - rewrite app_assoc, cstring_app; [done|]. by rewrite elem_of_app; intros [?|?].
  - intros Hl. assert (length (take 37 stream) = 37%nat) as Hn by (rewrite length_take; lia).
    rewrite take_app_le, drop_app_ge by lia. rewrite Hn, Hlen.
    change (37 - 37)%nat with 0%nat. rewrite drop_0. cbn [replicate Nat.sub drop].
    rewrite app_assoc. apply (strcat_full (take 37 stream ++ suffix)).
    + by rewrite elem_of_app; intros [?|?].
    + by destruct suffix.
Qed.

Section creation.
Context {Q : Type} `{!BoundedQueue Q}.

(** The combinations of functions and workers that are accepted. *)
Definition acceptable (p : asyncio_create_params_t) : bool :=
  let reads := nonnull (ap_read_f p) && nonnull (ap_rx_callback p) in
  (ap_instance p && (reads || nonnull (ap_write_f p)) &&
   (reads || (negb (nonnull (ap_read_f p)) && negb (nonnull (ap_rx_callback p))))) &&
  ((nonnull (ap_rx_worker p) && nonnull (ap_read_f p)) ||
   (nonnull (ap_tx_worker p) && nonnull (ap_write_f p))).

(** The storage of an instance that was zeroed. *)
Definition zeroed (old : asyncio_interface_instance_t Q) : Prop :=
  init_state old = AsyncioUninitialized /\
  rx_init (rx_task old) = AsyncioUninitialized /\ rx_thread_name (rx_task old) = replicate 40 0 /\
  tx_init (tx_task old) = AsyncioUninitialized /\ tx_thread_name (tx_task old) = replicate 40 0.

(** Creation in zeroed storage. *)
Lemma create_instance_fresh p (old : asyncio_interface_instance_t Q) :
  acceptable p = true -> zeroed old -> (0 ∉ ap_stream_name p) ->
  exists i, asyncio_create_instance p old true true = Ok i /\
    cstring (rx_thread_name (rx_task i)) = take 37 (ap_stream_name p) ++ name_rx /\
    cstring (tx_thread_name (tx_task i)) = take 37 (ap_stream_name p) ++ name_tx /\
    stream_stopped i = true /\ is_in_error i = false /\ val (stream_flag i) = 0 /\
    init_state i = AsyncioUninitialized /\
    rx_worker (rx_task i) = ap_rx_worker p /\ tx_worker (tx_task i) = ap_tx_worker p /\
    ((37 <= length (ap_stream_name p))%nat ->
       asyncio_create_instance p i true true = Err OutOfBounds).
Proof.
  unfold asyncio_create_instance, acceptable. cbv zeta.
  set (c1 := ap_instance p && _ && _). set (c2 := nonnull (ap_rx_worker p) && _ || _).
  intros [-> ->]%andb_true_iff (H0 & H1 & H2 & H3 & H4) Hs. cbn [cassert mbind result_bind].
  unfold asyncio_configure_rx_thread, asyncio_configure_tx_thread. rewrite H1, H2, H3, H4.
  destruct (thread_name_fresh (ap_stream_name p) name_rx Hs) as (nr & Hnr & Hcr & Hor);
    [by apply (bool_decide_unpack _)|done|].
  destruct (thread_name_fresh (ap_stream_name p) name_tx Hs) as (nt & Hnt & Hct & _);
    [by apply (bool_decide_unpack _)|done|].
  cbn [event_flag_new andb is_uninitialized cassert mbind result_bind]. rewrite Hnr, Hnt.
  cbn [mbind result_bind]. eexists. split; [reflexivity|]. cbn.
  split_and!; [done..|]. intros Hl. by rewrite (Hor Hl).
Qed.

(** Creating an instance.  Parameters that name no complete channel, or read
    without a callback, stop the program, as does an instance whose channels are
    running.  In zeroed storage the instance is configured, stopped and not in
    error, and its threads are named by the first 37 characters of the stream's
    name and "Rx" or "Tx".  Creating it a second time in the same storage writes
    past the name's buffer when the stream's name has 37 characters or more. *)
Theorem asyncio_create_instance_outcome p (old : asyncio_interface_instance_t Q) mtx_ok cv_ok :
  (acceptable p = false -> asyncio_create_instance p old mtx_ok cv_ok = Err AssertFailed) /\
  (rx_init (rx_task old) <> AsyncioUninitialized ->
     asyncio_create_instance p old mtx_ok cv_ok = Err AssertFailed) /\
  (acceptable p = true -> zeroed old -> (0 ∉ ap_stream_name p) ->
     exists i, asyncio_create_instance p old true true = Ok i /\
       cstring (rx_thread_name (rx_task i)) = take 37 (ap_stream_name p) ++ name_rx /\
       cstring (tx_thread_name (tx_task i)) = take 37 (ap_stream_name p) ++ name_tx /\
       stream_stopped i = true /\ is_in_error i = false /\ val (stream_flag i) = 0 /\
       init_state i = AsyncioUninitialized /\
       rx_worker (rx_task i) = ap_rx_worker p /\ tx_worker (tx_task i) = ap_tx_worker p /\
       ((37 <= length (ap_stream_name p))%nat ->
          asyncio_create_instance p i true true = Err OutOfBounds)).
Proof.
  split_and!; [| |by apply create_instance_fresh]; unfold asyncio_create_instance, acceptable; cbv zeta;
    set (c1 := ap_instance p && _ && _); set (c2 := nonnull (ap_rx_worker p) && _ || _).
  - intros H. destruct c1; [|done]. cbn in H. by rewrite H.
  - intros H. destruct c1; [|done]. destruct c2; [|done]. cbn [cassert mbind result_bind].
    destruct (event_flag_new _ _ _) as [fl [|]]; [|done]. cbn [cassert mbind result_bind].
    unfold asyncio_configure_rx_thread. by destruct (rx_init (rx_task old)).
Qed.
End creation.
