(* ===== verification/AsyncioRun.v ===== *)
(** The asynchronous I/O service at work: threads that start and stop it, the
    workers of its two channels, and clients that send.

    Starting and stopping are cut at every access to what the threads share: the
    three states, the event flag and the workers.  A worker's function is one step,
    except that the tests and the stores that end [starter_f] and [finisher_f] are
    steps of their own.  A token is allocated, filled, sent and released in one step
    each. *)
From S2P Require Import Prelude TsQueue Pool EventFlag DispatchQueue Dispatcher Asyncio.
From stdpp Require Import list gmap.
From Stdlib Require Import ZArith Lia.
Local Open Scope Z_scope.

(** ** Interleaving *)

(** Where a call of [asyncio_start] or [asyncio_stop] is. *)
Inductive caller : Set :=
  | CStartClear | CStartRx | CStartTx | CStartOpen | CStartWait
  | CStopClear | CStopRx | CStopTx | CStopWait.

(** Where a worker is in the call that it has taken. *)
Inductive job_pc : Set :=
  | JBody (c : dispatch_queue_post_data_t)
  | JStartRx | JStartTx | JStartStore | JStartSend
  | JStopRx | JStopTx | JStopStore | JStopSend
  | JDone.

#[export] Instance caller_eq_dec : EqDecision caller.
Proof. solve_decision. Defined.

#[export] Instance job_pc_eq_dec : EqDecision job_pc.
Proof. solve_decision. Defined.

(** A transmission: the token, its request and the bytes in its buffer. *)
Record sending : Set := { sd_token : Z; sd_request : asyncio_tx_request_t; sd_data : list Z }.

(** What the workers have done: a token was written, or freed without being
    written; a buffer was read into. *)
Inductive aio_done : Set :=
  | DWritten (x : sending)
  | DDropped (x : sending)
  | DReceived (buf : Z).

(** [results]: what the calls of [asyncio_start] returned; [held]: the tokens that
    the clients own; [sent]: everything that was sent, [waiting] the part of it that
    the worker has not come to. *)
Record aio_world {Q D C : Type} := {
  ai : aio Q D C;
  callers : gmap nat caller;
  jobs : gmap Z job_pc;
  results : list (nat * bool);
  held : list Z;
  sent : list sending;
  waiting : list sending;
  hist : list aio_done
}.
Arguments aio_world : clear implicits.

Inductive aio_event : Set :=
  | XStart (t : nat)
  | XStop (t : nat)
  | XCaller (t : nat)
  | XTimeout (t : nat)
  | XWork (a : Z)
  | XAllocate
  | XFill (token : Z) (bytes : list Z)
  | XSend (token size f private : Z)
  | XRelease (token : Z).

Section interleaving.
Context {Q : Type} `{!BoundedQueue Q} {D : Type} `{!Dispatcher D} {C : Type}.
Context (self starter_a finisher_a tx_a rx_a : Z) (rx_queue tx_queue : option Q).
Context (read_f : Z -> Z -> Z -> C -> list Z * Z * C)
        (write_f : Z -> Z -> list Z -> Z -> C -> Z * C)
        (rx_callback_f : Z -> Z -> list Z -> Z -> C -> C)
        (tx_notification_f : Z -> Z -> asyncio_tx_send_status_e -> Z -> Z -> C -> C).
(** The port's flags, and the clock when they are waited for. *)
Context (gives_up : Z -> bool) (now : timespec).

Definition set_ai (w : aio_world Q D C) (s : aio Q D C) : aio_world Q D C :=
  {| ai := s; callers := callers w; jobs := jobs w; results := results w; held := held w;
     sent := sent w; waiting := waiting w; hist := hist w |}.

Definition set_caller (w : aio_world Q D C) (t : nat) (c : option caller) : aio_world Q D C :=
  {| ai := ai w; callers := partial_alter (fun _ => c) t (callers w); jobs := jobs w;
     results := results w; held := held w; sent := sent w; waiting := waiting w; hist := hist w |}.

Definition set_job (w : aio_world Q D C) (a : Z) (j : option job_pc) : aio_world Q D C :=
  {| ai := ai w; callers := callers w; jobs := partial_alter (fun _ => j) a (jobs w);
     results := results w; held := held w; sent := sent w; waiting := waiting w; hist := hist w |}.

Definition add_result (w : aio_world Q D C) (t : nat) (b : bool) : aio_world Q D C :=
  {| ai := ai w; callers := callers w; jobs := jobs w; results := results w ++ [(t, b)];
     held := held w; sent := sent w; waiting := waiting w; hist := hist w |}.

Definition set_held (w : aio_world Q D C) (l : list Z) : aio_world Q D C :=
  {| ai := ai w; callers := callers w; jobs := jobs w; results := results w; held := l;
     sent := sent w; waiting := waiting w; hist := hist w |}.

Definition add_sent (w : aio_world Q D C) (x : sending) : aio_world Q D C :=
  {| ai := ai w; callers := callers w; jobs := jobs w; results := results w; held := held w;
     sent := sent w ++ [x]; waiting := waiting w ++ [x]; hist := hist w |}.

Definition add_done (w : aio_world Q D C) (l : list sending) (h : list aio_done)
  : aio_world Q D C :=
  {| ai := ai w; callers := callers w; jobs := jobs w; results := results w; held := held w;
     sent := sent w; waiting := l; hist := hist w ++ h |}.

(** The wait for a flag: it returns, or goes on waiting. *)
Definition wait_flag (w : aio_world Q D C) (bit : Z) : result bool :=
  match event_flag_wait gives_up (Some (stream_flag (inst (ai w)))) bit WAIT_OR 4000 now (fun _ => 0) with
  | (_, Returns (b, _)) => assert! (b : bool) ;; Ok true
  | (_, Waits _) => Ok false
  end.

(** The next step of a call of [asyncio_start] or [asyncio_stop]. *)
Definition caller_step (w : aio_world Q D C) (t : nat) (c : caller) : result (aio_world Q D C) :=
  let s := ai w in
  match c with
  | CStartClear => Ok (set_caller (set_ai w (clear_flag s STREAM_STARTED_FLAG)) t (Some CStartRx))
  | CStartRx => s ← start_rx self starter_a s; Ok (set_caller (set_ai w s) t (Some CStartTx))
  | CStartTx => s ← start_tx self starter_a s; Ok (set_caller (set_ai w s) t (Some CStartOpen))
  | CStartOpen => Ok (set_caller (set_ai w (open_stream s)) t (Some CStartWait))
  | CStartWait =>
      b ← wait_flag w STREAM_STARTED_FLAG;
      Ok (if (b : bool) then add_result (set_caller w t None) t true else w)
  | CStopClear =>
      Ok (set_caller (set_ai w (close_stream (clear_flag s STREAM_STOPPED_FLAG))) t (Some CStopRx))
  | CStopRx =>
      s ← asyncio_stop_rx_thread self finisher_a s; Ok (set_caller (set_ai w s) t (Some CStopTx))
  | CStopTx =>
      s ← asyncio_stop_tx_thread self finisher_a s; Ok (set_caller (set_ai w s) t (Some CStopWait))
  | CStopWait =>
      b ← wait_flag w STREAM_STOPPED_FLAG; Ok (if (b : bool) then set_caller w t None else w)
  end.

(** The receive buffer that [rx_f] is about to take. *)
Definition next_rx_buffer (s : aio Q D C) : list aio_done :=
  match rx_pool (rx_task (inst s)) with
  | Some p => match q p with Some qu => DReceived <$> take 1 (bq_items qu) | None => [] end
  | None => []
  end.

(** The call that a worker has taken: the function up to its tests. *)
Definition body_step (w : aio_world Q D C) (a : Z) (c : dispatch_queue_post_data_t)
  : result (aio_world Q D C) :=
  if fn c =? starter_a then
    s ← starter_body self rx_a rx_queue tx_queue (ai w) (arg2 c);
    Ok (set_job (set_ai w s) a (Some JStartRx))
  else if fn c =? finisher_a then
    Ok (set_job (set_ai w (finisher_body (ai w) (arg2 c))) a (Some JStopRx))
  else if fn c =? tx_a then
    s ← tx_f write_f tx_notification_f (ai w) (arg2 c);
    let h := match waiting w with
             | x :: _ => if is_initialized (init_state (inst (ai w))) then [DWritten x] else [DDropped x]
             | [] => []
             end in
    Ok (set_job (add_done (set_ai w s) (tail (waiting w)) h) a (Some JDone))
  else if fn c =? rx_a then
    s ← rx_f self rx_a read_f rx_callback_f (fun s _ => Ok s) (ai w);
    let h := if is_initialized (rx_init (rx_task (inst (ai w)))) then next_rx_buffer (ai w) else [] in
    Ok (set_job (add_done (set_ai w s) (waiting w) h) a (Some JDone))
  else Err BadPointer.

(** The next step of a worker. *)
Definition work_step (w : aio_world Q D C) (a : Z) : result (aio_world Q D C) :=
  let s := ai w in
  match workers s !! a with
  | None => Ok w
  | Some d =>
      match jobs w !! a with
      | None =>
          '(d, r) ← dp_take d;
          let w := set_ai w (with_workers s (<[a := d]> (workers s))) in
          match r with
          | Waits _ => Ok w
          | Returns c => Ok (set_job w a (Some (JBody c)))
          end
      | Some (JBody c) => body_step w a c
      | Some JStartRx => Ok (set_job w a (Some (if rx_started s then JStartTx else JDone)))
      | Some JStartTx => Ok (set_job w a (Some (if tx_started s then JStartStore else JDone)))
      | Some JStartStore => Ok (set_job (set_ai w (store_init s AsyncioInitialized)) a (Some JStartSend))
      | Some JStartSend => Ok (set_job (set_ai w (send_flag s STREAM_STARTED_FLAG)) a (Some JDone))
      | Some JStopRx => Ok (set_job w a (Some (if rx_stopped s then JStopTx else JDone)))
      | Some JStopTx => Ok (set_job w a (Some (if tx_stopped s then JStopStore else JDone)))
      | Some JStopStore => Ok (set_job (set_ai w (store_init s AsyncioUninitialized)) a (Some JStopSend))
      | Some JStopSend => Ok (set_job (set_ai w (send_flag s STREAM_STOPPED_FLAG)) a (Some JDone))
      | Some JDone =>
          d ← dp_finish d;
          Ok (set_job (set_ai w (with_workers s (<[a := d]> (workers s)))) a None)
      end
  end.

(** An event that its thread cannot make has no effect. *)
Definition aio_step (w : aio_world Q D C) (ev : aio_event) : result (aio_world Q D C) :=
  let s := ai w in
  match ev with
  | XStart t =>
      match callers w !! t with
      | Some _ => Ok w
      | None =>
          let '(s, won) := start_begin s in
          Ok (if (won : bool) then set_caller (set_ai w s) t (Some CStartClear)
              else add_result w t false)
      end
  | XStop t =>
      match callers w !! t with
      | Some _ => Ok w
      | None =>
          let '(s, won) := stop_begin s in
          Ok (if won && negb (stream_stopped (inst s))
              then set_caller (set_ai w s) t (Some CStopClear) else set_ai w s)
      end
  | XCaller t => match callers w !! t with Some c => caller_step w t c | None => Ok w end
  | XTimeout t =>
      match callers w !! t with
      | Some CStartWait | Some CStopWait => Err AssertFailed
      | _ => Ok w
      end
  | XWork a => work_step w a
  | XAllocate =>
      '(s, token) ← asyncio_allocate_tx_token s;
      Ok (if nonnull token then set_held (set_ai w s) (token :: held w) else set_ai w s)
  | XFill token bytes =>
      buf ← asyncio_tx_token_get_data_buffer s token;
      Ok (set_ai w (with_buffers s (<[buf := bytes]> (buffers s))))
  | XSend token size f private =>
      '(s', b) ← asyncio_send_buffer self tx_a (Some s) token size f private;
      let s := default s s' in
      if (b : bool) then
        r ← read_request s token;
        Ok (add_sent (set_held (set_ai w s) (filter (fun x => x <> token) (held w)))
              {| sd_token := token; sd_request := r;
                 sd_data := default [] (buffers s !! (token + buffer_offset r)) |})
      else Ok (set_ai w s)
  | XRelease token =>
      s' ← asyncio_release_tx_token (Some s) token;
      Ok (set_held (set_ai w (default s s')) (filter (fun x => x <> token) (held w)))
  end.

Fixpoint aio_run (w : aio_world Q D C) (evs : list aio_event) : result (aio_world Q D C) :=
  match evs with [] => Ok w | ev :: evs => w ← aio_step w ev; aio_run w evs end.

Definition new_aio_world (s : aio Q D C) : aio_world Q D C :=
  {| ai := s; callers := ∅; jobs := ∅; results := []; held := []; sent := []; waiting := [];
     hist := [] |}.

(** Clients use the tokens that they own; the workers are those of the service. *)
Definition aio_legal (w : aio_world Q D C) (ev : aio_event) : Prop :=
  match ev with
  | XFill token _ | XSend token _ _ _ | XRelease token => token ∈ held w
  | XWork a => a <> 0 /\ (a = rx_worker (rx_task (inst (ai w))) \/ a = tx_worker (tx_task (inst (ai w))))
  | _ => True
  end.

Fixpoint aio_all_legal (w : aio_world Q D C) (evs : list aio_event) : Prop :=
  match evs with
  | [] => True
  | ev :: evs => aio_legal w ev /\
      match aio_step w ev with Ok w => aio_all_legal w evs | Err _ => True end
  end.
End interleaving.

(** ** The workers' calls *)

Lemma four_distinct (a b c d : Z) :
  NoDup [a; b; c; d] -> a <> b /\ a <> c /\ a <> d /\ b <> c /\ b <> d /\ c <> d.
Proof. rewrite !NoDup_cons, !not_elem_of_cons. tauto. Qed.

Lemma four_nonzero (a b c d : Z) : (0 ∉ [a; b; c; d]) -> a <> 0 /\ b <> 0 /\ c <> 0 /\ d <> 0.
Proof. rewrite !not_elem_of_cons. intros (? & ? & ? & ? & _). by split_and!. Qed.

Section jobs.
Context {D : Type} `{!Dispatcher D} `{!DispatcherLaws D}.
Context (starter_a finisher_a tx_a rx_a : Z) (rxw txw : Z).
Context (distinct : NoDup [starter_a; finisher_a; tx_a; rx_a]).

(** The calls of the receive channel and of the transmit channel. *)
Definition rx_job (c : dispatch_queue_post_data_t) : bool :=
  (fn c =? rx_a) || (((fn c =? starter_a) || (fn c =? finisher_a)) && (arg2 c =? 0)).

Definition tx_job (c : dispatch_queue_post_data_t) : bool :=
  (fn c =? tx_a) || (((fn c =? starter_a) || (fn c =? finisher_a)) && negb (arg2 c =? 0)).

Lemma jobs_disjoint c : rx_job c = true -> tx_job c = false.
Proof.
  pose proof (four_distinct _ _ _ _ distinct) as Hd.
  unfold rx_job, tx_job. destruct (fn c =? rx_a) eqn:E1, (fn c =? starter_a) eqn:E2, (fn c =? finisher_a) eqn:E4,
    (fn c =? tx_a) eqn:E3, (arg2 c =? 0); bdestr; cbn; (done || lia).
Qed.

Definition body_of (j : option job_pc) : list dispatch_queue_post_data_t :=
  match j with Some (JBody c) => [c] | _ => [] end.

(** The call that the worker is making and those that wait. *)
Definition work (j : option job_pc) (d : D) : list dispatch_queue_post_data_t :=
  body_of j ++ dp_calls d.

(** Worker [a] has the calls [rj] of the receive channel, in order, if it is that
    channel's worker, the calls [tj] if it is the other's, and no others. *)
Record worker_has (k : Z) (a : Z) (j : option job_pc) (rj tj : list dispatch_queue_post_data_t)
    (d : D) : Prop := {
  wh_ok : dp_ok k d;
  wh_busy : dp_busy d = bool_decide (is_Some j);
  wh_rx : List.filter rx_job (work j d) = if a =? rxw then rj else [];
  wh_tx : List.filter tx_job (work j d) = if a =? txw then tj else [];
  wh_known : Forall (fun c => rx_job c || tx_job c = true) (work j d)
}.

Definition is_worker (a : Z) : Prop := a <> 0 /\ (a = rxw \/ a = txw).

Definition workers_have (k : Z) (ws : gmap Z D) (js : gmap Z job_pc)
    (rj tj : list dispatch_queue_post_data_t) : Prop :=
  (forall a, is_worker a -> exists d, ws !! a = Some d /\ worker_has k a (js !! a) rj tj d) /\
  forall a j, js !! a = Some j -> is_worker a.

Lemma workers_have_mono k k' ws js rj tj :
  k' <= k -> workers_have k ws js rj tj -> workers_have k' ws js rj tj.
Proof.
  intros Hk [H1 H2]. split; [|done]. intros a Ha. destruct (H1 a Ha) as (d & ? & [? ? ? ? ?]).
  exists d. split; [done|]. split; try done. by eapply dp_ok_mono.
Qed.

Lemma filter_snoc_job (p : dispatch_queue_post_data_t -> bool) l c :
  List.filter p (l ++ [c]) = List.filter p l ++ (if p c then [c] else []).
Proof. rewrite List.filter_app. cbn. by destruct (p c). Qed.

(** Posting a call of a channel to its worker. *)
Lemma workers_post k ws js rj tj a c rj' tj' :
  0 <= k -> workers_have (k + 1) ws js rj tj -> is_worker a -> fn c <> 0 ->
  rx_job c || tx_job c = true ->
  (rx_job c = true -> a = rxw /\ rj' = rj ++ [c] /\ tj' = tj) ->
  (tx_job c = true -> a = txw /\ tj' = tj ++ [c] /\ rj' = rj) ->
  exists d, ws !! a = Some d /\
    ((dp_room d = 0 /\ dp_async d c = Err AssertFailed) \/
     exists d', dp_async d c = Ok (d', true) /\ workers_have k (<[a := d']> ws) js rj' tj').
Proof.
  intros Hk [H1 H2] Ha Hf Hc Hrx Htx. destruct (H1 a Ha) as (d & Hd & [Hok Hb Hfr Hft Hall]).
  exists d. split; [done|]. pose proof (dp_room_nonneg _ _ Hok) as Hr.
  destruct (decide (dp_room d = 0)) as [Hz|Hz].
  { left. split; [done|]. by apply (dp_async_full k d c Hk Hok Hf). }
  right. destruct (dp_async_room k d c Hk Hok Hf ltac:(lia)) as (d' & Hs & Hok' & Hcl & _ & Hb').
  exists d'. split; [done|]. split; [|done]. intros b Hwb.
  destruct (decide (a = b)) as [<-|Hne].
  - exists d'. rewrite lookup_insert_eq. split; [done|]. unfold work in *.
    split; [done|congruence|..]; unfold work; rewrite ?Hcl, app_assoc, ?filter_snoc_job.
    + rewrite Hfr. destruct (rx_job c) eqn:E.
      * destruct (Hrx eq_refl) as (-> & -> & _). by rewrite Z.eqb_refl.
      * rewrite app_nil_r. destruct (tx_job c); [|done]. by destruct (Htx eq_refl) as (_ & _ & ->).
    + rewrite Hft. destruct (tx_job c) eqn:E.
      * destruct (Htx eq_refl) as (-> & -> & _). by rewrite Z.eqb_refl.
      * rewrite app_nil_r. destruct (rx_job c); [|done]. by destruct (Hrx eq_refl) as (_ & _ & ->).
    + apply Forall_app. split; [done|]. by repeat constructor.
  - destruct (H1 b Hwb) as (d2 & Hd2 & [Hok2 Hb2 Hfr2 Hft2 Hall2]). exists d2.
    rewrite lookup_insert_ne by done. split; [done|].
    split; [eapply dp_ok_mono, Hok2; lia|done| | |done].
    + rewrite Hfr2. destruct (b =? rxw) eqn:E; [|done]. bdestr. subst b.
      destruct (rx_job c); [by destruct (Hrx eq_refl)|]. by destruct (Htx Hc) as (_ & _ & ->).
    + rewrite Hft2. destruct (b =? txw) eqn:E; [|done]. bdestr. subst b.
      destruct (tx_job c); [by destruct (Htx eq_refl)|].
      rewrite orb_false_r in Hc. by destruct (Hrx Hc) as (_ & _ & ->).
Qed.

(** Replacing what one worker is at. *)
Lemma workers_update k k' ws js rj tj a d d' (j' : option job_pc) :
  workers_have k ws js rj tj -> k' <= k -> is_worker a -> ws !! a = Some d ->
  (worker_has k a (js !! a) rj tj d -> worker_has k' a j' rj tj d') ->
  workers_have k' (<[a := d']> ws) (partial_alter (fun _ => j') a js) rj tj.
Proof.
  intros [H1 H2] Hk Ha Hd Hh. split.
  - intros b Hb. destruct (decide (a = b)) as [<-|Hne].
    + exists d'. rewrite lookup_insert_eq, lookup_partial_alter_eq. split; [done|]. apply Hh.
      destruct (H1 a Ha) as (d2 & Hd2 & ?). congruence.
    + rewrite lookup_insert_ne, lookup_partial_alter_ne by done.
      destruct (H1 b Hb) as (d2 & Hd2 & [? ? ? ? ?]). exists d2. split; [done|].
      split; try done. by eapply dp_ok_mono.
  - intros b j Hj. destruct (decide (a = b)) as [<-|Hne]; [done|].
    rewrite lookup_partial_alter_ne in Hj by done. by eapply H2.
Qed.

(** A worker without a call takes the next one, or waits. *)
Lemma workers_take k ws js rj tj a :
  0 <= k -> workers_have (k + 1) ws js rj tj -> is_worker a -> js !! a = None ->
  exists d d' r, ws !! a = Some d /\ dp_take d = Ok (d', r) /\
    workers_have k (<[a := d']> ws)
      (partial_alter (fun _ => match r with Returns c => Some (JBody c) | Waits _ => None end) a js) rj tj.
Proof.
  intros Hk Hw Ha Hj. pose proof Hw as [H1 _].
  destruct (H1 a Ha) as (d & Hd & [Hok Hb Hfr Hft Hall]). rewrite Hj in Hb, Hfr, Hft, Hall. cbn in Hb.
  unfold work in *. cbn in *. destruct (dp_calls d) as [|c l] eqn:Hc.
  - destruct (dp_take_waits k d Hk Hok Hb Hc) as (d' & wc & Ht & Hok' & Hc' & _ & Hb').
    exists d, d', (Waits wc). split_and!; [done..|].
    eapply workers_update; [done|lia|done|done|]. intros _.
    split; unfold work; cbn; rewrite ?Hc'; done.
  - destruct (dp_take_call k d c l Hk Hok Hb Hc) as (d' & Ht & Hok' & Hc' & _ & Hb').
    exists d, d', (Returns c). split_and!; [done..|].
    eapply workers_update; [done|lia|done|done|]. intros _.
    split; unfold work; cbn; rewrite ?Hc'; done.
Qed.

(** A worker gives the block of its call back. *)
Lemma workers_finish k ws js rj tj a :
  0 <= k -> workers_have (k + 1) ws js rj tj -> is_worker a -> js !! a = Some JDone ->
  exists d d', ws !! a = Some d /\ dp_finish d = Ok d' /\
    workers_have k (<[a := d']> ws) (partial_alter (fun _ => None) a js) rj tj.
Proof.
  intros Hk Hw Ha Hj. pose proof Hw as [H1 _].
  destruct (H1 a Ha) as (d & Hd & [Hok Hb Hfr Hft Hall]). rewrite Hj in Hb, Hfr, Hft, Hall. cbn in Hb.
  destruct (dp_finish_call k d Hk Hok Hb) as (d' & Ht & Hok' & Hc' & _ & Hb').
  exists d, d'. split_and!; [done..|]. eapply workers_update; [done|lia|done|done|]. intros _.
  unfold work in *. split; unfold work; cbn; rewrite ?Hc'; done.
Qed.

(** Within a call, behind its function. *)
Lemma workers_pc k ws js rj tj a j j' :
  workers_have k ws js rj tj -> js !! a = Some j -> body_of (Some j) = [] -> body_of (Some j') = [] ->
  workers_have k ws (partial_alter (fun _ => Some j') a js) rj tj.
Proof.
  intros Hw Hj Hb Hb'. pose proof Hw as [H1 H2]. pose proof (H2 _ _ Hj) as Ha.
  destruct (H1 a Ha) as (d & Hd & _). rewrite <- (insert_id ws a d Hd).
  eapply workers_update; [done|lia|done|done|]. rewrite Hj. intros [? ? ? ? ?].
  unfold work in *. rewrite Hb in *. split; unfold work; rewrite ?Hb'; done.
Qed.

(** The call that a worker is making is the first one of its channel; it is over. *)
Lemma workers_body_rx k ws js rj tj a c j' :
  workers_have k ws js rj tj -> js !! a = Some (JBody c) -> rx_job c = true -> body_of (Some j') = [] ->
  a = rxw /\ exists rj', rj = c :: rj' /\
    workers_have k ws (partial_alter (fun _ => Some j') a js) rj' tj.
Proof.
  intros Hw Hj Hc Hb'. pose proof Hw as [H1 H2]. pose proof (H2 _ _ Hj) as Ha.
  destruct (H1 a Ha) as (d & Hd & [Hok Hb Hfr Hft Hall]). rewrite Hj in Hb, Hfr, Hft, Hall.
  unfold work in *. cbn in Hfr, Hft. rewrite Hc in Hfr. rewrite (jobs_disjoint c Hc) in Hft.
  destruct (a =? rxw) eqn:E; [|done]. bdestr. subst a. split; [done|].
  destruct rj as [|c0 rj']; [done|]. injection Hfr as <- Hfr. exists rj'. split; [done|].
  split.
  - intros b Hwb. destruct (decide (rxw = b)) as [<-|Hne].
    + exists d. rewrite lookup_partial_alter_eq. split; [done|]. apply Forall_cons in Hall as [_ Hall].
      split; unfold work; rewrite ?Hb'; cbn [app]; try done. by rewrite Z.eqb_refl.
    + rewrite lookup_partial_alter_ne by done. destruct (H1 b Hwb) as (d2 & Hd2 & [? ? Hf2 ? ?]).
      exists d2. split; [done|]. rewrite (proj2 (Z.eqb_neq b rxw)) in Hf2 by congruence.
      split; try done. by rewrite (proj2 (Z.eqb_neq b rxw)) by congruence.
  - intros b j Hjb. destruct (decide (rxw = b)) as [<-|Hne]; [done|].
    rewrite lookup_partial_alter_ne in Hjb by done. by eapply H2.
Qed.

Lemma workers_body_tx k ws js rj tj a c j' :
  workers_have k ws js rj tj -> js !! a = Some (JBody c) -> tx_job c = true -> body_of (Some j') = [] ->
  a = txw /\ exists tj', tj = c :: tj' /\
    workers_have k ws (partial_alter (fun _ => Some j') a js) rj tj'.
Proof.
  intros Hw Hj Hc Hb'. pose proof Hw as [H1 H2]. pose proof (H2 _ _ Hj) as Ha.
  assert (rx_job c = false) as Hnr.
  { destruct (rx_job c) eqn:E; [|done]. by rewrite (jobs_disjoint c E) in Hc. }
  destruct (H1 a Ha) as (d & Hd & [Hok Hb Hfr Hft Hall]). rewrite Hj in Hb, Hfr, Hft, Hall.
  unfold work in *. cbn in Hfr, Hft. rewrite Hc in Hft. rewrite Hnr in Hfr.
  destruct (a =? txw) eqn:E; [|done]. bdestr. subst a. split; [done|].
  destruct tj as [|c0 tj']; [done|]. injection Hft as <- Hft. exists tj'. split; [done|].
  split.
  - intros b Hwb. destruct (decide (txw = b)) as [<-|Hne].
    + exists d. rewrite lookup_partial_alter_eq. split; [done|]. apply Forall_cons in Hall as [_ Hall].
      split; unfold work; rewrite ?Hb'; cbn [app]; try done. by rewrite Z.eqb_refl.
    + rewrite lookup_partial_alter_ne by done. destruct (H1 b Hwb) as (d2 & Hd2 & [? ? ? Hf2 ?]).
      exists d2. split; [done|]. rewrite (proj2 (Z.eqb_neq b txw)) in Hf2 by congruence.
      split; try done. by rewrite (proj2 (Z.eqb_neq b txw)) by congruence.
  - intros b j Hjb. destruct (decide (txw = b)) as [<-|Hne]; [done|].
    rewrite lookup_partial_alter_ne in Hjb by done. by eapply H2.
Qed.
End jobs.
