(* ===== verification/AsyncioService.v ===== *)
(** What the asynchronous I/O service guarantees while nobody stops it: an invariant
    of the runs of AsyncioRun, over any implementation of the queues and of the
    dispatchers. *)
From S2P Require Import Prelude TsQueue Pool EventFlag DispatchQueue Dispatcher Asyncio AsyncioRun.
From stdpp Require Import list gmap.
From Stdlib Require Import ZArith Lia.
Local Open Scope Z_scope.

#[local] Arguments dp_async : simpl never.
#[local] Arguments dp_take : simpl never.
#[local] Arguments dp_finish : simpl never.
#[local] Arguments pool_free : simpl never.
#[local] Arguments pool_alloc : simpl never.

(** ** Lists and bits *)

Lemma filter_other (l : list Z) b : NoDup l -> b ∈ l -> l ≡ₚ b :: filter (fun x => x <> b) l.
Proof.
  intros Hnd Hb. apply NoDup_Permutation; [done| |].
  - constructor; [|by apply NoDup_filter]. rewrite list_elem_of_filter. tauto.
  - intros x. rewrite elem_of_cons, list_elem_of_filter. destruct (decide (x = b)) as [->|]; tauto.
Qed.

(** A flag among others. *)
Lemma land_bit v i : 0 <= i -> (Z.land v (Z.shiftl 1 i) =? 0) = negb (Z.testbit v i).
Proof.
  intros Hi. assert (forall j, 0 <= j -> Z.testbit (Z.shiftl 1 i) j = (i =? j)) as Hb.
  { intros j Hj. rewrite Z.shiftl_1_l. destruct (i =? j) eqn:E; bdestr; [subst; by apply Z.pow2_bits_true|].
    by apply Z.pow2_bits_false. }
  destruct (Z.testbit v i) eqn:E; cbn.
  - apply Z.eqb_neq. intros H. assert (Z.testbit (Z.land v (Z.shiftl 1 i)) i = true) as Ht
      by (rewrite Z.land_spec, E, Hb, Z.eqb_refl; done). by rewrite H, Z.bits_0 in Ht.
  - apply Z.eqb_eq, Z.bits_inj'. intros j Hj. rewrite Z.land_spec, Z.bits_0, Hb by done.
    destruct (i =? j) eqn:Ej; bdestr; [by subst; rewrite E|apply andb_false_r].
Qed.

(** ** The invariant *)

Section service.
Context {Q : Type} `{!BoundedQueue Q} `{!BoundedQueueLaws Q}.
Context {D : Type} `{!Dispatcher D} `{!DispatcherLaws D} {C : Type}.
Context (self starter_a finisher_a tx_a rx_a : Z) (qr qt : Q).
Context (read_f : Z -> Z -> Z -> C -> list Z * Z * C)
        (write_f : Z -> Z -> list Z -> Z -> C -> Z * C)
        (rx_callback_f : Z -> Z -> list Z -> Z -> C -> C)
        (tx_notification_f : Z -> Z -> asyncio_tx_send_status_e -> Z -> Z -> C -> C).
Context (gives_up : Z -> bool) (now : timespec).
(** The configuration of the instance: the workers, the parameters of the pools,
    the client's functions and the layout of the transmit blocks. *)
Context (rxw txw : Z) (rxp txp : pool_create_params_t) (cb rd wr off tmo chunk : Z) (err : bool) (c0 : C).

Record configured (i : asyncio_interface_instance_t Q) : Prop := {
  cf_rx_worker : rx_worker (rx_task i) = rxw;
  cf_rx_params : rx_pool_params (rx_task i) = rxp;
  cf_callback : rx_callback (rx_task i) = cb;
  cf_tx_worker : tx_worker (tx_task i) = txw;
  cf_tx_params : tx_pool_params (tx_task i) = txp;
  cf_offset : tx_buffer_offset (tx_task i) = off;
  cf_timeout : tx_write_timeout (tx_task i) = tmo;
  cf_chunk : max_tx_data_chunk_size (tx_task i) = chunk;
  cf_read : f_stream_interface_read i = rd;
  cf_write : f_stream_interface_write i = wr;
  cf_error : is_in_error i = err
}.

(** What the service is given: functions at different addresses, a channel or two,
    the functions and the pool of each, and buffers of the two channels at
    different addresses. *)
Record config_ok (n : Z) : Prop := {
  co_addresses : NoDup [starter_a; finisher_a; tx_a; rx_a];
  co_functions : (0 ∉ [starter_a; finisher_a; tx_a; rx_a]);
  co_channel : rxw <> 0 \/ txw <> 0;
  co_rx : rxw <> 0 -> cb <> 0 /\ rd <> 0 /\ create_ok n rxp qr;
  co_tx : txw <> 0 -> wr <> 0 /\ create_ok n txp qt;
  co_apart : forall b, b ∈ blocks txp -> b + off ∉ blocks rxp
}.

(** A session of the service is its start, until [asyncio_stop] takes it down. *)
Inductive phase : Set := Starting | Stopping.

(** The calls that a channel has: its start, then the one reception that posts
    itself again, or the transmissions, and at last its end; [reading]: whether a
    channel that goes down still has the reception. *)
Definition rx_jobs (reading : bool) (st : asyncio_init_state_e) : list dispatch_queue_post_data_t :=
  match st with
  | AsyncioInitializing => [job self starter_a 0]
  | AsyncioInitialized => [job self rx_a 0]
  | AsyncioUninitializing => (if reading then [job self rx_a 0] else []) ++ [job self finisher_a 0]
  | AsyncioUninitialized => []
  end.

Definition tx_calls_of (waiting : list sending) : list dispatch_queue_post_data_t :=
  (fun x => job self tx_a (sd_token x)) <$> waiting.

Definition tx_jobs (st : asyncio_init_state_e) (waiting : list sending) : list dispatch_queue_post_data_t :=
  match st with
  | AsyncioInitializing => [job self starter_a 1]
  | AsyncioInitialized => tx_calls_of waiting
  | AsyncioUninitializing => tx_calls_of waiting ++ [job self finisher_a 1]
  | AsyncioUninitialized => []
  end.

(** Every receive buffer is free; the transmit blocks in use are those that the
    clients hold and those that wait, and in a channel that goes down those that
    were released too late.  Once the pool is gone clients may still hold tokens. *)
Definition rx_inv (n : Z) (ctx : asyncio_rx_thread_context_t Q) : Prop :=
  match rx_init ctx with
  | AsyncioInitialized => exists s a, rx_state ctx = Some s /\ pool_inv n s a /\ live a = ∅ /\
      forall b, b ∈ free a -> b ∈ blocks rxp
  | _ => True
  end.

Definition tx_pool_inv (n : Z) (ctx : asyncio_tx_thread_context_t Q) (tokens : list Z) : Prop :=
  exists s a, tx_state ctx = Some s /\ pool_inv n s a /\ owns a tokens /\
    forall b, b ∈ free a \/ is_Some (live a !! b) -> b ∈ blocks txp.

Definition tx_inv (ph : phase) (n : Z) (ctx : asyncio_tx_thread_context_t Q) (held : list Z)
    (waiting : list sending) : Prop :=
  match tx_init ctx with
  | AsyncioInitialized => tx_pool_inv n ctx (held ++ (sd_token <$> waiting))
  | AsyncioUninitializing => exists lost, tx_pool_inv n ctx (held ++ (sd_token <$> waiting) ++ lost)
  | AsyncioInitializing => held = [] /\ waiting = []
  | AsyncioUninitialized => waiting = [] /\ match ph with Starting => held = [] | Stopping => 0 ∉ held end
  end.

(** The requests of the tokens, and the data of those that wait. *)
Definition data_inv (rqs : gmap Z asyncio_tx_request_t) (bufs : gmap Z (list Z)) (held : list Z)
    (waiting : list sending) : Prop :=
  (forall b, b ∈ held -> exists r, rqs !! b = Some r /\ buffer_offset r = off) /\
  (forall x, x ∈ waiting -> rqs !! sd_token x = Some (sd_request x) /\ buffer_offset (sd_request x) = off /\
     default [] (bufs !! (sd_token x + off)) = sd_data x).

(** What the workers' calls do to the client's world. *)
Definition transmit (x : sending) (u : C) : C :=
  let r := sd_request x in
  let '(u, status, n) :=
    if err then (u, StreamTxInterfaceInError, 0)
    else let '(n, u) := write_f wr (rq_size r) (sd_data x) tmo u in
         (u, if n =? rq_size r then StreamTxSendSuccess else StreamTxSendMessageFail, n) in
  if nonnull (rq_fn r) then tx_notification_f (rq_fn r) (sd_token x) status (u32 n) (rq_private r) u else u.

Definition receive (buf : Z) (u : C) : C :=
  let '(bytes, n, u) := read_f rd buf 1000 u in
  if nonnull n then rx_callback_f cb buf bytes n u else u.

Definition done_effect (u : C) (h : aio_done) : C :=
  match h with
  | DWritten x => transmit x u
  | DDropped _ => u
  | DReceived buf => receive buf u
  end.

(** The transmissions of a history. *)
Definition transmitted (h : list aio_done) : list sending :=
  omap (fun d => match d with DWritten x | DDropped x => Some x | DReceived _ => None end) h.

(** ** How a start goes *)

(** A channel that is not configured, or has been started. *)
Definition is_started (worker : Z) (st : asyncio_init_state_e) : Prop :=
  worker = 0 \/ st = AsyncioInitialized.

(** A worker that is about to complete the start. *)
Definition triggering (j : job_pc) : Prop :=
  match j with JStartRx | JStartTx | JStartStore | JStartSend => True | _ => False end.

Definition pc_ok (st ri ti : asyncio_init_state_e) (j : job_pc) : Prop :=
  match j with
  | JBody _ | JStartRx | JDone => True
  | JStartTx => is_started rxw ri
  | JStartStore => is_started rxw ri /\ is_started txw ti
  | JStartSend => is_started rxw ri /\ is_started txw ti /\ st = AsyncioInitialized
  | _ => False
  end.

(** The results that are true. *)
Definition wins (results : list (nat * bool)) : list nat :=
  omap (fun r => if (r.2 : bool) then Some r.1 else None) results.

(** How far the call that won has come: not there, in one of its five steps, over. *)
Inductive stage : Set := GNone | GClear | GRx | GTx | GOpen | GWait | GOver.

Definition stage_pc (g : stage) : option caller :=
  match g with
  | GNone | GOver => None
  | GClear => Some CStartClear | GRx => Some CStartRx | GTx => Some CStartTx
  | GOpen => Some CStartOpen | GWait => Some CStartWait
  end.

Definition rx_begun (g : stage) : bool :=
  match g with GNone | GClear | GRx => false | _ => true end.

Definition tx_begun (g : stage) : bool :=
  match g with GNone | GClear | GRx | GTx => false | _ => true end.

Definition opened (g : stage) : bool := match g with GWait | GOver => true | _ => false end.

Record proto (g : stage) (st ri ti : asyncio_init_state_e) (v : Z) (stopped : bool)
    (callers : gmap nat caller) (results : list (nat * bool)) (jobs : gmap Z job_pc) : Prop := {
  pr_callers : match stage_pc g with Some c => exists t, callers = {[t := c]} | None => callers = ∅ end;
  pr_wins : length (wins results) = match g with GOver => 1 | _ => 0 end%nat;
  pr_none : st = AsyncioUninitialized <-> g = GNone;
  pr_states : st <> AsyncioUninitializing /\ ri <> AsyncioUninitializing /\ ti <> AsyncioUninitializing;
  pr_rx : ri = AsyncioUninitialized <-> rx_begun g = false \/ rxw = 0;
  pr_tx : ti = AsyncioUninitialized <-> tx_begun g = false \/ txw = 0;
  pr_opened : stopped = negb (opened g);
  pr_flag : match g with GNone | GClear => True | _ => Z.testbit v 0 = true -> st = AsyncioInitialized end;
  pr_init : st = AsyncioInitialized -> is_started rxw ri /\ is_started txw ti;
  pr_over : g = GOver -> st = AsyncioInitialized;
  pr_pcs : forall a j, jobs !! a = Some j -> pc_ok st ri ti j;
  pr_trigger : is_started rxw ri -> is_started txw ti ->
    Z.testbit v 0 = true \/ exists a j, jobs !! a = Some j /\ triggering j
}.

(** ** How a stop goes *)

(** How far the call that takes the service down has come. *)
Inductive halt_stage : Set := HClear | HRx | HTx | HWait | HOver.

Definition halt_pc (h : halt_stage) : option caller :=
  match h with
  | HClear => Some CStopClear | HRx => Some CStopRx | HTx => Some CStopTx | HWait => Some CStopWait
  | HOver => None
  end.

Definition rx_told (h : halt_stage) : bool := match h with HClear | HRx => false | _ => true end.

Definition tx_told (h : halt_stage) : bool := match h with HClear | HRx | HTx => false | _ => true end.

(** A channel that is not configured is down; the others are up until they are told
    to go down. *)
Definition channel_ok (told : bool) (worker : Z) (st : asyncio_init_state_e) : Prop :=
  if worker =? 0 then st = AsyncioUninitialized
  else if told then st = AsyncioUninitializing \/ st = AsyncioUninitialized
  else st = AsyncioInitialized.

Definition both_down (ri ti : asyncio_init_state_e) : Prop :=
  ri = AsyncioUninitialized /\ ti = AsyncioUninitialized.

(** A worker that is about to complete the stop. *)
Definition completing (j : job_pc) : Prop :=
  match j with JStopRx | JStopTx | JStopStore | JStopSend => True | _ => False end.

(** A worker may still be completing the start; then its channels are not down. *)
Definition halt_pc_ok (st ri ti : asyncio_init_state_e) (a : Z) (j : job_pc) : Prop :=
  match j with
  | JBody _ | JDone | JStopRx => True
  | JStartRx | JStartTx | JStartStore | JStartSend =>
      (a = rxw -> ri <> AsyncioUninitialized) /\ (a = txw -> ti <> AsyncioUninitialized)
  | JStopTx => ri = AsyncioUninitialized
  | JStopStore => both_down ri ti
  | JStopSend => both_down ri ti /\ st = AsyncioUninitialized
  end.

Record halt (h : halt_stage) (st ri ti : asyncio_init_state_e) (v : Z) (stopped : bool)
    (callers : gmap nat caller) (results : list (nat * bool)) (jobs : gmap Z job_pc) : Prop := {
  hl_callers : match halt_pc h with Some c => exists t, callers = {[t := c]} | None => callers = ∅ end;
  hl_wins : wins results <> [];
  hl_rx : channel_ok (rx_told h) rxw ri;
  hl_tx : channel_ok (tx_told h) txw ti;
  hl_stopped : stopped = match h with HClear => false | _ => true end;
  hl_down : st = AsyncioUninitialized -> both_down ri ti;
  hl_flag : Z.testbit v 1 = true -> h = HClear \/ st = AsyncioUninitialized;
  hl_over : h = HOver -> st = AsyncioUninitialized;
  hl_pcs : forall a j, jobs !! a = Some j -> halt_pc_ok st ri ti a j;
  hl_complete : both_down ri ti ->
    Z.testbit v 1 = true \/ exists a j, jobs !! a = Some j /\ completing j
}.

Definition phase_ok (ph : phase) (st ri ti : asyncio_init_state_e) (v : Z) (stopped : bool)
    (callers : gmap nat caller) (results : list (nat * bool)) (jobs : gmap Z job_pc) : Prop :=
  match ph with
  | Starting => exists g, proto g st ri ti v stopped callers results jobs
  | Stopping => exists h, halt h st ri ti v stopped callers results jobs
  end.

Record aio_inv (ph : phase) (k : Z) (w : aio_world Q D C) : Prop := {
  ai_configured : configured (inst (ai w));
  ai_work : exists reading, workers_have starter_a finisher_a tx_a rx_a rxw txw k (workers (ai w)) (jobs w)
              (rx_jobs reading (rx_init (rx_task (inst (ai w)))))
              (tx_jobs (tx_init (tx_task (inst (ai w)))) (waiting w));
  ai_rx : rx_inv (2 * k) (rx_task (inst (ai w)));
  ai_tx : tx_inv ph (2 * k) (tx_task (inst (ai w))) (held w) (waiting w);
  ai_data : data_inv (requests (ai w)) (buffers (ai w)) (held w) (waiting w);
  ai_user : user (ai w) = foldl done_effect c0 (hist w);
  ai_sent : sent w = transmitted (hist w) ++ waiting w;
  ai_proto : phase_ok ph (init_state (inst (ai w))) (rx_init (rx_task (inst (ai w))))
    (tx_init (tx_task (inst (ai w)))) (val (stream_flag (inst (ai w)))) (stream_stopped (inst (ai w)))
    (callers w) (results w) (jobs w)
}.

(** ** Lemmas *)

Lemma create_ok_mono n m params (qu : Q) : m <= n -> create_ok n params qu -> create_ok m params qu.
Proof. intros Hm [? ? ? ? Hq ? ?]. split; try done. eapply bq_ok_mono, Hq. lia. Qed.

Lemma rx_inv_mono n m ctx : m <= n -> rx_inv n ctx -> rx_inv m ctx.
Proof.
  intros Hm. unfold rx_inv. destruct (rx_init ctx); try done. intros (s & a & ? & ? & ? & ?).
  exists s, a. split_and!; try done. by eapply pool_inv_mono.
Qed.

Lemma tx_pool_inv_mono n m ctx l : m <= n -> tx_pool_inv n ctx l -> tx_pool_inv m ctx l.
Proof. intros Hm (s & a & ? & ? & ? & ?). exists s, a. split_and!; try done. by eapply pool_inv_mono. Qed.

Lemma tx_inv_mono ph n m ctx l x : m <= n -> tx_inv ph n ctx l x -> tx_inv ph m ctx l x.
Proof.
  intros Hm. unfold tx_inv. destruct (tx_init ctx); try done; [intros (lost & H); exists lost; revert H|];
    by apply tx_pool_inv_mono.
Qed.

Lemma tx_inv_up ph n ctx l x : tx_init ctx = AsyncioInitialized ->
  tx_inv ph n ctx l x <-> tx_pool_inv n ctx (l ++ (sd_token <$> x)).
Proof. intros Hti. unfold tx_inv. by rewrite Hti. Qed.

Lemma tx_pool_inv_perm n ctx l l' : l ≡ₚ l' -> tx_pool_inv n ctx l -> tx_pool_inv n ctx l'.
Proof. intros Hp (s & a & ? & ? & Ho & ?). exists s, a. split_and!; try done. by eapply owns_perm. Qed.

(** A token of the pool: what it is, and where it is. *)
Lemma pool_token n ctx l b : tx_pool_inv n ctx l -> b ∈ l -> b <> 0 /\ b ∈ blocks txp /\ NoDup l.
Proof using BoundedQueueLaws0.
  intros (s & a & Hs & Hi & Ho & Hbl) Hb. pose proof Ho as (Hnd & Hl & _).
  pose proof (proj2 (Hl b) Hb) as Hlv. split_and!; [|by apply Hbl; right|done].
  destruct Hlv as [c Hc]. by destruct (pi_live _ _ _ Hi _ _ Hc) as (_ & ? & _).
Qed.

(** A token that waits is a block of the pool, and no client holds it any more. *)
Lemma waiting_token ph n ctx l x b :
  tx_inv ph n ctx l x -> b ∈ sd_token <$> x ->
  (tx_init ctx = AsyncioInitialized \/ tx_init ctx = AsyncioUninitializing) /\ b <> 0 /\ b ∈ blocks txp /\
  (b ∉ l) /\ exists lost, (tx_init ctx = AsyncioInitialized -> lost = []) /\
    tx_pool_inv n ctx (l ++ (sd_token <$> x) ++ lost).
Proof using BoundedQueueLaws0.
  unfold tx_inv. intros H Hb. assert (forall lost, tx_pool_inv n ctx (l ++ (sd_token <$> x) ++ lost) ->
    b <> 0 /\ b ∈ blocks txp /\ b ∉ l) as Hf.
  { intros lost Hp. destruct (pool_token _ _ _ b Hp) as (? & ? & Hnd);
      [rewrite !elem_of_app; by right; left|]. split_and!; [done..|].
    apply NoDup_app in Hnd as (_ & Hnd & _). intros Hl. apply (Hnd _ Hl). apply elem_of_app. by left. }
  destruct (tx_init ctx) eqn:E; try (destruct H as [H1 H2]; subst; by apply elem_of_nil in Hb).
  - destruct H as [lost H]. destruct (Hf lost H) as (? & ? & ?). split_and!; try done; [by right|by exists lost].
  - destruct (Hf []) as (? & ? & ?); [by rewrite app_nil_r|]. split_and!; try done; [by left|].
    exists []. by rewrite app_nil_r.
Qed.

Lemma held_token ph n ctx l x b : tx_inv ph n ctx l x -> b ∈ l -> b <> 0 /\ b ∉ sd_token <$> x.
Proof using BoundedQueueLaws0.
  intros H Hb. split.
  - unfold tx_inv in H. destruct (tx_init ctx).
    + destruct H as [_ H]. destruct ph; [subst; by apply elem_of_nil in Hb|]. by intros ->.
    + destruct H as [lost H]. apply (pool_token _ _ _ b H), elem_of_app. by left.
    + destruct H as [-> _]. by apply elem_of_nil in Hb.
    + apply (pool_token _ _ _ b H), elem_of_app. by left.
  - intros Hx. by apply (waiting_token _ _ _ _ _ b H Hx).
Qed.

(** Posting to a worker of the service. *)
Definition full_worker (w : aio_world Q D C) : Prop :=
  exists a d, workers (ai w) !! a = Some d /\ dp_room d = 0.

Lemma dispatch_ok k (s : aio Q D C) js rj tj a c rj' tj' :
  0 <= k -> workers_have starter_a finisher_a tx_a rx_a rxw txw (k + 1) (workers s) js rj tj ->
  a <> 0 -> fn c <> 0 -> (a = rxw /\ rx_job starter_a finisher_a rx_a c = true /\ rj' = rj ++ [c] /\ tj' = tj) \/
    (a = txw /\ rx_job starter_a finisher_a rx_a c = false /\ tx_job starter_a finisher_a tx_a c = true /\ tj' = tj ++ [c] /\ rj' = rj) ->
  NoDup [starter_a; finisher_a; tx_a; rx_a] ->
  (dispatch s a c = Err AssertFailed /\ exists d, workers s !! a = Some d /\ dp_room d = 0) \/
  exists ws, dispatch s a c = Ok (with_workers s ws, true) /\
    workers_have starter_a finisher_a tx_a rx_a rxw txw k ws js rj' tj'.
Proof using DispatcherLaws0.
  intros Hk Hw Ha Hf Hc Hnd. unfold dispatch. rewrite (proj2 (Z.eqb_neq a 0)) by done.
  destruct (workers_post starter_a finisher_a tx_a rx_a rxw txw k (workers s) js rj tj a c rj' tj' Hk Hw) as (d & -> & H).
  - split; [done|]. destruct Hc as [[-> _]|[-> _]]; [by left|by right].
  - done.
  - destruct Hc as [(_ & -> & _)|(_ & _ & -> & _)]; [done|apply orb_true_r].
  - intros Hr. destruct Hc as [(? & _ & ? & ?)|(_ & Hr' & _)]; [done|congruence].
  - intros Ht. destruct Hc as [(_ & Hr & _)|(? & _ & _ & ? & ?)]; [|done].
    by rewrite (jobs_disjoint starter_a finisher_a tx_a rx_a Hnd c Hr) in Ht.
  - destruct H as [[Hr Hs]|(d' & Hs & Hh)].
    + left. rewrite Hs. split; [done|by exists d].
    + right. rewrite Hs. cbn. by eexists.
Qed.

(** A receive channel whose worker posts to itself. *)
Definition posting (st : asyncio_init_state_e) : Prop :=
  match st with AsyncioInitializing | AsyncioInitialized => True | _ => False end.

(** What a step may lead to. *)
Definition stops (w : aio_world Q D C) (ev : aio_event) : Prop :=
  match ev with
  | XTimeout t => callers w !! t = Some CStartWait \/ callers w !! t = Some CStopWait
  | XCaller _ | XSend _ _ _ _ => full_worker w
  | XWork _ => full_worker w /\ posting (rx_init (rx_task (inst (ai w))))
  | _ => False
  end.

Definition step_result (ph : phase) (k : Z) (w : aio_world Q D C) (ev : aio_event)
    (r : result (aio_world Q D C)) : Prop :=
  match r with Ok w' => aio_inv ph k w' | Err f => f = AssertFailed /\ stops w ev end.

Lemma aio_inv_mono ph k k' w : k' <= k -> aio_inv ph k w -> aio_inv ph k' w.
Proof.
  intros Hk [? [b Hw] ? ? ? ? ? ?]. split; try done.
  - exists b. by eapply workers_have_mono.
  - eapply rx_inv_mono; [|done]. lia.
  - eapply tx_inv_mono; [|done]. lia.
Qed.

(** A channel that is not down is configured. *)
Lemma phase_rx ph st ri ti v stopped cs rs js :
  phase_ok ph st ri ti v stopped cs rs js -> ri <> AsyncioUninitialized -> rxw <> 0.
Proof.
  destruct ph; intros [g H] Hri; [intros ->; apply Hri, (pr_rx _ _ _ _ _ _ _ _ _ H); by right|].
  pose proof (hl_rx _ _ _ _ _ _ _ _ _ H) as Hc. unfold channel_ok in Hc. by destruct (rxw =? 0) eqn:E; bdestr.
Qed.

Lemma phase_tx ph st ri ti v stopped cs rs js :
  phase_ok ph st ri ti v stopped cs rs js -> ti <> AsyncioUninitialized -> txw <> 0.
Proof.
  destruct ph; intros [g H] Hti; [intros ->; apply Hti, (pr_tx _ _ _ _ _ _ _ _ _ H); by right|].
  pose proof (hl_tx _ _ _ _ _ _ _ _ _ H) as Hc. unfold channel_ok in Hc. by destruct (txw =? 0) eqn:E; bdestr.
Qed.

(** A worker that neither completes a start nor a stop. *)
Definition plain (j : option job_pc) : Prop :=
  match j with None | Some (JBody _) | Some JDone => True | _ => False end.

Lemma phase_job ph st ri ti v stopped cs rs js a (j : option job_pc) :
  phase_ok ph st ri ti v stopped cs rs js -> plain (js !! a) -> plain j ->
  phase_ok ph st ri ti v stopped cs rs (partial_alter (fun _ => j) a js).
Proof.
  intros Hph H0 Hj. assert (forall (P : Z -> job_pc -> Prop), (forall b j', js !! b = Some j' -> P b j') ->
    (forall j', j = Some j' -> P a j') -> forall b j', partial_alter (fun _ => j) a js !! b = Some j' -> P b j') as Hall.
  { intros P HP Hja b j' Hb. destruct (decide (a = b)) as [<-|Hne].
    - rewrite lookup_partial_alter_eq in Hb. by apply Hja.
    - rewrite lookup_partial_alter_ne in Hb by done. by apply HP. }
  assert (forall P : job_pc -> Prop, (forall j, plain (Some j) -> ~ P j) -> (exists b j', js !! b = Some j' /\ P j') ->
    exists b j', partial_alter (fun _ => j) a js !! b = Some j' /\ P j') as Hex.
  { intros P HP (b & j' & Hb & Hj'). exists b, j'. rewrite lookup_partial_alter_ne; [done|]. intros <-.
    rewrite Hb in H0. by eapply HP. }
  destruct ph; destruct Hph as [g Hp]; exists g.
  - destruct Hp as [? ? ? ? ? ? ? ? ? ? Hpc Htr]. split; try done.
    + apply (Hall (fun _ => pc_ok st ri ti)); [done|]. intros j' Hj'. rewrite Hj' in Hj. by destruct j'.
    + intros Hr Ht. destruct (Htr Hr Ht) as [?|He]; [by left|right]. apply Hex; [|done]. by intros [] [] [].
  - destruct Hp as [? ? ? ? ? ? ? ? Hpc Hc]. split; try done.
    + apply (Hall (halt_pc_ok st ri ti)); [done|]. intros j' Hj'. rewrite Hj' in Hj. by destruct j'.
    + intros Hd. destruct (Hc Hd) as [?|He]; [by left|right]. apply Hex; [|done]. by intros [] [] [].
Qed.

Abbreviation step := (aio_step self starter_a finisher_a tx_a rx_a (Some qr) (Some qt) read_f write_f
  rx_callback_f tx_notification_f gives_up now).
Abbreviation run := (aio_run self starter_a finisher_a tx_a rx_a (Some qr) (Some qt) read_f write_f
  rx_callback_f tx_notification_f gives_up now).

(** ** The clients' steps *)

Lemma configured_tx i ctx :
  configured i -> tx_worker ctx = txw -> tx_pool_params ctx = txp -> tx_buffer_offset ctx = off ->
  tx_write_timeout ctx = tmo -> max_tx_data_chunk_size ctx = chunk -> configured (set_tx i ctx).
Proof. by intros [? ? ? ? ? ? ? ? ? ? ?]. Qed.

Lemma allocate_step_ok ph k w :
  0 <= k -> aio_inv ph (k + 1) w -> step_result ph k w XAllocate (step w XAllocate).
Proof.
  intros Hk Hi. pose proof (aio_inv_mono ph (k + 1) k w ltac:(lia) Hi) as Hm. unfold step_result.
  cbn [aio_step]. unfold asyncio_allocate_tx_token.
  destruct (is_initialized (tx_init (tx_task (inst (ai w))))) eqn:E; [|by destruct w].
  destruct Hi as [Hcf _ _ Htx _ _ _ _]. destruct Hm as [_ Hwk Hrx _ Hda Hus Hse Hpr].
  assert (tx_init (tx_task (inst (ai w))) = AsyncioInitialized) as Hti by (by destruct (tx_init _)).
  apply tx_inv_up in Htx; [|done]. destruct Htx as (st & a & Hst & Hpi & Ho & Hbl). rewrite Hst.
  replace (2 * (k + 1)) with (2 * k + 1 + 1) in Hpi by lia.
  assert (forall s', configured (set_tx (inst (ai w)) (set_tx_state (tx_task (inst (ai w))) s'))) as Hcf'
    by (intros s'; destruct Hcf; by constructor).
  destruct (free a) as [|b l] eqn:Hfree.
  - destruct (pool_alloc_none (2 * k + 1) st a ltac:(lia) Hpi Hfree) as ([p' m'] & -> & Hpi').
    cbn. split; cbn; try done.
    apply tx_inv_up; [done|]. exists (p', m'), a. split_and!; rewrite ?Hfree; try done.
    eapply pool_inv_mono; [|done]. lia.
  - destruct (pool_alloc_ok (2 * k + 1) st a b l ltac:(lia) Hpi Hfree) as ([p' m'] & -> & Hpi').
    assert (b ∈ free a) as Hb by (rewrite Hfree; left).
    pose proof (pi_disjoint _ _ _ Hpi _ Hb) as Hlb.
    pose proof (proj1 (pi_free _ _ _ Hpi _ Hb)) as Hb0.
    cbn [mbind result_bind fst snd]. unfold nonnull. rewrite (proj2 (Z.eqb_neq b 0)) by done.
    cbn. rewrite (proj2 (Z.eqb_neq b 0)) by done. cbn. pose proof Ho as (Hnd & Hl & _).
    assert (b ∉ held w ++ (sd_token <$> waiting w)) as Hnew
      by (rewrite <- Hl, Hlb; by intros []).
    split; cbn; try done.
    + apply tx_inv_up; [done|]. exists (p', m'), (fst (apool_step a (PAlloc 0 0))). split_and!; [done| | |].
      * eapply pool_inv_mono; [|done]. lia.
      * by apply owns_alloc with (fl := l).
      * intros x. cbn. rewrite Hfree. cbn. intros [Hx|Hx]; [apply Hbl; left; by right|].
        destruct (decide (b = x)) as [<-|Hne]; [apply Hbl; left; by left|].
        rewrite lookup_insert_ne in Hx by done. apply Hbl. by right.
    + destruct Hda as [Hd1 Hd2]. rewrite elem_of_app in Hnew. split.
      * intros x [->|Hx]%elem_of_cons; [rewrite lookup_insert_eq; eexists; split; [done|]; apply Hcf|].
        rewrite lookup_insert_ne; [by apply Hd1|]. intros <-. tauto.
      * intros x Hx. rewrite lookup_insert_ne; [by apply Hd2|]. intros ->.
        apply Hnew. right. by apply list_elem_of_fmap_2.
Qed.

Lemma fill_step_ok ph k w token bytes :
  0 <= k -> aio_inv ph (k + 1) w -> token ∈ held w ->
  step_result ph k w (XFill token bytes) (step w (XFill token bytes)).
Proof.
  intros Hk Hi Ht. apply (aio_inv_mono ph (k + 1) k w ltac:(lia)) in Hi.
  destruct Hi as [Hcf Hwk Hrx Htx Hda Hus Hse Hpr].
  unfold step_result. cbn [aio_step]. destruct (held_token _ _ _ _ _ token Htx Ht) as [Ht0 Hnw].
  unfold asyncio_tx_token_get_data_buffer, asyncio_tx_request_get_buffer, read_request, nonnull.
  rewrite (proj2 (Z.eqb_neq token 0)) by done. destruct Hda as [Hd1 Hd2].
  destruct (Hd1 token Ht) as (r & Hr & Hoff). rewrite Hr. cbn. split; cbn; try done.
  split; [done|]. intros x Hx. destruct (Hd2 x Hx) as (? & ? & ?). split_and!; [done..|].
  rewrite lookup_insert_ne; [done|]. rewrite Hoff. intros Heq.
  apply Hnw. assert (token = sd_token x) as -> by lia. by apply list_elem_of_fmap_2.
Qed.

(** A block that is given back is free. *)
Lemma tx_pool_free n ctx token l :
  0 <= n -> tx_pool_inv (n + 1) ctx (token :: l) ->
  exists s' calls, pool_free (tx_state ctx) token = Ok (Some s', calls) /\ tx_pool_inv n (set_tx_state ctx (Some s')) l.
Proof.
  intros Hn (st & a & -> & Hpi & Ho & Hbl). pose proof Ho as (_ & Hl & H1).
  destruct (proj2 (Hl token) ltac:(left)) as [c Hc]. rewrite (H1 _ _ Hc) in Hc.
  destruct (pool_free_ok n st a token Hn Hpi) as ([p' m'] & calls & -> & Hpi'); [by eexists|].
  exists (p', m'), calls. split; [done|]. exists (p', m'), (fst (apool_step a (PFree token))). split_and!; [done|done| |].
  - by apply owns_free.
  - intros x. cbn. rewrite Hc. cbn.
    intros [[Hx| ->%list_elem_of_singleton]%elem_of_app|Hx]; [apply Hbl; by left|apply Hbl; right; by eexists|].
    apply Hbl. right. destruct Hx as [c' Hx]. apply lookup_delete_Some in Hx as [_ Hx]. by eexists.
Qed.

(** A token that is released too late is lost with its pool. *)
Lemma release_late ph n ctx l x b : tx_init ctx <> AsyncioInitialized -> b ∈ l ->
  tx_inv ph n ctx l x -> tx_inv ph n ctx (filter (fun y => y <> b) l) x.
Proof.
  intros Hti Hb. unfold tx_inv. destruct (tx_init ctx); try done.
  - destruct ph; intros [-> H]; split; try done; [by subst|]. intros Hf%list_elem_of_filter. tauto.
  - intros [lost H]. exists (lost ++ [b]). eapply tx_pool_inv_perm, H.
    assert (NoDup l) as Hnd.
    { assert (b ∈ l ++ (sd_token <$> x) ++ lost) as Hin by set_solver.
      destruct (pool_token _ _ _ b H Hin) as (_ & _ & Hnd). by apply NoDup_app in Hnd as [? _]. }
    rewrite (filter_other l b Hnd Hb) at 1. cbn. rewrite !app_assoc. apply Permutation_cons_append.
  - intros [-> _]. by apply elem_of_nil in Hb.
Qed.

Lemma token_release_ok ph k w token :
  0 <= k -> aio_inv ph (k + 1) w -> token ∈ held w ->
  step_result ph k w (XRelease token) (step w (XRelease token)).
Proof.
  intros Hk Hi Ht. pose proof (ai_configured _ _ _ Hi) as Hcf. pose proof (ai_tx _ _ _ Hi) as Htx.
  apply (aio_inv_mono ph (k + 1) k w ltac:(lia)) in Hi. destruct Hi as [_ Hwk Hrx Htx' [Hd1 Hd2] Hus Hse Hpr].
  assert (data_inv (requests (ai w)) (buffers (ai w)) (filter (fun x => x <> token) (held w)) (waiting w)) as Hda.
  { split; [|done]. intros x [_ Hx]%list_elem_of_filter. by apply Hd1. }
  unfold step_result. cbn [aio_step]. unfold asyncio_release_tx_token, nonnull.
  rewrite (proj2 (Z.eqb_neq token 0)) by apply (held_token _ _ _ _ _ token Htx Ht). cbn [negb andb].
  destruct (is_initialized (tx_init (tx_task (inst (ai w))))) eqn:E.
  - assert (tx_init (tx_task (inst (ai w))) = AsyncioInitialized) as Hti by (by destruct (tx_init _)).
    apply tx_inv_up in Htx; [|done].
    assert (NoDup (held w)) as Hnd.
    { destruct (pool_token _ _ _ token Htx) as (_ & _ & Hnd); [set_solver|]. by apply NoDup_app in Hnd as [? _]. }
    eapply tx_pool_inv_perm in Htx; [|by rewrite (filter_other (held w) token Hnd Ht)]. cbn in Htx.
    replace (2 * (k + 1)) with (2 * k + 1 + 1) in Htx by lia.
    destruct (tx_pool_free (2 * k + 1) _ _ _ ltac:(lia) Htx) as (s' & calls & -> & Htx2). cbn.
    split; cbn; try done; [by destruct Hcf|].
    apply tx_inv_up; [done|]. eapply tx_pool_inv_mono; [|exact Htx2]. lia.
  - cbn. split; cbn; try done. apply release_late; [by destruct (tx_init _)|done|done].
Qed.

(** What the configuration gives. *)
Lemma config_distinct n : config_ok n ->
  starter_a <> finisher_a /\ starter_a <> tx_a /\ starter_a <> rx_a /\ finisher_a <> tx_a /\
  finisher_a <> rx_a /\ tx_a <> rx_a /\ starter_a <> 0 /\ finisher_a <> 0 /\ tx_a <> 0 /\ rx_a <> 0.
Proof using Type.
  intros [Hnd H0 _ _ _ _]. destruct (four_distinct _ _ _ _ Hnd) as (? & ? & ? & ? & ? & ?).
  destruct (four_nonzero _ _ _ _ H0) as (? & ? & ? & ?). by split_and!.
Qed.

(** The channels of the calls. *)
Lemma job_channels n : config_ok n ->
  (forall x, rx_job starter_a finisher_a rx_a (job self tx_a x) = false /\
     tx_job starter_a finisher_a tx_a (job self tx_a x) = true) /\
  rx_job starter_a finisher_a rx_a (job self rx_a 0) = true /\
  (forall f, f = starter_a \/ f = finisher_a ->
     rx_job starter_a finisher_a rx_a (job self f 0) = true /\
     rx_job starter_a finisher_a rx_a (job self f 1) = false /\
     tx_job starter_a finisher_a tx_a (job self f 1) = true).
Proof using Type.
  intros Hco. destruct (config_distinct n Hco) as (? & ? & ? & ? & ? & ? & _). unfold rx_job, tx_job.
  split_and!; [intros x; split| |intros f [->| ->]; split_and!]; cbn;
    repeat match goal with |- context [?x =? ?y] => destruct (Z.eqb_spec x y) end; done || congruence.
Qed.

Lemma send_step_ok ph n k w token size f private :
  0 <= k -> config_ok n -> aio_inv ph (k + 1) w -> token ∈ held w ->
  step_result ph k w (XSend token size f private) (step w (XSend token size f private)).
Proof.
  intros Hk Hco Hi Ht. destruct (ai_work _ _ _ Hi) as [reading Hwk1].
  pose proof (aio_inv_mono ph (k + 1) k w ltac:(lia) Hi) as Hm. pose proof Hm as [Hcf _ Hrx Htx Hda Hus Hse Hpr].
  destruct (held_token _ _ _ _ _ token Htx Ht) as [Ht0 Hnw].
  destruct (config_distinct n Hco) as (_ & _ & _ & _ & _ & _ & _ & _ & Hf0 & _).
  unfold step_result. cbn [aio_step]. unfold asyncio_send_buffer.
  destruct (negb _ && is_initialized _ && _ && _ && _) eqn:Hguard; [|by destruct w; apply Hm].
  assert (tx_init (tx_task (inst (ai w))) = AsyncioInitialized) as Hti.
  { rewrite !andb_true_iff in Hguard. destruct Hguard as ((((_ & E) & _) & _) & _). by destruct (tx_init _). }
  pose proof Hda as [Hd1 Hd2]. destruct (Hd1 token Ht) as (r & Hr & Hoff).
  assert (read_request (ai w) token = Ok r) as -> by (unfold read_request; by rewrite Hr).
  cbn [mbind result_bind].
  set (r' := {| rq_size := size; buffer_offset := buffer_offset r; rq_fn := f; rq_private := private |}).
  set (x := {| sd_token := token; sd_request := r'; sd_data := default [] (buffers (ai w) !! (token + off)) |}).
  set (s1 := with_requests (ai w) (<[token := r']> (requests (ai w)))).
  assert (txw <> 0) as Htw by (eapply phase_tx; [exact Hpr|by rewrite Hti]).
  rewrite (cf_tx_worker _ Hcf). rewrite Hti in Hwk1.
  destruct (proj1 (job_channels n Hco) token) as [Hj1 Hj2].
  destruct (dispatch_ok k s1 (jobs w) _ _ txw (job self tx_a token) (rx_jobs reading (rx_init (rx_task (inst (ai w)))))
    (tx_jobs AsyncioInitialized (waiting w ++ [x])) Hk Hwk1 Htw Hf0) as [[-> Hfull]|(ws & -> & Hwk')].
  { right. split_and!; try done. cbn [tx_jobs]. unfold tx_calls_of. by rewrite fmap_app. }
  { apply Hco. }
  { split; [done|]. destruct Hfull as (d & ? & ?). by exists txw, d. }
  cbn. unfold read_request. cbn. rewrite lookup_insert_eq. cbn. rewrite Hoff. fold x.
  apply tx_inv_up in Htx; [|done].
  assert (NoDup (held w)) as Hndh.
  { destruct (pool_token _ _ _ token Htx) as (_ & _ & Hnd); [set_solver|]. by apply NoDup_app in Hnd as [? _]. }
  pose proof (filter_other (held w) token Hndh Ht) as Hperm.
  split; cbn; try done; rewrite ?Hti; try done.
  - by exists reading.
  - apply tx_inv_up; [done|]. eapply tx_pool_inv_perm, Htx. rewrite fmap_app. cbn. rewrite Hperm at 1. cbn.
    rewrite app_assoc. apply Permutation_cons_append.
  - split.
    + intros b [Hne Hb]%list_elem_of_filter. rewrite lookup_insert_ne by congruence. by apply Hd1.
    + intros y [Hy| ->%list_elem_of_singleton]%elem_of_app.
      * rewrite lookup_insert_ne; [by apply Hd2|]. intros Heq. apply Hnw. rewrite Heq.
        by apply list_elem_of_fmap_2.
      * cbn. rewrite lookup_insert_eq. by rewrite <- Hoff.
  - by rewrite Hse, app_assoc.
Qed.

(** ** Starting *)

Lemma pc_ok_imp st ri ti st' ri' ti' j :
  (is_started rxw ri -> is_started rxw ri') -> (is_started txw ti -> is_started txw ti') ->
  (st = AsyncioInitialized -> st' = AsyncioInitialized) -> pc_ok st ri ti j -> pc_ok st' ri' ti' j.
Proof. intros. destruct j; cbn in *; naive_solver. Qed.

Lemma wins_snoc l t b : wins (l ++ [(t, b)]) = wins l ++ (if b then [t] else []).
Proof. unfold wins. rewrite omap_app. by destruct b. Qed.

(** Before both channels have begun the start is not complete. *)
Lemma not_complete g st ri ti v stopped cs rs js :
  rxw <> 0 \/ txw <> 0 -> proto g st ri ti v stopped cs rs js -> tx_begun g = false ->
  (rx_begun g = true -> txw <> 0 \/ ri <> AsyncioInitialized) -> ~ (is_started rxw ri /\ is_started txw ti).
Proof.
  intros Hch [_ _ _ _ Hr Ht _ _ _ _ _ _] Htb Hrb [[->|Hri] [->|Hti]].
  - by destruct Hch.
  - rewrite (proj2 Ht) in Hti by by left. done.
  - destruct (rx_begun g) eqn:E; [by destruct (Hrb eq_refl)|]. rewrite (proj2 Hr) in Hri by by left. done.
  - rewrite (proj2 Ht) in Hti by by left. done.
Qed.

Lemma start_step_ok n k w t :
  0 <= k -> config_ok n -> aio_inv Starting (k + 1) w -> step_result Starting k w (XStart t) (step w (XStart t)).
Proof.
  intros Hk Hco Hi. apply (aio_inv_mono Starting (k + 1) k w ltac:(lia)) in Hi. unfold step_result. cbn [aio_step].
  destruct (callers w !! t) as [c|] eqn:Hc; [done|].
  destruct Hi as [Hcf Hwk Hrx Htx Hda Hus Hse (g & Hpr)]. unfold start_begin, cas.
  destruct (bool_decide (init_state (inst (ai w)) = AsyncioUninitialized)) eqn:E; bdestr; cbn.
  - split; cbn; try done; [by destruct Hcf|]. exists GClear. pose proof Hpr as [H1 H2 H3 H4 H5 H6 H7 H8 H9 H10 H11 H12].
    rewrite (proj1 H3 E) in *. cbn in *.
    split; cbn; try done.
    + exists t. by rewrite H1.
    + split; [done|]. split; apply H4.
    + intros a j Hj. eapply pc_ok_imp, H11; try done. congruence.
  - split; cbn; try done. exists g. destruct Hpr as [H1 H2 H3 H4 H5 H6 H7 H8 H9 H10 H11 H12].
    split; cbn; try done. by rewrite wins_snoc, app_nil_r.
Qed.

(** The call that is starting, with its stage. *)
Lemma starting_caller g st ri ti v stopped cs rs js t c :
  proto g st ri ti v stopped cs rs js -> cs !! t = Some c ->
  stage_pc g = Some c /\ cs = {[t := c]}.
Proof.
  intros [H1 _ _ _ _ _ _ _ _ _ _ _] Ht. destruct (stage_pc g) as [c'|]; [|by rewrite H1, lookup_empty in Ht].
  destruct H1 as [t' ->]. apply lookup_singleton_Some in Ht as [-> ->]. done.
Qed.

Lemma next_caller (t : nat) (c c' : caller) : partial_alter (fun _ => Some c') t ({[t := c]} : gmap nat caller) = {[t := c']}.
Proof. change (<[t := c']> ({[t := c]} : gmap nat caller) = {[t := c']}). apply insert_singleton_eq. Qed.

Lemma last_caller (t : nat) (c : caller) : partial_alter (fun _ => None) t ({[t := c]} : gmap nat caller) = ∅.
Proof. change (delete t ({[t := c]} : gmap nat caller) = ∅). apply delete_singleton_eq. Qed.

Lemma clear_bit0 v : Z.testbit (Z.land v (u32 (Z.lnot STREAM_STARTED_FLAG))) 0 <> true.
Proof. by rewrite Z.land_spec, andb_false_r. Qed.

Lemma clear_step_ok n k w t :
  0 <= k -> config_ok n -> aio_inv Starting (k + 1) w -> callers w !! t = Some CStartClear ->
  step_result Starting k w (XCaller t) (step w (XCaller t)).
Proof.
  intros Hk Hco Hi Hc. apply (aio_inv_mono Starting (k + 1) k w ltac:(lia)) in Hi. unfold step_result. cbn [aio_step].
  rewrite Hc. cbn. destruct Hi as [Hcf Hwk Hrx Htx Hda Hus Hse (g & Hpr)].
  destruct (starting_caller _ _ _ _ _ _ _ _ _ _ _ Hpr Hc) as [Hg Hcs]. destruct g; try discriminate Hg.
  split; cbn; try done; [by destruct Hcf|]. exists GRx.
  pose proof (not_complete _ _ _ _ _ _ _ _ _ (co_channel _ Hco) Hpr eq_refl ltac:(done)) as Hnc.
  destruct Hpr as [H1 H2 H3 H4 H5 H6 H7 H8 H9 H10 H11 H12]. split; cbn; try done.
  - exists t. by rewrite Hcs, next_caller.
  - destruct H3 as [H3 _]. by split; [intros Hz%H3|].
  - by intros ?%clear_bit0.
  - tauto.
Qed.

Lemma open_step_ok n k w t :
  0 <= k -> config_ok n -> aio_inv Starting (k + 1) w -> callers w !! t = Some CStartOpen ->
  step_result Starting k w (XCaller t) (step w (XCaller t)).
Proof.
  intros Hk Hco Hi Hc. apply (aio_inv_mono Starting (k + 1) k w ltac:(lia)) in Hi. unfold step_result. cbn [aio_step].
  rewrite Hc. cbn. destruct Hi as [Hcf Hwk Hrx Htx Hda Hus Hse (g & Hpr)].
  destruct (starting_caller _ _ _ _ _ _ _ _ _ _ _ Hpr Hc) as [Hg Hcs]. destruct g; try discriminate Hg.
  split; cbn; try done; [by destruct Hcf|]. exists GWait.
  destruct Hpr as [H1 H2 H3 H4 H5 H6 H7 H8 H9 H10 H11 H12]. split; cbn; try done.
  - exists t. by rewrite Hcs, next_caller.
  - destruct H3 as [H3 _]. by split; [intros Hz%H3|].
Qed.

(** The wait sees the flag. *)
Lemma wait_flag_bit (w : aio_world Q D C) i :
  0 <= i -> wait_flag gives_up now w (Z.shiftl 1 i) = Ok (Z.testbit (val (stream_flag (inst (ai w)))) i).
Proof.
  intros Hi. unfold wait_flag, event_flag_wait, event_flag_wait_from, check_flags. cbn [Z.eqb negb andb is_or clears].
  rewrite land_bit by done. by destruct (Z.testbit _ i).
Qed.

Lemma wait_step_ok n k w t :
  0 <= k -> config_ok n -> aio_inv Starting (k + 1) w -> callers w !! t = Some CStartWait ->
  step_result Starting k w (XCaller t) (step w (XCaller t)).
Proof.
  intros Hk Hco Hi Hc. apply (aio_inv_mono Starting (k + 1) k w ltac:(lia)) in Hi. unfold step_result. cbn [aio_step].
  rewrite Hc. cbn [caller_step]. pose proof Hi as [Hcf Hwk Hrx Htx Hda Hus Hse (g & Hpr)].
  unfold STREAM_STARTED_FLAG. rewrite wait_flag_bit by done. cbn [mbind result_bind].
  destruct (Z.testbit _ 0) eqn:Hv; [|done].
  destruct (starting_caller _ _ _ _ _ _ _ _ _ _ _ Hpr Hc) as [Hg Hcs]. destruct g; try discriminate Hg.
  pose proof (pr_flag _ _ _ _ _ _ _ _ _ Hpr Hv) as Hst.
  split; cbn; try done. exists GOver.
  destruct Hpr as [H1 H2 H3 H4 H5 H6 H7 H8 H9 H10 H11 H12]. split; cbn; try done.
  - by rewrite Hcs, last_caller.
  - rewrite wins_snoc, length_app, H2. done.
  - rewrite Hst. done.
Qed.

Lemma proto_begin_rx t st ri ti v stopped cs rs js :
  rxw <> 0 \/ txw <> 0 -> proto GRx st ri ti v stopped cs rs js ->
  proto GTx st (if rxw =? 0 then ri else AsyncioInitializing) ti v stopped {[t := CStartTx]} rs js.
Proof.
  intros Hch Hpr. pose proof (not_complete _ _ _ _ _ _ _ _ _ Hch Hpr eq_refl ltac:(done)) as Hnc.
  destruct Hpr as [H1 H2 H3 H4 H5 H6 H7 H8 H9 H10 H11 H12]. cbn in *.
  assert (ri = AsyncioUninitialized) as -> by (apply H5; by left).
  assert (is_started rxw (if rxw =? 0 then AsyncioUninitialized else AsyncioInitializing) -> is_started rxw AsyncioUninitialized) as Hs.
  { destruct (rxw =? 0) eqn:E; [done|]. bdestr. by intros [?|?]. }
  assert (is_started rxw AsyncioUninitialized -> is_started rxw (if rxw =? 0 then AsyncioUninitialized else AsyncioInitializing)) as Hs'.
  { destruct (rxw =? 0) eqn:E; [done|]. bdestr. by intros [?|?]. }
  split; cbn; try done.
  - by exists t.
  - destruct H3 as [H3 _]. by split; [intros Hz%H3|].
  - destruct H4 as (? & ? & ?). split_and!; try done. by destruct (rxw =? 0).
  - destruct (rxw =? 0) eqn:E; bdestr; split; try done; [by right|by intros [?|?]].
  - intros Hst. by destruct (Hnc (H9 Hst)).
  - intros a j Hj. by eapply pc_ok_imp, H11.
  - intros Hr Ht. destruct Hnc. split; [by apply Hs|done].
Qed.

Lemma proto_begin_tx t st ri ti v stopped cs rs js :
  rxw <> 0 \/ txw <> 0 -> proto GTx st ri ti v stopped cs rs js ->
  proto GOpen st ri (if txw =? 0 then ti else AsyncioInitializing) v stopped {[t := CStartOpen]} rs js.
Proof.
  intros Hch Hpr. destruct Hpr as [H1 H2 H3 H4 H5 H6 H7 H8 H9 H10 H11 H12]. cbn in *.
  assert (ti = AsyncioUninitialized) as -> by (apply H6; by left).
  assert (is_started txw (if txw =? 0 then AsyncioUninitialized else AsyncioInitializing) <-> is_started txw AsyncioUninitialized) as [Hs Hs'].
  { destruct (txw =? 0) eqn:E; [done|]. bdestr. by split; intros [?|?]. }
  split; cbn; try done.
  - by exists t.
  - destruct H3 as [H3 _]. by split; [intros Hz%H3|].
  - destruct H4 as (? & ? & ?). split_and!; try done. by destruct (txw =? 0).
  - destruct (txw =? 0) eqn:E; bdestr; split; try done; [by right|by intros [?|?]].
  - intros Hst. destruct (H9 Hst). split; [done|by apply Hs'].
  - intros a j Hj. by eapply pc_ok_imp, H11.
  - intros Hr Ht. apply H12; [done|by apply Hs].
Qed.

Lemma begin_rx_step_ok n k w t :
  0 <= k -> config_ok n -> aio_inv Starting (k + 1) w -> callers w !! t = Some CStartRx ->
  step_result Starting k w (XCaller t) (step w (XCaller t)).
Proof.
  intros Hk Hco Hi Hc. destruct (ai_work _ _ _ Hi) as [reading Hwk1].
  apply (aio_inv_mono Starting (k + 1) k w ltac:(lia)) in Hi. unfold step_result. cbn [aio_step].
  rewrite Hc. cbn [caller_step]. pose proof Hi as [Hcf Hwk Hrx Htx Hda Hus Hse (g & Hpr)].
  destruct (starting_caller _ _ _ _ _ _ _ _ _ _ _ Hpr Hc) as [Hg Hcs]. destruct g; try discriminate Hg.
  apply (proto_begin_rx t _ _ _ _ _ _ _ _ (co_channel _ Hco)) in Hpr as Hpr'.
  pose proof (cf_rx_worker _ Hcf) as Hw. unfold start_rx, nonnull. rewrite Hw.
  destruct (rxw =? 0) eqn:E; bdestr; cbn [negb].
  - cbn. split; cbn; try done. exists GTx. by rewrite Hcs, next_caller.
  - destruct (co_rx _ Hco E) as (Hcb & _). unfold asyncio_start_rx_thread, nonnull.
    rewrite Hw, (cf_callback _ Hcf), (proj2 (Z.eqb_neq rxw 0)), (proj2 (Z.eqb_neq cb 0)) by done.
    cbn [negb cassert mbind result_bind].
    assert (rx_init (rx_task (inst (ai w))) = AsyncioUninitialized) as Hri by (apply (pr_rx _ _ _ _ _ _ _ _ _ Hpr); by left).
    rewrite Hri in Hwk1.
    set (s1 := with_inst _ _).
    destruct (proj2 (proj2 (job_channels n Hco)) starter_a ltac:(by left)) as (Hj & _).
    destruct (dispatch_ok k s1 (jobs w) _ _ rxw (job self starter_a 0) [job self starter_a 0]
      (tx_jobs (tx_init (tx_task (inst (ai w)))) (waiting w)) Hk Hwk1 E) as [[-> Hfull]|(ws & -> & Hwk')].
    { apply (config_distinct n Hco). }
    { by left. }
    { apply Hco. }
    { split; [done|]. destruct Hfull as (d & ? & ?). by exists rxw, d. }
    cbn. split; cbn; try done.
    + destruct Hcf. by constructor.
    + exists GTx. by rewrite Hcs, next_caller.
Qed.

Lemma begin_tx_step_ok n k w t :
  0 <= k -> config_ok n -> aio_inv Starting (k + 1) w -> callers w !! t = Some CStartTx ->
  step_result Starting k w (XCaller t) (step w (XCaller t)).
Proof.
  intros Hk Hco Hi Hc. destruct (ai_work _ _ _ Hi) as [reading Hwk1].
  apply (aio_inv_mono Starting (k + 1) k w ltac:(lia)) in Hi. unfold step_result. cbn [aio_step].
  rewrite Hc. cbn [caller_step]. pose proof Hi as [Hcf Hwk Hrx Htx Hda Hus Hse (g & Hpr)].
  destruct (starting_caller _ _ _ _ _ _ _ _ _ _ _ Hpr Hc) as [Hg Hcs]. destruct g; try discriminate Hg.
  apply (proto_begin_tx t _ _ _ _ _ _ _ _ (co_channel _ Hco)) in Hpr as Hpr'.
  pose proof (cf_tx_worker _ Hcf) as Hw. unfold start_tx, nonnull. rewrite Hw.
  destruct (txw =? 0) eqn:E; bdestr; cbn [negb].
  - cbn. split; cbn; try done. exists GOpen. by rewrite Hcs, next_caller.
  - unfold asyncio_start_tx_thread. rewrite Hw.
    assert (tx_init (tx_task (inst (ai w))) = AsyncioUninitialized) as Hti by (apply (pr_tx _ _ _ _ _ _ _ _ _ Hpr); by left).
    unfold tx_inv in Htx. rewrite Hti in Hwk1, Htx.
    set (s1 := with_inst _ _).
    destruct (proj2 (proj2 (job_channels n Hco)) starter_a ltac:(by left)) as (_ & Hj1 & Hj2).
    destruct (dispatch_ok k s1 (jobs w) _ _ txw (job self starter_a 1)
      (rx_jobs reading (rx_init (rx_task (inst (ai w))))) [job self starter_a 1] Hk Hwk1 E) as [[-> Hfull]|(ws & -> & Hwk')].
    { apply (config_distinct n Hco). }
    { by right. }
    { apply Hco. }
    { split; [done|]. destruct Hfull as (d & ? & ?). by exists txw, d. }
    cbn. split; cbn; try done.
    + destruct Hcf. by constructor.
    + by exists reading.
    + unfold tx_inv. cbn. by destruct Htx.
    + exists GOpen. by rewrite Hcs, next_caller.
Qed.

(** ** The workers *)

(** A worker that is completing a start goes on. *)
Lemma proto_trigger g st ri ti v stopped cs rs js a j j' :
  proto g st ri ti v stopped cs rs js -> js !! a = Some j -> pc_ok st ri ti j' ->
  (triggering j' \/ ~ (is_started rxw ri /\ is_started txw ti)) ->
  proto g st ri ti v stopped cs rs (partial_alter (fun _ => Some j') a js).
Proof.
  intros [? ? ? ? ? ? ? ? ? ? Hp Ht] H0 Hj Htr. split; try done.
  - intros b j0 Hb. destruct (decide (a = b)) as [<-|Hne].
    + rewrite lookup_partial_alter_eq in Hb. by injection Hb as <-.
    + rewrite lookup_partial_alter_ne in Hb by done. by eapply Hp.
  - intros Hr Htt. destruct Htr as [Htr|Htr]; [|by destruct Htr]. right. exists a, j'.
    by rewrite lookup_partial_alter_eq.
Qed.

(** A channel is up: its worker looks whether the other one is. *)
Lemma proto_ready_rx g st ti v stopped cs rs js a c :
  proto g st AsyncioInitializing ti v stopped cs rs js -> js !! a = Some (JBody c) ->
  proto g st AsyncioInitialized ti v stopped cs rs (partial_alter (fun _ => Some JStartRx) a js).
Proof.
  intros [H1 H2 H3 H4 H5 H6 H7 H8 H9 H10 H11 H12] Ha.
  assert (is_started rxw AsyncioInitialized) as Hs by by right.
  split; try done.
  - destruct H4 as (? & ? & ?). by split_and!.
  - split; [done|]. intros Hx. by apply H5 in Hx.
  - intros Hst. by destruct (H9 Hst).
  - intros b j Hb. destruct (decide (a = b)) as [<-|Hne].
    + rewrite lookup_partial_alter_eq in Hb. by injection Hb as <-.
    + rewrite lookup_partial_alter_ne in Hb by done. by eapply pc_ok_imp, H11.
  - intros _ _. right. exists a, JStartRx. by rewrite lookup_partial_alter_eq.
Qed.

Lemma proto_ready_tx g st ri v stopped cs rs js a c :
  proto g st ri AsyncioInitializing v stopped cs rs js -> js !! a = Some (JBody c) ->
  proto g st ri AsyncioInitialized v stopped cs rs (partial_alter (fun _ => Some JStartRx) a js).
Proof.
  intros [H1 H2 H3 H4 H5 H6 H7 H8 H9 H10 H11 H12] Ha.
  assert (is_started txw AsyncioInitialized) as Hs by by right.
  split; try done.
  - destruct H4 as (? & ? & ?). by split_and!.
  - split; [done|]. intros Hx. by apply H6 in Hx.
  - intros Hst. by destruct (H9 Hst).
  - intros b j Hb. destruct (decide (a = b)) as [<-|Hne].
    + rewrite lookup_partial_alter_eq in Hb. by injection Hb as <-.
    + rewrite lookup_partial_alter_ne in Hb by done. by eapply pc_ok_imp, H11.
  - intros _ _. right. exists a, JStartRx. by rewrite lookup_partial_alter_eq.
Qed.

Lemma started_true (worker : Z) (st : asyncio_init_state_e) :
  negb (nonnull worker) || is_initialized st = true <-> is_started worker st.
Proof.
  unfold nonnull, is_started. rewrite negb_involutive, orb_true_iff, Z.eqb_eq.
  assert (is_initialized st = true <-> st = AsyncioInitialized) as ->; [|done]. by destruct st.
Qed.

(** The steps behind the function of a start. *)
Lemma trigger_step_ok n k w a d j :
  0 <= k -> config_ok n -> aio_inv Starting (k + 1) w -> workers (ai w) !! a = Some d -> jobs w !! a = Some j ->
  triggering j -> step_result Starting k w (XWork a) (step w (XWork a)).
Proof.
  intros Hk Hco Hi Hd Hj Htr. apply (aio_inv_mono Starting (k + 1) k w ltac:(lia)) in Hi. unfold step_result. cbn [aio_step].
  unfold work_step. rewrite Hd, Hj. pose proof Hi as [Hcf [reading Hwk] Hrx Htx Hda Hus Hse (g & Hpr)].
  pose proof (pr_pcs _ _ _ _ _ _ _ _ _ Hpr a j Hj) as Hok.
  assert (forall j', body_of (Some j') = [] -> exists reading,
    workers_have starter_a finisher_a tx_a rx_a rxw txw k (workers (ai w)) (partial_alter (fun _ => Some j') a (jobs w))
      (rx_jobs reading (rx_init (rx_task (inst (ai w)))))
      (tx_jobs (tx_init (tx_task (inst (ai w)))) (waiting w))) as Hw.
  { intros j' Hb. exists reading. eapply workers_pc; [exact Hwk|exact Hj|by destruct j|done]. }
  unfold rx_started, tx_started. rewrite (cf_rx_worker _ Hcf), (cf_tx_worker _ Hcf).
  destruct j; try done.
  - destruct (negb (nonnull rxw) || _) eqn:E.
    + apply started_true in E. split; cbn; try done; [by apply Hw|]. exists g. eapply proto_trigger; try done. by left.
    + split; cbn; try done; [by apply Hw|]. exists g. eapply proto_trigger; try done. right.
      intros [Hs%started_true _]. congruence.
  - destruct (negb (nonnull txw) || _) eqn:E.
    + apply started_true in E. split; cbn; try done; [by apply Hw|]. exists g. eapply proto_trigger; try done. by left.
    + split; cbn; try done; [by apply Hw|]. exists g. eapply proto_trigger; try done. right.
      intros [_ Hs%started_true]. congruence.
  - split; cbn; try done; [by destruct Hcf|by apply Hw|]. exists g.
    assert (proto g AsyncioInitialized (rx_init (rx_task (inst (ai w)))) (tx_init (tx_task (inst (ai w))))
      (val (stream_flag (inst (ai w)))) (stream_stopped (inst (ai w))) (callers w) (results w) (jobs w)) as Hpr'.
    { pose proof Hpr as [H1 H2 H3 H4 H5 H6 H7 H8 H9 H10 H11 H12]. split; try done.
      - split; [done|]. intros ->. by destruct (not_complete _ _ _ _ _ _ _ _ _ (co_channel _ Hco) Hpr eq_refl).
      - split; [done|]. apply H4.
      - by destruct g.
      - intros b j' Hb. by eapply pc_ok_imp, H11. }
    eapply proto_trigger; [exact Hpr'|exact Hj|by destruct Hok|by left].
  - split; cbn; try done; [by destruct Hcf|by apply Hw|]. exists g.
    destruct Hok as (? & ? & Hst).
    pose proof Hpr as [H1 H2 H3 H4 H5 H6 H7 H8 H9 H10 H11 H12].
    split; try done; [by destruct g| |intros _ _; left; by rewrite Z.lor_spec, orb_true_r].
    intros b j' Hb. destruct (decide (a = b)) as [<-|Hne].
    + rewrite lookup_partial_alter_eq in Hb. by injection Hb as <-.
    + rewrite lookup_partial_alter_ne in Hb by done. by eapply H11.
Qed.

(** Taking a call, and giving its block back. *)
Lemma take_job_ok ph k w a d :
  0 <= k -> aio_inv ph (k + 1) w -> workers (ai w) !! a = Some d -> jobs w !! a = None -> is_worker rxw txw a ->
  step_result ph k w (XWork a) (step w (XWork a)).
Proof.
  intros Hk Hi Hd Hj Ha. destruct (ai_work _ _ _ Hi) as [reading Hwk1]. apply (aio_inv_mono ph (k + 1) k w ltac:(lia)) in Hi.
  destruct Hi as [Hcf Hwk Hrx Htx Hda Hus Hse Hpr]. unfold step_result. cbn [aio_step].
  unfold work_step. rewrite Hd, Hj.
  destruct (workers_take starter_a finisher_a tx_a rx_a rxw txw k _ _ _ _ a Hk Hwk1 Ha Hj) as (d0 & d' & r & Hd0 & Ht & Hw).
  rewrite Hd in Hd0. injection Hd0 as <-. rewrite Ht. cbn [mbind result_bind].
  assert (phase_ok ph (init_state (inst (ai w))) (rx_init (rx_task (inst (ai w)))) (tx_init (tx_task (inst (ai w))))
    (val (stream_flag (inst (ai w)))) (stream_stopped (inst (ai w))) (callers w) (results w)
    (partial_alter (fun _ => match r with Returns c => Some (JBody c) | Waits _ => None end) a (jobs w))) as Hpr'.
  { apply phase_job; [done|by rewrite Hj|by destruct r]. }
  destruct r as [wc|c]; split; cbn; try done; exists reading; [|done].
  assert (partial_alter (fun _ => None) a (jobs w) = jobs w) as He; [|by rewrite He in Hw].
  apply map_eq. intros b. destruct (decide (a = b)) as [<-|Hne];
    [by rewrite lookup_partial_alter_eq|by rewrite lookup_partial_alter_ne].
Qed.

Lemma finish_job_ok ph k w a d :
  0 <= k -> aio_inv ph (k + 1) w -> workers (ai w) !! a = Some d -> jobs w !! a = Some JDone -> is_worker rxw txw a ->
  step_result ph k w (XWork a) (step w (XWork a)).
Proof.
  intros Hk Hi Hd Hj Ha. destruct (ai_work _ _ _ Hi) as [reading Hwk1]. apply (aio_inv_mono ph (k + 1) k w ltac:(lia)) in Hi.
  destruct Hi as [Hcf Hwk Hrx Htx Hda Hus Hse Hpr]. unfold step_result. cbn [aio_step].
  unfold work_step. rewrite Hd, Hj.
  destruct (workers_finish starter_a finisher_a tx_a rx_a rxw txw k _ _ _ _ a Hk Hwk1 Ha Hj) as (d0 & d' & Hd0 & Ht & Hw).
  rewrite Hd in Hd0. injection Hd0 as <-. rewrite Ht. cbn. split; cbn; try done; [by exists reading|].
  apply phase_job; [done|by rewrite Hj|done].
Qed.

(** ** The calls *)

(** What a worker's body does to a channel that comes up. *)
Lemma starter_rx_ok n k w a d c :
  0 <= k -> config_ok n -> 2 * k <= n -> aio_inv Starting (k + 1) w -> workers (ai w) !! a = Some d ->
  jobs w !! a = Some (JBody c) -> rx_job starter_a finisher_a rx_a c = true ->
  rx_init (rx_task (inst (ai w))) = AsyncioInitializing ->
  step_result Starting k w (XWork a) (step w (XWork a)).
Proof.
  intros Hk Hco Hn Hi Hd Hj Hc Hri. destruct (ai_work _ _ _ Hi) as [reading Hwk1].
  apply (aio_inv_mono Starting (k + 1) k w ltac:(lia)) in Hi. destruct Hi as [Hcf [rg Hwk] Hrx Htx Hda Hus Hse (g & Hpr)].
  destruct (config_distinct n Hco) as (_ & _ & _ & _ & _ & _ & _ & _ & _ & Hr0).
  unfold step_result. cbn [aio_step]. unfold work_step. rewrite Hd, Hj. rewrite Hri in Hwk1, Hwk, Hpr.
  destruct (workers_body_rx starter_a finisher_a tx_a rx_a rxw txw (co_addresses _ Hco) k _ _ _ _ a c JStartRx Hwk Hj Hc eq_refl)
    as (Ha & rj' & Hrj & _).
  injection Hrj as Hcc _. subst c. unfold body_step. cbn [fn arg2 job]. rewrite Z.eqb_refl.
  unfold starter_body. cbn [Z.eqb]. rewrite (cf_rx_params _ Hcf).
  assert (rxw <> 0) as Hw0.
  { intros H0. discriminate (proj2 (pr_rx _ _ _ _ _ _ _ _ _ Hpr) (or_intror H0)). }
  destruct (co_rx _ Hco Hw0) as (_ & _ & Hcr).
  destruct (pool_create_inv (2 * k) rxp qr (rx_memory (rx_task (inst (ai w)))) ltac:(lia)
    (create_ok_mono _ _ _ _ Hn Hcr)) as (p & m' & -> & Hpi).
  cbn [mbind result_bind cassert]. set (s1 := with_inst _ _).
  destruct (dispatch_ok k s1 (jobs w) _ _ rxw (job self rx_a 0) [job self starter_a 0; job self rx_a 0]
    (tx_jobs (tx_init (tx_task (inst (ai w)))) (waiting w)) Hk Hwk1 Hw0 Hr0) as [[He Hfull]|(ws & He & Hwk')].
  { left. split_and!; try done. apply (proj1 (proj2 (job_channels n Hco))). }
  { apply Hco. }
  { cbn in He |- *. rewrite (cf_rx_worker _ Hcf), He. cbn. rewrite Hri.
    split_and!; [done| |done]. destruct Hfull as (d0 & ? & ?). by exists rxw, d0. }
  cbn in He |- *. rewrite (cf_rx_worker _ Hcf), He. cbn.
  destruct (workers_body_rx starter_a finisher_a tx_a rx_a rxw txw (co_addresses _ Hco) k _ _ _ _ a _ JStartRx Hwk' Hj Hc eq_refl)
    as (_ & rj2 & Hrj2 & Hwk2).
  injection Hrj2 as <-. split; cbn; try done.
  - destruct Hcf. by constructor.
  - unfold rx_inv. cbn. eexists _, _. split_and!; [done|exact Hpi|done|done].
  - exists g. by eapply proto_ready_rx.
Qed.

Lemma starter_tx_ok n k w a d c :
  0 <= k -> config_ok n -> 2 * k <= n -> aio_inv Starting (k + 1) w -> workers (ai w) !! a = Some d ->
  jobs w !! a = Some (JBody c) -> tx_job starter_a finisher_a tx_a c = true ->
  tx_init (tx_task (inst (ai w))) = AsyncioInitializing ->
  step_result Starting k w (XWork a) (step w (XWork a)).
Proof.
  intros Hk Hco Hn Hi Hd Hj Hc Hti.
  apply (aio_inv_mono Starting (k + 1) k w ltac:(lia)) in Hi. destruct Hi as [Hcf [reading Hwk] Hrx Htx Hda Hus Hse (g & Hpr)].
  unfold step_result. cbn [aio_step]. unfold work_step. rewrite Hd, Hj. unfold tx_inv in Htx. rewrite Hti in Hwk, Hpr, Htx.
  destruct (workers_body_tx starter_a finisher_a tx_a rx_a rxw txw (co_addresses _ Hco) k _ _ _ _ a c JStartRx Hwk Hj Hc eq_refl)
    as (Ha & tj' & Htj & Hwk').
  injection Htj as Hcc Htj. subst c tj'. destruct Htx as [Hh Hwt].
  unfold body_step. cbn [fn arg2 job]. rewrite Z.eqb_refl.
  unfold starter_body. cbn [Z.eqb]. rewrite (cf_tx_params _ Hcf).
  assert (txw <> 0) as Hw0.
  { intros H0. discriminate (proj2 (pr_tx _ _ _ _ _ _ _ _ _ Hpr) (or_intror H0)). }
  destruct (co_tx _ Hco Hw0) as (_ & Hcr).
  destruct (pool_create_inv (2 * k) txp qt (tx_memory (tx_task (inst (ai w)))) ltac:(lia)
    (create_ok_mono _ _ _ _ Hn Hcr)) as (p & m' & -> & Hpi).
  cbn. split; cbn; try done.
  - destruct Hcf. by constructor.
  - exists reading. by rewrite Hwt.
  - eexists _, _. split_and!; [done|exact Hpi| |].
    + rewrite Hh, Hwt. cbn. split_and!; [constructor| |]; cbn.
      * intros b. rewrite lookup_empty, elem_of_nil. by split; [intros []|].
      * intros b c. by rewrite lookup_empty.
    + cbn. intros b [?|[? Hb]]; [done|]. by rewrite lookup_empty in Hb.
  - exists g. by eapply proto_ready_tx.
Qed.

(** What [tx_f] does before it frees the token. *)
Lemma tx_body (s : aio Q D C) x :
  configured (inst s) -> (is_initialized (init_state (inst s)) = true -> wr <> 0) ->
  requests s !! sd_token x = Some (sd_request x) -> buffer_offset (sd_request x) = off ->
  default [] (buffers s !! (sd_token x + off)) = sd_data x ->
  tx_f write_f tx_notification_f s (sd_token x) =
    (r ← pool_free (tx_state (tx_task (inst s))) (sd_token x);
     Ok (with_user (with_inst s (set_tx (inst s) (set_tx_state (tx_task (inst s)) (fst r))))
           (if is_initialized (init_state (inst s)) then transmit x (user s) else user s))).
Proof.
  intros Hcf Hwr Hr Hoff Hdata. unfold tx_f. destruct (is_initialized (init_state (inst s))) eqn:E.
  - specialize (Hwr eq_refl). assert (read_request s (sd_token x) = Ok (sd_request x)) as Hrd
      by (unfold read_request; by rewrite Hr).
    unfold asyncio_tx_request_get_buffer, transmit. rewrite !Hrd. cbn [mbind result_bind].
    rewrite (cf_error _ Hcf), (cf_write _ Hcf), (cf_timeout _ Hcf), Hoff, Hdata.
    destruct err; cbn [negb mbind result_bind].
    + by destruct (nonnull (rq_fn (sd_request x))); destruct (pool_free _ _).
    + assert (nonnull wr = true) as -> by (unfold nonnull; by rewrite (proj2 (Z.eqb_neq wr 0))).
      cbn [mbind result_bind].
      destruct (write_f _ _ _ _ _) as [m u]. cbn [mbind result_bind].
      by destruct (nonnull (rq_fn (sd_request x))); destruct (pool_free _ _).
  - cbn [mbind result_bind]. destruct (pool_free _ _); [|done]. cbn. by destruct s.
Qed.

Definition going (st : asyncio_init_state_e) : Prop := st = AsyncioInitialized \/ st = AsyncioUninitializing.

Lemma tx_jobs_cons st x l : going st -> tx_jobs st (x :: l) = job self tx_a (sd_token x) :: tx_jobs st l.
Proof. by intros [->| ->]. Qed.

Lemma tx_inv_going ph n ctx l x lost :
  going (tx_init ctx) -> (tx_init ctx = AsyncioInitialized -> lost = []) ->
  tx_pool_inv n ctx (l ++ (sd_token <$> x) ++ lost) -> tx_inv ph n ctx l x.
Proof.
  unfold tx_inv. intros [Hti|Hti] Hl; rewrite Hti in *; [|by exists lost]. by rewrite (Hl eq_refl), app_nil_r.
Qed.

Lemma transmit_ok ph n k w a d c x rest :
  0 <= k -> config_ok n -> aio_inv ph (k + 1) w -> workers (ai w) !! a = Some d ->
  jobs w !! a = Some (JBody c) -> tx_job starter_a finisher_a tx_a c = true ->
  going (tx_init (tx_task (inst (ai w)))) -> waiting w = x :: rest ->
  step_result ph k w (XWork a) (step w (XWork a)).
Proof.
  intros Hk Hco Hi Hd Hj Hc Hti Hwt. pose proof (ai_tx _ _ _ Hi) as Htx1.
  apply (aio_inv_mono ph (k + 1) k w ltac:(lia)) in Hi. destruct Hi as [Hcf [reading Hwk] Hrx Htx Hda Hus Hse Hpr].
  destruct (config_distinct n Hco) as (Hsf & Hst & Hsr & Hft & Hfr & Htr & _).
  unfold step_result. cbn [aio_step]. unfold work_step. rewrite Hd, Hj. rewrite Hwt, tx_jobs_cons in Hwk by done.
  destruct (workers_body_tx starter_a finisher_a tx_a rx_a rxw txw (co_addresses _ Hco) k _ _ _ _ a c JDone Hwk Hj Hc eq_refl)
    as (Ha & tj' & Htj & Hwk'). injection Htj as <- <-. rewrite Hwt in Hda, Htx1, Hse.
  unfold body_step. cbn [fn arg2 job]. rewrite (proj2 (Z.eqb_neq tx_a starter_a)) by congruence.
  rewrite (proj2 (Z.eqb_neq tx_a finisher_a)), Z.eqb_refl by congruence.
  destruct (waiting_token _ _ _ _ _ (sd_token x) Htx1) as (_ & Ht0 & _ & _ & lost & Hlost & Hpool); [left|].
  assert (txw <> 0) as Hw0 by (eapply phase_tx; [exact Hpr|by destruct Hti as [->| ->]]).
  destruct Hda as [Hd1 Hd2]. destruct (Hd2 x ltac:(left)) as (Hr & Hoff & Hdata).
  rewrite (tx_body (ai w) x Hcf (fun _ => proj1 (co_tx _ Hco Hw0)) Hr Hoff Hdata).
  replace (2 * (k + 1)) with (2 * k + 1 + 1) in Hpool by lia. cbn in Hpool.
  eapply tx_pool_inv_perm in Hpool; [|symmetry; apply Permutation_middle].
  destruct (tx_pool_free (2 * k + 1) _ _ _ ltac:(lia) Hpool) as (s' & calls & -> & Hpool').
  cbn [mbind result_bind fst]. rewrite Hwt. cbn [tail].
  set (h := if is_initialized (init_state (inst (ai w))) then [DWritten x] else [DDropped x]).
  assert (transmitted h = [x]) as Hh by (unfold h; by destruct (is_initialized _)).
  cbn. fold h. split; cbn; fold h; try done.
  - by destruct Hcf.
  - by exists reading.
  - apply (tx_inv_going _ _ _ _ _ lost); [done|done|]. eapply tx_pool_inv_mono; [|exact Hpool']. lia.
  - split; [done|]. intros y Hy. apply Hd2. by right.
  - rewrite foldl_app, <- Hus. unfold h. by destruct (is_initialized _).
  - rewrite Hse. unfold transmitted in *. by rewrite omap_app, Hh, <- app_assoc.
  - apply phase_job; [done|by rewrite Hj|done].
Qed.

(** The buffer that is read into next. *)
Lemma next_buffer n (s : aio Q D C) st ea :
  rx_state (rx_task (inst s)) = Some st -> pool_inv n st ea ->
  next_rx_buffer s = DReceived <$> take 1 (free ea).
Proof.
  unfold rx_state, next_rx_buffer. destruct (rx_pool _) as [p|]; [|done]. intros [= <-] Hpi.
  destruct (pi_queue _ _ _ Hpi) as (qu & Hq & _ & Hit & _). cbn in Hq. by rewrite Hq, Hit.
Qed.

(** The part of [rx_f] between taking the buffer and posting itself again. *)
Lemma rx_callback_part (u : C) buf :
  let '(bytes, m, u1) := read_f rd buf 1000 u in
  (if nonnull m then rx_callback_f cb buf bytes m u1 else u1) = receive buf u.
Proof. unfold receive. by destruct (read_f rd buf 1000 u) as [[bytes m] u1]. Qed.

(** The bytes that are read. *)
Definition received_bytes (buf : Z) (u : C) : list Z := (read_f rd buf 1000 u).1.1.

(** [rx_f] on a channel that is up, with a free buffer: the buffer is read into, the
    client sees what was read, the call posts itself, and the buffer is free again. *)
Lemma rx_some n (s : aio Q D C) st ea b l :
  0 <= n -> configured (inst s) -> cb <> 0 -> rd <> 0 -> rx_init (rx_task (inst s)) = AsyncioInitialized ->
  rx_state (rx_task (inst s)) = Some st -> pool_inv (n + 2) st ea -> free ea = b :: l -> live ea = ∅ ->
  exists st', pool_inv n st' {| free := l ++ [b]; live := ∅; dtors := dtors ea |} /\
    rx_f self rx_a read_f rx_callback_f (fun s _ => Ok s) s =
      (r ← dispatch s rxw (job self rx_a 0);
       Ok (with_user (with_buffers (with_inst (fst r) (set_rx (inst s) (set_rx_state (rx_task (inst s)) (Some st'))))
                        (<[b := received_bytes b (user s)]> (buffers s))) (receive b (user s)))).
Proof.
  intros Hn Hcf Hcb Hrd Hri Hs Hpi Hfree Hlive. replace (n + 2) with (n + 1 + 1) in Hpi by lia.
  destruct (pool_alloc_ok (n + 1) st ea b l ltac:(lia) Hpi Hfree) as ([p1 m1] & Ha & Hpi1).
  pose proof (proj1 (pi_free _ _ _ Hpi b ltac:(rewrite Hfree; left))) as Hb0.
  destruct (pool_free_ok n _ _ b Hn Hpi1) as ([p2 m2] & calls & Hf & Hpi2).
  { cbn. rewrite Hfree. cbn. rewrite lookup_insert_eq. by eexists. }
  exists (p2, m2). split.
  { assert (fst (apool_step (fst (apool_step ea (PAlloc 0 0))) (PFree b)) =
      {| free := l ++ [b]; live := ∅; dtors := dtors ea |}) as <-; [|done].
    cbn. rewrite Hfree. cbn. rewrite lookup_insert_eq. cbn. rewrite Hlive. f_equal. apply delete_insert_id. done. }
  assert (nonnull b = true /\ nonnull rd = true /\ nonnull cb = true) as (Hb1 & Hrd1 & Hcb1)
    by (unfold nonnull; by rewrite !(proj2 (Z.eqb_neq _ 0))).
  unfold rx_f, receive, received_bytes. rewrite Hri, Hs, Ha. cbn [is_initialized mbind result_bind fst snd]. rewrite Hb1.
  cbn [with_inst inst set_rx f_stream_interface_read user]. rewrite (cf_read _ Hcf), Hrd1.
  cbn [mbind result_bind]. destruct (read_f rd b 1000 (user s)) as [[bytes m] u1] eqn:Hread. cbn [fst snd].
  rewrite (cf_callback _ Hcf), Hcb1.
  assert (forall u2 : C, (r ← dispatch (with_user (with_buffers (with_inst s
      (set_rx (inst s) (set_rx_state (rx_task (inst s)) (Some (p1, m1))))) (<[b := bytes]> (buffers s))) u2)
      (rx_worker (rx_task (inst s))) (job self rx_a 0); let '(s0, _) := r in
      r0 ← pool_free (rx_state (rx_task (inst s0))) b;
      Ok (with_inst s0 (set_rx (inst s0) (set_rx_state (rx_task (inst s0)) (fst r0))))) =
    (r ← dispatch s rxw (job self rx_a 0);
     Ok (with_user (with_buffers (with_inst (fst r) (set_rx (inst s) (set_rx_state (rx_task (inst s)) (Some (p2, m2)))))
           (<[b := bytes]> (buffers s))) u2))) as Hrest.
  { intros u2. unfold dispatch. rewrite (cf_rx_worker _ Hcf). cbn [with_user with_buffers with_inst workers].
    destruct (rxw =? 0).
    - cbn. unfold rx_state. cbn. rewrite Hf. by cbn.
    - destruct (workers s !! rxw) as [d|]; [|done]. destruct (dp_async d _) as [[d' bb]|]; [|done].
      cbn. unfold rx_state. cbn. rewrite Hf. by cbn. }
  destruct (nonnull m); cbn [mbind result_bind]; apply Hrest.
Qed.

Lemma rx_none n (s : aio Q D C) st ea :
  0 <= n -> configured (inst s) -> rx_init (rx_task (inst s)) = AsyncioInitialized ->
  rx_state (rx_task (inst s)) = Some st -> pool_inv (n + 1) st ea -> free ea = [] ->
  exists st', pool_inv n st' ea /\
    rx_f self rx_a read_f rx_callback_f (fun s _ => Ok s) s =
      (r ← dispatch s rxw (job self rx_a 0);
       Ok (with_inst (fst r) (set_rx (inst s) (set_rx_state (rx_task (inst s)) (Some st'))))).
Proof.
  intros Hn Hcf Hri Hs Hpi Hfree.
  destruct (pool_alloc_none n st ea Hn Hpi Hfree) as ([p1 m1] & Ha & Hpi1). exists (p1, m1). split; [done|].
  unfold rx_f. rewrite Hri, Hs, Ha. cbn. rewrite (cf_rx_worker _ Hcf). unfold dispatch. cbn.
  destruct (rxw =? 0); [done|]. destruct (workers s !! rxw) as [d|]; [|done]. by destruct (dp_async d _) as [[d' bb]|].
Qed.

(** What a reception makes of the buffers and of the client. *)
Definition received (bufs : list Z) (s s' : aio Q D C) : aio Q D C :=
  match bufs with
  | [] => s'
  | b :: _ => with_user (with_buffers s' (<[b := received_bytes b (user s)]> (buffers s))) (receive b (user s))
  end.

(** Both cases: the channel keeps its buffers, and fails only where posting the next
    reception fails. *)
Lemma rx_f_ok n (s : aio Q D C) st ea :
  0 <= n -> configured (inst s) -> cb <> 0 -> rd <> 0 -> rx_init (rx_task (inst s)) = AsyncioInitialized ->
  rx_state (rx_task (inst s)) = Some st -> pool_inv (n + 2) st ea -> live ea = ∅ ->
  exists st' ea', pool_inv n st' ea' /\ live ea' = ∅ /\ (forall b, b ∈ free ea' -> b ∈ free ea) /\
    rx_f self rx_a read_f rx_callback_f (fun s _ => Ok s) s =
      (r ← dispatch s rxw (job self rx_a 0);
       Ok (received (free ea) s (with_inst (fst r) (set_rx (inst s) (set_rx_state (rx_task (inst s)) (Some st')))))).
Proof.
  intros Hn Hcf Hcb Hrd Hri Hs Hpi Hlive. destruct (free ea) as [|b l] eqn:Hfree.
  - destruct (rx_none n s st ea Hn Hcf Hri Hs) as (st' & Hpi' & ->); [eapply pool_inv_mono, Hpi; lia|done|].
    exists st', ea. rewrite Hfree. by split_and!.
  - destruct (rx_some n s st ea b l Hn Hcf Hcb Hrd Hri Hs Hpi Hfree Hlive) as (st' & Hpi' & ->).
    eexists st', _. split_and!; [exact Hpi'|done| |done].
    intros x [Hx| ->%list_elem_of_singleton]%elem_of_app; [by right|by left].
Qed.

(** The buffer of a reception is not part of a block that is on its way. *)
Lemma data_received ph n k (w : aio_world Q D C) b bytes :
  config_ok n -> tx_inv ph k (tx_task (inst (ai w))) (held w) (waiting w) -> b ∈ blocks rxp ->
  data_inv (requests (ai w)) (buffers (ai w)) (held w) (waiting w) ->
  data_inv (requests (ai w)) (<[b := bytes]> (buffers (ai w))) (held w) (waiting w).
Proof.
  intros Hco Htx Hb [Hd1 Hd2]. split; [done|]. intros x Hx. destruct (Hd2 x Hx) as (? & ? & <-).
  split_and!; [done..|]. rewrite lookup_insert_ne; [done|]. intros ->.
  apply (co_apart _ Hco (sd_token x)); [|exact Hb].
  apply (waiting_token _ _ _ _ _ (sd_token x) Htx). by apply list_elem_of_fmap_2.
Qed.

(** The body of a reception: the function that the address stands for. *)
Lemma body_step_rx n (w : aio_world Q D C) a c :
  config_ok n -> fn c = rx_a -> rx_init (rx_task (inst (ai w))) = AsyncioInitialized ->
  body_step self starter_a finisher_a tx_a rx_a (Some qr) (Some qt) read_f write_f rx_callback_f tx_notification_f w a c =
  (s ← rx_f self rx_a read_f rx_callback_f (fun s _ => Ok s) (ai w);
   Ok (set_job (add_done (set_ai w s) (waiting w) (next_rx_buffer (ai w))) a (Some JDone))).
Proof.
  intros Hco Hfn Hri. destruct (config_distinct n Hco) as (? & ? & ? & ? & ? & ? & _).
  unfold body_step. rewrite Hfn, (proj2 (Z.eqb_neq rx_a starter_a)), (proj2 (Z.eqb_neq rx_a finisher_a)),
    (proj2 (Z.eqb_neq rx_a tx_a)), Z.eqb_refl, Hri by congruence. done.
Qed.

Lemma receive_ok ph n k w a d c :
  0 <= k -> config_ok n -> aio_inv ph (k + 1) w -> workers (ai w) !! a = Some d ->
  jobs w !! a = Some (JBody c) -> rx_job starter_a finisher_a rx_a c = true ->
  rx_init (rx_task (inst (ai w))) = AsyncioInitialized ->
  step_result ph k w (XWork a) (step w (XWork a)).
Proof.
  intros Hk Hco Hi Hd Hj Hc Hri. pose proof (ai_rx _ _ _ Hi) as Hrx1. destruct (ai_work _ _ _ Hi) as [reading Hwk1].
  apply (aio_inv_mono ph (k + 1) k w ltac:(lia)) in Hi. destruct Hi as [Hcf [rg Hwk] _ Htx Hda Hus Hse Hpr].
  destruct (config_distinct n Hco) as (_ & _ & _ & _ & _ & _ & _ & _ & _ & Hr0).
  rewrite Hri in Hwk1, Hwk.
  destruct (workers_body_rx starter_a finisher_a tx_a rx_a rxw txw (co_addresses _ Hco) k _ _ _ _ a c JDone Hwk Hj Hc eq_refl)
    as (Ha & rj' & Hrj & _). injection Hrj as Hcc _. subst c.
  assert (rx_job starter_a finisher_a rx_a (job self rx_a 0) = true) as Hrj by apply (proj1 (proj2 (job_channels n Hco))).
  unfold step_result. cbn [aio_step]. unfold work_step. rewrite Hd, Hj, (body_step_rx n) by done.
  assert (rxw <> 0) as Hw0 by (eapply phase_rx; [exact Hpr|by rewrite Hri]).
  destruct (co_rx _ Hco Hw0) as (Hcb & Hrd & _). unfold rx_inv in Hrx1. rewrite Hri in Hrx1.
  destruct Hrx1 as (st & ea & Hs & Hpi & Hlive & Hbl). rewrite (next_buffer _ _ _ _ Hs Hpi).
  destruct (rx_f_ok (2 * k) (ai w) st ea ltac:(lia) Hcf Hcb Hrd Hri Hs) as ([p' m'] & ea' & Hpi' & Hlive' & Hsub & ->);
    [eapply pool_inv_mono, Hpi; lia|done|].
  destruct (dispatch_ok k (ai w) (jobs w) _ _ rxw (job self rx_a 0) [job self rx_a 0; job self rx_a 0]
    (tx_jobs (tx_init (tx_task (inst (ai w)))) (waiting w)) Hk Hwk1 Hw0 Hr0) as [[He Hfull]|(ws & He & Hwk')];
    [by left|apply Hco|..].
  { destruct Hfull as (d0 & ? & ?). rewrite He. cbn. rewrite Hri. split_and!; [done| |done]. by exists rxw, d0. }
  destruct (workers_body_rx starter_a finisher_a tx_a rx_a rxw txw (co_addresses _ Hco) k _ _ _ _ a _ JDone Hwk' Hj Hc eq_refl)
    as (_ & rj2 & Hrj2 & Hwk2). injection Hrj2 as <-. rewrite He. cbn.
  split; destruct (free ea) as [|b l] eqn:Hfree; cbn; rewrite ?Hri, ?app_nil_r; try done.
  1-2: destruct Hcf; by constructor.
  1-2: by exists reading.
  1-2: unfold rx_inv; cbn; rewrite Hri; exists (p', m'), ea'; split_and!; try done; intros x Hx; by apply Hbl, Hsub.
  - apply (data_received ph n (2 * k)); try done. apply Hbl. left.
  - by rewrite foldl_app, <- Hus.
  - unfold transmitted in *. by rewrite omap_app, app_nil_r.
  - rewrite <- Hri. apply phase_job; [done|by rewrite Hj|done].
  - rewrite <- Hri. apply phase_job; [done|by rewrite Hj|done].
Qed.

(** ** Runs *)

Definition no_stop (ev : aio_event) : Prop := match ev with XStop _ => False | _ => True end.

Lemma body_job k (w : aio_world Q D C) reading a c :
  workers_have starter_a finisher_a tx_a rx_a rxw txw k (workers (ai w)) (jobs w)
    (rx_jobs reading (rx_init (rx_task (inst (ai w))))) (tx_jobs (tx_init (tx_task (inst (ai w)))) (waiting w)) ->
  jobs w !! a = Some (JBody c) -> rx_job starter_a finisher_a rx_a c = true \/ tx_job starter_a finisher_a tx_a c = true.
Proof.
  intros [H1 H2] Hj. destruct (H1 a (H2 _ _ Hj)) as (d & _ & [_ _ _ _ Hall]). rewrite Hj in Hall.
  apply Forall_cons in Hall as [Hc _]. by apply orb_true_iff in Hc.
Qed.

Lemma aio_work_step_ok n k w a :
  0 <= k -> config_ok n -> 2 * k <= n -> aio_inv Starting (k + 1) w -> is_worker rxw txw a ->
  step_result Starting k w (XWork a) (step w (XWork a)).
Proof.
  intros Hk Hco Hn Hi Ha. destruct (workers (ai w) !! a) as [d|] eqn:Hd.
  2: { unfold step_result. cbn. unfold work_step. rewrite Hd. eapply aio_inv_mono; [|done]. lia. }
  destruct (ai_work _ _ _ Hi) as [reading Hwk]. destruct (jobs w !! a) as [j|] eqn:Hj; [|by eapply take_job_ok].
  destruct (ai_proto _ _ _ Hi) as (g & Hpr). pose proof (pr_pcs _ _ _ _ _ _ _ _ _ Hpr a j Hj) as Hok.
  destruct (pr_states _ _ _ _ _ _ _ _ _ Hpr) as (_ & Hnr & Hnt).
  destruct j as [c| | | | | | | | |]; try (by destruct Hok); try (by eapply trigger_step_ok); [|by eapply finish_job_ok].
  destruct (body_job _ _ _ _ _ Hwk Hj) as [Hc|Hc].
  - destruct (workers_body_rx starter_a finisher_a tx_a rx_a rxw txw (co_addresses _ Hco) _ _ _ _ _ a c JDone Hwk Hj Hc eq_refl)
      as (_ & rj & Hrj & _).
    destruct (rx_init (rx_task (inst (ai w)))) eqn:E; try done; [by eapply starter_rx_ok|by eapply receive_ok].
  - destruct (workers_body_tx starter_a finisher_a tx_a rx_a rxw txw (co_addresses _ Hco) _ _ _ _ _ a c JDone Hwk Hj Hc eq_refl)
      as (_ & tj & Htj & _).
    destruct (tx_init (tx_task (inst (ai w)))) eqn:E; try done; [by eapply starter_tx_ok|].
    destruct (waiting w) eqn:Hwt; [done|]. eapply transmit_ok; try done. by left.
Qed.

Lemma aio_step_ok n k w ev :
  0 <= k -> config_ok n -> 2 * k <= n -> aio_inv Starting (k + 1) w -> aio_legal w ev -> no_stop ev ->
  step_result Starting k w ev (step w ev).
Proof.
  intros Hk Hco Hn Hi Hl Hns. pose proof (aio_inv_mono Starting (k + 1) k w ltac:(lia) Hi) as Hm.
  destruct ev as [t|t|t|t|a| |b bytes|b size f pr|b]; [by eapply start_step_ok|done| | | | | | |].
  - destruct (callers w !! t) as [c|] eqn:Hc; [|unfold step_result; cbn; by rewrite Hc].
    destruct (ai_proto _ _ _ Hi) as (g & Hpr). destruct (starting_caller _ _ _ _ _ _ _ _ _ _ _ Hpr Hc) as [Hg _].
    destruct g; try discriminate Hg; injection Hg as <-;
      [by eapply clear_step_ok|by eapply begin_rx_step_ok|by eapply begin_tx_step_ok
      |by eapply open_step_ok|by eapply wait_step_ok].
  - unfold step_result. cbn. destruct (callers w !! t) as [c|] eqn:Hc; [|done].
    destruct (ai_proto _ _ _ Hi) as (g & Hpr). destruct (starting_caller _ _ _ _ _ _ _ _ _ _ _ Hpr Hc) as [Hg _].
    destruct g; try discriminate Hg; injection Hg as <-; try done. by split; [|left].
  - eapply aio_work_step_ok; try done. destruct Hl as [? Hl]. split; [done|].
    by rewrite (cf_rx_worker _ (ai_configured _ _ _ Hi)), (cf_tx_worker _ (ai_configured _ _ _ Hi)) in Hl.
  - by eapply allocate_step_ok.
  - by eapply fill_step_ok.
  - by eapply send_step_ok.
  - by eapply token_release_ok.
Qed.

Abbreviation all_legal := (aio_all_legal self starter_a finisher_a tx_a rx_a (Some qr) (Some qt) read_f
  write_f rx_callback_f tx_notification_f gives_up now).

(** The events of a run satisfy [L] where they happen. *)
Fixpoint along (L : aio_world Q D C -> aio_event -> Prop) (w : aio_world Q D C) (evs : list aio_event) : Prop :=
  match evs with
  | [] => True
  | ev :: evs => L w ev /\ match step w ev with Ok w => along L w evs | Err _ => True end
  end.

Lemma along_no_stop w evs :
  all_legal w evs -> Forall no_stop evs -> along (fun w ev => aio_legal w ev /\ no_stop ev) w evs.
Proof.
  revert w. induction evs as [|ev evs IH]; intros w Hl Hn; [done|]. destruct Hl as [H1 H2].
  apply Forall_cons in Hn as [Hn1 Hn2]. split; [done|]. destruct (step w ev); [by apply IH|done].
Qed.

(** What a run leads to: a state with the invariant, or an assertion that fails at
    one of the steps at which it may. *)
Definition run_result (I : aio_world Q D C -> Prop) (w : aio_world Q D C) (evs : list aio_event) : Prop :=
  match run w evs with
  | Ok w' => I w'
  | Err f => f = AssertFailed /\
      exists pre ev post w', evs = pre ++ ev :: post /\ run w pre = Ok w' /\ stops w' ev
  end.

(** An invariant of the steps is one of the runs; it allows for [k] more steps. *)
Lemma run_invariant (I : Z -> aio_world Q D C -> Prop) L m :
  (forall k w ev, 0 <= k <= m -> I (k + 1) w -> L w ev ->
     match step w ev with Ok w' => I k w' | Err f => f = AssertFailed /\ stops w ev end) ->
  forall evs k w, 0 <= k -> k + zlen evs <= m -> I (k + zlen evs) w -> along L w evs -> run_result (I k) w evs.
Proof.
  intros HI evs. unfold run_result. induction evs as [|ev evs IH]; intros k w Hk Hm Hi Hl.
  - cbn. change (zlen []) with 0 in Hi. by replace (k + 0) with k in Hi by lia.
  - rewrite zlen_cons in *. pose proof (zlen_nonneg evs). destruct Hl as [Hl1 Hl2].
    replace (k + (zlen evs + 1)) with (k + zlen evs + 1) in Hi by lia.
    pose proof (HI (k + zlen evs) w ev ltac:(lia) Hi Hl1) as Hs.
    cbn [aio_run]. destruct (step w ev) as [w1|f] eqn:He; cbn [mbind result_bind].
    + specialize (IH k w1 Hk ltac:(lia) Hs Hl2). destruct (run w1 evs); [done|].
      destruct IH as [-> (pre & ev' & post & w' & -> & Hr & Hst)]. split; [done|].
      exists (ev :: pre), ev', post, w'. split_and!; [done| |done]. cbn [aio_run]. by rewrite He.
    + destruct Hs as [-> Hst]. split; [done|]. by exists [], ev, evs, w.
Qed.

Lemma aio_run_ok n evs k w :
  0 <= k -> config_ok n -> 2 * (k + zlen evs) <= n -> aio_inv Starting (k + zlen evs) w -> all_legal w evs ->
  Forall no_stop evs -> run_result (aio_inv Starting k) w evs.
Proof.
  intros Hk Hco Hn Hi Hl Hns. pose proof (zlen_nonneg evs).
  apply (run_invariant (aio_inv Starting) (fun w ev => aio_legal w ev /\ no_stop ev) (k + zlen evs));
    [|lia|lia|done|by apply along_no_stop].
  intros k1 w1 ev Hk1 Hi1 [Hl1 Hn1]. apply (aio_step_ok n); (done || lia).
Qed.

(** A service before it is started: configured, nothing under way, workers without
    calls. *)
Record idle_service (n : Z) (s : aio Q D C) : Prop := {
  is_configured : configured (inst s);
  is_init : init_state (inst s) = AsyncioUninitialized;
  is_rx_init : rx_init (rx_task (inst s)) = AsyncioUninitialized;
  is_tx_init : tx_init (tx_task (inst s)) = AsyncioUninitialized;
  is_stopped : stream_stopped (inst s) = true;
  is_workers : forall a, is_worker rxw txw a -> exists d, workers s !! a = Some d /\ dp_ok n d /\
    dp_calls d = [] /\ dp_busy d = false;
  is_user : user s = c0
}.

Lemma idle_inv n s : rxw <> 0 \/ txw <> 0 -> idle_service n s -> aio_inv Starting n (new_aio_world s).
Proof.
  intros Hch [Hcf H1 H2 H3 H5 Hw Hu]. split; cbn; rewrite ?H2, ?H3; try done.
  - exists false. split; [|by intros a j; rewrite lookup_empty]. intros a Ha.
    destruct (Hw a Ha) as (d & Hd & Hok & Hc & Hb). exists d. split; [done|]. rewrite lookup_empty.
    split; unfold work; cbn; rewrite ?Hc; try done.
    + by destruct (a =? rxw).
    + by destruct (a =? txw).
  - unfold rx_inv. by rewrite H2.
  - unfold tx_inv. by rewrite H3.
  - split; [by intros b Hb%elem_of_nil|by intros x Hx%elem_of_nil].
  - exists GNone. rewrite H1, H5. split; cbn; try done.
    + split; [by left|done].
    + split; [by left|done].
    + intros [?|?] [?|?]; try done. by destruct Hch.
Qed.

(** ** A service that is up stays up *)

Definition up (w : aio_world Q D C) : Prop := init_state (inst (ai w)) = AsyncioInitialized.

(** The transmissions that were freed without being written. *)
Definition dropped (h : list aio_done) : list sending :=
  omap (fun d => match d with DDropped x => Some x | _ => None end) h.

Lemma dispatch_inst (s s' : aio Q D C) a c b : dispatch s a c = Ok (s', b) -> inst s' = inst s.
Proof.
  unfold dispatch. destruct (a =? 0); [by intros [= <- _]|]. destruct (workers s !! a); [|done].
  intros H. apply bind_ok in H as ([d1 b1] & _ & H). by injection H as <- _.
Qed.

Definition keeps_init (s s' : aio Q D C) : Prop := init_state (inst s') = init_state (inst s).

Lemma dispatch_keeps (s s' : aio Q D C) a c b : dispatch s a c = Ok (s', b) -> keeps_init s s'.
Proof. intros H. unfold keeps_init. by rewrite (dispatch_inst _ _ _ _ _ H). Qed.

Lemma starter_keeps (s s' : aio Q D C) x : starter_body self rx_a (Some qr) (Some qt) s x = Ok s' -> keeps_init s s'.
Proof.
  unfold starter_body. destruct (x =? 0); intros H; apply bind_ok in H as ([[p b] m] & _ & H);
    destruct b; try done; cbn [cassert mbind result_bind] in H; [|by injection H as <-].
  apply bind_ok in H as ([s1 b1] & Hd & H). injection H as <-. by apply dispatch_keeps in Hd.
Qed.

Lemma finisher_keeps (s : aio Q D C) x : keeps_init s (finisher_body s x).
Proof.
  unfold finisher_body, keeps_init, cas. by destruct (x =? 0); destruct (bool_decide _).
Qed.

Lemma tx_keeps (s s' : aio Q D C) x : tx_f write_f tx_notification_f s x = Ok s' -> keeps_init s s'.
Proof.
  unfold tx_f. intros H. apply bind_ok in H as (s1 & H1 & H). apply bind_ok in H as (r & _ & H). injection H as <-.
  unfold keeps_init. cbn. destruct (is_initialized _); [|by injection H1 as <-].
  apply bind_ok in H1 as (rq & _ & H1). apply bind_ok in H1 as ([[u st] nn] & _ & H1). by injection H1 as <-.
Qed.

Lemma rx_keeps (s s' : aio Q D C) : rx_f self rx_a read_f rx_callback_f (fun s _ => Ok s) s = Ok s' -> keeps_init s s'.
Proof.
  unfold rx_f. destruct (is_initialized _); [|by intros [= <-]]. intros H. apply bind_ok in H as ([st r] & _ & H).
  destruct (nonnull _).
  - apply bind_ok in H as (u & _ & H). destruct (read_f _ _ _ _) as [[bytes m] u1].
    apply bind_ok in H as (s1 & H1 & H). apply bind_ok in H as ([s2 b] & Hd & H).
    apply bind_ok in H as (r2 & _ & H). injection H as <-. apply dispatch_keeps in Hd. unfold keeps_init in *. cbn.
    rewrite Hd. destruct (nonnull m); [|by injection H1 as <-].
    apply bind_ok in H1 as (u2 & _ & H1). by injection H1 as <-.
  - apply bind_ok in H as ([s2 b] & Hd & H). injection H as <-. apply dispatch_keeps in Hd. unfold keeps_init in *. by rewrite Hd.
Qed.

Lemma caller_up (w w' : aio_world Q D C) t c :
  caller_step self starter_a finisher_a gives_up now w t c = Ok w' -> up w -> up w' /\ hist w' = hist w.
Proof.
  unfold up. intros H Hu. destruct c; cbn [caller_step] in H;
    try (by injection H as <-);
    try (apply bind_ok in H as (b & _ & H); destruct b; by injection H as <-);
    apply bind_ok in H as (s & Hs & H); injection H as <-; cbn; split; try done.
  - unfold start_rx, asyncio_start_rx_thread in Hs. destruct (nonnull _); [|by injection Hs as <-].
    cbn [cassert mbind result_bind] in Hs. destruct (nonnull _); [|done]. cbn [cassert mbind result_bind] in Hs.
    apply bind_ok in Hs as ([s1 b] & Hd & Hs). injection Hs as <-. by rewrite (dispatch_inst _ _ _ _ _ Hd).
  - unfold start_tx, asyncio_start_tx_thread in Hs. destruct (nonnull _); [|by injection Hs as <-].
    apply bind_ok in Hs as ([s1 b] & Hd & Hs). injection Hs as <-. by rewrite (dispatch_inst _ _ _ _ _ Hd).
  - unfold asyncio_stop_rx_thread in Hs. destruct (cas _ _ _) as [st won]; destruct won.
    + apply bind_ok in Hs as ([s1 b] & Hd & Hs). injection Hs as <-. by rewrite (dispatch_inst _ _ _ _ _ Hd).
    + destruct (negb _); [|done]. by injection Hs as <-.
  - unfold asyncio_stop_tx_thread in Hs. destruct (cas _ _ _) as [st won]; destruct won.
    + apply bind_ok in Hs as ([s1 b] & Hd & Hs). injection Hs as <-. by rewrite (dispatch_inst _ _ _ _ _ Hd).
    + destruct (negb _); [|done]. by injection Hs as <-.
Qed.

Lemma body_up (w w' : aio_world Q D C) a c :
  body_step self starter_a finisher_a tx_a rx_a (Some qr) (Some qt) read_f write_f rx_callback_f
    tx_notification_f w a c = Ok w' -> up w -> up w' /\ dropped (hist w') = dropped (hist w).
Proof.
  unfold up, body_step. intros H Hu.
  destruct (fn c =? starter_a); [|destruct (fn c =? finisher_a); [|destruct (fn c =? tx_a); [|destruct (fn c =? rx_a); [|done]]]].
  - apply bind_ok in H as (s & Hs & H). injection H as <-. apply starter_keeps in Hs. cbn. by rewrite Hs.
  - injection H as <-. cbn. by rewrite finisher_keeps.
  - apply bind_ok in H as (s & Hs & H). injection H as <-. apply tx_keeps in Hs. cbn. rewrite Hs. split; [done|].
    unfold dropped. rewrite omap_app, Hu. destruct (waiting w); cbn; apply app_nil_r.
  - apply bind_ok in H as (s & Hs & H). injection H as <-. apply rx_keeps in Hs. cbn. rewrite Hs. split; [done|].
    unfold dropped. rewrite omap_app. destruct (is_initialized _); cbn; [|apply app_nil_r].
    unfold next_rx_buffer. destruct (rx_pool _) as [p|]; [|apply app_nil_r]. destruct (q p) as [qu|]; [|apply app_nil_r].
    destruct (bq_items qu); apply app_nil_r.
Qed.

Lemma client_up (w w' : aio_world Q D C) ev :
  match ev with XAllocate | XFill _ _ | XSend _ _ _ _ | XRelease _ => True | _ => False end ->
  step w ev = Ok w' -> up w -> up w' /\ dropped (hist w') = dropped (hist w).
Proof.
  unfold up. intros Hev H Hu. destruct ev as [t|t|t|t|a| |b bytes|b size f pr|b]; try done; cbn [aio_step] in H.
  - apply bind_ok in H as ([s tok] & Hs & H). unfold asyncio_allocate_tx_token in Hs.
    destruct (is_initialized _).
    + apply bind_ok in Hs as (r & _ & Hs). destruct (nonnull _); injection Hs as <- <-;
        destruct (nonnull _); by injection H as <-.
    + injection Hs as <- <-. by injection H as <-.
  - apply bind_ok in H as (buf & _ & H). by injection H as <-.
  - apply bind_ok in H as ([s' ok] & Hs & H). unfold asyncio_send_buffer in Hs.
    destruct (negb _ && _ && _ && _ && _).
    + apply bind_ok in Hs as (r & _ & Hs). apply bind_ok in Hs as ([s2 b2] & Hd & Hs). injection Hs as <- <-.
      apply dispatch_inst in Hd. cbn in H. destruct b2.
      * apply bind_ok in H as (r2 & _ & H). injection H as <-. cbn. by rewrite Hd.
      * injection H as <-. cbn. by rewrite Hd.
    + injection Hs as <- <-. by injection H as <-.
  - apply bind_ok in H as (s' & Hs & H). injection H as <-. unfold asyncio_release_tx_token in Hs.
    destruct (nonnull _ && _); [|by injection Hs as <-].
    apply bind_ok in Hs as (r & _ & Hs). by injection Hs as <-.
Qed.

Lemma step_up k w w' ev :
  aio_inv Starting k w -> no_stop ev -> step w ev = Ok w' -> up w -> up w' /\ dropped (hist w') = dropped (hist w).
Proof.
  intros Hi Hns H Hu. destruct ev as [t|t|t|t|a| |b bytes|b size f pr|b]; try (by refine (client_up w w' _ _ H Hu)); try done;
    cbn [aio_step] in H.
  - destruct (callers w !! t); [by injection H as <-|]. unfold start_begin, cas in H. unfold up in *.
    rewrite Hu in H. cbn in H. by injection H as <-.
  - destruct (callers w !! t); [|by injection H as <-]. destruct (caller_up _ _ _ _ H Hu) as [? ->]. done.
  - destruct (callers w !! t) as [[]|]; try (by injection H as <-); done.
  - unfold work_step in H. destruct (workers (ai w) !! a) as [d|]; [|by injection H as <-].
    destruct (jobs w !! a) as [j|] eqn:Hj.
    + destruct (ai_proto _ _ _ Hi) as (g & Hpr). pose proof (pr_pcs _ _ _ _ _ _ _ _ _ Hpr a j Hj) as Hok.
      destruct j; try (by destruct Hok); try (by injection H as <-); [by eapply body_up|].
      apply bind_ok in H as (d' & _ & H). by injection H as <-.
    + apply bind_ok in H as ([d' r] & _ & H). destruct r; by injection H as <-.
Qed.

Lemma run_up n evs : forall k w w',
  0 <= k -> config_ok n -> 2 * (k + zlen evs) <= n -> aio_inv Starting (k + zlen evs) w -> all_legal w evs ->
  Forall no_stop evs -> run w evs = Ok w' -> up w -> up w' /\ dropped (hist w') = dropped (hist w).
Proof.
  induction evs as [|ev evs IH]; intros k w w' Hk Hco Hn Hi Hl Hns Hr Hu; [by injection Hr as <-|].
  rewrite zlen_cons in *. pose proof (zlen_nonneg evs). destruct Hl as [Hl1 Hl2]. apply Forall_cons in Hns as [Hn1 Hn2].
  replace (k + (zlen evs + 1)) with (k + zlen evs + 1) in Hi by lia. cbn [aio_run] in Hr.
  apply bind_ok in Hr as (w1 & He & Hr). destruct (step_up _ _ _ _ Hi Hn1 He Hu) as [Hu1 Hd1].
  pose proof (aio_step_ok n (k + zlen evs) w ev ltac:(lia) Hco ltac:(lia) Hi Hl1 Hn1) as Hs. rewrite He in Hs, Hl2.
  destruct (IH k w1 w' Hk Hco ltac:(lia) Hs Hl2 Hn2 Hr Hu1) as [? Hd]. split; [done|congruence].
Qed.
End service.
