(* ===== verification/AsyncioGuarantees.v ===== *)
(** What the asynchronous I/O service promises its clients: how it starts, what
    becomes of the data that is sent and received, and what its clients may not do.
    The witnesses run it on two dispatch queues of the c11 port. *)
From S2P Require Import Prelude TsQueue Pool EventFlag DispatchQueue Dispatcher Asyncio AsyncioRun.
From S2P Require Import AsyncioService.
From stdpp Require Import list gmap.
From Stdlib Require Import ZArith Lia.
Local Open Scope Z_scope.

#[local] Arguments pool_free : simpl never.
#[local] Arguments pool_alloc : simpl never.

Section guarantees.
Context {Q : Type} `{!BoundedQueue Q} `{!BoundedQueueLaws Q}.
Context {D : Type} `{!Dispatcher D} `{!DispatcherLaws D} {C : Type}.
Context (self starter_a finisher_a tx_a rx_a : Z) (qr qt : Q).
Context (read_f : Z -> Z -> Z -> C -> list Z * Z * C)
        (write_f : Z -> Z -> list Z -> Z -> C -> Z * C)
        (rx_callback_f : Z -> Z -> list Z -> Z -> C -> C)
        (tx_notification_f : Z -> Z -> asyncio_tx_send_status_e -> Z -> Z -> C -> C).
Context (gives_up : Z -> bool) (now : timespec).

Abbreviation step := (aio_step self starter_a finisher_a tx_a rx_a (Some qr) (Some qt) read_f write_f
  rx_callback_f tx_notification_f gives_up now).
Abbreviation run := (aio_run self starter_a finisher_a tx_a rx_a (Some qr) (Some qt) read_f write_f
  rx_callback_f tx_notification_f gives_up now).
Abbreviation all_legal := (aio_all_legal self starter_a finisher_a tx_a rx_a (Some qr) (Some qt) read_f
  write_f rx_callback_f tx_notification_f gives_up now).

(** A service that can be started, for [n] steps: configured by [p], with what [p] has
    to provide, nothing under way, and workers without calls. *)
Record service_ready (n : Z) (p : asyncio_create_params_t) (s : aio Q D C) : Prop := {
  sr_idle : idle_service (ap_rx_worker p) (ap_tx_worker p) (ap_rx_pool_params p) (ap_tx_pool_params p)
    (ap_rx_callback p) (ap_read_f p) (ap_write_f p) (ap_tx_buffer_offset p) (ap_tx_write_timeout p)
    (ap_tx_max_chunk_size p) false (user s) n s;
  sr_config : config_ok starter_a finisher_a tx_a rx_a qr qt (ap_rx_worker p) (ap_tx_worker p)
    (ap_rx_pool_params p) (ap_tx_pool_params p) (ap_rx_callback p) (ap_read_f p) (ap_write_f p)
    (ap_tx_buffer_offset p) (2 * n)
}.

Abbreviation inv p c0 := (aio_inv self starter_a finisher_a tx_a rx_a read_f write_f rx_callback_f tx_notification_f
  (ap_rx_worker p) (ap_tx_worker p) (ap_rx_pool_params p) (ap_tx_pool_params p) (ap_rx_callback p)
  (ap_read_f p) (ap_write_f p) (ap_tx_buffer_offset p) (ap_tx_write_timeout p) (ap_tx_max_chunk_size p)
  false c0).

(** One that [asyncio_create_instance] has made in zeroed storage is. *)
Lemma created_ready n p s old :
  zeroed old -> asyncio_create_instance p old true true = Ok (inst s) ->
  config_ok starter_a finisher_a tx_a rx_a qr qt (ap_rx_worker p) (ap_tx_worker p)
    (ap_rx_pool_params p) (ap_tx_pool_params p) (ap_rx_callback p) (ap_read_f p) (ap_write_f p)
    (ap_tx_buffer_offset p) (2 * n) ->
  (forall a, is_worker (ap_rx_worker p) (ap_tx_worker p) a ->
    exists d, workers s !! a = Some d /\ dp_ok n d /\ dp_calls d = [] /\ dp_busy d = false) ->
  service_ready n p s.
Proof.
  intros (Hi & Hr & _ & Ht & _) Hc Hco Hw. split; [|done].
  unfold asyncio_create_instance in Hc. destruct (_ && _ && _); [|done]. destruct (_ || _); [|done].
  cbn [cassert mbind result_bind event_flag_new andb] in Hc.
  apply bind_ok in Hc as (rx & Hrx & Hc). apply bind_ok in Hc as (tx & Htx & Hc).
  unfold asyncio_configure_rx_thread in Hrx. unfold asyncio_configure_tx_thread in Htx.
  rewrite Hr in Hrx. rewrite Ht in Htx. cbn [is_uninitialized cassert mbind result_bind] in Hrx, Htx.
  apply bind_ok in Hrx as (n1 & _ & Hrx). apply bind_ok in Htx as (n2 & _ & Htx).
  injection Hrx as <-. injection Htx as <-. injection Hc as Hc.
  split; rewrite <- ?Hc; done.
Qed.

Lemma service_ready_inv n p s : service_ready n p s -> inv p (user s) Starting n (new_aio_world s).
Proof. intros [Hi Hco]. apply idle_inv; [apply Hco|done]. Qed.

(** The run of a service that is ready. *)
Lemma ready_run p s evs :
  service_ready (zlen evs) p s -> all_legal (new_aio_world s) evs -> Forall no_stop evs ->
  run_result self starter_a finisher_a tx_a rx_a qr qt read_f write_f rx_callback_f tx_notification_f gives_up now
    (inv p (user s) Starting 0) (new_aio_world s) evs.
Proof.
  intros Hr Hl Hn. pose proof (service_ready_inv _ _ _ Hr) as Hi. pose proof (zlen_nonneg evs).
  eapply aio_run_ok with (n := 2 * zlen evs); try done; try lia.
  apply Hr.
Qed.

(** ** Starting *)

(** A call of the start that a worker still has to make or is making. *)
Definition start_pending (w : aio_world Q D C) : Prop :=
  (exists a j, jobs w !! a = Some j /\ triggering j) \/
  (exists a d c, workers (ai w) !! a = Some d /\ c ∈ work (jobs w !! a) d /\ fn c = starter_a).

Lemma filter_singleton (f : dispatch_queue_post_data_t -> bool) l c : List.filter f l = [c] -> c ∈ l.
Proof.
  intros H. assert (List.In c (List.filter f l)) as Hin by (rewrite H; by left).
  apply List.filter_In in Hin as [Hin _]. by apply list_elem_of_In.
Qed.

(** Every configured channel is up, and the stream is open. *)
Definition service_up (p : asyncio_create_params_t) (w : aio_world Q D C) : Prop :=
  init_state (inst (ai w)) = AsyncioInitialized /\ stream_stopped (inst (ai w)) = false /\
  is_started (ap_rx_worker p) (rx_init (rx_task (inst (ai w)))) /\
  is_started (ap_tx_worker p) (tx_init (tx_task (inst (ai w)))).

(** A channel on its way up still has the call that starts it. *)
Lemma starting_pending n k p c0 w :
  config_ok starter_a finisher_a tx_a rx_a qr qt (ap_rx_worker p) (ap_tx_worker p)
    (ap_rx_pool_params p) (ap_tx_pool_params p) (ap_rx_callback p) (ap_read_f p) (ap_write_f p)
    (ap_tx_buffer_offset p) n ->
  inv p c0 Starting k w ->
  (rx_init (rx_task (inst (ai w))) = AsyncioInitializing -> ap_rx_worker p <> 0 -> start_pending w) /\
  (tx_init (tx_task (inst (ai w))) = AsyncioInitializing -> ap_tx_worker p <> 0 -> start_pending w).
Proof.
  intros Hco Hi. destruct (ai_work _ _ _ _ _ _ _ _ _ _ _ _ _ _ _ _ _ _ _ _ _ _ _ _ Hi) as [reading [Hw _]].
  split; intros Hst Ha; right.
  - destruct (Hw (ap_rx_worker p)) as (d & Hd & Hh); [by split; [|left]|].
    pose proof (wh_rx _ _ _ _ _ _ _ _ _ _ _ _ Hh) as Hf. rewrite Z.eqb_refl, Hst in Hf.
    exists (ap_rx_worker p), d, (job self starter_a 0). split_and!; [done|by eapply filter_singleton|done].
  - destruct (Hw (ap_tx_worker p)) as (d & Hd & Hh); [by split; [|right]|].
    pose proof (wh_tx _ _ _ _ _ _ _ _ _ _ _ _ Hh) as Hf. rewrite Z.eqb_refl, Hst in Hf.
    exists (ap_tx_worker p), d, (job self starter_a 1). split_and!; [done|by eapply filter_singleton|done].
Qed.

(** C5: starting.  However many threads call [asyncio_start] and however their
    steps, the workers' and the senders' are interleaved, at most one call returns
    true; when it does, every configured channel is up and the stream is open.  A
    call that waits either sees the flag or a worker still has a part of the start
    to make, so that no start waits for nothing.  As long as nobody stops the
    service, the program stops only where a wait runs out of time or a worker's
    queue is full when it is posted to. *)
Theorem asyncio_starts p s evs :
  service_ready (zlen evs) p s -> all_legal (new_aio_world s) evs -> Forall no_stop evs ->
  match run (new_aio_world s) evs with
  | Ok w => (length (wins (results w)) <= 1)%nat /\
      (wins (results w) <> [] -> service_up p w) /\
      (forall t, callers w !! t = Some CStartWait ->
         wait_flag gives_up now w STREAM_STARTED_FLAG = Ok true \/ start_pending w)
  | Err f => f = AssertFailed /\
      exists pre ev post w', evs = pre ++ ev :: post /\ run (new_aio_world s) pre = Ok w' /\ stops w' ev
  end.
Proof.
  intros Hr Hl Hn. pose proof (ready_run p s evs Hr Hl Hn) as H.
  unfold run_result in H. destruct (run (new_aio_world s) evs) as [w|f]; [|done].
  destruct (ai_proto _ _ _ _ _ _ _ _ _ _ _ _ _ _ _ _ _ _ _ _ _ _ _ _ H) as (g & Hpr).
  pose proof Hpr as [H1 H2 H3 H4 H5 H6 H7 H8 H9 H10 H11 H12]. split_and!.
  - rewrite H2. destruct g; lia.
  - intros Hw. assert (g = GOver) as -> by (destruct g; try done; by destruct (wins (results w))).
    destruct (H9 (H10 eq_refl)). by split_and!; [apply H10| |..].
  - intros t Ht. destruct (starting_caller _ _ _ _ _ _ _ _ _ _ _ _ _ Hpr Ht) as [Hg _].
    destruct g; try discriminate Hg. destruct (starting_pending _ _ _ _ _ (sr_config _ _ _ Hr) H) as [Hpr1 Hpt1].
    assert (forall wk st, (st = AsyncioUninitialized <-> false = true \/ wk = 0) -> st <> AsyncioUninitializing ->
      is_started wk st \/ st = AsyncioInitializing /\ wk <> 0) as Hcase.
    { intros wk st [Hs1 Hs2] Hs3. unfold is_started. destruct (decide (wk = 0)); [tauto|].
      destruct st; try tauto. by destruct (Hs1 eq_refl). }
    assert (false = true <-> False) as Hff by done. cbn in H5, H6.
    destruct (Hcase _ _ ltac:(rewrite H5; naive_solver) (proj1 (proj2 H4))) as [Hrs|[Hri Hw]]; [|right; by apply Hpr1].
    destruct (Hcase _ _ ltac:(rewrite H6; naive_solver) (proj2 (proj2 H4))) as [Hts|[Hti Hw]]; [|right; by apply Hpt1].
    destruct (H12 Hrs Hts) as [Hv|Htr]; [left; by rewrite <- Hv; apply (wait_flag_bit _ _ _ 0)|right; by left].
Qed.

(** ** Transmitting *)

Lemma run_app (w : aio_world Q D C) pre post :
  run w (pre ++ post) = w1 ← run w pre; run w1 post.
Proof.
  revert w. induction pre as [|ev pre IH]; intros w; [done|]. cbn.
  destruct (step w ev); cbn; [apply IH|done].
Qed.

Lemma all_legal_app (w : aio_world Q D C) pre post :
  all_legal w (pre ++ post) ->
  all_legal w pre /\ forall w1, run w pre = Ok w1 -> all_legal w1 post.
Proof.
  revert w. induction pre as [|ev pre IH]; intros w; cbn.
  - intros H. split; [done|]. by intros w1 [= <-].
  - intros [H1 H2]. destruct (step w ev) as [w'|f]; cbn; [|done].
    destruct (IH w' H2) as [H3 H4]. done.
Qed.

(** The transmit channel's calls at its worker are those of the waiting data. *)
Definition tx_calls (p : asyncio_create_params_t) (w : aio_world Q D C) : Prop :=
  exists d, workers (ai w) !! ap_tx_worker p = Some d /\
    List.filter (tx_job starter_a finisher_a tx_a) (work (jobs w !! ap_tx_worker p) d) =
      (fun x => job self tx_a (sd_token x)) <$> waiting w.


(** ** Receiving *)


(** Releasing the message that the callback is given. *)
Definition release_message (s : aio Q D C) (message : Z) : result (aio Q D C) :=
  s' ← asyncio_release_rx_buffer (Some s) message; Ok (default s s').

(** C33: a received message.  [rx_f] reads into a free buffer, hands it to the
    callback, posts itself, and gives the buffer back itself: with a callback that
    leaves the buffer alone all buffers are free again.  A callback that releases
    the message with [asyncio_release_rx_buffer] makes [rx_f] free the buffer a second
    time, which stops the program. *)
Theorem asyncio_release_in_callback n (s : aio Q D C) st ea b l d bytes m u :
  0 <= n -> rx_init (rx_task (inst s)) = AsyncioInitialized -> rx_state (rx_task (inst s)) = Some st ->
  pool_inv (n + 2) st ea -> free ea = b :: l -> live ea = ∅ -> rx_callback (rx_task (inst s)) <> 0 ->
  f_stream_interface_read (inst s) <> 0 ->
  read_f (f_stream_interface_read (inst s)) b 1000 (user s) = (bytes, m, u) -> m <> 0 ->
  rx_worker (rx_task (inst s)) <> 0 -> workers s !! rx_worker (rx_task (inst s)) = Some d ->
  dp_ok 1 d -> 0 < dp_room d -> rx_a <> 0 ->
  (exists s' st' ea', rx_f self rx_a read_f rx_callback_f (fun s _ => Ok s) s = Ok s' /\
     rx_state (rx_task (inst s')) = Some st' /\ pool_inv n st' ea' /\ free ea' = l ++ [b] /\
     user s' = rx_callback_f (rx_callback (rx_task (inst s))) b bytes m u) /\
  rx_f self rx_a read_f rx_callback_f release_message s = Err AssertFailed.
Proof.
  intros Hn Hri Hs Hpi Hfree Hlive Hcb Hrd Hread Hm Hw Hd Hok Hroom Hra.
  destruct (dp_async_room 0 d (job self rx_a 0) ltac:(lia) Hok Hra Hroom) as (d' & Hda & _). split.
  - pose proof (Build_configured _ _ _ _ _ _ _ _ _ _ _ (inst s) eq_refl eq_refl eq_refl eq_refl eq_refl
      eq_refl eq_refl eq_refl eq_refl eq_refl eq_refl) as Hcf.
    destruct (rx_some self rx_a read_f rx_callback_f _ _ _ _ _ _ _ _ _ _ _ n s st ea b l Hn Hcf Hcb Hrd Hri Hs Hpi
      Hfree Hlive) as (st' & Hpi' & ->).
    unfold dispatch. rewrite (proj2 (Z.eqb_neq _ 0) Hw), Hd, Hda. cbn.
    eexists _, st', _. split; [reflexivity|]. split_and!; [by destruct st'|exact Hpi'|done|].
    cbn. unfold receive. rewrite Hread. unfold nonnull. by rewrite (proj2 (Z.eqb_neq _ 0) Hm).
  - replace (n + 2) with (n + 1 + 1) in Hpi by lia.
    destruct (pool_alloc_ok (n + 1) st ea b l ltac:(lia) Hpi Hfree) as ([p1 m1] & Ha & Hpi1).
    pose proof (proj1 (pi_free _ _ _ Hpi b ltac:(rewrite Hfree; left))) as Hb0.
    destruct (pool_free_ok n _ _ b Hn Hpi1) as ([p2 m2] & calls & Hf & Hpi2).
    { cbn. rewrite Hfree. cbn. rewrite lookup_insert_eq. by eexists. }
    assert (b ∈ free (fst (apool_step (fst (apool_step ea (PAlloc 0 0))) (PFree b)))) as Hbf.
    { cbn. rewrite Hfree. cbn. rewrite lookup_insert_eq. cbn. apply elem_of_app. right. by left. }
    pose proof (pool_free_twice _ _ _ _ Hpi2 Hbf) as Hf2.
    assert (forall x, x <> 0 -> nonnull x = true) as Hnn by (intros x Hx; unfold nonnull; by rewrite (proj2 (Z.eqb_neq x 0))).
    pose proof (Hnn _ Hb0) as Hb1.
    unfold rx_f. rewrite Hri, Hs, Ha. cbn [is_initialized mbind result_bind fst snd]. rewrite Hb1. cbn.
    rewrite (Hnn _ Hrd). cbn. rewrite Hread, (Hnn _ Hm). cbn. rewrite (Hnn _ Hcb). cbn.
    unfold release_message, asyncio_release_rx_buffer. rewrite Hb1. unfold rx_state. cbn. rewrite Hf. cbn.
    unfold dispatch. cbn. rewrite (proj2 (Z.eqb_neq _ 0) Hw), Hd, Hda.
    cbn. unfold rx_state. cbn. by rewrite Hf2.
Qed.

(** ** Stopping *)

Lemma same_init (s : aio Q D C) st : init_state (inst s) = st -> with_inst s (set_init (inst s) st) = s.
Proof. intros <-. destruct s as [i ? ? ? ?]. by destruct i. Qed.

(** A state from which neither a start nor a stop leads anywhere. *)
Definition wedged (s : aio Q D C) : Prop := forall others waited,
  asyncio_start self starter_a s others waited = Ok (s, false) /\
  asyncio_stop self finisher_a s others waited = Ok s.

Lemma uninitializing_wedged (s : aio Q D C) : init_state (inst s) = AsyncioUninitializing -> wedged s.
Proof.
  intros Hi others waited. unfold asyncio_start, start_begin, asyncio_stop, stop_begin, cas. rewrite Hi.
  rewrite !bool_decide_eq_false_2 by done. cbv beta iota. by rewrite same_init.
Qed.

(** Posting to two workers. *)
Lemma dispatch_room (s : aio Q D C) a d c :
  a <> 0 -> workers s !! a = Some d -> dp_ok 1 d -> 0 < dp_room d -> fn c <> 0 ->
  exists d', dispatch s a c = Ok (with_workers s (<[a := d']> (workers s)), true) /\
    dp_calls d' = dp_calls d ++ [c].
Proof.
  intros Ha Hd Hok Hr Hf. destruct (dp_async_room 0 d c ltac:(lia) Hok Hf Hr) as (d' & Hs & _ & Hc & _).
  exists d'. unfold dispatch. rewrite (proj2 (Z.eqb_neq a 0)), Hd, Hs by done. done.
Qed.

(** Stopping.  [asyncio_stop] does nothing unless the service is up.  On a service
    that is up it closes the stream, marks both channels, posts the function that
    takes each down to its worker, and waits.  A channel that is still starting
    stops the program.  On a service that is up while its start has not opened the
    stream yet, it only marks the service as stopping: nothing takes it down, and
    from then on every start returns false and every stop does nothing. *)
Theorem asyncio_stop_outcome (s : aio Q D C) others waited d1 d2 :
  let i := inst s in
  finisher_a <> 0 ->
  (init_state i <> AsyncioInitialized -> asyncio_stop self finisher_a s others waited = Ok s) /\
  (init_state i = AsyncioInitialized -> stream_stopped i = true ->
     exists s', asyncio_stop self finisher_a s others waited = Ok s' /\
       s' = with_inst s (set_init i AsyncioUninitializing) /\ wedged s') /\
  (init_state i = AsyncioInitialized -> stream_stopped i = false -> rx_init (rx_task i) = AsyncioInitializing ->
     asyncio_stop self finisher_a s others waited = Err AssertFailed) /\
  (init_state i = AsyncioInitialized -> stream_stopped i = false ->
   rx_init (rx_task i) = AsyncioInitialized -> tx_init (tx_task i) = AsyncioInitialized ->
   rx_worker (rx_task i) <> 0 -> tx_worker (tx_task i) <> 0 -> rx_worker (rx_task i) <> tx_worker (tx_task i) ->
   workers s !! rx_worker (rx_task i) = Some d1 -> workers s !! tx_worker (tx_task i) = Some d2 ->
   dp_ok 1 d1 -> dp_ok 1 d2 -> 0 < dp_room d1 -> 0 < dp_room d2 ->
   exists s1 e1 e2, asyncio_stop self finisher_a s others waited = (s2 ← others s1; assert! waited ;; Ok s2) /\
     init_state (inst s1) = AsyncioUninitializing /\ stream_stopped (inst s1) = true /\
     Z.land (val (stream_flag (inst s1))) STREAM_STOPPED_FLAG = 0 /\
     rx_init (rx_task (inst s1)) = AsyncioUninitializing /\ tx_init (tx_task (inst s1)) = AsyncioUninitializing /\
     workers s1 !! rx_worker (rx_task i) = Some e1 /\ dp_calls e1 = dp_calls d1 ++ [job self finisher_a 0] /\
     workers s1 !! tx_worker (tx_task i) = Some e2 /\ dp_calls e2 = dp_calls d2 ++ [job self finisher_a 1]).
Proof.
  intros i Hf. unfold asyncio_stop, stop_begin, cas. fold i. split_and!.
  - intros Hi. rewrite bool_decide_eq_false_2 by done. cbv beta iota. by rewrite same_init.
  - intros Hi Hs. rewrite Hi, bool_decide_eq_true_2 by done. cbn. fold i. rewrite Hs. cbn.
    eexists. split; [reflexivity|]. split; [done|]. by apply uninitializing_wedged.
  - intros Hi Hs Hr. rewrite Hi, bool_decide_eq_true_2 by done. cbn. fold i. rewrite Hs. cbn.
    unfold asyncio_stop_rx_thread, cas. cbn. fold i. by rewrite Hr.
  - intros Hi Hs Hr Ht Hw1 Hw2 Hne Hd1 Hd2 Ho1 Ho2 Hr1 Hr2. rewrite Hi, bool_decide_eq_true_2 by done. cbn.
    fold i. rewrite Hs. cbn. unfold asyncio_stop_rx_thread, cas. cbn. fold i.
    rewrite Hr, bool_decide_eq_true_2 by done.
    match goal with |- context [dispatch ?x _ _] =>
      destruct (dispatch_room x (rx_worker (rx_task i)) d1 (job self finisher_a 0) Hw1 Hd1 Ho1 Hr1 Hf) as (e1 & -> & He1) end.
    cbn. unfold asyncio_stop_tx_thread, cas. cbn. fold i. rewrite Ht, bool_decide_eq_true_2 by done.
    match goal with |- context [dispatch ?x _ _] =>
      destruct (dispatch_room x (tx_worker (tx_task i)) d2 (job self finisher_a 1) Hw2) as (e2 & -> & He2) end; try done.
    { cbn. by rewrite lookup_insert_ne. }
    cbn. eexists _, e1, e2. split; [reflexivity|]. cbn. split_and!; try done.
    + rewrite <- Z.land_assoc. apply Z.land_0_r.
    + rewrite lookup_insert_ne by done. by rewrite lookup_insert_eq.
    + by rewrite lookup_insert_eq.
Qed.
End guarantees.

(** ** Witnesses, on the c11 port *)

#[local] Instance ex_bq : BoundedQueue ts_queue_t := port_queue thrd_timedout ex_now.

#[local] Instance ex_bq_laws : BoundedQueueLaws ts_queue_t.
Proof. apply (port_queue_laws thrd_timedout ltac:(discriminate) ex_now). Qed.

#[local] Instance ex_dispatcher : Dispatcher (worker_queue ts_queue_t) := queue_dispatcher 7 2.

#[local] Instance ex_dispatcher_laws : DispatcherLaws (worker_queue ts_queue_t).
Proof. apply (queue_dispatcher_laws 7 2 c11_gives_up ex_now). Qed.

#[local] Instance aio_all_legal_dec {Q D C} `{!BoundedQueue Q} `{!Dispatcher D} a b c d e q1 q2 r wf cf nf g n
  (w : aio_world Q D C) evs : Decision (aio_all_legal a b c d e q1 q2 r wf cf nf g n w evs).
Proof.
  revert w. induction evs as [|ev evs IH]; intros w; cbn; [apply _|]. apply and_dec.
  - destruct ev; cbn; apply _.
  - destruct (aio_step _ _ _ _ _ _ _ _ _ _ _ _ _ w ev); [apply IH|apply _].
Defined.

Definition ex_tx_params : pool_create_params_t :=
  {| pp_pool := true; pp_num_of_elements := 2; pp_element_size_requested := 24;
     pp_total_element_size := 64; pp_backing := 5000; pp_offset_data_from_header := 32 |}.

Definition ex_aio_params : asyncio_create_params_t :=
  {| ap_stream_name := [65]; ap_instance := true; ap_read_f := 22; ap_write_f := 21; ap_rx_callback := 23;
     ap_client_data := 0; ap_rx_worker := 500; ap_rx_pool_params := ex_pool_params 2; ap_tx_worker := 600;
     ap_tx_pool_params := ex_tx_params; ap_tx_max_chunk_size := 8; ap_tx_write_timeout := 4000;
     ap_tx_buffer_offset := 16 |}.

Definition ex_old : asyncio_interface_instance_t ts_queue_t :=
  {| rx_task := {| rx_worker := 0; rx_pool_params := ex_pool_params 0; rx_pool := None;
                   rx_thread_name := replicate 40 0; rx_callback := 0; rx_client_data := 0;
                   rx_init := AsyncioUninitialized; rx_memory := ex_memory |};
     tx_task := {| tx_worker := 0; tx_pool_params := ex_pool_params 0; tx_thread_name := replicate 40 0;
                   tx_pool := None; max_tx_data_chunk_size := 0; tx_write_timeout := 0; tx_buffer_offset := 0;
                   tx_init := AsyncioUninitialized; tx_memory := ex_memory |};
     f_stream_interface_read := 0; f_stream_interface_write := 0; is_in_error := false;
     stream_stopped := false; stream_name := []; stream_flag := {| val := 0 |};
     init_state := AsyncioUninitialized |}.

Definition ex_aio : result (aio ts_queue_t (worker_queue ts_queue_t) (list Z)) :=
  i ← asyncio_create_instance ex_aio_params ex_old true true;
  d ← ex_create;
  let d := {| wq := d; wq_running := None |} in
  Ok {| inst := i; requests := ∅; buffers := ∅; workers := <[500 := d]> {[600 := d]}; user := [] |}.

Definition ex_read (f buf timeout : Z) (u : list Z) : list Z * Z * list Z := ([9; 9], 2, u ++ [f]).
Definition ex_write (f size : Z) (bytes : list Z) (timeout : Z) (u : list Z) : Z * list Z :=
  (size, u ++ f :: bytes).
Definition ex_rx_callback (f buf : Z) (bytes : list Z) (size : Z) (u : list Z) : list Z := u ++ [f; buf].
Definition ex_notified (f token : Z) (st : asyncio_tx_send_status_e) (n private : Z) (u : list Z) : list Z :=
  u ++ [f; token].

Definition ex_aio_run := aio_run 1 11 12 13 14 (Some ex_pool_queue) (Some ex_pool_queue) ex_read ex_write
  ex_rx_callback ex_notified c11_gives_up ex_now.

(** Two threads start; the transmit channel comes up first, and what is sent then is
    dropped; what is sent when the service is up is written. *)
Definition ex_aio_events : list aio_event :=
  [XStart 1; XStart 2; XCaller 1; XCaller 1; XCaller 1; XCaller 1; XWork 600; XWork 600;
   XAllocate; XFill 5032 [1; 2]; XSend 5032 2 31 0; XWork 600; XWork 600; XWork 600; XWork 600; XWork 600; XWork 600;
   XWork 500; XWork 500; XWork 500; XWork 500; XWork 500; XWork 500; XWork 500; XCaller 1;
   XAllocate; XFill 5096 [3; 4]; XSend 5096 2 31 0; XWork 600; XWork 600; XWork 600;
   XWork 500; XWork 500; XWork 500; XAllocate].

Abbreviation ex_ready := (service_ready (C := list Z) 11 12 13 14 ex_pool_queue ex_pool_queue).

Lemma ex_aio_ready n : 0 <= n <= 200 ->
  exists s, ex_aio = Ok s /\ ex_ready n ex_aio_params s /\ user s = [].
Proof.
  intros Hn. destruct (created_queue_ok 7 n ex_dispatch_params ex_pool_queue ex_pool_queue ex_memory ∅ 1 ltac:(lia)
    (ex_dispatch_ok (3 * n) ltac:(lia)) ltac:(lia)) as (d & Hd & Hok & Hcalls & Hbusy).
  unfold ex_aio. change (asyncio_create_instance ex_aio_params ex_old true true) with
    (Ok (default ex_old (match asyncio_create_instance ex_aio_params ex_old true true with
                         | Ok i => Some i | Err _ => None end))) at 1.
  cbn [mbind result_bind]. unfold ex_create. rewrite Hd. cbn [mbind result_bind].
  eexists. split; [reflexivity|]. split; [|done].
  apply (created_ready _ _ _ _ _ _ _ _ _ ex_old); [done|reflexivity|..].
  - split; try (by apply (bool_decide_unpack _)).
    + intros _. split_and!; [done|done|]. cbn. eapply create_ok_mono, (ex_create_ok 400 2); [lia|lia|by right].
    + intros _. split; [done|]. cbn. eapply create_ok_mono with (n := 400); [lia|].
      split; try done; try (by apply (bool_decide_unpack _)). cbn.
      apply (co_queue _ _ _ (ex_create_ok 400 2 ltac:(lia) ltac:(by right))).
    + intros b Hb. cbn in Hb |- *. apply elem_of_cons in Hb as [->|Hb]; [by apply (bool_decide_unpack _)|].
      apply list_elem_of_singleton in Hb as ->. by apply (bool_decide_unpack _).
  - intros a [_ Ha]. cbn in Ha |- *. exists {| wq := d; wq_running := None |}.
    split; [by destruct Ha as [->| ->]|]. by split_and!.
Qed.

Lemma ex_aio_legal s : ex_aio = Ok s ->
  aio_all_legal 1 11 12 13 14 (Some ex_pool_queue) (Some ex_pool_queue) ex_read ex_write ex_rx_callback
    ex_notified c11_gives_up ex_now (new_aio_world s) ex_aio_events.
Proof.
  intros Hs.
  assert (match ex_aio with
    | Ok s => bool_decide (aio_all_legal 1 11 12 13 14 (Some ex_pool_queue) (Some ex_pool_queue) ex_read ex_write
        ex_rx_callback ex_notified c11_gives_up ex_now (new_aio_world s) ex_aio_events)
    | Err _ => false end = true) as H by (vm_compute; reflexivity).
  rewrite Hs in H. by apply bool_decide_eq_true in H.
Qed.

Lemma ex_aio_no_stop : Forall no_stop ex_aio_events.
Proof. repeat constructor. Qed.

Definition ex_sending (token : Z) (bytes : list Z) : sending :=
  {| sd_token := token; sd_data := bytes;
     sd_request := {| rq_size := 2; buffer_offset := 16; rq_fn := 31; rq_private := 0 |} |}.

(** What the run leaves. *)
Lemma ex_aio_result s : ex_aio = Ok s ->
  exists w, ex_aio_run (new_aio_world s) ex_aio_events = Ok w /\ wins (results w) = [1%nat] /\
    hist w = [DDropped (ex_sending 5032 [1; 2]); DWritten (ex_sending 5096 [3; 4]); DReceived 1032] /\
    user (ai w) = [21; 3; 4; 31; 5096; 22; 23; 1032] /\ held w = [5032] /\
    is_initialized (rx_init (rx_task (inst (ai w)))) = true /\
    is_initialized (tx_init (tx_task (inst (ai w)))) = true.
Proof.
  intros Hs.
  assert (match ex_aio with
    | Ok s => match ex_aio_run (new_aio_world s) ex_aio_events with
              | Ok w => Some (wins (results w), hist w, user (ai w), held w,
                  is_initialized (rx_init (rx_task (inst (ai w)))), is_initialized (tx_init (tx_task (inst (ai w)))))
              | Err _ => None end
    | Err _ => None end =
    Some ([1%nat], [DDropped (ex_sending 5032 [1; 2]); DWritten (ex_sending 5096 [3; 4]); DReceived 1032],
      [21; 3; 4; 31; 5096; 22; 23; 1032], [5032], true, true)) as H by (vm_compute; reflexivity).
  rewrite Hs in H. destruct (ex_aio_run _ _) as [w|f]; [|discriminate H].
  injection H as H1 H2 H3 H4 H5 H6. exists w. by split_and!.
Qed.

Lemma asyncio_starts_witness :
  exists s w, ex_aio = Ok s /\ ex_aio_run (new_aio_world s) ex_aio_events = Ok w /\
    wins (results w) = [1%nat] /\ service_up ex_aio_params w.
Proof.
  destruct (ex_aio_ready (zlen ex_aio_events) ltac:(vm_compute; split; discriminate)) as (s & Hs & Hr & _).
  destruct (ex_aio_result s Hs) as (w & Hw & Hwin & _).
  pose proof (asyncio_starts 1 11 12 13 14 ex_pool_queue ex_pool_queue ex_read ex_write ex_rx_callback ex_notified
    c11_gives_up ex_now ex_aio_params s ex_aio_events Hr (ex_aio_legal s Hs) ex_aio_no_stop) as H.
  unfold ex_aio_run in Hw. rewrite Hw in H. destruct H as (_ & H & _). exists s, w.
  split; [exact Hs|]. split; [exact Hw|]. split; [exact Hwin|]. apply H. rewrite Hwin. discriminate.
Defined.



(** ** Stops that overlap other steps, on the same service *)

Definition ex_start (t : nat) : list aio_event := [XStart t; XCaller t; XCaller t; XCaller t; XCaller t].

Definition ex_stop (t : nat) : list aio_event := [XStop t; XCaller t; XCaller t; XCaller t].

(** Both channels come up, and the start returns. *)
Definition ex_up (t : nat) : list aio_event :=
  ex_start t ++ replicate 7 (XWork 600) ++ replicate 7 (XWork 500) ++ [XCaller t].

Definition ex_statuses (evs : list aio_event) :=
  match ex_aio with
  | Ok s => match ex_aio_run (new_aio_world s) evs with
            | Ok w => let i := inst (ai w) in
                Some (init_state i, rx_init (rx_task i), tx_init (tx_task i), wins (results w), callers w)
            | Err _ => None end
  | Err _ => None end.

(** A stop that nothing overlaps takes the service down, and it can be started
    again. *)
Lemma asyncio_stop_and_restart :
  let down := ex_up 1 ++ ex_stop 1 ++ replicate 7 (XWork 600) ++ replicate 10 (XWork 500) ++ [XCaller 1] in
  ex_statuses down =
    Some (AsyncioUninitialized, AsyncioUninitialized, AsyncioUninitialized, [1%nat], ∅) /\
  ex_statuses (down ++ ex_up 2) =
    Some (AsyncioInitialized, AsyncioInitialized, AsyncioInitialized, [1; 2]%nat, ∅).
Proof. split; vm_compute; reflexivity. Qed.

(** Both workers see that both channels are down.  One of them completes the stop and
    a new start begins; the store that the other still makes overwrites its state,
    and a second start begins while the first is under way. *)
Lemma stop_completion_lets_two_start :
  ex_statuses (ex_up 1 ++ ex_stop 1 ++ replicate 2 (XWork 600) ++ replicate 7 (XWork 500) ++
               replicate 4 (XWork 600) ++ [XCaller 1; XStart 1; XWork 500; XStart 2]) =
    Some (AsyncioInitializing, AsyncioUninitialized, AsyncioUninitialized, [1%nat],
          <[1%nat := CStartClear]> {[2%nat := CStartClear]}).
Proof. vm_compute. reflexivity. Qed.

(** A stop between the completion of a start and its opening of the stream. *)
Lemma stop_before_open :
  ex_statuses ([XStart 1; XCaller 1; XCaller 1; XCaller 1] ++ replicate 7 (XWork 600) ++ replicate 7 (XWork 500) ++
               [XStop 2; XCaller 1; XCaller 1; XStop 2; XStart 2]) =
    Some (AsyncioUninitializing, AsyncioInitialized, AsyncioInitialized, [1%nat], ∅).
Proof. vm_compute. reflexivity. Qed.

(** A worker without calls, and a service that is up on it. *)
Lemma ex_worker : exists d, ex_create = Ok d /\ dp_ok 1 {| wq := d; wq_running := None |} /\
  0 < dp_room {| wq := d; wq_running := None |} /\ dp_calls {| wq := d; wq_running := None |} = [].
Proof.
  destruct (created_queue_ok 7 1 ex_dispatch_params ex_pool_queue ex_pool_queue ex_memory ∅ 1 ltac:(lia)
    (ex_dispatch_ok 3 ltac:(lia)) ltac:(lia)) as (d & Hd & Hok & Hc & _).
  exists d. split; [exact Hd|]. split; [exact Hok|]. split; [|exact Hc].
  assert (match ex_create with Ok d => 0 <? dp_room {| wq := d; wq_running := None |} | Err _ => false end = true) as H
    by (vm_compute; reflexivity).
  unfold ex_create in H. rewrite Hd in H. by apply Z.ltb_lt.
Qed.

Definition ex_up_service (p : pool_t ts_queue_t) (m : memory) (d : dispatch_queue_t ts_queue_t)
  : aio ts_queue_t (worker_queue ts_queue_t) (list Z) :=
  {| inst := {| rx_task := {| rx_worker := 500; rx_pool_params := ex_pool_params 2; rx_pool := Some p;
                              rx_thread_name := []; rx_callback := 23; rx_client_data := 0;
                              rx_init := AsyncioInitialized; rx_memory := m |};
                tx_task := {| tx_worker := 600; tx_pool_params := ex_tx_params; tx_thread_name := [];
                              tx_pool := None; max_tx_data_chunk_size := 8; tx_write_timeout := 4000;
                              tx_buffer_offset := 16; tx_init := AsyncioInitialized; tx_memory := m |};
                f_stream_interface_read := 22; f_stream_interface_write := 21; is_in_error := false;
                stream_stopped := false; stream_name := [65]; stream_flag := {| val := 3 |};
                init_state := AsyncioInitialized |};
     requests := ∅; buffers := ∅;
     workers := <[500 := {| wq := d; wq_running := None |}]> {[600 := {| wq := d; wq_running := None |}]};
     user := [] |}.

Lemma asyncio_release_in_callback_witness :
  exists p m d s', pool_create (ex_pool_params 2) (Some ex_pool_queue) ex_memory = Ok (Some p, true, m) /\
    ex_create = Ok d /\
    rx_f 1 14 ex_read ex_rx_callback (fun s _ => Ok s) (ex_up_service p m d) = Ok s' /\
    user s' = [22; 23; 1032] /\
    rx_f 1 14 ex_read ex_rx_callback release_message (ex_up_service p m d) = Err AssertFailed.
Proof.
  destruct (pool_create_inv 10 (ex_pool_params 2) ex_pool_queue ex_memory ltac:(lia)
    (ex_create_ok 10 2 ltac:(lia) ltac:(by right))) as (p & m & Hp & Hpi).
  destruct ex_worker as (d & Hd & Hok & Hroom & _).
  destruct (asyncio_release_in_callback 1 14 ex_read ex_rx_callback 8 (ex_up_service p m d) (p, m) _ 1032 [1096]
    {| wq := d; wq_running := None |} [9; 9] 2 [22] ltac:(lia) eq_refl eq_refl Hpi eq_refl eq_refl
    ltac:(discriminate) ltac:(discriminate) eq_refl ltac:(discriminate) ltac:(discriminate) eq_refl Hok Hroom
    ltac:(discriminate)) as [(s' & st' & ea' & H1 & _ & _ & _ & H2) H3].
  exists p, m, d, s'. split; [exact Hp|]. split; [exact Hd|]. split; [exact H1|]. split; [exact H2|exact H3].
Defined.

Lemma asyncio_stop_outcome_witness :
  exists p m d s1 e1 e2, pool_create (ex_pool_params 2) (Some ex_pool_queue) ex_memory = Ok (Some p, true, m) /\
    ex_create = Ok d /\
    asyncio_stop 1 12 (ex_up_service p m d) (fun s => Ok s) true = Ok s1 /\
    init_state (inst s1) = AsyncioUninitializing /\
    workers s1 !! 500 = Some e1 /\ dp_calls e1 = [job 1 12 0] /\
    workers s1 !! 600 = Some e2 /\ dp_calls e2 = [job 1 12 1].
Proof.
  destruct (pool_create_inv 10 (ex_pool_params 2) ex_pool_queue ex_memory ltac:(lia)
    (ex_create_ok 10 2 ltac:(lia) ltac:(by right))) as (p & m & Hp & _).
  destruct ex_worker as (d & Hd & Hok & Hroom & Hcalls).
  destruct (asyncio_stop_outcome 1 11 12 (ex_up_service p m d) (fun s => Ok s) true
    {| wq := d; wq_running := None |} {| wq := d; wq_running := None |} ltac:(discriminate)) as (_ & _ & _ & H).
  destruct (H eq_refl eq_refl eq_refl eq_refl ltac:(discriminate) ltac:(discriminate) ltac:(discriminate)
    eq_refl eq_refl Hok Hok Hroom Hroom) as (s1 & e1 & e2 & H1 & H2 & _ & _ & _ & _ & H3 & H4 & H5 & H6).
  rewrite Hcalls in H4, H6. exists p, m, d, s1, e1, e2.
  split; [exact Hp|]. split; [exact Hd|]. split; [exact H1|]. split; [exact H2|].
  split; [exact H3|]. split; [exact H4|]. split; [exact H5|exact H6].
Defined.

(** A stream with a name of 37 characters. *)
Lemma asyncio_create_instance_outcome_witness :
  let p := {| ap_stream_name := replicate 37 65; ap_instance := true; ap_read_f := 22; ap_write_f := 21;
              ap_rx_callback := 23; ap_client_data := 0; ap_rx_worker := 500; ap_rx_pool_params := ex_pool_params 2;
              ap_tx_worker := 600; ap_tx_pool_params := ex_tx_params; ap_tx_max_chunk_size := 8;
              ap_tx_write_timeout := 4000; ap_tx_buffer_offset := 16 |} in
  exists i, asyncio_create_instance p ex_old true true = Ok i /\
    cstring (tx_thread_name (tx_task i)) = replicate 37 65 ++ name_tx /\
    asyncio_create_instance p i true true = Err OutOfBounds.
Proof.
  intros p. destruct (asyncio_create_instance_outcome p ex_old true true) as (_ & _ & H).
  destruct (H eq_refl ltac:(by split_and!) ltac:(by apply (bool_decide_unpack _)))
    as (i & Hi & _ & Hn & _ & _ & _ & _ & _ & _ & Ho).
  exists i. split; [exact Hi|]. split; [exact Hn|]. apply Ho. apply (bool_decide_unpack _). reflexivity.
Defined.
