(* ===== verification/AsyncioStop.v ===== *)
(** Taking the asynchronous I/O service down: what a stop does while the workers and
    the senders go on, and that a service that was stopped can be started again.

    The sessions here have one stop, which is made when the start has returned; a
    stop that overlaps a start, and a start that overlaps the end of a stop, are in
    AsyncioGuarantees. *)
From S2P Require Import Prelude TsQueue Pool EventFlag DispatchQueue Dispatcher Asyncio AsyncioRun.
From S2P Require Import AsyncioService AsyncioGuarantees.
From stdpp Require Import list gmap.
From Stdlib Require Import ZArith Lia.
Local Open Scope Z_scope.

#[local] Arguments pool_free : simpl never.
#[local] Arguments pool_alloc : simpl never.
#[local] Arguments dp_async : simpl never.

(** ** The protocol of a stop *)

Section protocol.
Context (rxw txw : Z).

Abbreviation halt := (halt rxw txw).

(** The call that stops, with its stage. *)
Lemma stopping_caller h st ri ti v stopped cs rs js t c :
  halt h st ri ti v stopped cs rs js -> cs !! t = Some c -> halt_pc h = Some c /\ cs = {[t := c]}.
Proof.
  intros [H1 _ _ _ _ _ _ _ _ _] Ht. destruct (halt_pc h) as [c'|]; [|by rewrite H1, lookup_empty in Ht].
  destruct H1 as [t' ->]. apply lookup_singleton_Some in Ht as [-> ->]. done.
Qed.

(** Without a call under way. *)
Lemma no_caller_halt h st ri ti v stopped rs js : halt h st ri ti v stopped ∅ rs js -> h = HOver.
Proof.
  intros [Hc _ _ _ _ _ _ _ _ _]. destruct (halt_pc h) eqn:E; [|by destruct h].
  destruct Hc as [t Hc]. symmetry in Hc. by apply map_non_empty_singleton in Hc.
Qed.

Lemma no_caller_proto g st ri ti v stopped rs js :
  proto rxw txw g st ri ti v stopped ∅ rs js -> g = GNone \/ g = GOver.
Proof.
  intros [Hc _ _ _ _ _ _ _ _ _ _ _]. destruct (stage_pc g) eqn:E; [|destruct g; try done; [by left|by right]].
  destruct Hc as [t Hc]. symmetry in Hc. by apply map_non_empty_singleton in Hc.
Qed.

(** Before both channels have been told the service is not down. *)
Lemma not_down h st ri ti v stopped cs rs js :
  rxw <> 0 \/ txw <> 0 -> halt h st ri ti v stopped cs rs js -> tx_told h = false ->
  (rx_told h = true -> txw <> 0) -> ~ both_down ri ti.
Proof.
  intros Hch [_ _ Hr Ht _ _ _ _ _ _] Htt Hrt [-> ->]. unfold channel_ok in *. rewrite Htt in Ht.
  destruct (txw =? 0) eqn:E; [|done]. bdestr. destruct (rx_told h); [by apply Hrt|].
  destruct (rxw =? 0) eqn:E2; [|done]. bdestr. by destruct Hch.
Qed.

(** A service that is up and whose start has returned is told to stop. *)
Lemma halt_begin st ri ti v cs rs js :
  rxw <> 0 \/ txw <> 0 -> proto rxw txw GOver st ri ti v false cs rs js ->
  (forall a j, js !! a = Some j -> a <> 0) -> forall t,
  halt HClear AsyncioUninitializing ri ti v false {[t := CStopClear]} rs js.
Proof.
  intros Hch [H1 H2 H3 H4 H5 H6 H7 H8 H9 H10 H11 H12] Hjs t. cbn in *. destruct (H9 (H10 eq_refl)) as [Hr Ht].
  assert (forall wk st, (st = AsyncioUninitialized <-> true = false \/ wk = 0) -> is_started wk st ->
    channel_ok false wk st) as Hc.
  { intros wk s Hs [->|Hi]; unfold channel_ok; [cbn; apply Hs; by right|].
    destruct (wk =? 0) eqn:E; [|done]. bdestr. apply Hs. by right. }
  pose proof (Hc _ _ H5 Hr) as Hcr. pose proof (Hc _ _ H6 Ht) as Hct.
  split; cbn; try done.
  - by exists t.
  - by destruct (wins rs).
  - by left.
  - intros a j Hj. pose proof (H11 a j Hj) as Hok. pose proof (Hjs a j Hj) as Ha.
    assert ((a = rxw -> ri <> AsyncioUninitialized) /\ (a = txw -> ti <> AsyncioUninitialized)) as Hlate.
    { unfold channel_ok in Hcr, Hct. split; intros ->; rewrite (proj2 (Z.eqb_neq _ 0)) in * by done; congruence. }
    by destruct j.
  - intros [-> ->]. unfold channel_ok in Hcr, Hct. destruct (rxw =? 0) eqn:E1; [|done]. destruct (txw =? 0) eqn:E2; [|done].
    bdestr. by destruct Hch.
Qed.

Lemma halt_clear st ri ti v cs rs js t :
  rxw <> 0 \/ txw <> 0 -> halt HClear st ri ti v false cs rs js ->
  halt HRx st ri ti (Z.land v (u32 (Z.lnot STREAM_STOPPED_FLAG))) true {[t := CStopRx]} rs js.
Proof.
  intros Hch Hh. pose proof (not_down _ _ _ _ _ _ _ _ _ Hch Hh eq_refl ltac:(done)) as Hnd.
  destruct Hh as [H1 H2 H3 H4 H5 H6 H7 H8 H9 H10]. split; try done.
  - by exists t.
  - rewrite Z.land_spec. change (Z.testbit (u32 _) 1) with false. by rewrite andb_false_r.
Qed.

(** What a state of the channels allows the workers goes on being allowed. *)
Lemma halt_pc_imp st ri ti st' ri' ti' a j :
  (ri' = AsyncioUninitialized <-> ri = AsyncioUninitialized) ->
  (ti' = AsyncioUninitialized <-> ti = AsyncioUninitialized) ->
  (st = AsyncioUninitialized -> st' = AsyncioUninitialized) ->
  halt_pc_ok rxw txw st ri ti a j -> halt_pc_ok rxw txw st' ri' ti' a j.
Proof. intros Hr Ht Hs. unfold halt_pc_ok, both_down. destruct j; rewrite ?Hr, ?Ht; naive_solver. Qed.

Definition told (worker : Z) (st : asyncio_init_state_e) : asyncio_init_state_e :=
  if worker =? 0 then st else AsyncioUninitializing.

Lemma told_down worker st : channel_ok false worker st ->
  channel_ok true worker (told worker st) /\
  (told worker st = AsyncioUninitialized <-> st = AsyncioUninitialized).
Proof. unfold channel_ok, told. destruct (worker =? 0); [done|]. intros ->. split; [by left|done]. Qed.

Lemma halt_rx st ri ti v cs rs js t :
  rxw <> 0 \/ txw <> 0 -> halt HRx st ri ti v true cs rs js ->
  halt HTx st (told rxw ri) ti v true {[t := CStopTx]} rs js.
Proof.
  intros Hch Hh. pose proof (not_down _ _ _ _ _ _ _ _ _ Hch Hh eq_refl ltac:(done)) as Hnd.
  destruct Hh as [H1 H2 H3 H4 H5 H6 H7 H8 H9 H10]. destruct (told_down _ _ H3) as [Hr Hr'].
  assert (~ both_down (told rxw ri) ti) as Hnd' by (unfold both_down in *; by rewrite Hr').
  split; try done.
  - by exists t.
  - intros Hs. by destruct (Hnd (H6 Hs)).
  - intros Hv. right. by destruct (H7 Hv).
  - intros a j Hj. by eapply halt_pc_imp, H9.
Qed.

Lemma halt_tx st ri ti v cs rs js t :
  halt HTx st ri ti v true cs rs js ->
  halt HWait st ri (told txw ti) v true {[t := CStopWait]} rs js.
Proof.
  intros [H1 H2 H3 H4 H5 H6 H7 H8 H9 H10]. destruct (told_down _ _ H4) as [Ht Ht'].
  split; try done.
  - by exists t.
  - unfold both_down. by rewrite Ht'.
  - intros Hv. right. by destruct (H7 Hv).
  - intros a j Hj. by eapply halt_pc_imp, H9.
  - unfold both_down. by rewrite Ht'.
Qed.

Lemma halt_return st ri ti v cs rs js :
  halt HWait st ri ti v true cs rs js -> Z.testbit v 1 = true -> halt HOver st ri ti v true ∅ rs js.
Proof.
  intros [H1 H2 H3 H4 H5 H6 H7 H8 H9 H10] Hv. destruct (H7 Hv) as [?|Hs]; [done|]. by split; try done; right.
Qed.

(** A worker goes on. *)
Lemma halt_job h st ri ti v stopped cs rs js a j j' :
  halt h st ri ti v stopped cs rs js -> js !! a = Some j -> halt_pc_ok rxw txw st ri ti a j' ->
  (completing j -> both_down ri ti -> completing j') ->
  halt h st ri ti v stopped cs rs (partial_alter (fun _ => Some j') a js).
Proof.
  intros [H1 H2 H3 H4 H5 H6 H7 H8 H9 H10] Hj Hok Hc. split; try done.
  - intros b j0 Hb. destruct (decide (a = b)) as [<-|Hne].
    + rewrite lookup_partial_alter_eq in Hb. by injection Hb as <-.
    + rewrite lookup_partial_alter_ne in Hb by done. by apply H9.
  - intros Hd. destruct (H10 Hd) as [?|(b & j0 & Hb & Hc0)]; [by left|right].
    destruct (decide (a = b)) as [<-|Hne].
    + exists a, j'. rewrite lookup_partial_alter_eq. split; [done|]. apply Hc; [congruence|done].
    + exists b, j0. by rewrite lookup_partial_alter_ne.
Qed.

(** The stores of a start that completes late, and of a stop. *)
Lemma halt_late h st ri ti v stopped cs rs js a :
  is_worker rxw txw a -> halt h st ri ti v stopped cs rs js -> js !! a = Some JStartStore ->
  halt h AsyncioInitialized ri ti v stopped cs rs js.
Proof.
  intros Ha [H1 H2 H3 H4 H5 H6 H7 H8 H9 H10] Hj. pose proof (H9 a _ Hj) as [Hr Ht].
  assert (~ both_down ri ti) as Hnd by (intros [? ?]; destruct Ha as [_ [->| ->]]; tauto).
  assert (st <> AsyncioUninitialized) as Hs by (intros Hs; by apply Hnd, H6).
  split; try done.
  - intros Hv. left. by destruct (H7 Hv).
  - intros Hh. by destruct (Hs (H8 Hh)).
  - intros b j Hb. pose proof (H9 b j Hb) as Hok. destruct j; try done. by destruct Hok.
Qed.

Lemma halt_store h st ri ti v stopped cs rs js a :
  halt h st ri ti v stopped cs rs js -> js !! a = Some JStopStore ->
  halt h AsyncioUninitialized ri ti v stopped cs rs js.
Proof.
  intros [H1 H2 H3 H4 H5 H6 H7 H8 H9 H10] Hj. pose proof (H9 a _ Hj) as Hd. split; try done.
  - by right.
  - intros b j Hb. by eapply halt_pc_imp, H9.
Qed.

Lemma halt_flag h st ri ti v stopped cs rs js i :
  halt h st ri ti v stopped cs rs js -> 0 <= i -> (i = 1 -> st = AsyncioUninitialized) ->
  halt h st ri ti (Z.lor v (Z.shiftl 1 i)) stopped cs rs js.
Proof.
  intros [H1 H2 H3 H4 H5 H6 H7 H8 H9 H10] Hi Hs. split; try done.
  - rewrite Z.lor_spec. intros [Hv|Hv]%orb_true_iff; [by apply H7|]. right. apply Hs.
    rewrite Z.shiftl_1_l, Z.pow2_bits_eqb in Hv by done. by bdestr.
  - intros Hd. destruct (H10 Hd) as [Hv|?]; [left|by right]. by rewrite Z.lor_spec, Hv.
Qed.

(** A channel is down: its worker looks whether the other one is. *)
Lemma halt_rx_down h st ti v stopped cs rs js c :
  halt h st AsyncioUninitializing ti v stopped cs rs js -> js !! rxw = Some (JBody c) ->
  halt h st AsyncioUninitialized ti v stopped cs rs (partial_alter (fun _ => Some JStopRx) rxw js).
Proof.
  intros [H1 H2 H3 H4 H5 H6 H7 H8 H9 H10] Hj. split; try done.
  - unfold channel_ok in *. destruct (rxw =? 0); [done|]. destruct (rx_told h); [by right|done].
  - intros Hs. by destruct (H6 Hs).
  - intros b j Hb. destruct (decide (rxw = b)) as [<-|Hne].
    + rewrite lookup_partial_alter_eq in Hb. by injection Hb as <-.
    + rewrite lookup_partial_alter_ne in Hb by done. pose proof (H9 b j Hb) as Hok.
      destruct j; cbn in *; try done; unfold both_down in *; naive_solver.
  - intros _. right. exists rxw, JStopRx. by rewrite lookup_partial_alter_eq.
Qed.

Lemma halt_tx_down h st ri v stopped cs rs js c :
  halt h st ri AsyncioUninitializing v stopped cs rs js -> js !! txw = Some (JBody c) ->
  halt h st ri AsyncioUninitialized v stopped cs rs (partial_alter (fun _ => Some JStopRx) txw js).
Proof.
  intros [H1 H2 H3 H4 H5 H6 H7 H8 H9 H10] Hj. split; try done.
  - unfold channel_ok in *. destruct (txw =? 0); [done|]. destruct (tx_told h); [by right|done].
  - intros Hs. by destruct (H6 Hs).
  - intros b j Hb. destruct (decide (txw = b)) as [<-|Hne].
    + rewrite lookup_partial_alter_eq in Hb. by injection Hb as <-.
    + rewrite lookup_partial_alter_ne in Hb by done. pose proof (H9 b j Hb) as Hok.
      destruct j; cbn in *; try done; unfold both_down in *; naive_solver.
  - intros _. right. exists txw, JStopRx. by rewrite lookup_partial_alter_eq.
Qed.
End protocol.

(** ** The steps *)

Section stopping.
Context {Q : Type} `{!BoundedQueue Q} `{!BoundedQueueLaws Q}.
Context {D : Type} `{!Dispatcher D} `{!DispatcherLaws D} {C : Type}.
Context (self starter_a finisher_a tx_a rx_a : Z) (qr qt : Q).
Context (read_f : Z -> Z -> Z -> C -> list Z * Z * C)
        (write_f : Z -> Z -> list Z -> Z -> C -> Z * C)
        (rx_callback_f : Z -> Z -> list Z -> Z -> C -> C)
        (tx_notification_f : Z -> Z -> asyncio_tx_send_status_e -> Z -> Z -> C -> C).
Context (gives_up : Z -> bool) (now : timespec).
Context (rxw txw : Z) (rxp txp : pool_create_params_t) (cb rd wr off tmo chunk : Z) (err : bool) (c0 : C).

Abbreviation step := (aio_step self starter_a finisher_a tx_a rx_a (Some qr) (Some qt) read_f write_f
  rx_callback_f tx_notification_f gives_up now).
Abbreviation inv := (aio_inv self starter_a finisher_a tx_a rx_a read_f write_f rx_callback_f tx_notification_f
  rxw txw rxp txp cb rd wr off tmo chunk err c0).
Abbreviation result_ok := (step_result self starter_a finisher_a tx_a rx_a read_f write_f rx_callback_f
  tx_notification_f rxw txw rxp txp cb rd wr off tmo chunk err c0).
Abbreviation configured_ok := (config_ok starter_a finisher_a tx_a rx_a qr qt rxw txw rxp txp cb rd wr off).
Abbreviation inv_mono := (aio_inv_mono self starter_a finisher_a tx_a rx_a read_f write_f rx_callback_f
  tx_notification_f rxw txw rxp txp cb rd wr off tmo chunk err c0).

(** Calling [asyncio_stop]: nothing happens to a service that is not up. *)
Lemma stop_step_ok ph n k w t :
  0 <= k -> configured_ok n -> inv ph (k + 1) w ->
  (init_state (inst (ai w)) = AsyncioInitialized -> callers w = ∅ /\ stream_stopped (inst (ai w)) = false) ->
  exists w' ph', step w (XStop t) = Ok w' /\ inv ph' k w'.
Proof.
  intros Hk Hco Hi Hl. apply (inv_mono ph (k + 1) k w ltac:(lia)) in Hi. cbn [aio_step].
  destruct (callers w !! t) as [c|] eqn:Hc; [by exists w, ph|]. unfold stop_begin, cas.
  destruct (bool_decide (init_state (inst (ai w)) = AsyncioInitialized)) eqn:E; bdestr; cbn.
  - destruct (Hl E) as [Hcs Hs]. rewrite Hs. cbn. eexists _, Stopping. split; [done|].
    destruct Hi as [Hcf Hwk Hrx Htx Hda Hus Hse Hpr]. destruct ph.
    2: { destruct Hpr as [h Hh]. rewrite Hcs in Hh.
         by rewrite (hl_over _ _ _ _ _ _ _ _ _ _ _ Hh (no_caller_halt _ _ _ _ _ _ _ _ _ _ Hh)) in E. }
    split; cbn; try done; [by destruct Hcf| |].
    + unfold tx_inv in *. destruct (tx_init _); try done. destruct Htx as [? ->]. split; [done|]. by intros ?%elem_of_nil.
    + destruct Hpr as [g Hpr]. exists HClear. assert (g = GOver) as ->.
      { rewrite Hcs in Hpr. destruct (no_caller_proto _ _ _ _ _ _ _ _ _ _ Hpr) as [->|]; [|done].
        by rewrite (proj2 (pr_none _ _ _ _ _ _ _ _ _ _ _ Hpr) eq_refl) in E. }
      rewrite Hs in *. rewrite Hcs. eapply halt_begin; [apply Hco|exact Hpr|].
      intros a j Hj. destruct Hwk as [reading [_ Hw]]. by destruct (Hw a j Hj).
  - exists w, ph. split; [|done]. by rewrite same_init; destruct w.
Qed.

(** Nobody starts a service that is not down. *)
Lemma no_start_ok k w t :
  0 <= k -> inv Stopping (k + 1) w ->
  (init_state (inst (ai w)) = AsyncioUninitialized -> wins (results w) = []) ->
  result_ok Stopping k w (XStart t) (step w (XStart t)).
Proof.
  intros Hk Hi Hl. apply (inv_mono Stopping (k + 1) k w ltac:(lia)) in Hi. unfold step_result. cbn [aio_step].
  destruct (callers w !! t) as [c|] eqn:Hc; [done|].
  destruct Hi as [Hcf Hwk Hrx Htx Hda Hus Hse [h Hh]]. unfold start_begin, cas.
  pose proof (hl_wins _ _ _ _ _ _ _ _ _ _ _ Hh) as Hw.
  rewrite bool_decide_eq_false_2 by (intros Hu; by destruct (Hw (Hl Hu))).
  split; cbn; try done. exists h. destruct Hh. split; try done. rewrite wins_snoc. by rewrite app_nil_r.
Qed.

(** The call that stops goes on. *)
Lemma stop_clear_ok n k w t :
  0 <= k -> configured_ok n -> inv Stopping (k + 1) w -> callers w !! t = Some CStopClear ->
  result_ok Stopping k w (XCaller t) (step w (XCaller t)).
Proof.
  intros Hk Hco Hi Hc. apply (inv_mono Stopping (k + 1) k w ltac:(lia)) in Hi. unfold step_result. cbn [aio_step].
  rewrite Hc. cbn [caller_step]. destruct Hi as [Hcf Hwk Hrx Htx Hda Hus Hse [h Hh]].
  destruct (stopping_caller _ _ _ _ _ _ _ _ _ _ _ _ _ Hh Hc) as [Hg Hcs]. destruct h; try discriminate Hg.
  pose proof (hl_stopped _ _ _ _ _ _ _ _ _ _ _ Hh) as Hs. rewrite Hs in Hh.
  apply (halt_clear _ _ _ _ _ _ _ _ _ t (co_channel _ _ _ _ _ _ _ _ _ _ _ _ _ _ _ Hco)) in Hh.
  split; cbn; try done; [by destruct Hcf|]. exists HRx. by rewrite Hcs, next_caller.
Qed.

Lemma stop_rx_ok n k w t :
  0 <= k -> configured_ok n -> inv Stopping (k + 1) w -> callers w !! t = Some CStopRx ->
  result_ok Stopping k w (XCaller t) (step w (XCaller t)).
Proof.
  intros Hk Hco Hi Hc. destruct (ai_work _ _ _ _ _ _ _ _ _ _ _ _ _ _ _ _ _ _ _ _ _ _ _ _ Hi) as [reading Hwk1].
  apply (inv_mono Stopping (k + 1) k w ltac:(lia)) in Hi. unfold step_result. cbn [aio_step].
  rewrite Hc. cbn [caller_step]. destruct Hi as [Hcf Hwk Hrx Htx Hda Hus Hse [h Hh]].
  destruct (stopping_caller _ _ _ _ _ _ _ _ _ _ _ _ _ Hh Hc) as [Hg Hcs]. destruct h; try discriminate Hg.
  pose proof (hl_stopped _ _ _ _ _ _ _ _ _ _ _ Hh) as Hs. rewrite Hs in Hh.
  pose proof (hl_rx _ _ _ _ _ _ _ _ _ _ _ Hh) as Hri. unfold channel_ok in Hri.
  apply (halt_rx _ _ _ _ _ _ _ _ _ t (co_channel _ _ _ _ _ _ _ _ _ _ _ _ _ _ _ Hco)) in Hh.
  unfold asyncio_stop_rx_thread, cas. unfold told in Hh. cbn [rx_told] in Hri.
  destruct (rxw =? 0) eqn:E; bdestr; rewrite Hri in *.
  - cbn. split; cbn; rewrite ?Hri; try done. exists HTx. by rewrite Hcs, next_caller, Hs.
  - rewrite bool_decide_eq_true_2 by done. rewrite (cf_rx_worker _ _ _ _ _ _ _ _ _ _ _ _ Hcf).
    set (s1 := with_inst _ _).
    destruct (proj2 (proj2 (job_channels self _ _ _ _ _ _ _ _ _ _ _ _ _ _ n Hco)) finisher_a ltac:(by right)) as (Hj & _).
    destruct (dispatch_ok starter_a finisher_a tx_a rx_a rxw txw k s1 (jobs w) _ _ rxw (job self finisher_a 0) (rx_jobs self starter_a finisher_a rx_a true AsyncioUninitializing)
      (tx_jobs self starter_a finisher_a tx_a (tx_init (tx_task (inst (ai w)))) (waiting w)) Hk Hwk1 E)
      as [[-> Hfull]|(ws & -> & Hwk')].
    { apply (config_distinct _ _ _ _ _ _ _ _ _ _ _ _ _ _ _ Hco). }
    { by left. }
    { apply Hco. }
    { split; [done|]. destruct Hfull as (d & ? & ?). by exists rxw, d. }
    cbn. split; cbn; try done; [by destruct Hcf|by exists true|]. exists HTx. by rewrite Hcs, next_caller, Hs.
Qed.

Lemma stop_tx_ok n k w t :
  0 <= k -> configured_ok n -> inv Stopping (k + 1) w -> callers w !! t = Some CStopTx ->
  result_ok Stopping k w (XCaller t) (step w (XCaller t)).
Proof.
  intros Hk Hco Hi Hc. destruct (ai_work _ _ _ _ _ _ _ _ _ _ _ _ _ _ _ _ _ _ _ _ _ _ _ _ Hi) as [reading Hwk1].
  apply (inv_mono Stopping (k + 1) k w ltac:(lia)) in Hi. unfold step_result. cbn [aio_step].
  rewrite Hc. cbn [caller_step]. destruct Hi as [Hcf Hwk Hrx Htx Hda Hus Hse [h Hh]].
  destruct (stopping_caller _ _ _ _ _ _ _ _ _ _ _ _ _ Hh Hc) as [Hg Hcs]. destruct h; try discriminate Hg.
  pose proof (hl_stopped _ _ _ _ _ _ _ _ _ _ _ Hh) as Hs. rewrite Hs in Hh.
  pose proof (hl_tx _ _ _ _ _ _ _ _ _ _ _ Hh) as Hti. unfold channel_ok in Hti.
  apply (halt_tx _ _ _ _ _ _ _ _ _ t) in Hh.
  unfold asyncio_stop_tx_thread, cas. unfold told in Hh. cbn [tx_told] in Hti.
  destruct (txw =? 0) eqn:E; bdestr.
  - rewrite Hti in *. cbn. split; cbn; rewrite ?Hti; try done. exists HWait. by rewrite Hcs, next_caller, Hs.
  - apply tx_inv_up in Htx; [|done]. rewrite Hti in *.
    rewrite bool_decide_eq_true_2 by done. rewrite (cf_tx_worker _ _ _ _ _ _ _ _ _ _ _ _ Hcf).
    set (s1 := with_inst _ _).
    destruct (proj2 (proj2 (job_channels self _ _ _ _ _ _ _ _ _ _ _ _ _ _ n Hco)) finisher_a ltac:(by right)) as (_ & Hj1 & Hj2).
    destruct (dispatch_ok starter_a finisher_a tx_a rx_a rxw txw k s1 (jobs w) _ _ txw (job self finisher_a 1)
      (rx_jobs self starter_a finisher_a rx_a reading (rx_init (rx_task (inst (ai w)))))
      (tx_jobs self starter_a finisher_a tx_a AsyncioUninitializing (waiting w)) Hk Hwk1 E)
      as [[-> Hfull]|(ws & -> & Hwk')].
    { apply (config_distinct _ _ _ _ _ _ _ _ _ _ _ _ _ _ _ Hco). }
    { by right. }
    { apply Hco. }
    { split; [done|]. destruct Hfull as (d & ? & ?). by exists txw, d. }
    cbn. split; cbn; try done; [by destruct Hcf|by exists reading| |].
    + exists []. by rewrite app_nil_r.
    + exists HWait. by rewrite Hcs, next_caller, Hs.
Qed.

Lemma stop_wait_ok k w t :
  0 <= k -> inv Stopping (k + 1) w -> callers w !! t = Some CStopWait ->
  result_ok Stopping k w (XCaller t) (step w (XCaller t)).
Proof.
  intros Hk Hi Hc. apply (inv_mono Stopping (k + 1) k w ltac:(lia)) in Hi. unfold step_result. cbn [aio_step].
  rewrite Hc. cbn [caller_step]. pose proof Hi as [Hcf Hwk Hrx Htx Hda Hus Hse [h Hh]].
  unfold STREAM_STOPPED_FLAG. rewrite wait_flag_bit by done. cbn [mbind result_bind].
  destruct (Z.testbit _ 1) eqn:Hv; [|done].
  destruct (stopping_caller _ _ _ _ _ _ _ _ _ _ _ _ _ Hh Hc) as [Hg Hcs]. destruct h; try discriminate Hg.
  pose proof (hl_stopped _ _ _ _ _ _ _ _ _ _ _ Hh) as Hs. rewrite Hs in Hh. apply halt_return in Hh; [|done].
  split; cbn; try done. exists HOver. by rewrite Hcs, last_caller, Hs.
Qed.

(** The steps of a worker behind its call: late in the start, or in the stop. *)
Lemma halt_step_ok k w a d j :
  0 <= k -> inv Stopping (k + 1) w -> is_worker rxw txw a -> workers (ai w) !! a = Some d -> jobs w !! a = Some j ->
  triggering j \/ completing j -> result_ok Stopping k w (XWork a) (step w (XWork a)).
Proof.
  intros Hk Hi Ha Hd Hj Htr. apply (inv_mono Stopping (k + 1) k w ltac:(lia)) in Hi. unfold step_result. cbn [aio_step].
  unfold work_step. rewrite Hd, Hj. pose proof Hi as [Hcf [reading Hwk] Hrx Htx Hda Hus Hse [h Hh]].
  pose proof (hl_pcs _ _ _ _ _ _ _ _ _ _ _ Hh a j Hj) as Hok.
  assert (forall j', body_of (Some j') = [] -> exists reading,
    workers_have starter_a finisher_a tx_a rx_a rxw txw k (workers (ai w)) (partial_alter (fun _ => Some j') a (jobs w))
      (rx_jobs self starter_a finisher_a rx_a reading (rx_init (rx_task (inst (ai w)))))
      (tx_jobs self starter_a finisher_a tx_a (tx_init (tx_task (inst (ai w)))) (waiting w))) as Hw.
  { intros j' Hb. exists reading. eapply workers_pc; [exact Hwk|exact Hj|by destruct Htr, j|done]. }
  destruct j; try (by destruct Htr); cbn in Hok.
  - split; cbn; try done; [apply Hw; by destruct (rx_started _)|]. exists h. eapply halt_job; [exact Hh|exact Hj| |done].
    by destruct (rx_started _).
  - split; cbn; try done; [apply Hw; by destruct (tx_started _)|]. exists h. eapply halt_job; [exact Hh|exact Hj| |done].
    by destruct (tx_started _).
  - split; cbn; try done; [by destruct Hcf|by apply Hw|]. exists h.
    eapply halt_job; [by eapply halt_late|exact Hj|exact Hok|done].
  - split; cbn; try done; [by destruct Hcf|by apply Hw|]. exists h.
    eapply halt_job; [by apply (halt_flag _ _ _ _ _ _ _ _ _ _ _ 0)|exact Hj|done|done].
  - unfold rx_stopped. destruct (is_uninitialized _) eqn:E.
    + assert (rx_init (rx_task (inst (ai w))) = AsyncioUninitialized) as Hr by (by destruct (rx_init _)).
      split; cbn; try done; [by apply Hw|]. exists h. by eapply halt_job; [exact Hh|exact Hj|..].
    + split; cbn; try done; [by apply Hw|]. exists h. eapply halt_job; [exact Hh|exact Hj|done|].
      intros _ [Hr _]. by rewrite Hr in E.
  - unfold tx_stopped. destruct (is_uninitialized _) eqn:E.
    + assert (tx_init (tx_task (inst (ai w))) = AsyncioUninitialized) as Ht by (by destruct (tx_init _)).
      split; cbn; try done; [by apply Hw|]. exists h. by eapply halt_job; [exact Hh|exact Hj|..].
    + split; cbn; try done; [by apply Hw|]. exists h. eapply halt_job; [exact Hh|exact Hj|done|].
      intros _ [_ Ht]. by rewrite Ht in E.
  - split; cbn; try done; [by destruct Hcf|by apply Hw|]. exists h.
    eapply halt_job; [by eapply halt_store|exact Hj|done|done].
  - split; cbn; try done; [by destruct Hcf|by apply Hw|]. exists h.
    destruct Hok as [_ Hst]. pose proof (halt_flag _ _ _ _ _ _ _ _ _ _ _ 1 Hh ltac:(lia) (fun _ => Hst)) as Hh2.
    destruct Hh2 as [H1 H2 H3 H4 H5 H6 H7 H8 H9 H10]. split; try done.
    + intros b j' Hb. destruct (decide (a = b)) as [<-|Hne].
      * rewrite lookup_partial_alter_eq in Hb. by injection Hb as <-.
      * rewrite lookup_partial_alter_ne in Hb by done. by apply H9.
    + intros _. left. by rewrite Z.lor_spec, orb_true_r.
Qed.

(** The last calls of the receive channel: a reception that finds it going down, and
    the call that takes it down. *)
Lemma rx_end_ok n k w a d c :
  0 <= k -> configured_ok n -> inv Stopping (k + 1) w -> workers (ai w) !! a = Some d ->
  jobs w !! a = Some (JBody c) -> rx_job starter_a finisher_a rx_a c = true ->
  rx_init (rx_task (inst (ai w))) = AsyncioUninitializing ->
  result_ok Stopping k w (XWork a) (step w (XWork a)).
Proof.
  intros Hk Hco Hi Hd Hj Hc Hri. apply (inv_mono Stopping (k + 1) k w ltac:(lia)) in Hi.
  destruct Hi as [Hcf [reading Hwk] Hrx Htx Hda Hus Hse Hpr].
  destruct (config_distinct _ _ _ _ _ _ _ _ _ _ _ _ _ _ _ Hco) as (Hsf & Hst & Hsr & Hft & Hfr & Htr & _).
  unfold step_result. cbn [aio_step]. unfold work_step. rewrite Hd, Hj. rewrite Hri in Hwk.
  assert (forall j', body_of (Some j') = [] -> a = rxw /\ exists rj', rx_jobs self starter_a finisher_a rx_a reading
      AsyncioUninitializing = c :: rj' /\
    workers_have starter_a finisher_a tx_a rx_a rxw txw k (workers (ai w)) (partial_alter (fun _ => Some j') a (jobs w))
      rj' (tx_jobs self starter_a finisher_a tx_a (tx_init (tx_task (inst (ai w)))) (waiting w))) as Hbody.
  { intros j' Hb. by eapply workers_body_rx; [apply Hco|..]. }
  destruct reading.
  - destruct (Hbody JDone eq_refl) as (_ & rj' & Hrj & Hwk'). injection Hrj as <- <-.
    unfold body_step. cbn [fn arg2 job]. rewrite (proj2 (Z.eqb_neq rx_a starter_a)) by congruence.
    rewrite (proj2 (Z.eqb_neq rx_a finisher_a)), (proj2 (Z.eqb_neq rx_a tx_a)), Z.eqb_refl by congruence.
    unfold rx_f. rewrite Hri. cbn [is_initialized mbind result_bind].
    split; cbn; rewrite ?Hri, ?app_nil_r; try done.
    + by exists false.
    + rewrite <- Hri. apply (phase_job _ _ Stopping); [done|by rewrite Hj|done].
  - destruct (Hbody JStopRx eq_refl) as (-> & rj' & Hrj & Hwk'). injection Hrj as <- <-.
    unfold body_step. cbn [fn arg2 job]. rewrite (proj2 (Z.eqb_neq finisher_a starter_a)), Z.eqb_refl by congruence.
    unfold finisher_body, cas. cbn [Z.eqb]. rewrite Hri, bool_decide_eq_true_2 by done.
    destruct Hpr as [h Hh]. rewrite Hri in Hh. eapply halt_rx_down in Hh; [|exact Hj].
    split; cbn; try done; [by destruct Hcf|by exists h].
Qed.

(** The call that takes the transmit channel down comes behind the transmissions. *)
Lemma tx_end_ok n k w a d c :
  0 <= k -> configured_ok n -> inv Stopping (k + 1) w -> workers (ai w) !! a = Some d ->
  jobs w !! a = Some (JBody c) -> tx_job starter_a finisher_a tx_a c = true ->
  tx_init (tx_task (inst (ai w))) = AsyncioUninitializing -> waiting w = [] ->
  result_ok Stopping k w (XWork a) (step w (XWork a)).
Proof.
  intros Hk Hco Hi Hd Hj Hc Hti Hwt. apply (inv_mono Stopping (k + 1) k w ltac:(lia)) in Hi.
  destruct Hi as [Hcf [reading Hwk] Hrx Htx Hda Hus Hse Hpr].
  destruct (config_distinct _ _ _ _ _ _ _ _ _ _ _ _ _ _ _ Hco) as (Hsf & _).
  unfold step_result. cbn [aio_step]. unfold work_step. rewrite Hd, Hj. rewrite Hti, Hwt in Hwk.
  destruct (workers_body_tx starter_a finisher_a tx_a rx_a rxw txw (co_addresses _ _ _ _ _ _ _ _ _ _ _ _ _ _ _ Hco)
    k _ _ _ _ a c JStopRx Hwk Hj Hc eq_refl) as (-> & tj' & Htj & Hwk'). injection Htj as <- <-.
  unfold body_step. cbn [fn arg2 job]. rewrite (proj2 (Z.eqb_neq finisher_a starter_a)), Z.eqb_refl by congruence.
  unfold finisher_body, cas. cbn [Z.eqb]. rewrite Hti, bool_decide_eq_true_2 by done.
  destruct Hpr as [h Hh]. rewrite Hti in Hh. eapply halt_tx_down in Hh; [|exact Hj].
  split; cbn; try done; [by destruct Hcf|by exists reading| |by exists h].
  split; [done|]. intros H0. by apply (held_token _ _ _ _ _ _ 0 Htx) in H0 as [H0 _].
Qed.

Lemma halt_work_ok n k w a :
  0 <= k -> configured_ok n -> inv Stopping (k + 1) w -> is_worker rxw txw a ->
  result_ok Stopping k w (XWork a) (step w (XWork a)).
Proof.
  intros Hk Hco Hi Ha. destruct (workers (ai w) !! a) as [d|] eqn:Hd.
  2: { unfold step_result. cbn. unfold work_step. rewrite Hd. eapply inv_mono; [|done]. lia. }
  destruct (ai_work _ _ _ _ _ _ _ _ _ _ _ _ _ _ _ _ _ _ _ _ _ _ _ _ Hi) as [reading Hwk].
  destruct (jobs w !! a) as [j|] eqn:Hj; [|by eapply take_job_ok].
  destruct (ai_proto _ _ _ _ _ _ _ _ _ _ _ _ _ _ _ _ _ _ _ _ _ _ _ _ Hi) as (h & Hh).
  pose proof (hl_rx _ _ _ _ _ _ _ _ _ _ _ Hh) as Hr. pose proof (hl_tx _ _ _ _ _ _ _ _ _ _ _ Hh) as Ht.
  assert (forall told wk st, channel_ok told wk st -> st <> AsyncioInitializing) as Hni.
  { intros told wk st. unfold channel_ok. destruct (wk =? 0), told; naive_solver. }
  apply Hni in Hr, Ht.
  assert (triggering j \/ completing j -> result_ok Stopping k w (XWork a) (step w (XWork a))) as Hpc
    by (by eapply halt_step_ok).
  destruct j as [c| | | | | | | | |]; try (by apply Hpc; left); try (by apply Hpc; right); [|by eapply finish_job_ok].
  destruct (body_job _ _ _ _ _ _ _ _ _ _ _ _ Hwk Hj) as [Hc|Hc].
  - destruct (workers_body_rx starter_a finisher_a tx_a rx_a rxw txw (co_addresses _ _ _ _ _ _ _ _ _ _ _ _ _ _ _ Hco)
      _ _ _ _ _ a c JDone Hwk Hj Hc eq_refl) as (_ & rj & Hrj & _).
    destruct (rx_init (rx_task (inst (ai w)))) eqn:E; try done; [by eapply rx_end_ok|by eapply receive_ok].
  - destruct (workers_body_tx starter_a finisher_a tx_a rx_a rxw txw (co_addresses _ _ _ _ _ _ _ _ _ _ _ _ _ _ _ Hco)
      _ _ _ _ _ a c JDone Hwk Hj Hc eq_refl) as (_ & tj & Htj & _).
    destruct (tx_init (tx_task (inst (ai w)))) eqn:E; try done; destruct (waiting w) eqn:Hwt; try done;
      [by eapply tx_end_ok|eapply transmit_ok; try done; by right|eapply transmit_ok; try done; by left].
Qed.

(** ** Sessions *)

(** Threads do not start a session a second time, and stop it when its start has
    returned. *)
Definition session_legal (w : aio_world Q D C) (ev : aio_event) : Prop :=
  aio_legal w ev /\
  match ev with
  | XStart _ => init_state (inst (ai w)) = AsyncioUninitialized -> wins (results w) = []
  | XStop _ => init_state (inst (ai w)) = AsyncioInitialized ->
      callers w = ∅ /\ stream_stopped (inst (ai w)) = false
  | _ => True
  end.

Definition session_inv (k : Z) (w : aio_world Q D C) : Prop := exists ph, inv ph k w.

Lemma halting_step_ok n k w ev :
  0 <= k -> configured_ok n -> inv Stopping (k + 1) w -> session_legal w ev -> no_stop ev ->
  result_ok Stopping k w ev (step w ev).
Proof.
  intros Hk Hco Hi [Hl Hs] Hns. pose proof (inv_mono Stopping (k + 1) k w ltac:(lia) Hi) as Hm.
  destruct ev as [t|t|t|t|a| |b bytes|b size f pr|b]; [by apply no_start_ok|done| | | | | | |].
  - destruct (callers w !! t) as [c|] eqn:Hc; [|unfold step_result; cbn; by rewrite Hc].
    destruct (ai_proto _ _ _ _ _ _ _ _ _ _ _ _ _ _ _ _ _ _ _ _ _ _ _ _ Hi) as (h & Hh).
    destruct (stopping_caller _ _ _ _ _ _ _ _ _ _ _ _ _ Hh Hc) as [Hg _].
    destruct h; try discriminate Hg; injection Hg as <-;
      [by eapply stop_clear_ok|by eapply stop_rx_ok|by eapply stop_tx_ok|by eapply stop_wait_ok].
  - unfold step_result. cbn. destruct (callers w !! t) as [c|] eqn:Hc; [|done].
    destruct (ai_proto _ _ _ _ _ _ _ _ _ _ _ _ _ _ _ _ _ _ _ _ _ _ _ _ Hi) as (h & Hh).
    destruct (stopping_caller _ _ _ _ _ _ _ _ _ _ _ _ _ Hh Hc) as [Hg _].
    destruct h; try discriminate Hg; injection Hg as <-; try done. by split; [|right].
  - eapply halt_work_ok; try done. destruct Hl as [? Hl]. split; [done|].
    pose proof (ai_configured _ _ _ _ _ _ _ _ _ _ _ _ _ _ _ _ _ _ _ _ _ _ _ _ Hi) as Hcf.
    by rewrite (cf_rx_worker _ _ _ _ _ _ _ _ _ _ _ _ Hcf), (cf_tx_worker _ _ _ _ _ _ _ _ _ _ _ _ Hcf) in Hl.
  - by eapply allocate_step_ok.
  - by eapply fill_step_ok.
  - by eapply send_step_ok.
  - by eapply token_release_ok.
Qed.

Lemma session_step_ok n k w ev :
  0 <= k -> configured_ok n -> 2 * k <= n -> session_inv (k + 1) w -> session_legal w ev ->
  match step w ev with Ok w' => session_inv k w' | Err f => f = AssertFailed /\ stops w ev end.
Proof.
  intros Hk Hco Hn [ph Hi] Hl.
  assert (no_stop ev \/ exists t, ev = XStop t) as [Hns|[t ->]] by (destruct ev; first [by left | right; by eexists]).
  - assert (result_ok ph k w ev (step w ev)) as H.
    { destruct ph; [|by eapply halting_step_ok]. destruct Hl. by eapply aio_step_ok. }
    unfold step_result in H. destruct (step w ev); [by exists ph|done].
  - destruct Hl as [_ Hl].
    destruct (stop_step_ok ph n k w t Hk Hco Hi Hl) as (w' & ph' & -> & Hi'). by exists ph'.
Qed.
End stopping.

Section sessions.
Context {Q : Type} `{!BoundedQueue Q} `{!BoundedQueueLaws Q}.
Context {D : Type} `{!Dispatcher D} `{!DispatcherLaws D} {C : Type}.
Context (self starter_a finisher_a tx_a rx_a : Z) (qr qt : Q).
Context (read_f : Z -> Z -> Z -> C -> list Z * Z * C)
        (write_f : Z -> Z -> list Z -> Z -> C -> Z * C)
        (rx_callback_f : Z -> Z -> list Z -> Z -> C -> C)
        (tx_notification_f : Z -> Z -> asyncio_tx_send_status_e -> Z -> Z -> C -> C).
Context (gives_up : Z -> bool) (now : timespec) (p : asyncio_create_params_t).

Abbreviation step := (aio_step self starter_a finisher_a tx_a rx_a (Some qr) (Some qt) read_f write_f
  rx_callback_f tx_notification_f gives_up now).
Abbreviation run := (aio_run self starter_a finisher_a tx_a rx_a (Some qr) (Some qt) read_f write_f
  rx_callback_f tx_notification_f gives_up now).
Abbreviation inv c0 := (aio_inv self starter_a finisher_a tx_a rx_a read_f write_f rx_callback_f tx_notification_f
  (ap_rx_worker p) (ap_tx_worker p) (ap_rx_pool_params p) (ap_tx_pool_params p) (ap_rx_callback p)
  (ap_read_f p) (ap_write_f p) (ap_tx_buffer_offset p) (ap_tx_write_timeout p) (ap_tx_max_chunk_size p)
  false c0).
Abbreviation ready := (service_ready starter_a finisher_a tx_a rx_a qr qt).
Abbreviation config n := (config_ok starter_a finisher_a tx_a rx_a qr qt (ap_rx_worker p) (ap_tx_worker p)
    (ap_rx_pool_params p) (ap_tx_pool_params p) (ap_rx_callback p) (ap_read_f p) (ap_write_f p)
    (ap_tx_buffer_offset p) n).

(** The runs of a session: every event is legal where it happens. *)
Definition session_run (w : aio_world Q D C) (evs : list aio_event) : Prop :=
  along self starter_a finisher_a tx_a rx_a qr qt read_f write_f rx_callback_f tx_notification_f gives_up now
    session_legal w evs.

(** A call of the stop that a worker still has to make or is making. *)
Definition stop_pending (w : aio_world Q D C) : Prop :=
  (exists a j, jobs w !! a = Some j /\ completing j) \/
  (exists a d c, is_worker (ap_rx_worker p) (ap_tx_worker p) a /\ workers (ai w) !! a = Some d /\
     c ∈ work (jobs w !! a) d /\ fn c = finisher_a).

(** A service that is down: nothing is left of the session in it. *)
Definition service_down (w : aio_world Q D C) : Prop :=
  init_state (inst (ai w)) = AsyncioUninitialized /\
  rx_init (rx_task (inst (ai w))) = AsyncioUninitialized /\
  tx_init (tx_task (inst (ai w))) = AsyncioUninitialized /\ waiting w = [] /\
  forall a d, is_worker (ap_rx_worker p) (ap_tx_worker p) a -> workers (ai w) !! a = Some d ->
    work (jobs w !! a) d = [].

Lemma config_mono n m : m <= n -> config n -> config m.
Proof.
  intros Hm [? ? ? Hr Ht ?]. split; try done.
  - intros H. destruct (Hr H) as (? & ? & ?). split_and!; try done. by eapply create_ok_mono.
  - intros H. destruct (Ht H) as (? & ?). split_and!; try done. by eapply create_ok_mono.
Qed.

(** A worker without calls of either channel has none. *)
Lemma no_work k ws js a d :
  workers_have starter_a finisher_a tx_a rx_a (ap_rx_worker p) (ap_tx_worker p) k ws js [] [] ->
  is_worker (ap_rx_worker p) (ap_tx_worker p) a -> ws !! a = Some d -> work (js !! a) d = [].
Proof.
  intros [Hw _] Ha Hd. destruct (Hw a Ha) as (d' & Hd' & [_ _ Hr Ht Hall]). rewrite Hd in Hd'. injection Hd' as <-.
  assert (forall l, Forall (fun c => rx_job starter_a finisher_a rx_a c || tx_job starter_a finisher_a tx_a c = true) l ->
    List.filter (rx_job starter_a finisher_a rx_a) l = [] -> List.filter (tx_job starter_a finisher_a tx_a) l = [] ->
    l = []) as Hnil.
  { intros [|c l] Hf Hr' Ht'; [done|]. apply Forall_cons in Hf as [Hc _]. cbn in Hr', Ht'.
    by destruct (rx_job _ _ _ _), (tx_job _ _ _ _). }
  apply Hnil; [done|by destruct (a =? _) in Hr|by destruct (a =? _) in Ht].
Qed.

Lemma session_run_ok m s evs :
  0 <= m -> ready (m + zlen evs) p s -> session_run (new_aio_world s) evs ->
  run_result self starter_a finisher_a tx_a rx_a qr qt read_f write_f rx_callback_f tx_notification_f gives_up now
    (fun w => exists ph, inv (user s) ph m w) (new_aio_world s) evs.
Proof.
  intros Hm Hr Hl. pose proof (zlen_nonneg evs).
  apply (run_invariant self starter_a finisher_a tx_a rx_a qr qt read_f write_f rx_callback_f tx_notification_f
    gives_up now (fun k w => exists ph, inv (user s) ph k w) session_legal (m + zlen evs)); [|lia|lia| |done].
  - intros k w ev Hk Hi Hle. eapply session_step_ok; [lia|apply Hr|lia|exact Hi|exact Hle].
  - exists Starting. by apply service_ready_inv with (qr := qr) (qt := qt).
Qed.

(** What a stop leaves. *)
Lemma halted_down c0 k w :
  ap_rx_worker p <> 0 \/ ap_tx_worker p <> 0 -> inv c0 Stopping k w ->
  init_state (inst (ai w)) = AsyncioUninitialized -> service_down w.
Proof.
  intros Hch Hi Hst. destruct Hi as [Hcf [reading Hwk] Hrx Htx Hda Hus Hse [h Hh]].
  destruct (hl_down _ _ _ _ _ _ _ _ _ _ _ Hh Hst) as [Hr Ht]. unfold tx_inv in Htx. rewrite Hr, Ht in *.
  split_and!; try done; [by destruct Htx|]. intros a d Ha Hd. by eapply no_work.
Qed.

Lemma down_ready k w c0 :
  0 <= k -> config (2 * k) -> inv c0 Stopping k w -> service_down w -> jobs w = ∅ -> ready k p (ai w).
Proof.
  intros Hk Hco Hi (H1 & H2 & H3 & H4 & H5) Hj. split; [|done].
  destruct Hi as [Hcf [reading [Hwk _]] Hrx Htx Hda Hus Hse [h Hh]].
  split; try done.
  - rewrite (hl_stopped _ _ _ _ _ _ _ _ _ _ _ Hh). destruct h; try done. destruct Hh as [_ _ Hr Ht _ _ _ _ _ _].
    unfold channel_ok in *. cbn in *. rewrite H2 in Hr. rewrite H3 in Ht.
    destruct (ap_rx_worker p =? 0) eqn:E1; [|done]. destruct (ap_tx_worker p =? 0) eqn:E2; [|done]. bdestr.
    by destruct (co_channel _ _ _ _ _ _ _ _ _ _ _ _ _ _ _ Hco).
  - intros a Ha. destruct (Hwk a Ha) as (d & Hd & [Hok Hb _ _ _]). exists d. pose proof (H5 a d Ha Hd) as Hwork.
    rewrite Hj, lookup_empty in Hb, Hwork. by split_and!.
Qed.

(** A call that waits for the stop has something to wait for. *)
Lemma stop_waits c0 k w t :
  inv c0 Stopping k w -> callers w !! t = Some CStopWait ->
  wait_flag gives_up now w STREAM_STOPPED_FLAG = Ok true \/ stop_pending w.
Proof.
  intros Hi Ht. destruct Hi as [Hcf [reading [Hwk _]] Hrx Htx Hda Hus Hse [h Hh]].
  destruct (stopping_caller _ _ _ _ _ _ _ _ _ _ _ _ _ Hh Ht) as [Hg _]. destruct h; try discriminate Hg.
  pose proof Hh as [_ _ Hr Htt _ _ _ _ _ Hc]. unfold channel_ok in Hr, Htt. cbn in Hr, Htt.
  assert (forall a d x, is_worker (ap_rx_worker p) (ap_tx_worker p) a -> workers (ai w) !! a = Some d ->
    x ∈ work (jobs w !! a) d -> fn x = finisher_a -> stop_pending w)
    as Hp by (intros a d x ? ? ? ?; right; by exists a, d, x).
  assert (forall (f : dispatch_queue_post_data_t -> bool) l x r, List.filter f l = r -> x ∈ r -> x ∈ l) as Hin.
  { intros f l x r <- Hx. apply list_elem_of_In, List.filter_In in Hx as [Hx _]. by apply list_elem_of_In. }
  assert (rx_init (rx_task (inst (ai w))) = AsyncioUninitialized \/ stop_pending w) as [Hri|?]; [|..|by right].
  { destruct (ap_rx_worker p =? 0) eqn:E; [by left|]. bdestr. destruct Hr as [Hr|Hr]; [right|by left].
    destruct (Hwk (ap_rx_worker p)) as (d & Hd & [_ _ Hf _ _]); [by split; [|left]|].
    rewrite Z.eqb_refl, Hr in Hf. eapply (Hp _ d (job self finisher_a 0)); [by split; [|left]|done| |done].
    eapply Hin; [exact Hf|]. cbn. apply elem_of_app. right. by left. }
  assert (tx_init (tx_task (inst (ai w))) = AsyncioUninitialized \/ stop_pending w) as [Hti|?]; [|..|by right].
  { destruct (ap_tx_worker p =? 0) eqn:E; [by left|]. bdestr. destruct Htt as [Htt|Htt]; [right|by left].
    destruct (Hwk (ap_tx_worker p)) as (d & Hd & [_ _ _ Hf _]); [by split; [|right]|].
    rewrite Z.eqb_refl, Htt in Hf. eapply (Hp _ d (job self finisher_a 1)); [by split; [|right]|done| |done].
    eapply Hin; [exact Hf|]. cbn. apply elem_of_app. right. by left. }
  destruct (Hc (conj Hri Hti)) as [Hv|Hj]; [left|right; by left].
  rewrite <- Hv. by apply (wait_flag_bit _ _ _ 1).
Qed.


(** ** The workers come to rest *)

(** The steps that a worker has still to make, at most. *)
Definition pc_steps (j : option job_pc) : nat :=
  match j with
  | None => 0
  | Some (JBody _) => 6
  | Some JStartRx | Some JStopRx => 5
  | Some JStartTx | Some JStopTx => 4
  | Some JStartStore | Some JStopStore => 3
  | Some JStartSend | Some JStopSend => 2
  | Some JDone => 1
  end.

Definition left_of (ws : gmap Z D) (js : gmap Z job_pc) (a : Z) : nat :=
  match ws !! a with
  | Some d => pc_steps (js !! a) + 7 * length (dp_calls d)
  | None => 0
  end.

Definition steps_left (w : aio_world Q D C) : Z -> nat := left_of (workers (ai w)) (jobs w).

(** One worker has come closer to rest, if it was not at rest, and no other has moved. *)
Definition closer (a : Z) (before after : Z -> nat) : Prop :=
  forall b, (after b <= if (a =? b)%Z then pred (before b) else before b)%nat.

Lemma closer_worker ws js a d d' (j : option job_pc) :
  ws !! a = Some d ->
  (pc_steps j + 7 * length (dp_calls d') <= pred (pc_steps (js !! a) + 7 * length (dp_calls d)))%nat ->
  closer a (left_of ws js) (left_of (<[a := d']> ws) (partial_alter (fun _ => j) a js)).
Proof.
  intros Hd Hle b. unfold left_of. destruct (a =? b) eqn:E; bdestr.
  - subst b. by rewrite lookup_insert_eq, lookup_partial_alter_eq, Hd.
  - by rewrite lookup_insert_ne, lookup_partial_alter_ne by done.
Qed.

Lemma closer_job ws js a d (j : job_pc) :
  ws !! a = Some d -> (pc_steps (Some j) < pc_steps (js !! a))%nat ->
  closer a (left_of ws js) (left_of ws (partial_alter (fun _ => Some j) a js)).
Proof. intros Hd Hlt. rewrite <- (insert_id ws a d Hd) at 2. eapply closer_worker; [done|]. lia. Qed.

(** The stop has told both channels; its call waits or has returned. *)
Definition told_to_stop (w : aio_world Q D C) : Prop :=
  callers w = ∅ \/ exists t, callers w = {[t := CStopWait]}.

Definition falling (st : asyncio_init_state_e) : Prop := st = AsyncioUninitializing \/ st = AsyncioUninitialized.

Lemma told_falling c0 k w :
  inv c0 Stopping k w -> told_to_stop w ->
  falling (rx_init (rx_task (inst (ai w)))) /\ falling (tx_init (tx_task (inst (ai w)))).
Proof.
  intros Hi Ht. destruct (ai_proto _ _ _ _ _ _ _ _ _ _ _ _ _ _ _ _ _ _ _ _ _ _ _ _ Hi) as (h & Hh).
  assert (rx_told h = true /\ tx_told h = true) as [Hr1 Ht1].
  { destruct Ht as [Ht|[t Ht]]; rewrite Ht in Hh; [by rewrite (no_caller_halt _ _ _ _ _ _ _ _ _ _ Hh)|].
    destruct (stopping_caller _ _ _ _ _ _ _ _ _ _ _ t CStopWait Hh (lookup_singleton_eq _ _)) as [Hg _]. by destruct h. }
  destruct Hh as [_ _ Hr Htt _ _ _ _ _ _]. unfold channel_ok in *. rewrite Hr1 in Hr. rewrite Ht1 in Htt.
  unfold falling. destruct (_ =? 0), (_ =? 0); tauto.
Qed.

(** What the call of a worker leaves to the other workers and to itself. *)
Lemma body_told c0 k w a c w' :
  config_ok starter_a finisher_a tx_a rx_a qr qt (ap_rx_worker p) (ap_tx_worker p)
    (ap_rx_pool_params p) (ap_tx_pool_params p) (ap_rx_callback p) (ap_read_f p) (ap_write_f p)
    (ap_tx_buffer_offset p) (2 * k) ->
  inv c0 Stopping k w -> told_to_stop w -> jobs w !! a = Some (JBody c) ->
  body_step self starter_a finisher_a tx_a rx_a (Some qr) (Some qt) read_f write_f rx_callback_f
    tx_notification_f w a c = Ok w' ->
  workers (ai w') = workers (ai w) /\ callers w' = callers w /\ results w' = results w /\
  exists j, jobs w' = partial_alter (fun _ => Some j) a (jobs w) /\ (pc_steps (Some j) < 6)%nat.
Proof.
  intros Hco Hi Ht Hj Hb. destruct (told_falling _ _ _ Hi Ht) as [Hfr Hft].
  destruct Hi as [_ [reading Hwk] _ _ _ _ _ _].
  assert (fn c <> starter_a /\ (fn c = rx_a -> is_initialized (rx_init (rx_task (inst (ai w)))) = false)) as [Hns Hrx].
  { destruct (config_distinct _ _ _ _ _ _ _ _ _ _ _ _ _ _ _ Hco) as (Hsf & Hst & Hsr & _).
    split; [|intros _; by destruct Hfr as [->| ->]].
    destruct (body_job _ _ _ _ _ _ _ _ _ _ _ _ Hwk Hj) as [Hc|Hc].
    - destruct (workers_body_rx starter_a finisher_a tx_a rx_a _ _ (co_addresses _ _ _ _ _ _ _ _ _ _ _ _ _ _ _ Hco)
        _ _ _ _ _ a c JDone Hwk Hj Hc eq_refl) as (_ & rj & Hrj & _).
      destruct Hfr as [Hf|Hf]; rewrite Hf in Hrj; [|done]. destruct reading; injection Hrj as <- _; cbn; congruence.
    - destruct (workers_body_tx starter_a finisher_a tx_a rx_a _ _ (co_addresses _ _ _ _ _ _ _ _ _ _ _ _ _ _ _ Hco)
        _ _ _ _ _ a c JDone Hwk Hj Hc eq_refl) as (_ & tj & Htj & _).
      destruct Hft as [Hf|Hf]; rewrite Hf in Htj; [|done]. destruct (waiting w); injection Htj as <- _; cbn; congruence. }
  unfold body_step in Hb. rewrite (proj2 (Z.eqb_neq _ _) Hns) in Hb.
  destruct (fn c =? finisher_a); [|destruct (fn c =? tx_a); [|destruct (fn c =? rx_a) eqn:E; [|done]]].
  - injection Hb as <-. cbn. split_and!; [|done..|eexists; split; [done|cbn; lia]].
    unfold finisher_body. by destruct (arg2 c =? 0), (cas _ _ _) as [st []].
  - apply bind_ok in Hb as (s & Hs & Hb). injection Hb as <-. cbn. split_and!; [|done..|eexists; split; [done|cbn; lia]].
    unfold tx_f in Hs. apply bind_ok in Hs as (s1 & Hs1 & Hs). apply bind_ok in Hs as (r & _ & Hs). injection Hs as <-. cbn.
    destruct (is_initialized _); [|by injection Hs1 as <-].
    apply bind_ok in Hs1 as (rq & _ & Hs1). apply bind_ok in Hs1 as ([[u st] nn] & _ & Hs1). by injection Hs1 as <-.
  - bdestr. unfold rx_f in Hb. rewrite (Hrx E) in Hb. cbn in Hb. injection Hb as <-. cbn.
    split_and!; [done..|eexists; split; [done|cbn; lia]].
Qed.

(** Every step of a worker that has something to do brings it closer to rest, and
    leaves the other workers where they are. *)
Lemma work_closer c0 k w a w' :
  0 <= k -> config (2 * (k + 1)) -> inv c0 Stopping (k + 1) w -> told_to_stop w ->
  is_worker (ap_rx_worker p) (ap_tx_worker p) a -> work_step self starter_a finisher_a tx_a rx_a (Some qr) (Some qt)
    read_f write_f rx_callback_f tx_notification_f w a = Ok w' ->
  callers w' = callers w /\ results w' = results w /\ closer a (steps_left w) (steps_left w').
Proof.
  intros Hk Hco Hi Ht Ha He. unfold work_step in He.
  destruct (ai_work _ _ _ _ _ _ _ _ _ _ _ _ _ _ _ _ _ _ _ _ _ _ _ _ Hi) as [reading [Hwk _]].
  destruct (Hwk a Ha) as (d & Hd & [Hok Hbusy _ _ _]). rewrite Hd in He.
  destruct (jobs w !! a) as [j|] eqn:Hj.
  - pose proof (fun j' => closer_job (workers (ai w)) (jobs w) a d j' Hd) as Hpc. rewrite Hj in Hpc.
    destruct j as [c| | | | | | | | |];
      try (injection He as <-; split_and!; [done..|]; apply Hpc;
           (destruct (rx_started _) || destruct (tx_started _) || destruct (rx_stopped _) ||
            destruct (tx_stopped _) || idtac); cbn; lia).
    + destruct (body_told _ _ _ _ _ _ Hco Hi Ht Hj He) as (Hws & -> & -> & j & Hjs & Hlt).
      split_and!; [done..|]. unfold steps_left. rewrite Hws, Hjs. by apply Hpc.
    + rewrite bool_decide_true in Hbusy by by eexists.
      destruct (dp_finish_call k d Hk Hok Hbusy) as (d' & Hf & _ & Hcalls & _). rewrite Hf in He. cbn in He.
      injection He as <-. split_and!; [done..|]. eapply closer_worker; [done|]. cbn [jobs set_ai set_job]. rewrite Hj, Hcalls. cbn. lia.
  - rewrite bool_decide_false in Hbusy by by intros []. destruct (dp_calls d) as [|c l] eqn:Hcalls.
    + destruct (dp_take_waits k d Hk Hok Hbusy Hcalls) as (d' & wc & Hf & _ & Hcalls' & _). rewrite Hf in He. cbn in He.
      injection He as <-. split_and!; [done..|].
      pose proof (closer_worker (workers (ai w)) (jobs w) a d d' None Hd ltac:(rewrite Hj, Hcalls'; cbn; lia)) as Hcl.
      assert (partial_alter (fun _ => None) a (jobs w) = jobs w) as Hpa; [|by rewrite Hpa in Hcl].
      apply map_eq. intros b0. destruct (decide (a = b0)) as [<-|Hne];
        [by rewrite lookup_partial_alter_eq|by rewrite lookup_partial_alter_ne].
    + destruct (dp_take_call k d c l Hk Hok Hbusy Hcalls) as (d' & Hf & _ & Hcalls' & _). rewrite Hf in He. cbn in He.
      injection He as <-. split_and!; [done..|]. eapply closer_worker; [done|]. cbn [jobs set_ai set_job]. rewrite Hj, Hcalls, Hcalls'. cbn. lia.
Qed.

Lemma work_told c0 k w a :
  0 <= k -> config (2 * (k + 1)) -> inv c0 Stopping (k + 1) w -> told_to_stop w ->
  is_worker (ap_rx_worker p) (ap_tx_worker p) a ->
  exists w', step w (XWork a) = Ok w' /\ inv c0 Stopping k w' /\ callers w' = callers w /\
    closer a (steps_left w) (steps_left w').
Proof.
  intros Hk Hco Hi Ht Ha. destruct (told_falling _ _ _ Hi Ht) as [Hfr _].
  pose proof (halt_work_ok self starter_a finisher_a tx_a rx_a qr qt read_f write_f rx_callback_f tx_notification_f
    gives_up now _ _ _ _ _ _ _ _ _ _ _ _ _ k w a Hk Hco Hi Ha) as Hs. unfold step_result in Hs.
  destruct (step w (XWork a)) as [w'|f] eqn:He.
  2: { destruct Hs as (_ & _ & Hp). by destruct Hfr as [Hf|Hf]; rewrite Hf in Hp. }
  destruct (work_closer _ _ _ _ _ Hk Hco Hi Ht Ha He) as (Hc & _ & Hcl). by exists w'.
Qed.

(** Worker [a] has its turn that many times. *)
Definition turns (a : Z) (evs : list aio_event) : nat :=
  length (List.filter (fun ev => match ev with XWork b => b =? a | _ => false end) evs).

Definition work_event (ev : aio_event) : Prop :=
  match ev with XWork a => is_worker (ap_rx_worker p) (ap_tx_worker p) a | _ => False end.

Lemma work_run c0 evs : forall k w,
  0 <= k -> config (2 * (k + zlen evs)) -> inv c0 Stopping (k + zlen evs) w -> told_to_stop w ->
  Forall work_event evs ->
  exists w', run w evs = Ok w' /\ inv c0 Stopping k w' /\ callers w' = callers w /\
    forall b, (steps_left w' b <= steps_left w b - turns b evs)%nat.
Proof.
  induction evs as [|ev evs IH]; intros k w Hk Hco Hi Ht Hw.
  - exists w. change (zlen []) with 0 in Hi. rewrite Z.add_0_r in Hi. split_and!; try done. intros b. cbn. lia.
  - rewrite zlen_cons in *. pose proof (zlen_nonneg evs). apply Forall_cons in Hw as [Ha Hw].
    destruct ev as [| | | |a| | | |]; try (by destruct Ha).
    replace (k + (zlen evs + 1)) with (k + zlen evs + 1) in Hi, Hco by lia.
    destruct (work_told c0 (k + zlen evs) w a ltac:(lia) Hco Hi Ht Ha) as (w1 & Hs & Hi1 & Hc1 & Hcl).
    destruct (IH k w1 Hk ltac:(eapply config_mono; [|exact Hco]; lia) Hi1) as (w' & Hr & Hi' & Hc & Hle).
    { unfold told_to_stop in *. by rewrite Hc1. }
    { done. }
    exists w'. cbn [aio_run]. rewrite Hs. cbn [mbind result_bind]. split_and!; [done|done|congruence|].
    intros b. specialize (Hle b). specialize (Hcl b). unfold turns in *. cbn [List.filter].
    destruct (a =? b); cbn [length] in *; lia.
Qed.

(** Workers without steps. *)
Lemma at_rest c0 ph k w :
  inv c0 ph k w -> (forall a, is_worker (ap_rx_worker p) (ap_tx_worker p) a -> steps_left w a = 0%nat) ->
  jobs w = ∅ /\ forall a d, is_worker (ap_rx_worker p) (ap_tx_worker p) a -> workers (ai w) !! a = Some d ->
    work (jobs w !! a) d = [].
Proof.
  intros Hi Hleft. destruct (ai_work _ _ _ _ _ _ _ _ _ _ _ _ _ _ _ _ _ _ _ _ _ _ _ _ Hi) as [reading [Hwk Hjs]].
  assert (forall a, is_worker (ap_rx_worker p) (ap_tx_worker p) a -> jobs w !! a = None /\
    forall d, workers (ai w) !! a = Some d -> dp_calls d = []) as Hrest.
  { intros a Ha. specialize (Hleft a Ha). unfold steps_left, left_of in Hleft.
    destruct (Hwk a Ha) as (d & Hd & _). rewrite Hd in Hleft. split.
    - destruct (jobs w !! a) as [j|]; [|done]. destruct j; cbn in Hleft; lia.
    - intros d' Hd'. rewrite Hd in Hd'. injection Hd' as <-. destruct (dp_calls d); [done|]. cbn in Hleft. lia. }
  split.
  - apply map_eq. intros a. rewrite lookup_empty. destruct (jobs w !! a) as [j|] eqn:Hja; [|done].
    destruct (Hrest a (Hjs _ _ Hja)) as [Hn _]. congruence.
  - intros a d Ha Hd. destruct (Hrest a Ha) as [Hn Hcl]. unfold work. by rewrite Hn, (Hcl d Hd).
Qed.

End sessions.

(** ** Witnesses *)

#[local] Existing Instance AsyncioGuarantees.ex_bq.
#[local] Existing Instance AsyncioGuarantees.ex_bq_laws.
#[local] Existing Instance AsyncioGuarantees.ex_dispatcher.
#[local] Existing Instance AsyncioGuarantees.ex_dispatcher_laws.

#[local] Instance session_legal_dec {Q D C} (w : aio_world Q D C) ev : Decision (session_legal w ev).
Proof. unfold session_legal. apply and_dec; destruct ev; cbn; apply _. Defined.

#[local] Instance session_run_dec {Q D C} `{!BoundedQueue Q} `{!Dispatcher D} a b c d e q1 q2 r wf cf nf g n
  (w : aio_world Q D C) evs : Decision (session_run a b c d e q1 q2 r wf cf nf g n w evs).
Proof.
  revert w. unfold session_run. induction evs as [|ev evs IH]; intros w; cbn; [apply _|].
  apply and_dec; [apply _|]. destruct (aio_step _ _ _ _ _ _ _ _ _ _ _ _ _ w ev); [apply IH|apply _].
Defined.

(** A stop while a transmission waits: it is dropped; one token is released when its
    pool is gone, and what is sent then is refused. *)
Definition ex_stopping : list aio_event :=
  ex_up 1 ++ [XAllocate; XFill 5032 [1; 2]; XAllocate; XSend 5032 2 31 0; XStop 1; XCaller 1; XSend 5096 2 31 0] ++
  [XCaller 1; XCaller 1].

Definition ex_turns : list aio_event := replicate 14 (XWork 600) ++ replicate 14 (XWork 500).

Definition ex_session : list aio_event := ex_stopping ++ ex_turns ++ [XRelease 5096; XCaller 1].

Abbreviation ex_session_run := (session_run 1 11 12 13 14 ex_pool_queue ex_pool_queue ex_read ex_write ex_rx_callback
  ex_notified c11_gives_up ex_now).

(** The events are legal, and what they leave. *)
Lemma ex_session_legal s evs : ex_aio = Ok s -> evs = ex_session \/ evs = ex_stopping -> ex_session_run (new_aio_world s) evs.
Proof.
  intros Hs Hevs.
  assert (match ex_aio with
    | Ok s => bool_decide (ex_session_run (new_aio_world s) ex_session) && bool_decide (ex_session_run (new_aio_world s) ex_stopping)
    | Err _ => false end = true) as H by (vm_compute; reflexivity).
  rewrite Hs in H. apply andb_true_iff in H as [H1%bool_decide_eq_true H2%bool_decide_eq_true]. destruct Hevs as [->| ->]; [exact H1|exact H2].
Qed.

Definition ex_left (w : aio_world ts_queue_t (worker_queue ts_queue_t) (list Z)) : Prop :=
  hist w = [DDropped (ex_sending 5032 [1; 2])] /\ user (ai w) = [] /\ wins (results w) = [1%nat] /\
  callers w = ∅ /\ jobs w = ∅ /\ stream_stopped (inst (ai w)) = true.

Definition ex_waits (w : aio_world ts_queue_t (worker_queue ts_queue_t) (list Z)) : Prop :=
  callers w = {[1%nat := CStopWait]} /\ steps_left w 500 = 14%nat /\ steps_left w 600 = 14%nat.

Lemma ex_session_result s : ex_aio = Ok s ->
  (exists w, ex_aio_run (new_aio_world s) ex_session = Ok w /\ ex_left w) /\
  (exists w, ex_aio_run (new_aio_world s) ex_stopping = Ok w /\ ex_waits w).
Proof.
  intros Hs. split.
  - assert (match ex_aio with
      | Ok s => match ex_aio_run (new_aio_world s) ex_session with
                | Ok w => Some (hist w, user (ai w), wins (results w), callers w, jobs w, stream_stopped (inst (ai w)))
                | Err _ => None end
      | Err _ => None end = Some ([DDropped (ex_sending 5032 [1; 2])], [], [1%nat], ∅, ∅, true)) as H by (vm_compute; reflexivity).
    rewrite Hs in H. destruct (ex_aio_run _ _) as [w|f]; [|discriminate H].
    injection H as H1 H2 H3 H4 H5 H6. exists w. split; [done|]. by repeat split.
  - assert (match ex_aio with
      | Ok s => match ex_aio_run (new_aio_world s) ex_stopping with
                | Ok w => Some (callers w, steps_left w 500, steps_left w 600)
                | Err _ => None end
      | Err _ => None end = Some ({[1%nat := CStopWait]}, 14%nat, 14%nat)) as H by (vm_compute; reflexivity).
    rewrite Hs in H. destruct (ex_aio_run _ _) as [w|f]; [|discriminate H].
    injection H as H1 H2 H3. exists w. split; [done|]. by repeat split.
Qed.


