(* ===== verification/Logger.v ===== *)
(** The logger of src/logger.c and inc/cutils/logger.h, and what the components
    write in front of their messages.

    A buffer is the list of its characters, and a text that is written needs room
    for its terminator.  [format] has the conversions that the library uses; what a
    pointer looks like is an argument.  Texts that the components know by address
    are read with [text_at]. *)
From S2P Require Import Prelude Enum TsQueue Pool EventFlag Accumulator StateMachine.
From S2P Require Import Notifier DispatchQueue StateEventLoop Dispatcher Asyncio.
From stdpp Require Import base list gmap.
From Stdlib Require Import ZArith Lia Strings.String.
Local Open Scope Z_scope.

(** ** Formatting *)

Inductive arg : Set :=
  | AUnsigned (z : Z)
  | AInt (z : Z)
  | AText (s : list Z)
  | AChar (c : Z)
  | APointer (p : Z)
  | AVaList.

(** The decimal digits of a number, at most [k] of them. *)
Fixpoint decimal_from (k : nat) (n : Z) : list Z :=
  match k with
  | O => []
  | S k => if n <? 10 then [48 + n] else decimal_from k (n / 10) ++ [48 + n mod 10]
  end.

Definition decimal (n : Z) : list Z := decimal_from 20 n.

(** The text of an argument under a conversion; a mismatch is undefined. *)
Definition convert (pointer_text : Z -> list Z) (c : Z) (a : arg) : result (list Z) :=
  match a with
  | AUnsigned z => if c =? 117 then Ok (decimal z) else Err BadPointer
  | AInt z => if c =? 100 then Ok (if z <? 0 then 45 :: decimal (- z) else decimal z) else Err BadPointer
  | AText s => if c =? 115 then Ok s else Err BadPointer
  | AChar x => if c =? 99 then Ok [u8 x] else Err BadPointer
  | APointer p => if c =? 112 then Ok (pointer_text p) else Err BadPointer
  | AVaList => Err BadPointer
  end.

Definition pad (zero : bool) (width : Z) (s : list Z) : list Z :=
  replicate (Z.to_nat (width - zlen s)) (if zero then 48 else 32) ++ s.

(** [st]: outside a conversion, or behind its percent sign with the flag and the
    width read so far. *)
Fixpoint format_from (pointer_text : Z -> list Z) (st : option (bool * Z)) (fmt : list Z)
    (args : list arg) : result (list Z) :=
  match fmt, st with
  | [], None => Ok []
  | [], Some _ => Err BadPointer
  | c :: fmt, None =>
      if c =? 37 then format_from pointer_text (Some (false, 0)) fmt args
      else r ← format_from pointer_text None fmt args; Ok (c :: r)
  | c :: fmt, Some (zero, width) =>
      if c =? 37 then r ← format_from pointer_text None fmt args; Ok (c :: r)
      else if (c =? 48) && (width =? 0) then format_from pointer_text (Some (true, 0)) fmt args
      else if (48 <=? c) && (c <=? 57) then
        format_from pointer_text (Some (zero, 10 * width + (c - 48))) fmt args
      else if c =? 108 then format_from pointer_text (Some (zero, width)) fmt args
      else
        match args with
        | [] => Err BadPointer
        | a :: args =>
            t ← convert pointer_text c a;
            r ← format_from pointer_text None fmt args;
            Ok (pad zero width t ++ r)
        end
  end.

Section formatting.
Context (pointer_text : Z -> list Z).

Definition format (fmt : list Z) (args : list arg) : result (list Z) :=
  format_from pointer_text None fmt args.

(** A text and its terminator, from position [at_] on. *)
Definition write_text (buf : list Z) (at_ : Z) (s : list Z) : result (list Z) :=
  if (0 <=? at_) && (at_ + zlen s <? zlen buf)
  then Ok (take (Z.to_nat at_) buf ++ s ++ 0 :: drop (Z.to_nat at_ + List.length s + 1) buf)
  else Err OutOfBounds.

(** [sprintf] and [vsprintf]: the buffer and the number of characters. *)
Definition sprintf (buf : list Z) (at_ : Z) (fmt : list Z) (args : list arg) : result (list Z * Z) :=
  s ← format fmt args; b ← write_text buf at_ s; Ok (b, zlen s).

Definition INSERT_TO_STRING (buf : list Z) (p_str n_written : Z) (fmt : list Z) (args : list arg)
  : result (list Z * Z) :=
  '(buf, res) ← sprintf buf (p_str + n_written) fmt args;
  Ok (buf, u32 (n_written + if 0 <? res then res else 0)).

(** ** Loggers *)

(** A prefix function writes at a position of the buffer, is told how much room
    there is, and returns how much it wrote. *)
Definition prefix_f : Type := list Z -> Z -> Z -> result (list Z * Z).

Record logger_t := { fnPrefix : option prefix_f; isEnabled : bool; log_level : Z }.

Record simple_logger_t := { lg_base : logger_t; pPrefix : list Z }.

Definition SimpleLoggerPrefix (pPrefix : list Z) : prefix_f := fun buf at_ string_size =>
  '(buf, size) ← sprintf buf at_ (chars "%s") [AText pPrefix];
  Ok (buf, if 0 <? size then u32 size else 0).

Definition simple_logger_init (prefix : list Z) (enabled : bool) : simple_logger_t :=
  {| lg_base := {| fnPrefix := Some (SimpleLoggerPrefix prefix); isEnabled := enabled; log_level := 0 |};
     pPrefix := prefix |}.

(** [SIMPLE_LOGGER_DEF], [SIMPLE_LOGGER_STRUCT_INIT] and [SIMPLE_LOGGER_INIT] fill in
    the same fields. *)
Definition SIMPLE_LOGGER_DEF (prefix : list Z) (enabled : bool) : simple_logger_t :=
  {| lg_base := {| fnPrefix := Some (SimpleLoggerPrefix prefix); isEnabled := enabled; log_level := 0 |};
     pPrefix := prefix |}.

Definition general_logger : simple_logger_t := SIMPLE_LOGGER_DEF (chars "general") true.

(** Storing one character. *)
Definition store_char (buf : list Z) (i c : Z) : result (list Z) :=
  if bool_decide (0 <= i < zlen buf) then Ok (<[Z.to_nat i := c]> buf) else Err OutOfBounds.

(** [p_buffer] is the position in [buf] that the argument points to. *)
Definition logger_write_string (p_logger : logger_t) (fmt : list Z) (buf : list Z)
    (p_buffer buffer_size : Z) (args : list arg) : result (list Z * Z) :=
  let fmtLen := zlen fmt in
  if fmtLen <? u32 (buffer_size - 1) / 2 then
    '(buf, index, full) ←
      match fnPrefix p_logger with
      | None => Ok (buf, 0, false)
      | Some f =>
          '(buf, n) ← f buf p_buffer (u32 (buffer_size - u32 fmtLen));
          if n <? u32 (buffer_size - 2) then
            buf ← store_char buf (p_buffer + n) 58;
            buf ← store_char buf (p_buffer + n + 1) 32;
            Ok (buf, n + 2, false)
          else Ok (buf, n, true)
      end;
    if (full : bool) then Ok (buf, index)
    else '(buf, n) ← sprintf buf (p_buffer + index) fmt args; Ok (buf, u32 (index + n))
  else Ok (buf, 0).

Definition LOG_MAX_LINE_LENGTH : Z := 512.

(** What [localtime] returns. *)
Record tm : Set := { tm_year : Z; tm_mon : Z; tm_mday : Z; tm_hour : Z; tm_min : Z; tm_sec : Z }.

Definition stamp_args (ts : tm) : list arg :=
  [AUnsigned (tm_year ts); AUnsigned (tm_mon ts); AUnsigned (tm_mday ts); AUnsigned (tm_hour ts);
   AUnsigned (tm_min ts); AUnsigned (tm_sec ts)].

Definition stamp_fmt : list Z := chars "[%04u/%02u/%02u-%02u:%02u:%02u]: ".

(** [debugf] is [printf]: it takes the line as its format.  [buf] is what the
    uninitialized line holds; the result is what is printed. *)
Definition console_log (logger : option logger_t) (str : list Z) (args : list arg) (ts : tm)
    (buf : list Z) : result (list Z) :=
  match logger with
  | None => Ok []
  | Some l =>
      if isEnabled l then
        '(buf, index) ← sprintf buf 0 stamp_fmt (stamp_args ts);
        '(buf, bytes_written) ←
          logger_write_string l str buf index (u32 (LOG_MAX_LINE_LENGTH - index)) args;
        '(buf, _) ← sprintf buf (index + bytes_written) [10] [];
        format (cstring buf) []
      else Ok []
  end.

(** The format gets the list of the arguments as its only argument. *)
Definition console_log_raw (str : list Z) : result (list Z) := format str [AVaList].

(** [CLOG], at a line of a function; the conditions of [CLOG_IF] and [LOG_IF]. *)
Definition CLOG (function : list Z) (line : Z) (str : list Z) (args : list arg) (ts : tm) (buf : list Z)
  : result (list Z) :=
  console_log (Some (lg_base general_logger)) (chars "%s(%u): " ++ str) (AText function :: AUnsigned line :: args)
    ts buf.

Definition CLOG_IF (cond : bool) (function : list Z) (line : Z) (str : list Z) (args : list arg) (ts : tm)
    (buf : list Z) : result (list Z) :=
  if cond then CLOG function line str args ts buf else Ok [].

(** [x] and [f] are the spellings of the macro's arguments, [value] what the first
    one stands for; the macro gets a spelling and an argument. *)
Definition LOG_FIELD {A : Type} (x f : list Z) (value : arg) (log : list Z -> list arg -> A) : A :=
  log (x ++ chars " = %" ++ f) [value].

(** A spelling between quotes. *)
Definition quoted (s : list Z) : list Z := 34 :: s ++ [34].

(** [CLOG_FIELD] hands [LOG_FIELD] the strings that [LOG_FIELD] makes itself, and the
    value where the conversion goes: the spelling of the one is [#x " = %" #f] and
    that of the other is [x]. *)
Definition CLOG_FIELD (x f : list Z) (function : list Z) (line : Z) (ts : tm) (buf : list Z)
  : result (list Z) :=
  LOG_FIELD (quoted x ++ [32] ++ quoted (chars " = %") ++ [32] ++ quoted f) x (AText (x ++ chars " = %" ++ f))
    (fun str args => CLOG function line str args ts buf).

(** [TIMED_FUNC_MS]: [ticks] is [task_get_ticks], which returns 64 bits in the POSIX
    ports. *)
Definition TIMED_FUNC_MS {W : Type} (ticks : W -> Z) (func : W -> W) (w : W) : Z * W :=
  let func_start := u32 (ticks w) in
  let w := func w in
  (u64 (ticks w - func_start), w).

(** [TIMED_FUNC_US]: the high-resolution time stamp is a function of the client's. *)
Definition TIMED_FUNC_US {W : Type} (time_stamp : W -> Z) (func : W -> W) (w : W) : Z * W :=
  let func_start := u64 (time_stamp w) in
  let w := func w in
  let func_end := u64 (time_stamp w) in
  (u64 (func_end - func_start), w).

Definition BYTE_TO_BINARY_PATTERN : list Z := chars "%c%c%c%c%c%c%c%c".

Definition BYTE_TO_BINARY (byte : Z) : list arg :=
  (fun mask => AChar (if Z.land byte mask =? 0 then 48 else 49)) <$>
    [0x80; 0x40; 0x20; 0x10; 0x08; 0x04; 0x02; 0x01].

(** ** The components' prefixes *)

Context (text_at : Z -> list Z).

Definition StateMachinePrefix (state_name : Z -> Z) (m : state_machine_t) : prefix_f :=
  fun buf at_ str_size =>
    INSERT_TO_STRING buf at_ 0 (chars "%s: %s")
      [AText (text_at (p_name m));
       AText (if current_state m =? 0 then chars "NoState" else text_at (state_name (current_state m)))].

(** [to_string_f]: the event's own function, by address. *)
Definition state_event_loop_state_prefix (state_name : list Z) (to_string_f : Z -> event_t -> prefix_f)
    (p_event : option event_t) : prefix_f :=
  fun buf at_ string_size =>
    '(buf, retval) ←
      (if zlen state_name <? string_size
       then INSERT_TO_STRING buf at_ 0 (chars "%s: ") [AText state_name] else Ok (buf, 0));
    match p_event with
    | Some e =>
        if to_string e =? 0 then Ok (buf, retval)
        else '(buf, n) ← to_string_f (to_string e) e buf (at_ + retval) (u32 (string_size - retval));
             Ok (buf, u32 (retval + n))
    | None => Ok (buf, retval)
    end.

Fixpoint machine_states (state_name : Z -> Z) (ms : list state_machine_t) (buf : list Z) (at_ retval : Z)
  : result (list Z * Z) :=
  match ms with
  | [] => Ok (buf, retval)
  | m :: ms =>
      '(buf, retval) ←
        (if current_state m =? 0 then Ok (buf, retval)
         else INSERT_TO_STRING buf at_ retval (chars ":%s") [AText (text_at (state_name (current_state m)))]);
      machine_states state_name ms buf at_ retval
  end.

Definition state_event_loop_logger_prefix {Q : Type} (state_name : Z -> Z)
    (to_string_f : Z -> event_t -> prefix_f) (l : state_event_loop_t Q) (event : option event_t) : prefix_f :=
  fun buf at_ string_size =>
    '(buf, retval) ← INSERT_TO_STRING buf at_ 0 (chars "%s") [AText (text_at (name l))];
    '(buf, retval) ← machine_states state_name (take (Z.to_nat (num_machines l)) (machines l)) buf at_ retval;
    match event with
    | Some e =>
        if to_string e =? 0 then Ok (buf, retval)
        else
          '(buf, retval) ← INSERT_TO_STRING buf at_ retval (chars ":") [];
          '(buf, n) ← to_string_f (to_string e) e buf (at_ + retval) (u32 (string_size - retval));
          Ok (buf, u32 (retval + n))
    | None => Ok (buf, retval)
    end.

Definition init_state_value (st : asyncio_init_state_e) : Z :=
  match st with
  | AsyncioUninitialized => 0 | AsyncioUninitializing => 1
  | AsyncioInitializing => 2 | AsyncioInitialized => 3
  end.

Definition init_state_string (st : asyncio_init_state_e) : list Z :=
  get_string ASYNCIO_INIT_STATE_E (init_state_value st).

Definition asyncio_logger_prefix {Q : Type} (i : asyncio_interface_instance_t Q) : prefix_f :=
  fun buf at_ string_size =>
    if 30 <? string_size then
      INSERT_TO_STRING buf at_ 0 (chars "%s:%s(Tx:%s,Rx:%s)")
        [AText (stream_name i); AText (init_state_string (init_state i));
         AText (init_state_string (tx_init (tx_task i))); AText (init_state_string (rx_init (rx_task i)))]
    else Ok (buf, 0).

Definition accumulator_to_string (a : accumulator_t) : prefix_f := fun buf at_ string_size =>
  if 128 <=? string_size then
    INSERT_TO_STRING buf at_ 0 (chars "acc(in = %u, out = %u, contained = %u, left = %u, tot = %u)")
      [AUnsigned (acc_in a); AUnsigned (acc_out a); AUnsigned (accumulator_bytes_contained a);
       AUnsigned (accumulator_bytes_left a); AUnsigned (total_buffer_size a)]
  else Ok (buf, 0).
End formatting.

(** ** Texts and their room *)

Lemma decimal_from_length k j n :
  1 <= j -> 0 <= n < 10 ^ j -> zlen (decimal_from k n) <= j.
Proof.
  revert j n. induction k as [|k IH]; intros j n Hj Hn; [unfold zlen; cbn; lia|]. cbn [decimal_from].
  destruct (n <? 10) eqn:E; bdestr; [rewrite zlen_cons, zlen_nil; lia|].
  rewrite zlen_app, zlen_cons, zlen_nil.
  assert (j <> 1) by (intros ->; lia).
  assert (10 ^ j = 10 * 10 ^ (j - 1)) as Hp
    by (replace j with (Z.succ (j - 1)) at 1 by lia; apply Z.pow_succ_r; lia).
  assert (zlen (decimal_from k (n / 10)) <= j - 1); [|lia]. apply IH; [lia|].
  split; [apply Z.div_pos; lia|]. apply Z.div_lt_upper_bound; lia.
Qed.

Lemma decimal_from_digits k n : 0 <= n -> Forall (fun c => 48 <= c <= 57) (decimal_from k n).
Proof.
  revert n. induction k as [|k IH]; intros n Hn; [constructor|]. cbn.
  destruct (n <? 10) eqn:E; bdestr; [repeat constructor; lia|].
  apply Forall_app. split; [apply IH, Z.div_pos; lia|].
  pose proof (Z.mod_pos_bound n 10). repeat constructor; lia.
Qed.

Lemma pad_length zero width s : zlen s <= width -> zlen (pad zero width s) = width.
Proof.
  intros H. unfold pad. rewrite zlen_app. unfold zlen at 1. rewrite length_replicate.
  pose proof (zlen_nonneg s). lia.
Qed.

Section lines.
Context (pointer_text : Z -> list Z).

(** A text without conversions is its own format. *)
Lemma format_plain s args : 37 ∉ s -> format pointer_text s args = Ok s.
Proof.
  unfold format. induction s as [|c s IH]; intros Hs; [done|].
  apply not_elem_of_cons in Hs as [Hc Hs]. cbn.
  rewrite (proj2 (Z.eqb_neq c 37)), (IH Hs) by done. done.
Qed.

Lemma format_text s : format pointer_text (chars "%s") [AText s] = Ok s.
Proof.
  change (format pointer_text (chars "%s") [AText s]) with (Ok (pad false 0 s ++ [])).
  unfold pad. rewrite app_nil_r. pose proof (zlen_nonneg s).
  by replace (Z.to_nat (0 - zlen s)) with 0%nat by lia.
Qed.

(** Writing at the end of what was written. *)
Lemma write_text_app s k t :
  write_text (s ++ k) (zlen s) t =
    if zlen t <? zlen k then Ok (s ++ t ++ 0 :: drop (List.length t + 1) k) else Err OutOfBounds.
Proof.
  unfold write_text. rewrite zlen_app. pose proof (zlen_nonneg s).
  rewrite (proj2 (Z.leb_le 0 _)) by lia. cbn [andb].
  assert ((zlen s + zlen t <? zlen s + zlen k) = (zlen t <? zlen k)) as ->.
  { destruct (zlen t <? zlen k) eqn:E; bdestr; [apply Z.ltb_lt|apply Z.ltb_ge]; lia. }
  destruct (zlen t <? zlen k); [|done]. unfold zlen. rewrite Nat2Z.id, take_app_length, drop_app_ge by lia.
  do 5 f_equal. lia.
Qed.

Lemma store_char_app s c0 k c : store_char (s ++ c0 :: k) (zlen s) c = Ok (s ++ c :: k).
Proof.
  unfold store_char. pose proof (zlen_nonneg s). pose proof (zlen_nonneg k).
  rewrite bool_decide_eq_true_2 by (rewrite zlen_app, zlen_cons; lia).
  unfold zlen. rewrite Nat2Z.id. by rewrite insert_app_r_alt, Nat.sub_diag by lia.
Qed.

(** The time stamp. *)
Definition stamp (ts : tm) : list Z :=
  [91] ++ pad true 4 (decimal (tm_year ts)) ++ [47] ++ pad true 2 (decimal (tm_mon ts)) ++ [47] ++
  pad true 2 (decimal (tm_mday ts)) ++ [45] ++ pad true 2 (decimal (tm_hour ts)) ++ [58] ++
  pad true 2 (decimal (tm_min ts)) ++ [58] ++ pad true 2 (decimal (tm_sec ts)) ++ [93; 58; 32].

Record tm_ok (ts : tm) : Prop := {
  to_year : 0 <= tm_year ts < 10000;
  to_mon : 0 <= tm_mon ts < 12;
  to_mday : 1 <= tm_mday ts <= 31;
  to_hour : 0 <= tm_hour ts < 24;
  to_min : 0 <= tm_min ts < 60;
  to_sec : 0 <= tm_sec ts <= 60
}.

Lemma stamp_format ts : format pointer_text stamp_fmt (stamp_args ts) = Ok (stamp ts).
Proof. reflexivity. Qed.

Lemma pad_digits width n : 0 <= n -> Forall (fun c => 48 <= c <= 57) (pad true width (decimal n)).
Proof.
  intros Hn. apply Forall_app. split; [|by apply decimal_from_digits].
  apply Forall_replicate. lia.
Qed.

Lemma stamp_length ts : tm_ok ts -> zlen (stamp ts) = 23.
Proof.
  intros [? ? ? ? ? ?]. unfold stamp.
  rewrite !zlen_app, !pad_length by (apply decimal_from_length; lia). reflexivity.
Qed.

Lemma stamp_chars ts : tm_ok ts -> (0 ∉ stamp ts) /\ (37 ∉ stamp ts).
Proof.
  intros [? ? ? ? ? ?].
  assert (Forall (fun c => c <> 0 /\ c <> 37) (stamp ts)) as Hf.
  { assert (forall w n, 0 <= n -> Forall (fun c => c <> 0 /\ c <> 37) (pad true w (decimal n))) as Hd
      by (intros w n Hn; eapply Forall_impl; [by apply pad_digits|]; intros c Hc; cbn in Hc |- *; lia).
    unfold stamp. rewrite !Forall_app. split_and!; try (apply Hd; lia); by apply (bool_decide_unpack _). }
  rewrite Forall_forall in Hf. split; intros H0%Hf; lia.
Qed.

(** [sprintf] at the end of what was written. *)
Lemma sprintf_app s k at_ fmt args t :
  at_ = zlen s -> format pointer_text fmt args = Ok t ->
  sprintf pointer_text (s ++ k) at_ fmt args =
    if zlen t <? zlen k then Ok (s ++ t ++ 0 :: drop (List.length t + 1) k, zlen t) else Err OutOfBounds.
Proof.
  intros -> Hf. unfold sprintf. rewrite Hf. cbn [mbind result_bind]. rewrite write_text_app.
  by destruct (zlen t <? zlen k).
Qed.

(** A message behind a simple prefix. *)
Lemma logger_write_simple s k prefix str args text size :
  zlen k = size -> size = 489 -> zlen prefix < 487 -> format pointer_text str args = Ok text ->
  logger_write_string pointer_text (lg_base (simple_logger_init pointer_text prefix true)) str (s ++ k) (zlen s) size args =
    if zlen str <? 244 then
      if zlen (prefix ++ [58; 32] ++ text) <? size then
        Ok (s ++ prefix ++ [58; 32] ++ text ++ 0 :: drop (List.length (prefix ++ [58; 32] ++ text) + 1) k,
            zlen (prefix ++ [58; 32] ++ text))
      else Err OutOfBounds
    else Ok (s ++ k, 0).
Proof.
  intros Hk -> Hp Hf. unfold logger_write_string. change (u32 (489 - 1) / 2) with 244.
  destruct (zlen str <? 244) eqn:Hs; [|done]. cbn [simple_logger_init lg_base fnPrefix].
  pose proof (zlen_nonneg prefix). pose proof (zlen_nonneg text). unfold SimpleLoggerPrefix.
  rewrite (sprintf_app s k _ _ _ prefix) by (done || apply format_text).
  rewrite (proj2 (Z.ltb_lt (zlen prefix) (zlen k))) by lia. cbn [mbind result_bind].
  assert ((if 0 <? zlen prefix then u32 (zlen prefix) else 0) = zlen prefix) as ->.
  { destruct (0 <? zlen prefix) eqn:E; bdestr; [|lia]. rewrite u32_small; [done|words]. }
  change (u32 (489 - 2)) with 487. rewrite (proj2 (Z.ltb_lt (zlen prefix) 487)) by lia.
  set (k1 := drop (List.length prefix + 1) k).
  assert (zlen k1 = 488 - zlen prefix) as Hk1.
  { unfold k1. replace (List.length prefix + 1)%nat with (Z.to_nat (zlen prefix + 1)) by (unfold zlen; lia).
    rewrite zlen_drop; lia. }
  destruct k1 as [|x k2] eqn:E1; [rewrite zlen_nil in Hk1; lia|]. rewrite zlen_cons in Hk1.
  rewrite app_assoc, <- zlen_app, store_char_app. cbn [mbind result_bind].
  replace (zlen (s ++ prefix) + 1) with (zlen ((s ++ prefix) ++ [58])) by (rewrite !zlen_app, zlen_cons, zlen_nil; lia).
  replace ((s ++ prefix) ++ 58 :: x :: k2) with (((s ++ prefix) ++ [58]) ++ x :: k2) by by rewrite <- app_assoc.
  rewrite store_char_app. cbn [mbind result_bind].
  replace (((s ++ prefix) ++ [58]) ++ 32 :: k2) with ((s ++ prefix ++ [58; 32]) ++ k2) by by rewrite <- !app_assoc.
  rewrite (sprintf_app _ _ _ _ _ text) by (done || (rewrite !zlen_app, !zlen_cons, zlen_nil; lia)).
  assert (zlen (prefix ++ [58; 32] ++ text) = zlen prefix + zlen text + 2) as Hm
    by (rewrite !zlen_app, !zlen_cons, zlen_nil; lia).
  destruct (zlen text <? zlen k2) eqn:E2; bdestr.
  - rewrite (proj2 (Z.ltb_lt _ 489)) by lia. cbn [mbind result_bind]. rewrite u32_small by words.
    assert (drop (List.length text + 1) k2 = drop (List.length (prefix ++ [58; 32] ++ text) + 1) k) as <-.
    { change k2 with (drop 1 (x :: k2)). rewrite <- E1. unfold k1. rewrite !drop_drop. f_equal.
      rewrite !length_app. cbn [List.length]. lia. }
    rewrite <- !app_assoc. do 2 f_equal. lia.
  - by rewrite (proj2 (Z.ltb_ge _ 489)) by lia.
Qed.

(** C38: the line of a log message.  The stamp takes 23 of the 512 characters.  A
    message whose format has 244 characters or more is left out of its line.  Any
    other is written behind the prefix; if the line with its terminator does not fit
    the buffer, the buffer is overrun.  The finished line is printed as a format: it
    is printed as it is when it has no percent sign, and a prefix or an argument
    with a conversion in it reads arguments that are not there. *)
Theorem console_log_line prefix str args text ts buf :
  zlen buf = LOG_MAX_LINE_LENGTH -> tm_ok ts -> is_text prefix -> is_text text -> zlen prefix < 487 ->
  format pointer_text str args = Ok text ->
  let line := stamp ts ++ prefix ++ [58; 32] ++ text ++ [10] in
  console_log pointer_text (Some (lg_base (simple_logger_init pointer_text prefix true))) str args ts buf =
    (if zlen str <? 244 then if zlen line <? 512 then format pointer_text line [] else Err OutOfBounds
     else Ok (stamp ts ++ [10])) /\
  (37 ∉ prefix -> 37 ∉ text -> format pointer_text line [] = Ok line) /\
  console_log pointer_text (Some (lg_base (simple_logger_init pointer_text prefix false))) str args ts buf = Ok [].
Proof.
  intros Hb Hts Hp Ht Hpl Hf line. destruct (stamp_chars ts Hts) as [Hs0 Hs37].
  pose proof (stamp_length ts Hts) as Hsl. pose proof (zlen_nonneg text). pose proof (zlen_nonneg prefix).
  assert (forall l, is_text l -> 0 ∉ l) as Ht0 by (intros l Hl Hin; eapply Forall_forall in Hl; [|done]; lia).
  split_and!; [|intros H1 H2; apply format_plain; unfold line; set_solver by lia|done].
  unfold console_log. cbn [simple_logger_init lg_base isEnabled]. change (0) with (zlen (@nil Z)) at 1.
  rewrite <- (app_nil_l buf) at 1. rewrite (sprintf_app [] buf _ _ _ (stamp ts)) by (done || apply stamp_format).
  rewrite Hsl, Hb. cbn [Z.ltb Z.compare Pos.compare Pos.compare_cont LOG_MAX_LINE_LENGTH mbind result_bind app].
  change (u32 (LOG_MAX_LINE_LENGTH - 23)) with 489. rewrite <- Hsl at 1.
  set (k := 0 :: drop (List.length (stamp ts) + 1) buf).
  assert (zlen k = 489) as Hk.
  { unfold k. rewrite zlen_cons. replace (List.length (stamp ts) + 1)%nat with (Z.to_nat 24) by (unfold zlen in Hsl; lia).
    rewrite zlen_drop; rewrite Hb; unfold LOG_MAX_LINE_LENGTH; lia. }
  rewrite (logger_write_simple _ k prefix str args text 489) by done.
  destruct (zlen str <? 244) eqn:Hstr.
  - set (m := prefix ++ [58; 32] ++ text).
    assert (zlen line = 24 + zlen m) as Hl.
    { unfold line, m. rewrite !zlen_app, Hsl, !zlen_cons, zlen_nil. lia. }
    destruct (zlen m <? 489) eqn:E; bdestr; [|by rewrite (proj2 (Z.ltb_ge _ 512)) by lia].
    cbn [mbind result_bind].
    replace (stamp ts ++ prefix ++ [58; 32] ++ text ++ 0 :: drop (List.length m + 1) k)
      with ((stamp ts ++ m) ++ 0 :: drop (List.length m + 1) k) by by unfold m; rewrite <- !app_assoc.
    assert (zlen (0 :: drop (List.length m + 1) k) = 489 - zlen m) as Hr.
    { replace (List.length m + 1)%nat with (Z.to_nat (zlen m + 1)) by (unfold zlen; lia).
      pose proof (zlen_nonneg m). rewrite zlen_cons, zlen_drop; rewrite Hk; lia. }
    rewrite (sprintf_app _ _ _ _ _ [10]) by (done || rewrite zlen_app; lia).
    change (zlen [10]) with 1. rewrite Hr.
    destruct (zlen line <? 512) eqn:E2; bdestr.
    + rewrite (proj2 (Z.ltb_lt _ _)) by lia. cbn [mbind result_bind].
      rewrite app_assoc, cstring_app; [unfold line, m; by rewrite <- !app_assoc|].
      unfold m. rewrite !elem_of_app. pose proof (Ht0 _ Hp). pose proof (Ht0 _ Ht). set_solver by lia.
    + by rewrite (proj2 (Z.ltb_ge _ _)) by lia.
  - cbn [mbind result_bind]. rewrite (sprintf_app _ _ _ _ _ [10]) by (done || rewrite Hsl; lia).
    rewrite Hk. cbn [Z.ltb]. change (zlen [10]) with 1. cbn [Z.ltb Z.compare Pos.compare Pos.compare_cont mbind result_bind].
    rewrite app_assoc, cstring_app; [apply format_plain|]; set_solver by lia.
Qed.
End lines.

(** ** Prefixes and their room *)

Lemma write_text_length buf at_ s buf' : write_text buf at_ s = Ok buf' -> zlen buf' = zlen buf.
Proof.
  unfold write_text. destruct (0 <=? at_) eqn:E1; [|done]. destruct (at_ + zlen s <? zlen buf) eqn:E2; [|done].
  cbn. intros [= <-]. bdestr. rewrite !zlen_app, zlen_cons. pose proof (zlen_nonneg s).
  replace (Z.to_nat at_ + List.length s + 1)%nat with (Z.to_nat (at_ + zlen s + 1)) by (unfold zlen; lia).
  rewrite zlen_take, zlen_drop; lia.
Qed.

(** An accumulator's text fits the room that it asks for. *)
Lemma accumulator_to_string_fits pointer_text a buf at_ string_size :
  is_u32 (acc_in a) -> is_u32 (acc_out a) -> is_u32 (total_buffer_size a) ->
  0 <= at_ -> at_ + string_size <= zlen buf ->
  exists buf' n, accumulator_to_string pointer_text a buf at_ string_size = Ok (buf', n) /\
    zlen buf' = zlen buf /\ 0 <= n < 128.
Proof.
  intros H1 H2 H3 Hat Hb. unfold accumulator_to_string.
  destruct (128 <=? string_size) eqn:E; bdestr; [|exists buf, 0; split_and!; (done || lia)].
  assert (is_u32 (accumulator_bytes_contained a)) as H4.
  { unfold accumulator_bytes_contained, accumulator_bytes_contained_from. destruct (_ <=? _); apply u32_range. }
  assert (is_u32 (accumulator_bytes_left a)) as H5 by apply u32_range.
  assert (forall x, is_u32 x -> zlen (pad false 0 (decimal x)) <= 10) as Hd.
  { intros x Hx. unfold pad. rewrite zlen_app.
    assert (zlen (decimal x) <= 10) by (apply decimal_from_length; [lia|words]).
    pose proof (zlen_nonneg (decimal x)).
    replace (Z.to_nat (0 - zlen (decimal x))) with 0%nat by lia. cbn [replicate]. rewrite zlen_nil. lia. }
  unfold INSERT_TO_STRING, sprintf.
  match goal with |- context [format ?p ?f [AUnsigned ?a; AUnsigned ?b; AUnsigned ?c; AUnsigned ?d; AUnsigned ?e]] =>
    assert (format p f [AUnsigned a; AUnsigned b; AUnsigned c; AUnsigned d; AUnsigned e] =
      Ok (chars "acc(in = " ++ pad false 0 (decimal a) ++ chars ", out = " ++ pad false 0 (decimal b) ++
          chars ", contained = " ++ pad false 0 (decimal c) ++ chars ", left = " ++
          pad false 0 (decimal d) ++ chars ", tot = " ++ pad false 0 (decimal e) ++ chars ")")) as ->
      by reflexivity; set (t := _ ++ _) end.
  assert (0 <= zlen t < 128) as Ht.
  { split; [apply zlen_nonneg|]. unfold t. rewrite !zlen_app.
    pose proof (Hd _ H1). pose proof (Hd _ H2). pose proof (Hd _ H3). pose proof (Hd _ H4). pose proof (Hd _ H5).
    change (zlen (chars "acc(in = ")) with 9. change (zlen (chars ", out = ")) with 8.
    change (zlen (chars ", contained = ")) with 14. change (zlen (chars ", left = ")) with 9.
    change (zlen (chars ", tot = ")) with 8. change (zlen (chars ")")) with 1. lia. }
  cbn [mbind result_bind]. destruct (write_text buf (at_ + 0) t) as [buf'|e] eqn:Hw.
  - cbn [mbind result_bind]. eexists _, _. split; [reflexivity|]. split; [by eapply write_text_length|].
    assert (is_u32 (0 + (if 0 <? zlen t then zlen t else 0))) as Hu by (destruct (0 <? zlen t); words).
    rewrite u32_small by done. destruct (0 <? zlen t); lia.
  - exfalso. unfold write_text in Hw. rewrite (proj2 (Z.leb_le 0 _)) in Hw by lia.
    by rewrite (proj2 (Z.ltb_lt _ _)) in Hw by lia.
Qed.

(** The other prefixes do not keep to the room that they are told: a service that
    is running writes 64 characters behind its name, and tests for 30. *)
Lemma asyncio_prefix_overruns {Q : Type} (i : asyncio_interface_instance_t Q) pointer_text buf :
  stream_name i = [65] -> init_state i = AsyncioInitialized -> tx_init (tx_task i) = AsyncioInitialized ->
  rx_init (rx_task i) = AsyncioInitialized -> zlen buf = 31 ->
  asyncio_logger_prefix pointer_text i buf 0 31 = Err OutOfBounds.
Proof.
  intros Hn H1 H2 H3 Hb. unfold asyncio_logger_prefix. rewrite Hn, H1, H2, H3. cbn [Z.ltb Z.compare Pos.compare Pos.compare_cont].
  unfold INSERT_TO_STRING, sprintf.
  match goal with |- context [format ?p ?f ?a] =>
    replace (format p f a) with (format (fun _ => []) f a) by reflexivity end.
  destruct (format _ _ _) as [t|] eqn:E; vm_compute in E; [|done]. injection E as <-.
  cbn [mbind result_bind]. unfold write_text. by rewrite Hb.
Qed.

(** A raw message is printed as long as it has no conversion. *)
Lemma console_log_raw_outcome pointer_text s :
  37 ∉ s -> console_log_raw pointer_text s = Ok s /\
  forall c r, c <> 37 -> ~ (48 <= c <= 57) -> c <> 108 ->
    console_log_raw pointer_text (s ++ 37 :: c :: r) = Err BadPointer.
Proof.
  intros Hs. split; [by apply format_plain|]. intros c r H1 H2 H3. unfold console_log_raw, format.
  induction s as [|x s IH]; cbn.
  - rewrite (proj2 (Z.eqb_neq c 37)) by done. rewrite (proj2 (Z.eqb_neq c 108)) by done.
    assert ((c =? 48) && true = false) as -> by (rewrite andb_true_r; apply Z.eqb_neq; lia).
    by assert ((48 <=? c) && (c <=? 57) = false) as ->
      by (apply andb_false_iff; destruct (Z.le_gt_cases 48 c); [right|left]; apply Z.leb_gt; lia).
  - apply not_elem_of_cons in Hs as [Hx Hs]. rewrite (proj2 (Z.eqb_neq x 37)), (IH Hs) by done. done.
Qed.

(** The value of a binary numeral. *)
Definition binary_value (s : list Z) : Z := foldl (fun n c => 2 * n + (c - 48)) 0 s.

(** A byte is printed as its eight binary digits. *)
Lemma byte_to_binary_round_trip pointer_text byte :
  is_u8 byte ->
  exists s, format pointer_text BYTE_TO_BINARY_PATTERN (BYTE_TO_BINARY byte) = Ok s /\
    List.length s = 8%nat /\ Forall (fun c => c = 48 \/ c = 49) s /\ binary_value s = byte.
Proof.
  intros Hb.
  assert (Forall (fun b => match format pointer_text BYTE_TO_BINARY_PATTERN (BYTE_TO_BINARY b) with
    | Ok s => (List.length s =? 8)%nat && forallb (fun c => (c =? 48) || (c =? 49)) s && (binary_value s =? b)
    | Err _ => false end = true) (Z.of_nat <$> seq 0 256)) as Hall.
  { apply Forall_forall. intros b Hin. revert b Hin. apply Forall_forall. repeat (constructor; [reflexivity|]). constructor. }
  rewrite Forall_forall in Hall. assert (byte ∈ Z.of_nat <$> seq 0 256) as Hin.
  { apply list_elem_of_fmap. exists (Z.to_nat byte). unfold is_u8 in Hb. split; [lia|]. apply elem_of_seq. lia. }
  specialize (Hall _ Hin). cbn beta in Hall. destruct (format _ _ _) as [s|f]; [|done].
  apply andb_true_iff in Hall as [[Hl Hf]%andb_true_iff Hv]. exists s. split; [done|]. split; [by apply Nat.eqb_eq|].
  split; [|by apply Z.eqb_eq]. apply Forall_forall. intros c Hc. rewrite forallb_forall in Hf.
  apply list_elem_of_In, Hf, orb_true_iff in Hc. destruct Hc; [left|right]; by apply Z.eqb_eq.
Qed.

(** The elapsed ticks of [TIMED_FUNC_MS], which are exact in 32 bits only: it takes
    the low 32 bits of the first reading from all of the second. *)
Lemma timed_func_ms_elapsed {W : Type} ticks func (w : W) :
  is_u64 (ticks w) -> ticks w <= ticks (func w) -> is_u64 (ticks (func w)) ->
  let r := fst (TIMED_FUNC_MS ticks func w) in
  let elapsed := ticks (func w) - ticks w in
  snd (TIMED_FUNC_MS ticks func w) = func w /\ u32 r = u32 elapsed /\
  r = elapsed + (ticks w - u32 (ticks w)).
Proof.
  intros H1 H2 H3. cbn. split; [done|]. pose proof (u32_range (ticks w)) as Hu.
  assert (u32 (ticks w) <= ticks w) by (unfold u32; words). unfold is_u64, is_u32 in *.
  rewrite u64_small by (unfold is_u64; lia). split; [|lia]. unfold u32. words.
Qed.

(** ** Witnesses *)

Definition ex_tm : tm := {| tm_year := 124; tm_mon := 0; tm_mday := 31; tm_hour := 9; tm_min := 5; tm_sec := 7 |}.

Definition ex_line : list Z := replicate 512 170.

(** The message, and one whose argument is read as a conversion. *)
Lemma console_log_line_witness :
  console_log (fun _ => []) (Some (lg_base (general_logger (fun _ => [])))) (chars "read %u") [AUnsigned 250] ex_tm ex_line =
    Ok (chars "[0124/00/31-09:05:07]: general: read 250" ++ [10]) /\
  console_log (fun _ => []) (Some (lg_base (general_logger (fun _ => [])))) (chars "name %s") [AText (chars "100%s")] ex_tm ex_line =
    Err BadPointer /\
  console_log (fun _ => []) (Some (lg_base (general_logger (fun _ => [])))) (chars "%s") [AText (replicate 480 65)] ex_tm ex_line =
    Err OutOfBounds.
Proof.
  assert (tm_ok ex_tm) as Hts by (split; cbn; lia).
  assert (forall l, Forall (fun c => c <> 0) (chars l) -> is_text (chars l)) as Hc by apply chars_text.
  destruct (console_log_line (fun _ => []) (chars "general") (chars "read %u") [AUnsigned 250]
    (chars "read 250") ex_tm ex_line) as [H1 _];
    [reflexivity|exact Hts|apply Hc; vm_compute; repeat constructor; discriminate
    |apply Hc; vm_compute; repeat constructor; discriminate|reflexivity|reflexivity|].
  destruct (console_log_line (fun _ => []) (chars "general") (chars "name %s") [AText (chars "100%s")]
    (chars "name 100%s") ex_tm ex_line) as [H2 _];
    [reflexivity|exact Hts|apply Hc; vm_compute; repeat constructor; discriminate
    |apply Hc; vm_compute; repeat constructor; discriminate|reflexivity|reflexivity|].
  destruct (console_log_line (fun _ => []) (chars "general") (chars "%s") [AText (replicate 480 65)]
    (replicate 480 65) ex_tm ex_line) as [H3 _];
    [reflexivity|exact Hts|apply Hc; vm_compute; repeat constructor; discriminate
    |apply Forall_replicate; lia|reflexivity|vm_compute; reflexivity|].
  split; [exact H1|]. split; [exact H2|exact H3].
Defined.

(** [CLOG_FIELD] of a variable [i] with the conversion [u]: the percent sign in the
    spelling of the format is followed by a quote. *)
Lemma clog_field_undefined :
  CLOG_FIELD (fun _ => []) (chars "i") (chars "u") (chars "f") 1 ex_tm ex_line = Err BadPointer.
Proof. vm_compute. reflexivity. Qed.
