(* ===== verification/Task.v ===== *)
(** The tasks of the pthread and the c11 port: src/pthread/task.c, src/c11/task.c with
    the thread functions of c11threads.h, and their task.h.

    The calls of the thread library are parameters: their codes, the thread that a
    creation gives, the clock.  Tasks live in a map from
    addresses, since the thread that a task starts reads the object that its creator
    still writes; [task_run] interleaves the two. *)
From S2P Require Import Prelude TsQueue Enum EventFlag C11.
From stdpp Require Import base list gmap.
From Stdlib Require Import ZArith Lia Strings.String.
Local Open Scope Z_scope.

(** ** Data *)

(** [label] is the array of 30 characters; [thread] is 0 until a thread is created. *)
Record task_t := { thread : Z; sanity : Z; label : list Z; func : Z; ctx : Z }.

(** [p_label] is the text that the pointer points to. *)
Record task_create_params_t := {
  p_task : Z;
  p_label : list Z;
  p_priority : Z;
  p_func : Z;
  p_ctx : Z;
  p_stack : Z;
  p_stack_size : Z
}.

Definition TASK_SANITY : Z := 3735928559.

(** What [memset] leaves. *)
Definition no_task : task_t := {| thread := 0; sanity := 0; label := replicate 30 0; func := 0; ctx := 0 |}.

(** The attributes of a thread: whether its scheduling is explicit, the policy and
    the priority, and the stack and its size. *)
Record attr_t := { explicit : bool; policy_priority : option (Z * Z); stack : option (Z * Z) }.

(** The static store of a task: the addresses of its stack and of its object. *)
Definition TASK_INIT_CREATE_PARAMS_FROM_STORE (store_tsk store_stack stack_size : Z) (lbl : list Z)
    (pri fn context : Z) : task_create_params_t :=
  {| p_task := store_tsk; p_label := lbl; p_priority := pri; p_func := fn; p_ctx := context;
     p_stack := store_stack; p_stack_size := stack_size |}.

(** ** Texts *)

(** At most [n] characters of a text; none where the array ends before its text. *)
Fixpoint text_upto (n : nat) (src : list Z) : option (list Z) :=
  match n, src with
  | O, _ => Some []
  | S _, [] => None
  | S n, c :: src => if c =? 0 then Some [] else cons c <$> text_upto n src
  end.

(** Exactly [n] characters of [dst] are written; no terminator if the text has [n]
    characters or more. *)
Definition strncpy (dst src : list Z) (n : Z) : result (list Z) :=
  match text_upto (Z.to_nat n) src with
  | Some t =>
      if bool_decide (n <= zlen dst)
      then Ok (t ++ replicate (Z.to_nat n - List.length t) 0 ++ drop (Z.to_nat n) dst)
      else Err OutOfBounds
  | None => Err OutOfBounds
  end.

Definition unknown : list Z := chars "unknown" ++ [0].

(** ** Priorities *)

(** The five levels between the bounds of a port, with the division of C. *)
Definition CUTILS_TASK_PRIORITY_MEDIUM (lowest highest : Z) : Z := Z.quot (lowest + highest) 2.

Definition CUTILS_TASK_PRIORITY_MID_HIGH (lowest highest : Z) : Z :=
  CUTILS_TASK_PRIORITY_MEDIUM lowest highest + Z.quot (highest - lowest) 4.

Definition CUTILS_TASK_PRIORITY_MID_LO (lowest highest : Z) : Z :=
  CUTILS_TASK_PRIORITY_MEDIUM lowest highest - Z.quot (highest - lowest) 4.

(** The bounds of the FreeRTOS port; the others ask [sched_get_priority_min] and
    [sched_get_priority_max]. *)
Definition freertos_priorities (configMAX_PRIORITIES : Z) : Z * Z := (0, configMAX_PRIORITIES - 2).

(** ** Creation *)

(** The calls that prepare and create a POSIX thread: their codes, the stack size
    that fresh attributes have, and the thread. *)
Record pthread_calls := {
  getstacksize : Z * Z;
  setinheritsched : bool -> Z;
  setschedpolicy : Z -> Z;
  setschedparam : Z -> Z;
  setstack : Z -> Z -> Z;
  create : attr_t -> Z * Z
}.

(** The scheduling policies: the test of the preprocessor. *)
Inductive sched_policy := SCHED_OTHER | SCHED_FIFO | SCHED_RR.

Definition real_time (p : sched_policy) : bool :=
  match p with SCHED_OTHER => false | _ => true end.

Definition policy_number (p : sched_policy) : Z :=
  match p with SCHED_OTHER => 0 | SCHED_FIFO => 1 | SCHED_RR => 2 end.

Section posix.
Context (lib : pthread_calls) (policy : sched_policy).

(** The codes of the calls in order: the first that fails ends the creation. *)
Definition checked_call (rval : Z) (k : attr_t + Z) : attr_t + Z :=
  if rval =? 0 then k else inr rval.

Definition set_attributes (priority stack_p stack_size : Z) : attr_t + Z :=
  let '(rval, min_stack_size) := getstacksize lib in
  let with_stack a :=
    if negb (stack_p =? 0) && (min_stack_size <=? stack_size) then
      checked_call (setstack lib stack_p stack_size)
        (inl {| explicit := explicit a; policy_priority := policy_priority a;
                stack := Some (stack_p, stack_size) |})
    else inl a in
  checked_call rval
    (if real_time policy then
       checked_call (setinheritsched lib true)
         (checked_call (setschedpolicy lib (policy_number policy))
            (checked_call (setschedparam lib priority)
               (with_stack {| explicit := true;
                              policy_priority := Some (policy_number policy, priority);
                              stack := None |})))
     else
       checked_call (setinheritsched lib false)
         (with_stack {| explicit := false; policy_priority := None; stack := None |})).

(** [create_params] that the ports accept. *)
Definition valid_params (p : task_create_params_t) : bool :=
  negb (p_task p =? 0) && negb (p_func p =? 0) && negb (p_stack p =? 0) && negb (p_stack_size p =? 0).

Definition set_entry (t : task_t) (fn context : Z) : task_t :=
  {| thread := thread t; sanity := sanity t; label := label t; func := fn; ctx := context |}.

Definition set_thread (t : task_t) (h : Z) : task_t :=
  {| thread := h; sanity := sanity t; label := label t; func := func t; ctx := ctx t |}.

Definition set_sanity (t : task_t) (s : Z) : task_t :=
  {| thread := thread t; sanity := s; label := label t; func := func t; ctx := ctx t |}.

Definition set_label (t : task_t) (l : list Z) : task_t :=
  {| thread := thread t; sanity := sanity t; label := l; func := func t; ctx := ctx t |}.

(** What the creation comes to up to and with [pthread_create]: nothing done,
    nothing created, or the code of the creation. *)
Inductive creation := Refused | Failed | Created (res : Z).

Definition task_new_begin (ts : gmap Z task_t) (create_params : option task_create_params_t)
  : gmap Z task_t * creation :=
  match create_params with
  | None => (ts, Refused)
  | Some p =>
      if valid_params p then
        match set_attributes (p_priority p) (p_stack p) (p_stack_size p) with
        | inr _ => (<[p_task p := no_task]> ts, Failed)
        | inl a =>
            let '(res, h) := create lib a in
            let t := set_entry no_task (p_func p) (p_ctx p) in
            (<[p_task p := if res =? 0 then set_thread t h else t]> ts, Created res)
        end
      else (ts, Refused)
  end.

(** The two stores after the creation. *)
Definition store_sanity (ts : gmap Z task_t) (task : Z) : gmap Z task_t :=
  alter (fun t => set_sanity t TASK_SANITY) task ts.

Definition store_label (ts : gmap Z task_t) (task : Z) (text : list Z) : result (gmap Z task_t) :=
  match ts !! task with
  | Some t => l ← strncpy (label t) text 29; Ok (<[task := set_label t l]> ts)
  | None => Err BadPointer
  end.

Definition task_new_static (ts : gmap Z task_t) (create_params : option task_create_params_t)
  : result (gmap Z task_t * option Z) :=
  let '(ts, r) := task_new_begin ts create_params in
  match create_params, r with
  | Some p, Created res =>
      ts ← store_label (store_sanity ts (p_task p)) (p_task p) (p_label p);
      Ok (ts, if res =? 0 then Some (p_task p) else None)
  | _, _ => Ok (ts, None)
  end.

(** [thrd_create_ex] of the c11 port: the same calls; its last test of [rval] looks
    at a code that is 0 by then. *)
Definition thrd_create_ex (priority stack_p stack_size : Z) : Z * Z :=
  match set_attributes priority stack_p stack_size with
  | inr rval => (rval, 0)
  | inl a => let '(res, h) := create lib a in if res =? 0 then (thrd_success, h) else (thrd_error, 0)
  end.

(** The c11 port writes the entry before it prepares the thread, and the label
    before the sanity word. *)
Definition c11_task_new_begin (ts : gmap Z task_t) (create_params : option task_create_params_t)
  : gmap Z task_t * creation :=
  match create_params with
  | None => (ts, Refused)
  | Some p =>
      if valid_params p then
        let '(r, h) := thrd_create_ex (p_priority p) (p_stack p) (p_stack_size p) in
        let t := set_entry no_task (p_func p) (p_ctx p) in
        (<[p_task p := if r =? 0 then set_thread t h else t]> ts, Created r)
      else (ts, Refused)
  end.

Definition c11_task_new_static (ts : gmap Z task_t) (create_params : option task_create_params_t)
  : result (gmap Z task_t * option Z) :=
  let '(ts, c) := c11_task_new_begin ts create_params in
  match create_params, c with
  | Some p, Created r =>
      ts ← store_label ts (p_task p) (p_label p);
      Ok (store_sanity ts (p_task p), if r =? 0 then Some (p_task p) else None)
  | _, _ => Ok (ts, None)
  end.
End posix.

(** *** The other functions of c11threads.h

    [rc] is the code of the POSIX call. *)

Section thrd.
Context (ENOMEM EINTR : Z).

Definition thrd_create (rc : Z) : Z :=
  if rc =? 0 then thrd_success else if rc =? ENOMEM then thrd_nomem else thrd_error.

(** The result of the joined thread goes through a pointer, and back to an [int]. *)
Definition thrd_join (rc retval : Z) (res : option Z) : Z * option Z :=
  if negb (rc =? 0) then (thrd_error, res)
  else (thrd_success, match res with Some _ => Some (s32 retval) | None => None end).

Definition thrd_detach (rc : Z) : Z := if rc =? 0 then thrd_success else thrd_error.

(** [rval] is what [nanosleep] returns. *)
Definition thrd_sleep (rval errno : Z) : Z :=
  if rval <? 0 then if errno =? EINTR then -1 else -2 else 0.

Definition tss_create (rc : Z) : Z := if rc =? 0 then thrd_success else thrd_error.
Definition tss_set (rc : Z) : Z := if rc =? 0 then thrd_success else thrd_error.
End thrd.

(** ** The thread of a task *)

(** [task_runner], before and after the call of the function: what the key of the
    thread holds. *)
Definition runner_begin (task : Z) : option Z := Some task.
Definition runner_end : option Z := None.

Definition task_get_current_name (ts : gmap Z task_t) (current : option Z) (name : list Z) (string_len : Z)
  : result (list Z) :=
  match current with
  | Some task =>
      match ts !! task with
      | Some t =>
          if sanity t =? TASK_SANITY then strncpy name (label t) string_len
          else strncpy name unknown string_len
      | None => Err BadPointer
      end
  | None => strncpy name unknown string_len
  end.

Definition task_start (task : Z) : bool := true.

(** [rc] is the code of [pthread_join]. *)
Definition task_destroy_static (task : option Z) (rc : Z) : result unit :=
  match task with
  | Some _ => assert! rc =? 0 ;; Ok tt
  | None => Ok tt
  end.

(** The c11 port does not look at the code. *)
Definition c11_task_destroy_static (task : option Z) (rc : Z) : result unit := Ok tt.

(** ** Time *)

(** The sum is one of 64 bits and signed; the result is unsigned. *)
Definition task_get_ticks (now : timespec) : Z := u64 (tv_sec now * 1000000000 + tv_nsec now).

(** The argument of [nanosleep] in [task_sleep]. *)
Definition sleep_duration (ms : Z) : timespec :=
  {| tv_sec := ms / 1000; tv_nsec := (ms mod 1000) * 1000000 |}.

(** ** A creation and its thread *)

(** The creator has not called the thread library yet; it has, and has made [n] of
    its two stores; it has returned. *)
Inductive creator_pc := CStart | CStores (n : nat) (res : Z) | CReturned (task : option Z).

Inductive thread_pc := TNone | TReady | TRunning | TEnded.

(** [seen] has what the thread's function read of its name: where the creator was,
    the buffer and its length before, and the buffer after. *)
Record task_world := {
  tasks : gmap Z task_t;
  creator : creator_pc;
  thread_at : thread_pc;
  key : option Z;
  seen : list (creator_pc * (list Z * Z) * list Z)
}.

(** The next step of the creator, the next step of the thread, and its function
    asking for its name. *)
Inductive task_event := ECreator | EThread | EName (name : list Z) (string_len : Z).

Inductive port := PthreadPort | C11Port.

Section interleaving.
Context (lib : pthread_calls) (policy : sched_policy) (pt : port) (p : task_create_params_t).

Definition begin_of (ts : gmap Z task_t) : gmap Z task_t * creation :=
  match pt with
  | PthreadPort => task_new_begin lib policy ts (Some p)
  | C11Port => c11_task_new_begin lib policy ts (Some p)
  end.

(** The two stores come in the order of the port. *)
Definition store_of (first : bool) (ts : gmap Z task_t) : result (gmap Z task_t) :=
  if bool_decide (first = match pt with PthreadPort => true | C11Port => false end)
  then Ok (store_sanity ts (p_task p)) else store_label ts (p_task p) (p_label p).

Definition creator_step (w : task_world) : result task_world :=
  match creator w with
  | CStart =>
      let '(ts, c) := begin_of (tasks w) in
      match c with
      | Created res =>
          Ok {| tasks := ts; creator := CStores 0 res;
                thread_at := if res =? 0 then TReady else TNone; key := key w; seen := seen w |}
      | _ => Ok {| tasks := ts; creator := CReturned None; thread_at := TNone; key := key w; seen := seen w |}
      end
  | CStores n res =>
      ts ← store_of (n =? 0)%nat (tasks w);
      Ok {| tasks := ts;
            creator := match n with
                       | O => CStores 1 res
                       | S _ => CReturned (if res =? 0 then Some (p_task p) else None)
                       end;
            thread_at := thread_at w; key := key w; seen := seen w |}
  | CReturned _ => Ok w
  end.

Definition set_running (w : task_world) (t : thread_pc) (k : option Z) : task_world :=
  {| tasks := tasks w; creator := creator w; thread_at := t; key := k; seen := seen w |}.

Definition task_step (w : task_world) (ev : task_event) : result task_world :=
  match ev with
  | ECreator => creator_step w
  | EThread =>
      match thread_at w with
      | TReady => Ok (set_running w TRunning (runner_begin (p_task p)))
      | TRunning => Ok (set_running w TEnded runner_end)
      | _ => Ok w
      end
  | EName name len =>
      match thread_at w with
      | TRunning =>
          out ← task_get_current_name (tasks w) (key w) name len;
          Ok {| tasks := tasks w; creator := creator w; thread_at := thread_at w; key := key w;
                seen := seen w ++ [(creator w, (name, len), out)] |}
      | _ => Ok w
      end
  end.

Fixpoint task_run (w : task_world) (evs : list task_event) : result task_world :=
  match evs with [] => Ok w | ev :: evs => w ← task_step w ev; task_run w evs end.
End interleaving.

Definition no_thread (ts : gmap Z task_t) : task_world :=
  {| tasks := ts; creator := CStart; thread_at := TNone; key := None; seen := [] |}.

(** ** Lemmas *)

(** The array after [strncpy] of a text. *)
Definition copied (dst text : list Z) (n : Z) : list Z :=
  take (Z.to_nat n) (text ++ replicate (Z.to_nat n) 0) ++ drop (Z.to_nat n) dst.

Lemma text_upto_text n text rest :
  Forall (fun c => c <> 0) text -> text_upto n (text ++ 0 :: rest) = Some (take n text).
Proof.
  intros Ht. revert n. induction Ht as [|c text Hc Ht IH]; intros [|n]; cbn; try done.
  rewrite (proj2 (Z.eqb_neq c 0)) by done. by rewrite IH.
Qed.

Lemma strncpy_text dst text rest n :
  Forall (fun c => c <> 0) text -> 0 <= n <= zlen dst ->
  strncpy dst (text ++ 0 :: rest) n = Ok (copied dst text n).
Proof.
  intros Ht Hn. unfold strncpy. rewrite text_upto_text by done. rewrite bool_decide_true by lia.
  unfold copied. rewrite take_app, app_assoc. do 3 f_equal. rewrite take_replicate. f_equal.
  rewrite length_take. lia.
Qed.

(** A copied array character by character. *)
Lemma copied_lookup dst text n i :
  copied dst text n !! i = if decide (i < Z.to_nat n)%nat then Some (default 0 (text !! i)) else dst !! i.
Proof.
  unfold copied. set (k := Z.to_nat n). destruct (decide (i < k)%nat) as [Hi|Hi].
  - rewrite lookup_app_l by (rewrite length_take, length_app, length_replicate; lia). rewrite lookup_take_lt by lia.
    destruct (text !! i) as [c|] eqn:Ht.
    + by rewrite lookup_app_l by (by eapply lookup_lt_Some).
    + apply lookup_ge_None in Ht. rewrite lookup_app_r by done. cbn. apply lookup_replicate_2. lia.
  - rewrite lookup_app_r by (rewrite length_take, length_app, length_replicate; lia).
    rewrite lookup_drop, length_take, length_app, length_replicate. f_equal. lia.
Qed.

(** The label of a task: at most 29 characters, and always a terminator. *)
Definition label_of (text : list Z) : list Z := copied (replicate 30 0) text 29.

Lemma label_of_text text :
  Forall (fun c => c <> 0) text ->
  exists rest, label_of text = take 29 text ++ 0 :: rest.
Proof.
  intros Ht. unfold label_of, copied. rewrite take_app. change (Z.to_nat 29) with 29%nat.
  rewrite take_replicate. destruct (decide (29 <= List.length text)%nat).
  - exists []. replace (29 - List.length text)%nat with 0%nat by lia. cbn. by rewrite app_nil_r.
  - exists (replicate (29 - List.length text) 0). rewrite <- app_assoc.
    replace (29 `min` 29)%nat with 29%nat by lia.
    replace (Nat.min (29 - List.length text) 29) with (29 - List.length text)%nat by lia.
    change (drop 29 (replicate 30 0)) with [0]. f_equal. by rewrite <- replicate_cons_app.
Qed.

(** What the first [n] stores of the creator and its return leave in the task. *)
Definition task_at (pt : port) (p : task_create_params_t) (text : list Z) (h : Z) (c : creator_pc) : task_t :=
  let t := {| thread := h; sanity := 0; label := replicate 30 0; func := p_func p; ctx := p_ctx p |} in
  match c, pt with
  | CReturned _, _ => set_label (set_sanity t TASK_SANITY) (label_of text)
  | CStores 1 _, PthreadPort => set_sanity t TASK_SANITY
  | CStores 1 _, C11Port => set_label t (label_of text)
  | _, _ => t
  end.

(** The name that a read finds. *)
Definition name_at (pt : port) (text : list Z) (c : creator_pc) : list Z :=
  match c, pt with
  | CReturned _, _ => take 29 text
  | CStores 1 _, PthreadPort => []
  | _, _ => chars "unknown"
  end.

Lemma checked_call_inr rval k r : checked_call rval k = inr r -> rval = 0 /\ k = inr r \/ rval <> 0 /\ r = rval.
Proof. unfold checked_call. destruct (rval =? 0) eqn:E; bdestr; [by left|intros [= ->]; by right]. Qed.

Lemma checked_call_inl rval k a : checked_call rval k = inl a -> rval = 0 /\ k = inl a.
Proof. unfold checked_call. by destruct (rval =? 0) eqn:E; bdestr. Qed.

Section creation.
Context (lib : pthread_calls) (policy : sched_policy).

(** A failure has a code other than 0. *)
Lemma set_attributes_failed priority st sz r : set_attributes lib policy priority st sz = inr r -> r <> 0.
Proof.
  unfold set_attributes. destruct (getstacksize lib) as [rval m].
  destruct (real_time policy), (_ && _);
    repeat (intros [[_ H]|[? ->]]%checked_call_inr; [revert H|done]); by intros [=].
Qed.

(** The attributes of a success: what the policy says, and the stack where it is not
    below the size that fresh attributes have. *)
Lemma set_attributes_made priority st sz a :
  st <> 0 -> set_attributes lib policy priority st sz = inl a ->
  explicit a = real_time policy /\
  policy_priority a = (if real_time policy then Some (policy_number policy, priority) else None) /\
  stack a = (if snd (getstacksize lib) <=? sz then Some (st, sz) else None).
Proof.
  intros Hst. unfold set_attributes. destruct (getstacksize lib) as [rval m]. cbn.
  rewrite (proj2 (Z.eqb_neq st 0)) by done. cbn.
  destruct (real_time policy), (m <=? sz);
    repeat (intros [_ H]%checked_call_inl; revert H); by intros [= <-].
Qed.

Lemma store_label_at ts a t text :
  ts !! a = Some t -> label t = replicate 30 0 -> Forall (fun c => c <> 0) text ->
  store_label ts a (text ++ [0]) = Ok (<[a := set_label t (label_of text)]> ts).
Proof.
  intros Ht Hl Hx. unfold store_label. rewrite Ht, Hl, strncpy_text by (done || unfold zlen; cbn; lia). done.
Qed.

Lemma store_sanity_at (ts : gmap Z task_t) a t :
  store_sanity (<[a := t]> ts) a = <[a := set_sanity t TASK_SANITY]> ts.
Proof. unfold store_sanity. rewrite alter_insert, decide_True by done. done. Qed.
End creation.

(** ** Properties *)


(** *** The invariant of a creation *)

Section run.
Context (lib : pthread_calls) (policy : sched_policy) (pt : port) (p : task_create_params_t).
Context (text : list Z) (a : attr_t) (h : Z).
Hypothesis Hl : p_label p = text ++ [0].
Hypothesis Hx : Forall (fun c => c <> 0) text.
Hypothesis Hv : valid_params p = true.
Hypothesis Ha : set_attributes lib policy (p_priority p) (p_stack p) (p_stack_size p) = inl a.
Hypothesis Hc : create lib a = (0, h).

Definition read_ok (r : creator_pc * (list Z * Z) * list Z) : Prop :=
  let '(c, (name, len), out) := r in out = copied name (name_at pt text c) len.

Definition at_ok (w : task_world) : Prop :=
  match creator w with
  | CStart => thread_at w = TNone
  | CStores n res => tasks w !! p_task p = Some (task_at pt p text h (creator w)) /\ (n <= 1)%nat /\ res = 0
  | CReturned t => tasks w !! p_task p = Some (task_at pt p text h (creator w)) /\ t = Some (p_task p)
  end.

Record task_inv (w : task_world) : Prop := {
  ti_seen : Forall read_ok (seen w);
  ti_at : at_ok w;
  ti_key : thread_at w = TRunning -> key w = Some (p_task p)
}.

Lemma begin_of_ok ts :
  begin_of lib policy pt p ts = (<[p_task p := task_at pt p text h (CStores 0 0)]> ts, Created 0).
Proof.
  unfold begin_of, task_new_begin, c11_task_new_begin, thrd_create_ex. rewrite Hv, Ha, Hc. by destruct pt.
Qed.

Lemma creator_step_ok w : task_inv w -> exists w', creator_step lib policy pt p w = Ok w' /\ task_inv w'.
Proof.
  intros [Hs Hat Hk]. unfold creator_step. unfold at_ok in Hat. destruct (creator w) as [|n res|t] eqn:Hcr.
  - rewrite begin_of_ok. eexists. split; [reflexivity|]. split; cbn; [done| |by intros [=]].
    unfold at_ok. cbn. by rewrite lookup_insert_eq; split_and!; [|lia|].
  - destruct Hat as (Ht & Hn & ->). destruct n as [|[|n]]; [| |lia]; unfold store_of, store_sanity; destruct pt eqn:Ept; cbn;
      rewrite ?Hl; try erewrite store_label_at by done; cbn;
      (eexists; split; [reflexivity|split; [done| |done]]); unfold at_ok; cbn; split_and!; try done; try lia.
    all: rewrite ?Ept, ?lookup_alter_eq, ?lookup_insert_eq, ?Ht; done.
  - exists w. split; [done|]. split; try done. unfold at_ok. by rewrite Hcr.
Qed.

(** The name that is read at each point. *)
Lemma read_name_ok c name len :
  c <> CStart -> (forall n res, c = CStores n res -> (n <= 1)%nat) -> 0 <= len <= zlen name ->
  forall ts, ts !! p_task p = Some (task_at pt p text h c) ->
  task_get_current_name ts (Some (p_task p)) name len = Ok (copied name (name_at pt text c) len).
Proof.
  intros Hcs Hst Hlen ts Ht. destruct (label_of_text text Hx) as [rest Hlab]. unfold task_get_current_name. rewrite Ht.
  assert (strncpy name unknown len = Ok (copied name (chars "unknown") len)) as Hu
    by (apply strncpy_text; [by repeat constructor|done]).
  assert (strncpy name (label_of text) len = Ok (copied name (take 29 text) len)) as Hla
    by (rewrite Hlab; apply strncpy_text; [by apply Forall_take|done]).
  assert (strncpy name (replicate 30 0) len = Ok (copied name [] len)) as He
    by exact (strncpy_text name [] (replicate 29 0) len (Forall_nil_2 _) Hlen).
  destruct c as [|[|[|n]] res|t]; [done| | |specialize (Hst _ _ eq_refl); lia|]; by destruct pt; cbn.
Qed.

Lemma task_step_ok w ev :
  task_inv w -> (forall name len, ev = EName name len -> 0 <= len <= zlen name) ->
  exists w', task_step lib policy pt p w ev = Ok w' /\ task_inv w'.
Proof.
  intros Hi Hev. destruct ev as [| |name len]; [by apply creator_step_ok| |]; destruct Hi as [Hs Hat Hk]; cbn.
  - destruct (thread_at w) eqn:Ht; (eexists; split; [reflexivity|]); split; cbn; try done; try (by rewrite Ht).
    all: unfold at_ok in *; cbn; destruct (creator w); by try congruence.
  - destruct (thread_at w) eqn:Ht; try (exists w; split; [done|]; split; [done|done|by rewrite Ht]).
    rewrite (Hk eq_refl). specialize (Hev _ _ eq_refl).
    rewrite (read_name_ok (creator w)); [cbn|unfold at_ok in Hat; destruct (creator w); congruence| |done|].
    + eexists. split; [reflexivity|]. split; cbn; [apply Forall_app; split; [done|by repeat constructor]| |done].
      unfold at_ok in *. cbn. destruct (creator w); [congruence|done|done].
    + intros n res Hcr. unfold at_ok in Hat. rewrite Hcr in Hat. tauto.
    + unfold at_ok in Hat. destruct (creator w); [congruence|tauto|tauto].
Qed.

Lemma task_run_ok evs w :
  task_inv w -> (forall name len, EName name len ∈ evs -> 0 <= len <= zlen name) ->
  exists w', task_run lib policy pt p w evs = Ok w' /\ task_inv w'.
Proof.
  revert w. induction evs as [|ev evs IH]; intros w Hi Hn; [by exists w|]. cbn.
  destruct (task_step_ok w ev Hi) as (w1 & -> & Hi1).
  { intros name len ->. apply Hn. left. }
  cbn. apply IH; [done|]. intros name len Hin. apply Hn. by right.
Qed.
End run.


(** The levels are in order between the bounds, all the same where the policy has one
    priority, and all different where the range is 4 at least. *)
Theorem task_priorities_ordered lowest highest :
  0 <= lowest <= highest ->
  let lo := CUTILS_TASK_PRIORITY_MID_LO lowest highest in
  let med := CUTILS_TASK_PRIORITY_MEDIUM lowest highest in
  let hi := CUTILS_TASK_PRIORITY_MID_HIGH lowest highest in
  lowest <= lo <= med /\ med <= hi <= highest /\
  (lowest = highest -> lo = lowest /\ med = lowest /\ hi = lowest) /\
  (4 <= highest - lowest -> lowest < lo < med /\ med < hi < highest).
Proof.
  intros H. unfold CUTILS_TASK_PRIORITY_MID_LO, CUTILS_TASK_PRIORITY_MID_HIGH, CUTILS_TASK_PRIORITY_MEDIUM.
  rewrite !Z.quot_div_nonneg by lia. cbn. zmod.
Qed.

(** The levels of the real-time policies of Linux, and of a FreeRTOS kernel with 5
    priorities, which has no room for five different ones. *)
Lemma priorities_of_ports :
  let levels '(lowest, highest) :=
    [lowest; CUTILS_TASK_PRIORITY_MID_LO lowest highest; CUTILS_TASK_PRIORITY_MEDIUM lowest highest;
     CUTILS_TASK_PRIORITY_MID_HIGH lowest highest; highest] in
  levels (1, 99) = [1; 26; 50; 74; 99] /\ levels (0, 0) = [0; 0; 0; 0; 0] /\
  levels (freertos_priorities 5) = [0; 1; 1; 1; 3].
Proof. by split_and!. Qed.

(** The ticks of the pthread and the c11 port are nanoseconds: what elapses between two
    readings of the clock survives 64 bits for centuries, but 32 bits, which is what
    the state event loop and [TIMED_FUNC_MS] keep and call milliseconds, for 4.3
    seconds. *)
Theorem ticks_elapsed t1 t2 d :
  tv_sec t2 * 1000000000 + tv_nsec t2 = tv_sec t1 * 1000000000 + tv_nsec t1 + d ->
  u64 (task_get_ticks t2 - task_get_ticks t1) = u64 d /\
  u32 (u32 (task_get_ticks t2) - u32 (task_get_ticks t1)) = u32 d.
Proof. intros H. unfold task_get_ticks. rewrite H. generalize (tv_sec t1 * 1000000000 + tv_nsec t1). intros z. split; words. Qed.

(** [nanosleep] gets a valid time, that of the argument to the millisecond. *)
Theorem sleep_duration_exact ms :
  is_u32 ms ->
  0 <= tv_nsec (sleep_duration ms) < 1000000000 /\
  tv_sec (sleep_duration ms) * 1000 + tv_nsec (sleep_duration ms) / 1000000 = ms /\
  tv_nsec (sleep_duration ms) mod 1000000 = 0.
Proof. intros H. unfold sleep_duration. cbn. rewrite Z.div_mul, Z_mod_mult by lia. split_and!; try done; zmod. Qed.

(** ** Witnesses *)

(** A library that refuses nothing, with a default stack of 8 MiB. *)
Definition ex_lib : pthread_calls :=
  {| getstacksize := (0, 8388608); setinheritsched := fun _ => 0; setschedpolicy := fun _ => 0;
     setschedparam := fun _ => 0; setstack := fun _ _ => 0; create := fun _ => (0, 77) |}.

Definition ex_params (size : Z) : task_create_params_t :=
  {| p_task := 100; p_label := chars "worker" ++ [0]; p_priority := 50; p_func := 7; p_ctx := 8;
     p_stack := 4096; p_stack_size := size |}.

(** A static stack of 64 KiB is not used. *)
Lemma ex_static_stack_ignored :
  stack <$> match set_attributes ex_lib SCHED_OTHER 50 4096 65536 with inl a => Some a | _ => None end = Some None.
Proof. reflexivity. Qed.


(** The name is read at every point of a creation, and after it. *)
Definition ex_task_events : list task_event :=
  let read := EName (replicate 10 63) 10 in
  [ECreator; EThread; read; ECreator; read; ECreator; read; EThread].


(** A name of the length of the buffer is not terminated. *)
Lemma ex_name_unterminated :
  task_get_current_name {[ 100 := {| thread := 77; sanity := TASK_SANITY; label := label_of (chars "worker");
                                     func := 7; ctx := 8 |} ]} (Some 100) (replicate 6 63) 6 = Ok (chars "worker").
Proof. reflexivity. Qed.
