(* ===== verification/FreeRtosTask.v ===== *)
(** The tasks of the FreeRTOS port: src/freertos/task.c.  The calls of the kernel are
    parameters: the handle of a created task, the name it has for the running one, its
    ticks. *)
From S2P Require Import Prelude TsQueue Enum Task.
From stdpp Require Import base list gmap.
From Stdlib Require Import ZArith Lia Strings.String.
Local Open Scope Z_scope.

(** [task] is the kernel's handle, 0 after [task_destroy_static].  The block of the
    kernel is inside the object; the sanity word of this port is never used. *)
Record task_t := { task : Z; func : Z; ctx : Z }.

Section kernel.
(** The size of a word of the stack, the handle that [xTaskCreateStatic] returns for
    the label, the words of stack, the task whose block it gets, the priority and the
    stack, and the tick rate. *)
Context (sizeof_StackType : Z) (xTaskCreateStatic : list Z -> Z -> Z -> Z -> Z -> Z)
        (portMAX_DELAY : Z) (pdMS_TO_TICKS : Z -> Z).

Definition task_new_static (ts : gmap Z task_t) (params : option task_create_params_t)
  : result (gmap Z task_t * option Z) :=
  match params with
  | Some p =>
      match ts !! p_task p with
      | Some t =>
          Ok (<[p_task p := {| task := xTaskCreateStatic (p_label p) (p_stack_size p / sizeof_StackType)
                                         (p_task p) (p_priority p) (p_stack p);
                               func := p_func p; ctx := p_ctx p |}]> ts, Some (p_task p))
      | None => Err BadPointer
      end
  | None => Ok (ts, None)
  end.

Definition task_start (task : Z) : bool := true.

(** The handles that are given to [vTaskDelete], with the tasks after it. *)
Definition task_destroy_static (ts : gmap Z task_t) (tsk : option Z) : result (gmap Z task_t * list Z) :=
  match tsk with
  | Some a =>
      match ts !! a with
      | Some t =>
          if negb (task t =? 0)
          then Ok (<[a := {| task := 0; func := func t; ctx := ctx t |}]> ts, [task t])
          else Ok (ts, [])
      | None => Err BadPointer
      end
  | None => Ok (ts, [])
  end.

(** The ticks that [task_sleep] delays the task for. *)
Definition task_sleep (ms : Z) : Z := if ms =? WAIT_FOREVER then portMAX_DELAY else pdMS_TO_TICKS ms.

(** [pcName] is the name that the kernel has for the task that runs; [name] is
    [None] for a null pointer. *)
Definition task_get_current_name (pcName : option (list Z)) (name : option (list Z)) (string_length : Z)
  : result (option (list Z)) :=
  match name with
  | Some name =>
      if negb (string_length =? 0) then
        name ← strncpy name (default unknown pcName) (string_length - 1);
        if bool_decide (string_length <= zlen name)
        then Ok (Some (<[Z.to_nat (string_length - 1) := 0]> name))
        else Err OutOfBounds
      else Ok (Some name)
  | None => Ok None
  end.

(** ** The kernel's tasks *)

(** A task has not run yet, is in its function, or waits to be deleted. *)
Inductive task_state : Set := TaskReady | TaskRunning | TaskSuspended.

(** The objects, what the kernel has under each handle (the argument of the wrapper and
    the state), and the functions that were called: the task, the function, its
    argument. *)
Record kernel_world := {
  objects : gmap Z task_t;
  kernel : gmap Z (Z * task_state);
  called : list (Z * Z * Z)
}.

(** [task_wrapper] up to the call of the function, and behind it: the kernel must not
    see the function return. *)
Definition task_wrapper_begin (w : kernel_world) (arg : Z) : result (Z * Z * Z) :=
  match objects w !! arg with Some t => Ok (arg, func t, ctx t) | None => Err BadPointer end.

Definition task_wrapper_end : task_state := TaskSuspended.

Inductive kernel_event :=
  | KCreate (p : task_create_params_t)
  | KSchedule (handle : Z)
  | KReturn (handle : Z)
  | KDestroy (task : Z).

(** A handle that is in use cannot be created again, one that is not cannot be deleted. *)
Definition kernel_step (w : kernel_world) (ev : kernel_event) : result kernel_world :=
  match ev with
  | KCreate p =>
      '(ts, _) ← task_new_static (objects w) (Some p);
      let h := match ts !! p_task p with Some t => task t | None => 0 end in
      if h =? 0 then Ok {| objects := ts; kernel := kernel w; called := called w |}
      else
        match kernel w !! h with
        | Some _ => Err BadObject
        | None => Ok {| objects := ts; kernel := <[h := (p_task p, TaskReady)]> (kernel w); called := called w |}
        end
  | KSchedule h =>
      match kernel w !! h with
      | Some (arg, TaskReady) =>
          c ← task_wrapper_begin w arg;
          Ok {| objects := objects w; kernel := <[h := (arg, TaskRunning)]> (kernel w); called := called w ++ [c] |}
      | _ => Ok w
      end
  | KReturn h =>
      match kernel w !! h with
      | Some (arg, TaskRunning) =>
          Ok {| objects := objects w; kernel := <[h := (arg, task_wrapper_end)]> (kernel w); called := called w |}
      | _ => Ok w
      end
  | KDestroy a =>
      '(ts, hs) ← task_destroy_static (objects w) (Some a);
      match hs with
      | h :: _ =>
          match kernel w !! h with
          | Some _ => Ok {| objects := ts; kernel := delete h (kernel w); called := called w |}
          | None => Err BadObject
          end
      | [] => Ok {| objects := ts; kernel := kernel w; called := called w |}
      end
  end.

Fixpoint kernel_run (w : kernel_world) (evs : list kernel_event) : result kernel_world :=
  match evs with
  | [] => Ok w
  | ev :: evs => w ← kernel_step w ev; kernel_run w evs
  end.

(** The static memory of the idle task and of the timer task: the block, the stack and
    its words. *)
Definition vApplicationGetIdleTaskMemory (s_idleTask s_idleTaskStack configMINIMAL_STACK_SIZE : Z) : Z * Z * Z :=
  (s_idleTask, s_idleTaskStack, configMINIMAL_STACK_SIZE).

Definition vApplicationGetTimerTaskMemory (s_timerTask s_timerTaskStack configTIMER_TASK_STACK_DEPTH : Z) : Z * Z * Z :=
  (s_timerTask, s_timerTaskStack, configTIMER_TASK_STACK_DEPTH).
End kernel.

(** The counter of the kernel, of the width of its ticks; a wait that is read off two
    readings survives one wrap-around. *)
Definition task_get_ticks (width ticks : Z) : Z := ticks mod 2 ^ width.

(** ** Properties *)

(** The name of the FreeRTOS port is terminated whatever the length of the buffer; the
    other ports terminate it only if the name is shorter than the buffer. *)
Theorem freertos_name_terminated pc rest name len :
  Forall (fun c => c <> 0) pc -> 0 < len <= zlen name ->
  task_get_current_name (Some (pc ++ 0 :: rest)) (Some name) len =
    Ok (Some (<[Z.to_nat (len - 1) := 0]> (copied name pc (len - 1)))) /\
  (zlen pc < len -> <[Z.to_nat (len - 1) := 0]> (copied name pc (len - 1)) = copied name pc len) /\
  (len <= zlen pc -> copied name pc len = take (Z.to_nat len) pc ++ drop (Z.to_nat len) name).
Proof.
  intros Hpc Hlen. unfold task_get_current_name. cbn. rewrite (proj2 (Z.eqb_neq len 0)) by lia. cbn.
  rewrite strncpy_text by (done || lia). cbn.
  assert (Hz : List.length (copied name pc (len - 1)) = List.length name).
  { unfold copied. rewrite length_app, length_take, length_app, length_replicate, length_drop. unfold zlen in *. lia. }
  rewrite bool_decide_true by (unfold zlen in *; lia). split_and!; [done| |].
  - intros Hp. apply list_eq. intros i. unfold zlen in *. destruct (decide (i = Z.to_nat (len - 1))) as [->|Hi].
    + rewrite list_lookup_insert_eq by (rewrite Hz; lia).
      by rewrite copied_lookup, decide_True, (lookup_ge_None_2 pc) by lia.
    + rewrite list_lookup_insert_ne, !copied_lookup by done. do 2 case_decide; try done; try lia.
  - intros Hp. unfold copied. by rewrite take_app_le by (unfold zlen in *; lia).
Qed.

(** A task is deleted once, however often it is destroyed. *)
Theorem freertos_destroyed_once (ts : gmap Z task_t) a t :
  ts !! a = Some t -> task t <> 0 ->
  exists ts', task_destroy_static ts (Some a) = Ok (ts', [task t]) /\
    task_destroy_static ts' (Some a) = Ok (ts', []).
Proof.
  intros Ht H0. unfold task_destroy_static. rewrite Ht, (proj2 (Z.eqb_neq _ 0)) by done. cbn.
  eexists. split; [done|]. by rewrite lookup_insert_eq.
Qed.

(** The FreeRTOS port returns the task although the kernel did not create it. *)
Lemma freertos_creation_unchecked (t : task_t) p :
  task_new_static 4 (fun _ _ _ _ _ => 0) {[ p_task p := t ]} (Some p) =
    Ok (<[p_task p := {| task := 0; func := p_func p; ctx := p_ctx p |}]>
          {[ p_task p := t ]}, Some (p_task p)).
Proof. unfold task_new_static. by rewrite lookup_singleton_eq. Qed.

(** A name of the length of the buffer loses its last character to the terminator. *)
Lemma ex_name_cut :
  task_get_current_name (Some (chars "worker" ++ [0])) (Some (replicate 6 63)) 6 = Ok (Some (chars "worke" ++ [0])).
Proof. reflexivity. Qed.

(** ** The life of a task *)

Section life.
Context (sizeof_StackType : Z) (xTaskCreateStatic : list Z -> Z -> Z -> Z -> Z -> Z) (handle_of : Z -> Z).
(** The handle is the address of the block inside the task. *)
Context (handles : forall l n a pri st, xTaskCreateStatic l n a pri st = 0 \/ xTaskCreateStatic l n a pri st = handle_of a).
Context (nonzero : forall a, handle_of a <> 0) (injective : forall a b, handle_of a = handle_of b -> a = b).

Definition step := kernel_step sizeof_StackType xTaskCreateStatic.
Definition run := kernel_run sizeof_StackType xTaskCreateStatic.

(** A task is created in an object whose last task has been destroyed, and destroyed
    where there is an object. *)
Definition legal_event (w : kernel_world) (ev : kernel_event) : Prop :=
  match ev with
  | KCreate p => exists t, objects w !! p_task p = Some t /\ task t = 0
  | KDestroy a => is_Some (objects w !! a)
  | _ => True
  end.

Inductive legal_run : kernel_world -> list kernel_event -> Prop :=
  | legal_nil w : legal_run w []
  | legal_cons w ev evs :
      legal_event w ev -> (forall w', step w ev = Ok w' -> legal_run w' evs) -> legal_run w (ev :: evs).

(** How often the kernel created a task in [a], and how often its function was called. *)
Definition creations (a : Z) (ps : list task_create_params_t) : nat :=
  List.length (filter (fun p => p_task p = a) ps).

Definition calls_of (a : Z) (cs : list (Z * Z * Z)) : nat := List.length (filter (fun c => c.1.1 = a) cs).

Definition waiting_call (w : kernel_world) (a : Z) : nat :=
  match kernel w !! handle_of a with Some (_, TaskReady) => 1 | _ => 0 end.

Fixpoint created (evs : list kernel_event) : list task_create_params_t :=
  match evs with
  | [] => []
  | KCreate p :: evs => p :: created evs
  | _ :: evs => created evs
  end.

Record kernel_ok (ps : list task_create_params_t) (w : kernel_world) : Prop := {
  ko_handle h a st : kernel w !! h = Some (a, st) ->
    h = handle_of a /\ exists t, objects w !! a = Some t /\ task t = h /\
      exists p, p ∈ ps /\ p_task p = a /\ func t = p_func p /\ ctx t = p_ctx p;
  ko_object a t : objects w !! a = Some t -> task t <> 0 -> exists st, kernel w !! task t = Some (a, st);
  ko_called a f c : (a, f, c) ∈ called w -> exists p, p ∈ ps /\ p_task p = a /\ p_func p = f /\ p_ctx p = c;
  ko_once a : (calls_of a (called w) + waiting_call w a <= creations a ps)%nat
}.

Lemma creations_snoc a ps p :
  creations a (ps ++ [p]) = (creations a ps + if decide (p_task p = a) then 1 else 0)%nat.
Proof.
  unfold creations. rewrite filter_app, length_app. f_equal. rewrite filter_cons, filter_nil. by case_decide.
Qed.

Lemma calls_of_snoc a cs b f c : calls_of a (cs ++ [(b, f, c)]) = (calls_of a cs + if decide (b = a) then 1 else 0)%nat.
Proof.
  unfold calls_of. rewrite filter_app, length_app. f_equal. rewrite filter_cons, filter_nil. cbn. by case_decide.
Qed.

Lemma handle_one w ps h a st a' :
  kernel_ok ps w -> kernel w !! h = Some (a, st) -> h = handle_of a' -> a = a'.
Proof. intros Hw Hh ->. destruct (ko_handle _ _ Hw _ _ _ Hh) as [He _]. by apply injective. Qed.

Lemma create_ok ps w p :
  kernel_ok ps w -> legal_event w (KCreate p) ->
  exists w', step w (KCreate p) = Ok w' /\ kernel_ok (ps ++ [p]) w'.
Proof.
  intros Hw (t & Ht & Ht0). unfold step, kernel_step, task_new_static. rewrite Ht. cbn [mbind result_bind].
  rewrite lookup_insert_eq. cbn [task].
  set (h := xTaskCreateStatic _ _ _ _ _). set (t' := {| task := h; func := p_func p; ctx := p_ctx p |}).
  assert (forall h' a st, kernel w !! h' = Some (a, st) -> a <> p_task p) as Hother.
  { intros h' a st Hk ->. destruct (ko_handle _ _ Hw _ _ _ Hk) as (-> & t1 & Ht1 & He & _).
    rewrite Ht in Ht1. injection Ht1 as <-. by apply (nonzero (p_task p)); congruence. }
  assert (forall h' a st, kernel w !! h' = Some (a, st) ->
    h' = handle_of a /\ exists t, <[p_task p := t']> (objects w) !! a = Some t /\ task t = h' /\
      exists q, q ∈ ps ++ [p] /\ p_task q = a /\ func t = p_func q /\ ctx t = p_ctx q) as Hold.
  { intros h' a st Hk. destruct (ko_handle _ _ Hw _ _ _ Hk) as (He & t1 & Ht1 & H1 & q & Hq & H2). split; [done|].
    exists t1. rewrite lookup_insert_ne by (intros E; by apply (Hother _ _ _ Hk)). split; [done|]. split; [done|].
    exists q. split; [set_solver + Hq|done]. }
  assert (forall a f c, (a, f, c) ∈ called w ->
    exists q, q ∈ ps ++ [p] /\ p_task q = a /\ p_func q = f /\ p_ctx q = c) as Hcalled.
  { intros a f c Hc. destruct (ko_called _ _ Hw _ _ _ Hc) as (q & Hq & H). exists q. split; [set_solver + Hq|done]. }
  destruct (h =? 0) eqn:E0; bdestr.
  - eexists. split; [done|]. split; cbn [kernel objects called]; try done.
    + intros a t1 H1 Hn. destruct (decide (a = p_task p)) as [->|Hne]; simplify_map_eq. by apply (ko_object _ _ Hw a).
    + intros a. rewrite creations_snoc. pose proof (ko_once _ _ Hw a). unfold waiting_call in *. cbn [kernel called]. case_decide; lia.
  - assert (h = handle_of (p_task p)) as Hh by (destruct (handles (p_label p) (p_stack_size p / sizeof_StackType)
      (p_task p) (p_priority p) (p_stack p)); [done|done]).
    clearbody h.
    destruct (kernel w !! h) as [[a st]|] eqn:Hk.
    { destruct (Hother _ _ _ Hk). by apply (handle_one w ps h a st). }
    eexists. split; [done|]. split; cbn [kernel objects called].
    + intros h' a st Hk'. destruct (decide (h' = h)) as [->|Hne]; simplify_map_eq.
      * split; [done|]. exists t'. split; [done|]. split; [done|].
        exists p. split; [set_solver +|done].
      * by apply (Hold _ _ st).
    + intros a t1 H1 Hn. destruct (decide (a = p_task p)) as [->|Hne]; simplify_map_eq.
      * exists TaskReady. cbn. by simplify_map_eq.
      * destruct (ko_object _ _ Hw a t1 H1 Hn) as [st Hk']. exists st.
        rewrite lookup_insert_ne; [done|]. intros Hs. rewrite <- Hs, Hk in Hk'. discriminate.
    + done.
    + intros a. rewrite creations_snoc. pose proof (ko_once _ _ Hw a) as Ho. unfold waiting_call in *. cbn [kernel called].
      case_decide as Ha.
      * subst a. rewrite <- Hh, lookup_insert_eq. rewrite <- Hh, Hk in Ho. lia.
      * rewrite lookup_insert_ne by (rewrite Hh; intros E%injective; done). lia.
Qed.

Lemma schedule_ok ps w h :
  kernel_ok ps w -> exists w', step w (KSchedule h) = Ok w' /\ kernel_ok ps w'.
Proof.
  intros Hw. unfold step, kernel_step. destruct (kernel w !! h) as [[a []]|] eqn:Hk; try by exists w.
  destruct (ko_handle _ _ Hw _ _ _ Hk) as (Hh & t & Ht & Hth & q & Hq & Hqa & Hf & Hc).
  unfold task_wrapper_begin. rewrite Ht. cbn [mbind result_bind]. eexists. split; [done|]. split; cbn [kernel objects called].
  - intros h' a' st Hk'. destruct (decide (h' = h)) as [->|Hne].
    + rewrite lookup_insert_eq in Hk'. injection Hk' as <- <-. by apply (ko_handle _ _ Hw _ _ TaskReady).
    + rewrite lookup_insert_ne in Hk' by done. by apply (ko_handle _ _ Hw _ _ st).
  - intros a' t' H1 Hn. destruct (ko_object _ _ Hw a' t' H1 Hn) as [st Hk'].
    destruct (decide (task t' = h)) as [E|E]; [|exists st; by rewrite lookup_insert_ne].
    rewrite E, Hk in Hk'. injection Hk' as -> _. rewrite E, lookup_insert_eq. by eexists.
  - intros a' f c [Hin|Hin%list_elem_of_singleton]%elem_of_app; [by apply (ko_called _ _ Hw)|].
    injection Hin as -> -> ->. by exists q.
  - intros a'. rewrite calls_of_snoc. pose proof (ko_once _ _ Hw a') as Ho. unfold waiting_call in *. cbn [kernel].
    case_decide as Ha.
    + subst a'. rewrite <- Hh, lookup_insert_eq. rewrite <- Hh, Hk in Ho. lia.
    + rewrite lookup_insert_ne by (rewrite Hh; intros E%injective; done). lia.
Qed.

Lemma return_ok ps w h :
  kernel_ok ps w -> exists w', step w (KReturn h) = Ok w' /\ kernel_ok ps w'.
Proof.
  intros Hw. unfold step, kernel_step. destruct (kernel w !! h) as [[a []]|] eqn:Hk; try by exists w.
  destruct (ko_handle _ _ Hw _ _ _ Hk) as (Hh & _).
  eexists. split; [done|]. split; cbn [kernel objects called].
  - intros h' a' st Hk'. destruct (decide (h' = h)) as [->|Hne].
    + rewrite lookup_insert_eq in Hk'. injection Hk' as <- <-. by apply (ko_handle _ _ Hw _ _ TaskRunning).
    + rewrite lookup_insert_ne in Hk' by done. by apply (ko_handle _ _ Hw _ _ st).
  - intros a' t' H1 Hn. destruct (ko_object _ _ Hw a' t' H1 Hn) as [st Hk'].
    destruct (decide (task t' = h)) as [E|E]; [|exists st; by rewrite lookup_insert_ne].
    rewrite E, Hk in Hk'. injection Hk' as -> _. rewrite E, lookup_insert_eq. by eexists.
  - apply (ko_called _ _ Hw).
  - intros a'. pose proof (ko_once _ _ Hw a') as Ho. unfold waiting_call in *. cbn [kernel].
    destruct (decide (handle_of a' = h)) as [->|Hne]; [rewrite lookup_insert_eq; cbn; lia|].
    by rewrite lookup_insert_ne.
Qed.

Lemma destroy_ok ps w a :
  kernel_ok ps w -> legal_event w (KDestroy a) -> exists w', step w (KDestroy a) = Ok w' /\ kernel_ok ps w'.
Proof.
  intros Hw [t Ht]. unfold step, kernel_step, task_destroy_static. rewrite Ht.
  destruct (task t =? 0) eqn:E; bdestr; cbn [negb mbind result_bind]; [eexists; split; [done|by destruct Hw]|].
  destruct (ko_object _ _ Hw a t Ht E) as [st Hk]. rewrite Hk.
  destruct (ko_handle _ _ Hw _ _ _ Hk) as (Hh & t1 & Ht1 & H1 & _).
  eexists. split; [done|]. split; cbn [kernel objects called].
  - intros h' a' st' [Hne Hk']%lookup_delete_Some.
    destruct (ko_handle _ _ Hw _ _ _ Hk') as (He & t2 & Ht2 & H2 & Hr). split; [done|]. exists t2.
    rewrite lookup_insert_ne; [done|]. intros ->. rewrite Ht in Ht2. injection Ht2 as <-. done.
  - intros a' t' H2 Hn. destruct (decide (a' = a)) as [->|Hne]; simplify_map_eq.
    destruct (ko_object _ _ Hw a' t' H2 Hn) as [st' Hk']. exists st'. rewrite lookup_delete_ne; [done|].
    intros Hs. rewrite <- Hs, Hk in Hk'. by injection Hk'.
  - apply (ko_called _ _ Hw).
  - intros a'. pose proof (ko_once _ _ Hw a') as Ho. unfold waiting_call in *. cbn [kernel].
    destruct (decide (handle_of a' = task t)) as [->|Hne]; [rewrite lookup_delete_eq; lia|].
    by rewrite lookup_delete_ne.
Qed.
Lemma step_ok ps w ev :
  kernel_ok ps w -> legal_event w ev ->
  exists w', step w ev = Ok w' /\ kernel_ok (ps ++ created [ev]) w'.
Proof.
  intros Hw Hl. destruct ev as [p|h|h|a]; cbn [created]; rewrite ?app_nil_r.
  - by apply create_ok.
  - by apply schedule_ok.
  - by apply return_ok.
  - by apply destroy_ok.
Qed.

Lemma created_cons ev evs : created (ev :: evs) = created [ev] ++ created evs.
Proof. by destruct ev. Qed.

Lemma run_ok ps w evs :
  kernel_ok ps w -> legal_run w evs -> exists w', run w evs = Ok w' /\ kernel_ok (ps ++ created evs) w'.
Proof.
  revert ps w. induction evs as [|ev evs IH]; intros ps w Hw Hl.
  - exists w. split; [done|]. cbn. by rewrite app_nil_r.
  - inversion Hl as [|? ? ? Hev Hrest]; subst. destruct (step_ok ps w ev Hw Hev) as (w1 & Hs & Hw1).
    destruct (IH _ w1 Hw1 (Hrest w1 Hs)) as (w' & Hr & Hw'). exists w'. split.
    + unfold run in *. cbn [kernel_run]. unfold step in Hs. by rewrite Hs.
    + by rewrite created_cons, app_assoc.
Qed.

(** However the kernel schedules them, and whenever they are created, end and are
    destroyed: every task calls the function that it was created with, with the argument
    it was created with, at most once per creation; the handles in use are those that
    the objects hold, so that no handle is deleted twice; and no step faults. *)
Theorem freertos_tasks_run_once ts evs :
  (forall a t, ts !! a = Some t -> task t = 0) ->
  legal_run {| objects := ts; kernel := ∅; called := [] |} evs ->
  exists w, run {| objects := ts; kernel := ∅; called := [] |} evs = Ok w /\
    (forall a, (calls_of a (called w) <= creations a (created evs))%nat) /\
    (forall a f c, (a, f, c) ∈ called w ->
       exists p, p ∈ created evs /\ p_task p = a /\ p_func p = f /\ p_ctx p = c) /\
    (forall h a st, kernel w !! h = Some (a, st) -> exists t, objects w !! a = Some t /\ task t = h /\ h <> 0) /\
    (forall a t, objects w !! a = Some t -> task t <> 0 -> exists st, kernel w !! task t = Some (a, st)).
Proof.
  intros H0 Hl. assert (kernel_ok [] {| objects := ts; kernel := ∅; called := [] |}) as Hw0.
  { split; cbn; try done.
    - intros a t Ht Hn. by destruct (H0 a t Ht).
    - intros a f c Hin. by apply not_elem_of_nil in Hin. }
  destruct (run_ok [] _ evs Hw0 Hl) as (w & Hr & Hw). cbn in Hw. exists w. split; [done|]. split_and!.
  - intros a. pose proof (ko_once _ _ Hw a). lia.
  - apply (ko_called _ _ Hw).
  - intros h a st Hk.
    destruct (ko_handle _ _ Hw _ _ _ Hk) as (-> & t & Ht & Hth & _). exists t. split; [done|]. split; [done|]. apply nonzero.
  - apply (ko_object _ _ Hw).
Qed.
End life.

(** [CUTILS_TASK_STACK_MIN_SIZE] is the kernel's minimum in words; as the size of a store
    it is taken for bytes, and the task gets less. *)
Definition CUTILS_TASK_STACK_MIN_SIZE (configMINIMAL_STACK_SIZE : Z) : Z := configMINIMAL_STACK_SIZE.

Lemma freertos_min_stack (t : task_t) p :
  p_stack_size p = CUTILS_TASK_STACK_MIN_SIZE 128 ->
  task_new_static 4 (fun _ words _ _ _ => words) {[ p_task p := t ]} (Some p) =
    Ok (<[p_task p := {| task := 32; func := p_func p; ctx := p_ctx p |}]> {[ p_task p := t ]}, Some (p_task p)).
Proof. intros H. unfold task_new_static. by rewrite lookup_singleton_eq, H. Qed.

(** ** Witness *)

(** A kernel that creates no task without a stack. *)
Definition ex_create (l : list Z) (n a pri st : Z) : Z := if st =? 0 then 0 else 2 * a + 1.

Definition ex_task_params (a stack : Z) : task_create_params_t :=
  {| p_task := a; p_label := chars "worker" ++ [0]; p_priority := 1; p_func := 7; p_ctx := a + 100;
     p_stack := stack; p_stack_size := 512 |}.

Definition ex_kernel_events : list kernel_event :=
  [KCreate (ex_task_params 10 64); KCreate (ex_task_params 20 0); KSchedule 21; KReturn 21; KDestroy 10;
   KDestroy 10; KCreate (ex_task_params 10 64); KSchedule 21].

Definition ex_kernel_world : kernel_world :=
  {| objects := {[10 := {| task := 0; func := 0; ctx := 0 |}; 20 := {| task := 0; func := 0; ctx := 0 |}]};
     kernel := ∅; called := [] |}.

Lemma freertos_tasks_run_once_witness :
  exists w, run 4 ex_create ex_kernel_world ex_kernel_events = Ok w /\
    called w = [(10, 7, 110); (10, 7, 110)] /\ (calls_of 10 (called w) <= 2)%nat.
Proof.
  destruct (freertos_tasks_run_once 4 ex_create (fun a => 2 * a + 1)) with
    (ts := objects ex_kernel_world) (evs := ex_kernel_events) as (w & Hw & Hc & _).
  - intros l n a pri st. unfold ex_create. destruct (st =? 0); [left|right]; reflexivity.
  - lia.
  - lia.
  - intros a t Ht. cbn in Ht. apply lookup_insert_Some in Ht as [[_ <-]|[_ Ht]]; [reflexivity|].
    apply lookup_singleton_Some in Ht as [_ <-]. reflexivity.
  - repeat (apply legal_cons; [cbn; try (eexists; vm_compute; split; reflexivity); exact I|
      let H := fresh in intros ? H; vm_compute in H; injection H as <-]). apply legal_nil.
  - assert (match run 4 ex_create ex_kernel_world ex_kernel_events with
      | Ok w => Some (called w) | Err _ => None end = Some [(10, 7, 110); (10, 7, 110)]) as Hs by (vm_compute; reflexivity).
    change (run 4 ex_create ex_kernel_world ex_kernel_events = Ok w) in Hw. rewrite Hw in Hs. injection Hs as Hs.
    exists w. split; [exact Hw|]. split; [exact Hs|]. exact (Hc 10).
Defined.
