(* ===== verification/Storage.v ===== *)
(** The static storage of the components: the [..._STORE_DECL], [..._STORE_DEF] and
    [..._CREATE_PARAMS_INIT] macros of inc/cutils.

    A store is what the declaration of its type and of its object fix: the sizes, and
    the addresses of its parts.  Objects with static storage duration start zeroed.
    The layout of a struct is that of the C ABIs the library runs on: every field at
    the next multiple of its alignment, the size a multiple of the largest one. *)
From S2P Require Import Prelude RingBuffer Accumulator KList FreeList TsQueue Pool EventFlag StateMachine Notifier.
From S2P Require Import DispatchQueue StateEventLoop Dispatcher Asyncio AsyncioRun AsyncioService AsyncioGuarantees.
From stdpp Require Import list gmap.
From Stdlib Require Import ZArith Lia Strings.Byte.
Local Open Scope Z_scope.

(** ** Layout of structs *)

Record ctype : Set := { ct_size : Z; ct_align : Z }.

Definition align_up (n a : Z) : Z := (n + a - 1) / a * a.

Fixpoint field_offsets (at_ : Z) (fs : list ctype) : list Z :=
  match fs with
  | [] => []
  | f :: fs => let o := align_up at_ (ct_align f) in o :: field_offsets (o + ct_size f) fs
  end.

Fixpoint fields_end (at_ : Z) (fs : list ctype) : Z :=
  match fs with [] => at_ | f :: fs => fields_end (align_up at_ (ct_align f) + ct_size f) fs end.

Definition c_struct (fs : list ctype) : ctype :=
  let a := foldr (fun f a => Z.max (ct_align f) a) 1 fs in
  {| ct_size := align_up (fields_end 0 fs) a; ct_align := a |}.

Definition offset_of (fs : list ctype) (i : nat) : Z := default 0 (field_offsets 0 fs !! i).

Definition uint8_array (n : Z) : ctype := {| ct_size := n; ct_align := 1 |}.

Definition uint32 : ctype := {| ct_size := 4; ct_align := 4 |}.

(** [alignas]: no weaker than what the type has. *)
Definition c_alignas (a : Z) (t : ctype) : ctype := {| ct_size := ct_size t; ct_align := Z.max a (ct_align t) |}.

Section pointers.
(** The size of a pointer. *)
Context (ptr : Z).

Definition pointer : ctype := {| ct_size := ptr; ct_align := ptr |}.

(** [pool_header_t], [dispatch_queue_post_data_t], [event_t] and
    [asyncio_tx_request_t]. *)
Definition header_fields : list ctype := [uint32; uint32; pointer; pointer].
Definition post_data_fields : list ctype := [pointer; pointer; pointer].
Definition event_fields : list ctype := [uint32; pointer; pointer].
Definition request_fields : list ctype := [uint32; uint32; pointer; pointer].

(** ** Stores *)

(** [_ts_queue_store_num_elements_name], the array and the queue object. *)
Record ts_queue_store := { qs_num : Z; qs_ptr_array : list Z; qs_queue : ts_queue_t }.

Definition TS_QUEUE_STORE_DECL (size : Z) : ts_queue_store :=
  {| qs_num := size; qs_ptr_array := replicate (Z.to_nat size) 0;
     qs_queue := {| pp_ptr_array := []; TsQueue.size := 0; count := 0; TsQueue.head := 0; TsQueue.tail := 0 |} |}.

Definition TS_QUEUE_STORE_CREATE_PARAMS_INIT (st : ts_queue_store) : ts_queue_create_params_t :=
  {| qp_queue := Some (qs_queue st); qp_ptr_array := Some (qs_ptr_array st); qp_size := qs_num st |}.

(** The elements are at the address [ps_elements]. *)
Record pool_store := {
  ps_num : Z;
  ps_element_size : Z;
  ps_align : Z;
  ps_elements : Z;
  ps_queue : ts_queue_store
}.

Definition POOL_STORE_DECL (num_elemens element_size align elements : Z) : pool_store :=
  {| ps_num := num_elemens; ps_element_size := element_size; ps_align := align; ps_elements := elements;
     ps_queue := TS_QUEUE_STORE_DECL num_elemens |}.

(** [elements[0]]: header, data, trailer. *)
Definition element_fields (st : pool_store) : list ctype :=
  [c_struct header_fields; c_alignas (ps_align st) (uint8_array (ps_element_size st)); uint32].

Definition POOL_CREATE_INIT (st : pool_store) : pool_create_params_t :=
  {| pp_pool := true; pp_num_of_elements := u32 (ps_num st);
     pp_element_size_requested := u32 (ps_element_size st);
     pp_total_element_size := u32 (ct_size (c_struct (element_fields st)));
     pp_backing := ps_elements st;
     pp_offset_data_from_header := offset_of (element_fields st) 1 - offset_of (element_fields st) 0 |}.

Record dispatch_queue_store := { ds_queue : Z; ds_pool : pool_store; ds_ts_queue : ts_queue_store }.

Definition DISPATCH_QUEUE_STORE_DECL (queue_size self elements : Z) : dispatch_queue_store :=
  {| ds_queue := self;
     ds_pool := POOL_STORE_DECL queue_size (ct_size (c_struct post_data_fields)) 4 elements;
     ds_ts_queue := TS_QUEUE_STORE_DECL queue_size |}.

Definition DISPATCH_QUEUE_CREATE_PARAMS_INIT (st : dispatch_queue_store) : dispatch_queue_create_params_t :=
  {| dp_p_queue := true; dp_pool_params := POOL_CREATE_INIT (ds_pool st);
     dp_queue_size := qp_size (TS_QUEUE_STORE_CREATE_PARAMS_INIT (ds_ts_queue st)) |}.

Record notifier_store := { ns_array : list Z; ns_pool : pool_store }.

Definition NOTIFIER_STORE_DECL (num_of_cat max_regs notif_reg_size elements : Z) : notifier_store :=
  {| ns_array := replicate (Z.to_nat num_of_cat) 0; ns_pool := POOL_STORE_DECL max_regs notif_reg_size 4 elements |}.

Definition NOTIFIER_STORE_CREATE_PARAMS_INIT (st : notifier_store) (notif_f : Z) : notifier_create_params_t :=
  {| np_notifier := true; np_notif_array := Some (replicate (List.length (ns_array st)) 0);
     np_total_categories := u32 (zlen (ns_array st)); np_pool_params := POOL_CREATE_INIT (ns_pool st);
     np_execute_f := notif_f |}.

(** Where the parts of a state event loop are. *)
Record sel_addresses : Set := { sa_queue : Z; sa_calls : Z; sa_blocks : Z; sa_events : Z }.

Record sel_store := {
  ss_queue : dispatch_queue_store;
  ss_notifier : notifier_store;
  ss_events : pool_store;
  ss_machines : list state_machine_t
}.

Definition STATE_EVENT_LOOP_STORE_DECL (a : sel_addresses) (num_sm queue_size max_registrations max_event_id
    size_of_notif_block size_of_posted_event : Z) : sel_store :=
  {| ss_queue := DISPATCH_QUEUE_STORE_DECL queue_size (sa_queue a) (sa_calls a);
     ss_notifier := NOTIFIER_STORE_DECL max_event_id max_registrations size_of_notif_block (sa_blocks a);
     ss_events := POOL_STORE_DECL queue_size size_of_posted_event ptr (sa_events a);
     ss_machines := replicate (Z.to_nat num_sm) state_machine_initialize |}.

(** The loop of the macro over the names from the [i]-th on. *)
Fixpoint init_sm_params (i : Z) (sm_names start_states : list Z) (client_data : Z)
  : result (list state_machine_create_params_t) :=
  match sm_names with
  | [] => Ok []
  | nm :: sm_names =>
      start ← load_at start_states i;
      ps ← init_sm_params (i + 1) sm_names start_states client_data;
      Ok ({| sp_state_mac := true; sp_name := nm; sp_private := client_data; sp_start_state_id := start |} :: ps)
  end.

Definition STATE_EVENT_LOOP_CREATE_PARAMS_INIT (st : sel_store) (task_name notifier_f : Z)
    (sm_names start_states : list Z) (client_data : Z) : result state_event_loop_create_params_t :=
  assert! zlen sm_names =? zlen (ss_machines st) ;;
  ps ← init_sm_params 0 sm_names start_states client_data;
  let event_pool_create_params := POOL_CREATE_INIT (ss_events st) in
  Ok {| sp_loop := true; sp_notifier_params := NOTIFIER_STORE_CREATE_PARAMS_INIT (ss_notifier st) notifier_f;
        sp_queue_params := DISPATCH_QUEUE_CREATE_PARAMS_INIT (ss_queue st);
        sp_event_pool_params := event_pool_create_params; sp_sm_create_params := ps;
        sp_machines := Some (ss_machines st); sp_num_machines := u32 (zlen (ss_machines st));
        sp_loop_name := task_name;
        sp_event_data_size := pp_element_size_requested event_pool_create_params |}.

Record asyncio_store := { as_tx : pool_store; as_rx : pool_store; as_tx_max : Z; as_tx_fields : list ctype }.

Definition ASYNCIO_STORE_DECL (tx_elements rx_elements rx_max_buffers tx_max_buffers rx_max_buf_size
    tx_max_buf_size buffer_align : Z) : asyncio_store :=
  let payload := if tx_max_buf_size =? 0 then buffer_align else tx_max_buf_size in
  let tx_message := [c_struct request_fields; c_alignas buffer_align (uint8_array payload)] in
  {| as_tx := POOL_STORE_DECL (if tx_max_buffers =? 0 then 1 else tx_max_buffers)
                (ct_size (c_struct tx_message)) buffer_align tx_elements;
     as_rx := POOL_STORE_DECL (if rx_max_buffers =? 0 then 1 else rx_max_buffers)
                (if rx_max_buf_size =? 0 then buffer_align else rx_max_buf_size) buffer_align rx_elements;
     as_tx_max := u32 payload; as_tx_fields := tx_message |}.

Definition ASYNCIO_CREATE_PARAMS_INIT (st : asyncio_store) (st_name : list Z)
    (read_fn write_fn rx_cb rx_dq tx_dq p_priv : Z) : asyncio_create_params_t :=
  {| ap_stream_name := st_name; ap_instance := true; ap_read_f := read_fn; ap_write_f := write_fn;
     ap_rx_callback := rx_cb; ap_client_data := p_priv; ap_rx_worker := rx_dq;
     ap_rx_pool_params := POOL_CREATE_INIT (as_rx st); ap_tx_worker := tx_dq;
     ap_tx_pool_params := POOL_CREATE_INIT (as_tx st); ap_tx_max_chunk_size := as_tx_max st;
     ap_tx_write_timeout := 4000; ap_tx_buffer_offset := u32 (offset_of (as_tx_fields st) 1) |}.
End pointers.

(** ** Alignment *)

Lemma align_up_range n a : 0 < a -> n <= align_up n a < n + a.
Proof. intros Ha. unfold align_up. zmod. Qed.

Lemma align_up_multiple n a : 0 < a -> align_up n a mod a = 0.
Proof. intros Ha. unfold align_up. apply Z_mod_mult. Qed.

Lemma align_up_id n a : 0 < a -> n mod a = 0 -> align_up n a = n.
Proof.
  intros Ha [q ->]%Z.mod_divide; [|lia]. unfold align_up. replace (q * a + a - 1) with (q * a + (a - 1)) by lia.
  rewrite Z.div_add_l, (Z.div_small (a - 1)) by lia. lia.
Qed.

(** A sum of multiples. *)
Lemma mod_add_0 x y a : 0 < a -> x mod a = 0 -> y mod a = 0 -> (x + y) mod a = 0.
Proof. intros Ha Hx Hy. by rewrite Z.add_mod, Hx, Hy by lia. Qed.

Lemma mod_divide_0 x a b : 0 < a -> 0 < b -> b mod a = 0 -> x mod b = 0 -> x mod a = 0.
Proof.
  intros Ha Hb Hba Hx. apply Z.mod_divide in Hba; [|lia]. apply Z.mod_divide in Hx; [|lia].
  apply Z.mod_divide; [lia|]. by etransitivity.
Qed.

Definition is_power_of_two (n : Z) : bool := bool_decide (n = 2 ^ Z.log2 n).

Lemma power_of_two_pos n : 0 <= n -> is_power_of_two n = true -> 0 < n.
Proof. intros Hn [=]%bool_decide_eq_true. pose proof (Z.pow_pos_nonneg 2 (Z.log2 n)). pose proof (Z.log2_nonneg n). lia. Qed.

(** The larger of two powers of two is a multiple of the other. *)
Lemma power_of_two_divides a b :
  0 <= a <= b -> is_power_of_two a = true -> is_power_of_two b = true -> b mod a = 0.
Proof.
  intros Hab Ha Hb. pose proof (power_of_two_pos a ltac:(lia) Ha). apply bool_decide_eq_true in Ha, Hb.
  apply Z.mod_divide; [lia|]. exists (2 ^ (Z.log2 b - Z.log2 a)). rewrite Hb at 1. rewrite Ha at 2.
  pose proof (Z.log2_le_mono a b ltac:(lia)). pose proof (Z.log2_nonneg a). rewrite <- Z.pow_add_r by lia. f_equal. lia.
Qed.

Lemma power_of_two_max a b :
  is_power_of_two a = true -> is_power_of_two b = true -> is_power_of_two (Z.max a b) = true.
Proof. intros Ha Hb. by destruct (Z.max_spec a b) as [[_ ->]|[_ ->]]. Qed.

(** ** Pools *)

(** A declaration that compiles, of an object that the linker has put where it has
    to be; the elements have to be counted in 32 bits. *)
Record pool_store_ok (ptr : Z) (st : pool_store) : Prop := {
  ps_num_ok : 0 < ps_num st;
  ps_size_ok : 0 < ps_element_size st;
  ps_align_ok : 0 < ps_align st /\ is_power_of_two (ps_align st) = true;
  ps_linked : 0 < ps_elements st /\ ps_elements st mod ct_align (c_struct (element_fields ptr st)) = 0;
  ps_span : ps_num st * ct_size (c_struct (element_fields ptr st)) < 4294967296;
  ps_queue_ok : ps_queue st = TS_QUEUE_STORE_DECL (ps_num st)
}.

Section pools.
Context (ptr : Z) (ptr_4_8 : ptr = 4 \/ ptr = 8).

Definition header_size : Z := ct_size (c_struct (header_fields ptr)).

Lemma header_layout : header_size = 8 + 2 * ptr /\ ct_align (c_struct (header_fields ptr)) = ptr.
Proof using ptr_4_8. unfold header_size. by destruct ptr_4_8 as [->| ->]. Qed.

Section store.
Context (st : pool_store) (OK : pool_store_ok ptr st).

Definition data_offset : Z := align_up header_size (ps_align st).
Definition element_align : Z := Z.max ptr (Z.max (ps_align st) 4).
Definition total_size : Z := align_up (align_up (data_offset + ps_element_size st) 4 + 4) element_align.

Lemma element_layout :
  ct_size (c_struct (element_fields ptr st)) = total_size /\ ct_align (c_struct (element_fields ptr st)) = element_align /\
  offset_of (element_fields ptr st) 1 - offset_of (element_fields ptr st) 0 = data_offset.
Proof using ptr_4_8 OK.
  destruct header_layout as [Hs Ha]. destruct OK as [_ _ [Hp _] _ _ _].
  unfold total_size, element_align, data_offset, header_size in *. unfold element_fields, c_alignas, uint8_array, uint32.
  revert Hs Ha. generalize (c_struct (header_fields ptr)) as h. intros h Hs Ha.
  unfold c_struct, offset_of. cbn. rewrite Ha.
  rewrite (align_up_id 0 ptr) by (try done; destruct ptr_4_8; lia). rewrite (Z.max_l (ps_align st) 1) by lia.
  split_and!; [|lia|by rewrite Z.sub_0_r]. f_equal.
Qed.

(** Alignments that divide the one of the elements. *)
Lemma element_align_multiple x :
  x mod element_align = 0 -> x mod ptr = 0 /\ x mod ps_align st = 0 /\ x mod 4 = 0.
Proof using ptr_4_8 OK.
  destruct OK as [_ _ [Hp Hpow] _ _ _]. intros Hx. unfold element_align in Hx.
  assert (is_power_of_two ptr = true) as Hptr by by destruct ptr_4_8 as [->| ->].
  assert (is_power_of_two (Z.max ptr (Z.max (ps_align st) 4)) = true) as Hm
    by (by repeat apply power_of_two_max).
  split_and!; (eapply mod_divide_0; [| | |exact Hx]; [lia..|apply power_of_two_divides; (done || lia)]).
Qed.

Lemma data_offset_range :
  header_size <= data_offset < header_size + ps_align st /\ data_offset mod ps_align st = 0.
Proof using OK. destruct OK as [_ _ [Hp _] _ _ _]. split; [by apply align_up_range|by apply align_up_multiple]. Qed.

(** The trailer word of an element ends inside it. *)
Lemma total_size_room : data_offset + ps_element_size st + 4 <= total_size.
Proof using ptr_4_8 OK.
  unfold total_size. pose proof (align_up_range (data_offset + ps_element_size st) 4 ltac:(lia)).
  assert (0 < element_align) as Ha by (unfold element_align; lia).
  pose proof (align_up_range (align_up (data_offset + ps_element_size st) 4 + 4) _ Ha). lia.
Qed.

(** The parameters, without overflow. *)
Lemma pool_params_eq :
  POOL_CREATE_INIT ptr st =
    {| pp_pool := true; pp_num_of_elements := ps_num st; pp_element_size_requested := ps_element_size st;
       pp_total_element_size := total_size; pp_backing := ps_elements st;
       pp_offset_data_from_header := data_offset |}.
Proof using ptr_4_8 OK.
  destruct element_layout as (Ht & _ & Ho). pose proof data_offset_range as [? _]. pose proof total_size_room.
  destruct header_layout as [Hh _]. destruct OK as [Hn Hs [Ha _] _ Hsp _]. rewrite Ht in Hsp.
  assert (0 < header_size) by lia. assert (0 < total_size) by lia.
  unfold POOL_CREATE_INIT. rewrite Ht, Ho, !u32_small by (unfold is_u32; nia). done.
Qed.

Lemma element_data_eq i :
  0 <= i < ps_num st ->
  element_data (POOL_CREATE_INIT ptr st) i = ps_elements st + i * total_size + data_offset.
Proof using ptr_4_8 OK.
  intros Hi. rewrite pool_params_eq. unfold element_data. cbn. pose proof total_size_room.
  pose proof data_offset_range as [? _]. destruct header_layout as [Hh _].
  destruct element_layout as (Ht & _ & _). destruct OK as [Hn Hs _ _ Hsp _]. rewrite Ht in Hsp.
  rewrite u32_small by (unfold is_u32; nia). done.
Qed.

(** A block's address, by its element. *)
Lemma block_element b : b ∈ blocks (POOL_CREATE_INIT ptr st) -> exists i, 0 <= i < ps_num st /\
  b = ps_elements st + i * total_size + data_offset.
Proof using ptr_4_8 OK.
  intros [i [-> Hi]]%list_elem_of_fmap. apply elem_of_seq in Hi. rewrite pool_params_eq in Hi. cbn in Hi.
  exists (Z.of_nat i). split; [lia|]. apply element_data_eq. lia.
Qed.

(** Every block is in the array of the elements, with its trailer. *)
Lemma block_range b : b ∈ blocks (POOL_CREATE_INIT ptr st) ->
  ps_elements st < b /\ b + ps_element_size st + 4 <= ps_elements st + ps_num st * total_size.
Proof using ptr_4_8 OK.
  intros (i & Hi & ->)%block_element. pose proof total_size_room. pose proof data_offset_range as [? _].
  destruct header_layout as [Hh _]. pose proof (ps_size_ok _ _ OK).
  assert (0 <= i * total_size) by (apply Z.mul_nonneg_nonneg; lia).
  assert ((i + 1) * total_size <= ps_num st * total_size) by (apply Z.mul_le_mono_nonneg_r; lia). lia.
Qed.

(** An element starts at a multiple of its alignment. *)
Lemma element_aligned i a :
  0 < a -> element_align mod a = 0 -> (ps_elements st + i * total_size) mod a = 0.
Proof using ptr_4_8 OK.
  intros Ha Hm. pose proof (ps_linked _ _ OK) as [_ Hl]. destruct element_layout as (_ & Hal & _). rewrite Hal in Hl.
  assert (0 < element_align) as Hp by (unfold element_align; lia).
  apply mod_add_0; [done|by eapply mod_divide_0; [| | |exact Hl]|].
  rewrite Z.mul_mod, (mod_divide_0 total_size a element_align), Z.mul_0_r, Z.mod_0_l by (try lia; done || by apply align_up_multiple).
  done.
Qed.

(** The data is aligned as was asked, and for a pointer. *)
Lemma data_aligned a :
  is_power_of_two a = true -> 0 < a <= Z.max ptr (ps_align st) -> data_offset mod a = 0.
Proof using ptr_4_8 OK.
  intros Hpow Ha. destruct OK as [_ _ [Hp Hal] _ _ _]. destruct header_layout as [Hh _].
  assert (is_power_of_two ptr = true /\ header_size mod ptr = 0) as [Hptr Hhp] by (rewrite Hh; by destruct ptr_4_8 as [->| ->]).
  destruct (Z.le_gt_cases (ps_align st) ptr) as [Hle|Hgt].
  - unfold data_offset. rewrite align_up_id; [|done|].
    + eapply mod_divide_0; [| | |exact Hhp]; [lia..|]. apply power_of_two_divides; (done || lia).
    + eapply mod_divide_0; [| | |exact Hhp]; [lia..|]. apply power_of_two_divides; (done || lia).
  - eapply mod_divide_0; [| | |by apply align_up_multiple]; [lia..|]. apply power_of_two_divides; (done || lia).
Qed.

Lemma block_aligned b a :
  b ∈ blocks (POOL_CREATE_INIT ptr st) -> is_power_of_two a = true -> 0 < a <= Z.max ptr (ps_align st) -> b mod a = 0.
Proof using ptr_4_8 OK.
  intros (i & Hi & ->)%block_element Hpow Ha. apply mod_add_0; [lia| |by apply data_aligned].
  apply element_aligned; [lia|]. destruct OK as [_ _ [Hp Hal] _ _ _]. unfold element_align.
  apply power_of_two_divides; [lia|done|]. repeat apply power_of_two_max; try done. by destruct ptr_4_8 as [->| ->].
Qed.

Lemma blocks_nodup : NoDup (blocks (POOL_CREATE_INIT ptr st)).
Proof using ptr_4_8 OK.
  assert (pp_num_of_elements (POOL_CREATE_INIT ptr st) = ps_num st) as Hn by by rewrite pool_params_eq.
  unfold blocks. rewrite Hn. pose proof total_size_room.
  pose proof data_offset_range as [? _]. destruct header_layout as [Hh _]. pose proof (ps_size_ok _ _ OK).
  apply NoDup_fmap_2_strong; [|apply NoDup_seq]. intros i j Hi Hj Hij. apply elem_of_seq in Hi, Hj.
  rewrite !element_data_eq in Hij by lia. nia.
Qed.

Lemma store_create_ok {Q} `{!BoundedQueue Q} n qu :
  bq_ok (n + ps_num st) qu -> bq_items qu = [] -> bq_capacity qu = ps_num st ->
  create_ok n (POOL_CREATE_INIT ptr st) qu.
Proof using ptr_4_8 OK.
  intros Hok Hi Hc. pose proof (ps_num_ok _ _ OK). pose proof (ps_linked _ _ OK) as [Hl _].
  assert (pp_num_of_elements (POOL_CREATE_INIT ptr st) = ps_num st) as Hn by by rewrite pool_params_eq.
  split; rewrite ?Hn; try done; try lia.
  - apply blocks_nodup.
  - intros Hb%block_range. lia.
Qed.
End store.
End pools.

(** ** Queues *)

(** What [ts_queue_init] makes of a queue's store when the thread library has the
    mutex and the condition variables. *)
Definition created_queue (st : ts_queue_store) : option ts_queue_t :=
  match ts_queue_init (Some (TS_QUEUE_STORE_CREATE_PARAMS_INIT st)) true true true with
  | (Some qu, true) => Some qu
  | _ => None
  end.

Lemma created_queue_cases num :
  0 < num < 4294967296 ->
  if is_power_of_two num
  then exists qu, created_queue (TS_QUEUE_STORE_DECL num) = Some qu /\
    tsq_wf qu /\ TsQueue.size qu = num /\ tsq_items qu = [] /\ TsQueue.head qu = 0
  else created_queue (TS_QUEUE_STORE_DECL num) = None.
Proof.
  intros Hn. set (p := TS_QUEUE_STORE_CREATE_PARAMS_INIT (TS_QUEUE_STORE_DECL num)).
  assert (zlen (replicate (Z.to_nat num) 0) = num) as Hlen by (unfold zlen; rewrite length_replicate; lia).
  destruct (ts_queue_init_power_of_two p _ _ true true true eq_refl eq_refl Hlen) as (qu & Hq & Hok).
  { change (qp_size p) with num. lia. }
  change (qp_size p) with num in *. unfold created_queue, is_power_of_two. fold p. rewrite Hq.
  case_bool_decide as Hp; [|done]. destruct (Hok Hp eq_refl) as (? & ? & ?). exists qu. split_and!; try done.
  cbn in Hq. destruct (negb _); by injection Hq as <-.
Qed.

(** ** Components over stores *)

Section components.
Context (timedout : Z) (timedout_nz : timedout <> 0) (now : timespec).

#[local] Instance store_bq : BoundedQueue ts_queue_t := port_queue timedout now.

#[local] Instance store_bq_laws : BoundedQueueLaws ts_queue_t := port_queue_laws timedout timedout_nz now.

Lemma store_queue_ok n num :
  0 <= n <= 2 ^ 62 -> 0 < num < 4294967296 -> is_power_of_two num = true ->
  exists qu, created_queue (TS_QUEUE_STORE_DECL num) = Some qu /\ bq_ok (n + num) qu /\
    bq_items qu = [] /\ bq_capacity qu = num.
Proof.
  intros Hn Hnum Hp. pose proof (created_queue_cases num Hnum) as H. rewrite Hp in H.
  destruct H as (qu & Hc & WF & Hs & Hi & Hh). exists qu. split_and!; try done.
  change (2 ^ 62) with 4611686018427387904 in Hn. split; [done|]. unfold room. lia.
Qed.

Context (ptr : Z) (ptr_4_8 : ptr = 4 \/ ptr = 8).

Lemma store_num st : pool_store_ok ptr st -> 0 < ps_num st < 4294967296.
Proof using ptr_4_8.
  intros OK. pose proof (total_size_room ptr ptr_4_8 st OK). pose proof (data_offset_range ptr st OK) as [? _].
  destruct (header_layout ptr ptr_4_8) as [Hh _]. destruct (element_layout ptr ptr_4_8 st OK) as (Ht & _ & _).
  destruct OK as [Hn Hs _ _ Hsp _]. rewrite Ht in Hsp.
  assert (ps_num st * 1 <= ps_num st * total_size ptr st) by (apply Z.mul_le_mono_nonneg_l; lia). lia.
Qed.

(** A pool with the queue of its store. *)
Lemma store_pool_ok n st :
  0 <= n <= 2 ^ 62 -> pool_store_ok ptr st -> is_power_of_two (ps_num st) = true ->
  exists qu, created_queue (ps_queue st) = Some qu /\ create_ok n (POOL_CREATE_INIT ptr st) qu.
Proof using ptr_4_8.
  intros Hn OK Hp. destruct (store_queue_ok n (ps_num st) Hn (store_num st OK) Hp) as (qu & Hc & Hok & Hi & Hcap).
  exists qu. rewrite (ps_queue_ok _ _ OK). split; [done|]. by apply store_create_ok.
Qed.

(** An address outside the elements. *)
Definition apart (st : pool_store) (a : Z) : Prop :=
  0 < a /\ (a <= ps_elements st \/ ps_elements st + ps_num st * ct_size (c_struct (element_fields ptr st)) <= a).

Lemma apart_blocks st a : pool_store_ok ptr st -> apart st a -> a ∉ blocks (POOL_CREATE_INIT ptr st).
Proof using ptr_4_8.
  intros OK [Ha Hout] Hb%block_range; [|done..]. rewrite (proj1 (element_layout ptr ptr_4_8 st OK)) in Hout.
  pose proof (ps_size_ok _ _ OK). lia.
Qed.

Lemma store_dispatch_ok n queue_size self elements :
  let st := DISPATCH_QUEUE_STORE_DECL ptr queue_size self elements in
  0 <= n <= 2 ^ 62 -> pool_store_ok ptr (ds_pool st) -> apart (ds_pool st) self ->
  is_power_of_two queue_size = true ->
  exists qu pool_qu, created_queue (ds_ts_queue st) = Some qu /\ created_queue (ps_queue (ds_pool st)) = Some pool_qu /\
    DispatchQueue.dispatch_ok self n (DISPATCH_QUEUE_CREATE_PARAMS_INIT ptr st) qu pool_qu.
Proof using ptr_4_8 timedout_nz.
  intros st Hn OK Ha Hp. pose proof (store_num _ OK) as Hnum. change (ps_num (ds_pool st)) with queue_size in Hnum.
  destruct (store_pool_ok n (ds_pool st) Hn OK Hp) as (pool_qu & Hpq & Hc).
  destruct (store_queue_ok n queue_size Hn Hnum Hp) as (qu & Hq & Hok & Hi & Hcap).
  exists qu, pool_qu. split_and!; [done..|]. split; cbn [dp_queue_size dp_p_queue dp_pool_params DISPATCH_QUEUE_CREATE_PARAMS_INIT].
  - cbn. lia.
  - done.
  - done.
  - split_and!; [by eapply bq_ok_mono; [|exact Hok]; lia|done|].
    rewrite (pool_params_eq ptr ptr_4_8 _ OK), Hcap. cbn. lia.
  - split; [destruct Ha; lia|by apply apart_blocks].
Qed.

Lemma store_notifier_ok n num_of_cat max_regs notif_reg_size elements notif_f :
  let st := NOTIFIER_STORE_DECL num_of_cat max_regs notif_reg_size elements in
  0 <= n <= 2 ^ 62 -> pool_store_ok ptr (ns_pool st) -> is_power_of_two max_regs = true ->
  0 <= num_of_cat < 4294967296 -> notif_f <> 0 ->
  exists qu, created_queue (ps_queue (ns_pool st)) = Some qu /\
    init_ok n (NOTIFIER_STORE_CREATE_PARAMS_INIT ptr st notif_f) (replicate (Z.to_nat num_of_cat) 0) qu.
Proof using ptr_4_8.
  intros st Hn OK Hp Hcat Hf. destruct (store_pool_ok n (ns_pool st) Hn OK Hp) as (qu & Hq & Hc).
  exists qu. split; [done|]. split; try done; cbn.
  - by rewrite length_replicate.
  - apply u32_small. unfold zlen, is_u32. rewrite length_replicate. lia.
Qed.
(** The parameters of the machines. *)
Lemma init_sm_params_ok sm_names starts client_data : forall i,
  0 <= i -> i + zlen sm_names <= zlen starts ->
  exists ps, init_sm_params i sm_names starts client_data = Ok ps /\ zlen ps = zlen sm_names /\
    sp_name <$> ps = sm_names /\ sp_start_state_id <$> ps = zslice starts i (zlen sm_names) /\
    Forall (fun q => sp_state_mac q = true) ps.
Proof.
  induction sm_names as [|nm l IH]; intros i Hi Hlen; cbn [init_sm_params].
  { exists []. by rewrite zlen_nil. }
  rewrite zlen_cons in Hlen |- *. pose proof (zlen_nonneg l).
  destruct (lookup_lt_is_Some_2 starts (Z.to_nat i)) as [x Hx]; [unfold zlen in *; lia|].
  rewrite (load_at_eq _ _ x) by done. cbn [mbind result_bind].
  destruct (IH (i + 1)) as (ps & -> & Hl & Hn & Hs & Hf); [lia..|]. cbn [mbind result_bind].
  eexists. split; [reflexivity|]. rewrite zlen_cons, Hl. split_and!; [lia|cbn; by rewrite Hn| |by constructor].
  cbn. rewrite Hs. unfold zslice.
  replace (Z.to_nat (i + 1)) with (S (Z.to_nat i)) by lia.
  replace (Z.to_nat (zlen l + 1)) with (S (Z.to_nat (zlen l))) by lia. by rewrite (drop_S _ _ _ Hx).
Qed.
End components.

(** *** Buffers and lists *)

(** The struct of the ring buffer's storage names its type [ring_buffer], which the
    client has to define. *)
Record mem_ring_buffer_store := { ms_rb : ring_buffer_t; ms_buffer : list byte }.

Definition MEM_RING_BUFFER_STORE_DECL (sizeInBytes : Z) : mem_ring_buffer_store :=
  {| ms_rb := {| rb_size := 0; read_offset := 0; write_offset := 0; rb_data := []; rb_ctx := 0;
                 on_data_read_at_range := None; on_data_written_at_range := None |};
     ms_buffer := replicate (Z.to_nat sizeInBytes) x00 |}.

Definition MEM_RING_BUFFER_CREATE_PARAMS_INIT (st : mem_ring_buffer_store) : ring_buffer_create_params_t :=
  {| rp_buffer := Some (ms_rb st); rp_data := Some (ms_buffer st); rp_size_in_bytes := u32 (zlen (ms_buffer st)) |}.

(** The storage is in a section that is not initialized: its contents are given. *)
Record accumulator_store := { cs_acc : accumulator_t; cs_buffer : list byte }.

Definition ACCUMULATOR_CREATE_PARAMS_INIT (st : accumulator_store) : accumulator_create_params_t :=
  {| ap_acc := Some (cs_acc st); ap_buf := cs_buffer st; ap_buf_size := u32 (zlen (cs_buffer st)) |}.

(** [store] is the address of the items. *)
Record free_list_store := { fs_list : free_list_t; fs_store : Z; fs_type : Z; fs_count : Z }.

Definition FREE_LIST_STORE_DECL (store type count : Z) : free_list_store :=
  {| fs_list := {| FreeList.head := 0; data_store := 0; item_size := 0; item_count := 0; current_available := 0 |};
     fs_store := store; fs_type := type; fs_count := count |}.

Definition FREE_LIST_STORE_CREATE_PARAMS_INIT (st : free_list_store) : free_list_create_params_t :=
  {| fp_list := Some (fs_list st); fp_data_store := fs_store st; fp_item_size := fs_type st;
     fp_item_count := fs_count st |}.

(** A ring buffer in zeroed storage is well-formed and empty. *)
Lemma ring_buffer_from_store sizeInBytes :
  0 < sizeInBytes < 4294967296 ->
  exists rb, create_ring_buffer (MEM_RING_BUFFER_CREATE_PARAMS_INIT (MEM_RING_BUFFER_STORE_DECL sizeInBytes)) = (Some rb, true) /\
    rb_wf rb /\ contents rb = [] /\ rb_size rb = sizeInBytes.
Proof.
  intros Hs. set (st := MEM_RING_BUFFER_STORE_DECL sizeInBytes).
  assert (zlen (ms_buffer st) = sizeInBytes) as Hl by (unfold zlen; cbn; rewrite length_replicate; lia).
  exists (set_storage (ms_rb st) (ms_buffer st) sizeInBytes).
  unfold create_ring_buffer, MEM_RING_BUFFER_CREATE_PARAMS_INIT. cbn [rp_buffer rp_data rp_size_in_bytes].
  rewrite Hl, u32_small by (unfold is_u32; lia). split_and!; [done| |done|done]. split; cbn; try lia; (done || by split).
Qed.

(** The items of a free list are distinct objects. *)
Lemma free_list_from_store h store type count :
  0 < store -> 0 < type -> 0 <= count -> type * count < 2 ^ 64 ->
  (forall i, 0 <= i < count -> is_Some (h !! (store + type * i))) ->
  FreeList.store_ok h (FREE_LIST_STORE_CREATE_PARAMS_INIT (FREE_LIST_STORE_DECL store type count)).
Proof.
  intros Hs Ht Hc Hb Ha. change (2 ^ 64) with 18446744073709551616 in Hb.
  assert (forall i, (i < Z.to_nat count)%nat -> item_at store type (Z.of_nat i) = store + type * Z.of_nat i) as Hi
    by (intros i Hi; unfold item_at; rewrite u64_small by (unfold is_u64; nia); done).
  split; cbn; try done; try lia.
  - unfold is_u64. nia.
  - apply NoDup_fmap_2_strong; [|apply NoDup_seq]. intros i j Hx Hy Hij. apply elem_of_seq in Hx, Hy.
    cbn in Hij, Hx, Hy. rewrite !Hi in Hij by lia. nia.
  - intros a [i [-> Hx]]%list_elem_of_fmap. apply elem_of_seq in Hx. cbn in Hx |- *. rewrite Hi by lia.
    split; [nia|]. apply Ha. lia.
Qed.

(** *** The state event loop *)

Section event_loop.
Context (timedout : Z) (timedout_nz : timedout <> 0) (now : timespec) {C : Type}.

#[local] Instance loop_bq : BoundedQueue ts_queue_t := port_queue timedout now.

#[local] Instance loop_bq_laws : BoundedQueueLaws ts_queue_t := port_queue_laws timedout timedout_nz now.

(** On a host with 64-bit pointers, as [sizeof_event_t] says. *)
Lemma sizeof_event : ct_size (c_struct (event_fields 8)) = sizeof_event_t.
Proof. done. Qed.

(** What the thread library and the client provide: every mutex and condition
    variable, the task [task], and the states. *)
Definition store_env (st : sel_store) (task : Z) (states : gmap Z state_t) (client : C) : sel_env ts_queue_t C :=
  {| en_queue_address := ds_queue (ss_queue st); en_signal_mtx := true; en_signal_cv := true;
     en_queue := created_queue (ds_ts_queue (ss_queue st));
     en_queue_pool := created_queue (ps_queue (ds_pool (ss_queue st)));
     en_queue_memory := {| headers := ∅; trailers := ∅ |}; en_task := task; en_notifier_mtx := true;
     en_notifier_queue := created_queue (ps_queue (ns_pool (ss_notifier st)));
     en_notifier_memory := {| headers := ∅; trailers := ∅ |};
     en_event_queue := created_queue (ps_queue (ss_events st));
     en_event_memory := {| headers := ∅; trailers := ∅ |};
     en_states := states; en_client := client; en_pre_proc_f := 0; en_client_data := 0 |}.

(** The numbers of a declaration. *)
Record sel_sizes : Set := {
  z_num_sm : Z;
  z_queue_size : Z;
  z_max_registrations : Z;
  z_max_event_id : Z;
  z_notif_block : Z;
  z_posted_event : Z
}.

Definition declared (a : sel_addresses) (z : sel_sizes) : sel_store :=
  STATE_EVENT_LOOP_STORE_DECL 8 a (z_num_sm z) (z_queue_size z) (z_max_registrations z) (z_max_event_id z)
    (z_notif_block z) (z_posted_event z).

(** The declaration compiles, and the linker has put its objects apart. *)
Record declared_ok (a : sel_addresses) (z : sel_sizes) : Prop := {
  dk_calls : pool_store_ok 8 (ds_pool (ss_queue (declared a z)));
  dk_blocks : pool_store_ok 8 (ns_pool (ss_notifier (declared a z)));
  dk_events : pool_store_ok 8 (ss_events (declared a z));
  dk_queue : apart 8 (ds_pool (ss_queue (declared a z))) (sa_queue a);
  dk_counts : 0 <= z_num_sm z < 4294967296 /\ 0 <= z_max_event_id z < 4294967296
}.

(** What a declaration needs beyond that. *)
Definition usable (z : sel_sizes) (sm_names : list Z) : bool :=
  (zlen sm_names =? z_num_sm z) && (sizeof_event_t <? z_posted_event z) &&
  is_power_of_two (z_queue_size z) && is_power_of_two (z_max_registrations z).

(** The macro and the creation. *)
Definition declared_loop (a : sel_addresses) (z : sel_sizes) (task_name notifier_f : Z) (sm_names starts : list Z)
    (data task : Z) (states : gmap Z state_t) (client : C)
  : result (state_event_loop_create_params_t * (sel ts_queue_t C * dispatch_queue_t ts_queue_t * bool)) :=
  let st := declared a z in
  params ← STATE_EVENT_LOOP_CREATE_PARAMS_INIT 8 st task_name notifier_f sm_names starts data;
  r ← state_event_loop_init params (store_env st task states client);
  Ok (params, r).

Lemma declared_params a z task_name notifier_f sm_names starts data :
  declared_ok a z -> zlen sm_names <= zlen starts -> zlen sm_names = z_num_sm z ->
  exists p, STATE_EVENT_LOOP_CREATE_PARAMS_INIT 8 (declared a z) task_name notifier_f sm_names starts data = Ok p /\
    sp_loop p = true /\ sp_machines p = Some (ss_machines (declared a z)) /\
    zlen (ss_machines (declared a z)) = sp_num_machines p /\ zlen (sp_sm_create_params p) = sp_num_machines p /\
    Forall (fun q => sp_state_mac q = true) (sp_sm_create_params p) /\
    sp_name <$> sp_sm_create_params p = sm_names /\
    sp_start_state_id <$> sp_sm_create_params p = zslice starts 0 (zlen sm_names) /\
    sp_queue_params p = DISPATCH_QUEUE_CREATE_PARAMS_INIT 8 (ss_queue (declared a z)) /\
    sp_notifier_params p = NOTIFIER_STORE_CREATE_PARAMS_INIT 8 (ss_notifier (declared a z)) notifier_f /\
    sp_event_pool_params p = POOL_CREATE_INIT 8 (ss_events (declared a z)) /\
    sp_event_data_size p = z_posted_event z.
Proof.
  intros OK Hle Hn. destruct (dk_counts _ _ OK) as [Hc _].
  destruct (init_sm_params_ok sm_names starts data 0) as (ps & Hps & Hl & Hnm & Hst & Hf); [lia..|].
  assert (zlen (ss_machines (declared a z)) = z_num_sm z) as Hm
    by (unfold zlen; cbn; rewrite length_replicate; lia).
  unfold STATE_EVENT_LOOP_CREATE_PARAMS_INIT. rewrite Hm, (proj2 (Z.eqb_eq _ _) Hn), Hps. cbn [cassert mbind result_bind].
  eexists. split; [reflexivity|]. cbn [sp_loop sp_machines sp_num_machines sp_sm_create_params sp_queue_params
    sp_notifier_params sp_event_pool_params sp_event_data_size].
  rewrite (u32_small (z_num_sm z)) by done. split_and!; try done; try lia.
  by rewrite (pool_params_eq 8 ltac:(by right) _ (dk_events _ _ OK)).
Qed.
(** The numbers that are not usable. *)
Lemma declared_loop_refused a z task_name notifier_f sm_names starts data task states client :
  declared_ok a z -> zlen sm_names <= zlen starts -> task <> 0 -> notifier_f <> 0 ->
  usable z sm_names = false ->
  declared_loop a z task_name notifier_f sm_names starts data task states client = Err AssertFailed.
Proof using timedout_nz.
  intros OK Hle Ht Hnf Hu. unfold declared_loop. set (en := store_env _ task states client).
  destruct (decide (zlen sm_names = z_num_sm z)) as [Hn|Hn].
  2:{ unfold STATE_EVENT_LOOP_CREATE_PARAMS_INIT. destruct (dk_counts _ _ OK) as [Hc _].
      assert (zlen (ss_machines (declared a z)) = z_num_sm z) as -> by (unfold zlen; cbn; rewrite length_replicate; lia).
      by rewrite (proj2 (Z.eqb_neq _ _) Hn). }
  destruct (declared_params a z task_name notifier_f sm_names starts data OK Hle Hn)
    as (p & -> & Hl & Hms & Hlm & Hlp & Hmac & _ & _ & Hq & Hno & Hep & Hsz). cbn [mbind result_bind].
  unfold state_event_loop_init. rewrite Hl, Hms, Hsz. cbn [cassert mbind result_bind].
  unfold usable in Hu. rewrite (proj2 (Z.eqb_eq _ _) Hn) in Hu. cbn [andb] in Hu.
  destruct (sizeof_event_t <? z_posted_event z); [|done]. cbn [andb cassert mbind result_bind] in Hu |- *.
  change (en_queue en) with (created_queue (TS_QUEUE_STORE_DECL (z_queue_size z))).
  pose proof (store_num 8 ltac:(by right) _ (dk_calls _ _ OK)) as Hqn. change (ps_num _) with (z_queue_size z) in Hqn.
  pose proof (store_num 8 ltac:(by right) _ (dk_blocks _ _ OK)) as Hrn.
  change (ps_num _) with (z_max_registrations z) in Hrn.
  destruct (is_power_of_two (z_queue_size z)) eqn:Hqp; cbn [andb] in Hu.
  2:{ pose proof (created_queue_cases _ Hqn) as Hc. rewrite Hqp in Hc. rewrite Hc, Hq. cbn -[u32].
      by rewrite (proj2 (Z.eqb_neq (z_queue_size z) 0)) by lia. }
  destruct (store_dispatch_ok timedout timedout_nz now 8 ltac:(by right) 0 (z_queue_size z) (sa_queue a) (sa_calls a)
    ltac:(lia) (dk_calls _ _ OK) (dk_queue _ _ OK) Hqp) as (qu & pqu & Hqu & Hpqu & Hdq).
  change (created_queue (TS_QUEUE_STORE_DECL (z_queue_size z))) with
    (created_queue (ds_ts_queue (DISPATCH_QUEUE_STORE_DECL 8 (z_queue_size z) (sa_queue a) (sa_calls a)))).
  rewrite Hqu. change (en_queue_pool en) with
    (created_queue (ps_queue (ds_pool (DISPATCH_QUEUE_STORE_DECL 8 (z_queue_size z) (sa_queue a) (sa_calls a))))).
  rewrite Hpqu, Hq. destruct (dispatch_queue_create_inv (sa_queue a) (fun _ _ _ u => u) 0 _ qu pqu
    (en_queue_memory en) ∅ task tt ltac:(lia) Hdq Ht) as (d & Hd & _).
  match type of Hd with ?c = _ => change (dispatch_queue_create _ _ _ _ _ _ _ _) with c end. rewrite Hd. cbn [mbind result_bind].
  rewrite create_machines_ok by (done || (unfold zlen in *; lia)). cbn [mbind result_bind].
  change (en_notifier_queue en) with (created_queue (TS_QUEUE_STORE_DECL (z_max_registrations z))).
  pose proof (created_queue_cases _ Hrn) as Hc. rewrite Hu in Hc. by rewrite Hc, Hno.
Qed.

(** A usable declaration. *)
Lemma declared_setup_ok n a z task_name notifier_f sm_names starts data task states client p :
  0 <= n <= 2 ^ 62 -> declared_ok a z -> zlen sm_names <= zlen starts -> task <> 0 -> notifier_f <> 0 ->
  usable z sm_names = true ->
  STATE_EVENT_LOOP_CREATE_PARAMS_INIT 8 (declared a z) task_name notifier_f sm_names starts data = Ok p ->
  setup_ok notifier_f n p (store_env (declared a z) task states client) /\ sizes_agree p = true.
Proof using timedout_nz.
  intros Hk OK Hle Ht Hnf Hu Hp. unfold usable in Hu. bdestr.
  destruct (declared_params a z task_name notifier_f sm_names starts data OK) as
    (p' & Hp' & Hl & Hms & Hlm & Hlp & Hmac & _ & _ & Hq & Hno & Hep & Hsz); [done..|].
  rewrite Hp in Hp'. injection Hp' as <-. split.
  - split; rewrite ?Hq, ?Hno, ?Hep.
    + done.
    + by eexists.
    + done.
    + by rewrite Hsz.
    + destruct (store_dispatch_ok timedout timedout_nz now 8 ltac:(by right) n (z_queue_size z) (sa_queue a) (sa_calls a)
        Hk (dk_calls _ _ OK) (dk_queue _ _ OK) ltac:(done)) as (qu & pqu & ? & ? & ?). by exists qu, pqu.
    + done.
    + destruct (dk_counts _ _ OK) as [_ Hc].
      destruct (store_notifier_ok timedout now 8 ltac:(by right) n (z_max_event_id z)
        (z_max_registrations z) (z_notif_block z) (sa_blocks a) notifier_f Hk (dk_blocks _ _ OK) ltac:(done) Hc Hnf)
        as (qu & ? & ?). by eexists _, qu.
    + done.
    + apply (store_pool_ok timedout now 8 ltac:(by right)); [done|apply (dk_events _ _ OK)|done].
  - unfold sizes_agree. rewrite Hq, Hep, Hsz, (pool_params_eq 8 ltac:(by right) _ (dk_events _ _ OK)). cbn.
    by rewrite !Z.eqb_refl.
Qed.
End event_loop.

(** *** The asynchronous service *)

Section service.
Context (timedout : Z) (timedout_nz : timedout <> 0) (now : timespec).

#[local] Instance service_bq : BoundedQueue ts_queue_t := port_queue timedout now.

#[local] Instance service_bq_laws : BoundedQueueLaws ts_queue_t := port_queue_laws timedout timedout_nz now.

Context {D : Type} `{!Dispatcher D} `{!DispatcherLaws D} {C : Type}.
Context (starter_a finisher_a tx_a rx_a : Z) (functions_ok : NoDup [0; starter_a; finisher_a; tx_a; rx_a]).
Context (ptr : Z) (ptr_4_8 : ptr = 4 \/ ptr = 8).

(** The arrays of two pools do not overlap. *)
Definition arrays_apart (s t : pool_store) : Prop :=
  ps_elements s + ps_num s * ct_size (c_struct (element_fields ptr s)) <= ps_elements t \/
  ps_elements t + ps_num t * ct_size (c_struct (element_fields ptr t)) <= ps_elements s.

Record asyncio_store_ok (st : asyncio_store) : Prop := {
  ao_tx : pool_store_ok ptr (as_tx st);
  ao_rx : pool_store_ok ptr (as_rx st);
  ao_apart : arrays_apart (as_tx st) (as_rx st);
  ao_counts : is_power_of_two (ps_num (as_tx st)) = true /\ is_power_of_two (ps_num (as_rx st)) = true
}.

Section store.
Context (tx_el rx_el rx_num tx_num rx_size tx_size al : Z) (sizes : 0 <= tx_size /\ 0 < al).

Abbreviation st := (ASYNCIO_STORE_DECL ptr tx_el rx_el rx_num tx_num rx_size tx_size al).
Abbreviation payload := (if tx_size =? 0 then al else tx_size).

(** The message of a transmission fits its block. *)
Lemma tx_message_layout :
  let o := offset_of (as_tx_fields st) 1 in
  0 < o /\ o mod al = 0 /\ o + payload <= ps_element_size (as_tx st).
Proof using ptr_4_8 sizes.
  cbn zeta. assert (0 < payload) as Hp by (destruct (tx_size =? 0) eqn:E; bdestr; lia).
  set (r := c_struct (request_fields ptr)). assert (0 < ct_align r /\ 0 < ct_size r) as [Hra Hrs]
    by (unfold r; by destruct ptr_4_8 as [->| ->]).
  change (offset_of (as_tx_fields st) 1) with (align_up (align_up 0 (ct_align r) + ct_size r) (Z.max al 1)).
  rewrite (align_up_id 0) by done. rewrite Z.max_l, Z.add_0_l by lia.
  pose proof (align_up_range (ct_size r) al ltac:(lia)). split_and!; [lia|apply align_up_multiple; lia|].
  change (ps_element_size (as_tx st)) with
    (align_up (align_up (align_up 0 (ct_align r) + ct_size r) (Z.max al 1) + payload)
       (Z.max (ct_align r) (Z.max (Z.max al 1) 1))).
  rewrite (align_up_id 0) by done. rewrite (Z.max_l al 1), Z.add_0_l by lia.
  pose proof (align_up_range (align_up (ct_size r) al + payload) (Z.max (ct_align r) (Z.max al 1)) ltac:(lia)). lia.
Qed.

Context (OK : asyncio_store_ok st).

(** The data of a transmission is in its block, and not in a receive buffer. *)
Lemma payload_apart b :
  b ∈ blocks (POOL_CREATE_INIT ptr (as_tx st)) ->
  b + u32 (offset_of (as_tx_fields st) 1) ∉ blocks (POOL_CREATE_INIT ptr (as_rx st)).
Proof using OK ptr_4_8 sizes.
  intros Hb Hr. destruct tx_message_layout as (Ho & _ & Hs). destruct OK as [Htx Hrx Hap _].
  apply block_range in Hb; [|done..]. apply block_range in Hr; [|done..].
  pose proof (total_size_room ptr ptr_4_8 _ Htx). pose proof (ps_size_ok _ _ Hrx) as Hz.
  assert (0 < payload) as Hp by (destruct (tx_size =? 0) eqn:E; bdestr; lia).
  pose proof (ps_span _ _ Htx) as Hsp. pose proof (ps_linked _ _ Htx) as [Hl _].
  unfold arrays_apart in Hap. rewrite (proj1 (element_layout ptr ptr_4_8 _ Htx)) in Hap, Hsp.
  rewrite (proj1 (element_layout ptr ptr_4_8 _ Hrx)) in Hap.
  rewrite u32_small in Hr by (unfold is_u32; lia). lia.
Qed.

Lemma asyncio_config_ok n name read_fn write_fn rx_cb rx_dq tx_dq data qr qt :
  let p := ASYNCIO_CREATE_PARAMS_INIT ptr st name read_fn write_fn rx_cb rx_dq tx_dq data in
  0 <= n <= 2 ^ 62 -> acceptable p = true -> (rx_dq <> 0 -> read_fn <> 0) -> (tx_dq <> 0 -> write_fn <> 0) ->
  created_queue (ps_queue (as_rx st)) = Some qr -> created_queue (ps_queue (as_tx st)) = Some qt ->
  config_ok starter_a finisher_a tx_a rx_a qr qt rx_dq tx_dq (ap_rx_pool_params p) (ap_tx_pool_params p)
    rx_cb read_fn write_fn (ap_tx_buffer_offset p) n.
Proof using OK ptr_4_8 sizes functions_ok.
  intros p Hn Hacc Hrd Hwr Hqr Hqt. pose proof OK as [Htx Hrx _ [Ht2 Hr2]].
  apply NoDup_cons in functions_ok as [H0 Hnd].
  destruct (store_pool_ok timedout now ptr ptr_4_8 n _ Hn Htx Ht2) as (q1 & Hq1 & Hc1).
  destruct (store_pool_ok timedout now ptr ptr_4_8 n _ Hn Hrx Hr2) as (q2 & Hq2 & Hc2).
  rewrite Hqr in Hq2. injection Hq2 as <-. rewrite Hqt in Hq1. injection Hq1 as <-.
  unfold acceptable, nonnull in Hacc. cbn in Hacc. split; try done.
  - destruct (decide (rx_dq = 0)) as [->|]; [right|by left]. intros ->. cbn in Hacc. by rewrite andb_false_r in Hacc.
  - intros Hrx0. split_and!; [|by apply Hrd|done]. intros ->. rewrite (proj2 (Z.eqb_neq read_fn 0)) in Hacc by auto.
    cbn in Hacc. by rewrite !andb_false_r in Hacc.
  - intros Htx0. split; [by apply Hwr|done].
  - intros b Hb. by apply payload_apart.
Qed.
End store.
End service.

(** ** Properties *)


Section composition.
Context (timedout : Z) (timedout_nz : timedout <> 0) (now : timespec).

#[local] Instance composed_bq : BoundedQueue ts_queue_t := port_queue timedout now.

#[local] Instance composed_bq_laws : BoundedQueueLaws ts_queue_t := port_queue_laws timedout timedout_nz now.

(** C28: A state event loop that is declared, defined and created with its macros.  With a
    name for every machine, events longer than their base, and powers of two for the
    length of the queue and the number of registrations, the loop is returned: its
    parts agree in their sizes, every machine has its name and its start state, all
    blocks are free and the worker runs.  Any other declaration compiles, and stops
    the program when the loop is created. *)
Theorem state_event_loop_from_store {C : Type} n a z task_name notifier_f
    sm_names starts data task states (client : C) :
  0 <= n <= 2 ^ 62 -> declared_ok a z -> zlen sm_names <= zlen starts -> task <> 0 -> notifier_f <> 0 ->
  if usable z sm_names then
    exists p s d,
      declared_loop timedout now a z task_name notifier_f sm_names starts data task states client = Ok (p, (s, d, true)) /\
      created_loop notifier_f n p (store_env (declared a z) task states client) s /\
      sp_name <$> sp_sm_create_params p = sm_names /\
      sp_start_state_id <$> sp_sm_create_params p = zslice starts 0 (zlen sm_names) /\
      dq_inv (sa_queue a) (fun _ _ _ u => u) (z_queue_size z) tt n (new_dq_world d tt)
  else declared_loop timedout now a z task_name notifier_f sm_names starts data task states client = Err AssertFailed.
Proof using timedout_nz.
  intros Hn OK Hle Ht Hnf. destruct (usable z sm_names) eqn:Hu.
  - assert (zlen sm_names = z_num_sm z) as Hnum by (unfold usable in Hu; bdestr; done).
    destruct (declared_params a z task_name notifier_f sm_names starts data OK Hle Hnum)
      as (p & Hp & _ & _ & _ & _ & _ & Hnames & Hst & Hq & _).
    destruct (declared_setup_ok timedout timedout_nz now n a z task_name notifier_f sm_names starts data task states client p
      Hn OK Hle Ht Hnf Hu Hp) as [Hs Hag].
    destruct (init_cases notifier_f n p _ ltac:(lia) Hs) as (s & d & Hi & Hd & Hc). rewrite Hag in Hi, Hc.
    exists p, s, d. unfold declared_loop. rewrite Hp. cbn [mbind result_bind]. rewrite Hi.
    split_and!; try done. rewrite Hq in Hd.
    cbn [dp_pool_params DISPATCH_QUEUE_CREATE_PARAMS_INIT] in Hd.
    by rewrite (pool_params_eq 8 ltac:(by right) _ (dk_calls _ _ OK)) in Hd.
  - by apply (declared_loop_refused timedout timedout_nz now).
Qed.

End composition.

(** ** Witnesses *)

(** Four elements of five bytes, aligned to 32. *)
Definition ex_pool_store : pool_store := POOL_STORE_DECL 4 5 32 4096.

Lemma ex_pool_store_ok : pool_store_ok 8 ex_pool_store.
Proof. split; try (vm_compute; auto; reflexivity); split; vm_compute; reflexivity. Qed.


(** A loop of two machines with a queue of four; and one with a queue of three. *)
Definition ex_addresses : sel_addresses := {| sa_queue := 65536; sa_calls := 4096; sa_blocks := 8192; sa_events := 16384 |}.

Definition ex_sizes (queue_size : Z) : sel_sizes :=
  {| z_num_sm := 2; z_queue_size := queue_size; z_max_registrations := 2; z_max_event_id := 3; z_notif_block := 40;
     z_posted_event := 32 |}.

Lemma ex_declared_ok queue_size : queue_size = 3 \/ queue_size = 4 -> declared_ok ex_addresses (ex_sizes queue_size).
Proof.
  intros [->| ->]; (split; [| | | |by apply (bool_decide_unpack _)]);
    (split; try (vm_compute; reflexivity); first [split; vm_compute; reflexivity | right; vm_compute; discriminate]).
Qed.

Lemma state_event_loop_from_store_witness :
  (exists p s d, declared_loop thrd_timedout ex_now ex_addresses (ex_sizes 4) 0 99 [31; 32] [1; 2; 3] 0 1 ex_desc tt =
     Ok (p, (s, d, true)) /\ sp_start_state_id <$> sp_sm_create_params p = [1; 2]) /\
  declared_loop thrd_timedout ex_now ex_addresses (ex_sizes 3) 0 99 [31; 32] [1; 2] 0 1 ex_desc tt = Err AssertFailed.
Proof.
  split.
  - destruct (state_event_loop_from_store thrd_timedout ltac:(discriminate) ex_now 10 ex_addresses (ex_sizes 4) 0 99
      [31; 32] [1; 2; 3] 0 1 ex_desc tt) as (p & s & d & H & _ & _ & Hs & _);
      [lia|apply ex_declared_ok; by right|vm_compute; discriminate|discriminate|discriminate|].
    exists p, s, d. split; [exact H|exact Hs].
  - apply (state_event_loop_from_store thrd_timedout ltac:(discriminate) ex_now 10 ex_addresses (ex_sizes 3) 0 99
      [31; 32] [1; 2] 0 1 ex_desc tt); [lia|apply ex_declared_ok; by left|vm_compute; discriminate|discriminate|discriminate].
Defined.

#[local] Existing Instance AsyncioGuarantees.ex_bq.
#[local] Existing Instance AsyncioGuarantees.ex_bq_laws.
#[local] Existing Instance AsyncioGuarantees.ex_dispatcher.
#[local] Existing Instance AsyncioGuarantees.ex_dispatcher_laws.

(** Two receive buffers of 64 bytes and four transmissions of up to 100, aligned
    to 16, on one worker. *)
Definition ex_asyncio_store : asyncio_store := ASYNCIO_STORE_DECL 8 4096 8192 2 4 64 100 16.

Definition ex_store_params : asyncio_create_params_t :=
  ASYNCIO_CREATE_PARAMS_INIT 8 ex_asyncio_store [65] 22 21 23 500 500 0.

Lemma ex_asyncio_store_ok : asyncio_store_ok 8 ex_asyncio_store.
Proof.
  split; [| |left; vm_compute; discriminate|by apply (bool_decide_unpack _)];
    (split; try (vm_compute; reflexivity); split; vm_compute; reflexivity).
Qed.

