(* ===== verification/TaskStore.v ===== *)
(** The static stores of tasks: the [TASK_STATIC_STORE_...] macros of the three task.h,
    over the layout rules of [Storage]. *)
From stdpp Require Import base list.
From Stdlib Require Import ZArith Lia.
From S2P Require Import Prelude Task Storage.
Local Open Scope Z_scope.

(** ** Declarations *)

(** The ports, and for FreeRTOS what its kernel fixes: [StaticTask_t], and the alignment
    [CUTILS_TASK_STACK_ALIGN] of its stacks. *)
Inductive task_port := PthreadTasks | C11Tasks | FreeRtosTasks (StaticTask_t : ctype) (stack_align : Z).

Section stores.
(** The size of a pointer, which a [pthread_t] and a [TaskHandle_t] have too. *)
Context (ptr : Z) (pt : task_port).

Definition pthread_task_fields : list ctype := [pointer ptr; uint32; uint8_array 30; pointer ptr; pointer ptr].
Definition c11_task_fields : list ctype := [pointer ptr; uint8_array 30; pointer ptr; pointer ptr; uint32].
Definition freertos_task_fields (StaticTask_t : ctype) : list ctype :=
  [pointer ptr; StaticTask_t; uint32; pointer ptr; pointer ptr].

Definition task_fields : list ctype :=
  match pt with
  | PthreadTasks => pthread_task_fields
  | C11Tasks => c11_task_fields
  | FreeRtosTasks tcb _ => freertos_task_fields tcb
  end.

(** The [alignas] of the stack; the c11 port has none. *)
Definition stack_alignas : Z :=
  match pt with
  | PthreadTasks => Z.shiftl 1 (if ptr =? 4 then 12 else 20)
  | C11Tasks => 1
  | FreeRtosTasks _ a => a
  end.

Definition store_fields (stack_size : Z) : list ctype :=
  [c_alignas stack_alignas (uint8_array stack_size); c_struct task_fields].

(** A store of [stack_size] bytes at the address [at_]. *)
Record task_store := { tk_at : Z; tk_stack_size : Z }.

Definition TASK_STATIC_STORE_DECL (stack_size at_ : Z) : task_store := {| tk_at := at_; tk_stack_size := stack_size |}.

Definition store_stack (st : task_store) : Z := tk_at st + offset_of (store_fields (tk_stack_size st)) 0.
Definition store_tsk (st : task_store) : Z := tk_at st + offset_of (store_fields (tk_stack_size st)) 1.

(** [stack_size] of the parameters has 32 bits on the POSIX ports. *)
Definition TASK_STATIC_INIT_CREATE_PARAMS (st : task_store) (lbl : list Z) (pri fn context : Z) : task_create_params_t :=
  TASK_INIT_CREATE_PARAMS_FROM_STORE (store_tsk st) (store_stack st)
    (match pt with FreeRtosTasks _ _ => tk_stack_size st | _ => u32 (tk_stack_size st) end) lbl pri fn context.

(** [(params).tcb]: the block inside the object. *)
Definition store_tcb (st : task_store) : Z := store_tsk st + offset_of task_fields 1.

(** A declaration that compiles, of an object that the linker has put where it has to
    be. *)
Record task_store_ok (st : task_store) : Prop := {
  tk_size : 0 < tk_stack_size st < 4294967296;
  tk_ptr : ptr = 4 \/ ptr = 8;
  tk_port : match pt with
            | FreeRtosTasks tcb a => 0 < ct_size tcb /\ 0 < ct_align tcb /\ is_power_of_two (ct_align tcb) = true /\
                                     0 < a /\ is_power_of_two a = true
            | _ => True
            end;
  tk_linked : 0 < tk_at st /\ tk_at st mod ct_align (c_struct (store_fields (tk_stack_size st))) = 0
}.

(** ** Layout *)

Section layout.
Context (st : task_store) (OK : task_store_ok st).

Lemma stack_alignas_ok : 0 < stack_alignas /\ is_power_of_two stack_alignas = true.
Proof using OK.
  destruct OK as [_ Hp Ht _]. unfold stack_alignas. destruct pt as [| |tcb a]; [|done|by destruct_and!].
  by destruct Hp as [->| ->].
Qed.

Lemma task_fields_ok : Forall (fun f => 0 < ct_align f /\ is_power_of_two (ct_align f) = true /\ 0 <= ct_size f) task_fields.
Proof using OK.
  destruct OK as [_ Hp Ht _].
  assert (0 < ptr /\ is_power_of_two ptr = true /\ 0 <= ptr) as Hptr by by destruct Hp as [->| ->].
  unfold task_fields. destruct pt as [| |tcb a]; repeat constructor; cbn; destruct_and?; done || lia.
Qed.
End layout.
End stores.

(** The alignment of a struct of fields with alignments that are powers of two. *)
Lemma struct_align_ok fs :
  Forall (fun f => 0 < ct_align f /\ is_power_of_two (ct_align f) = true /\ 0 <= ct_size f) fs ->
  0 < ct_align (c_struct fs) /\ is_power_of_two (ct_align (c_struct fs)) = true.
Proof.
  intros H. cbn. induction H as [|f fs (Ha & Hp & _) _ [IH1 IH2]]; [done|]. cbn.
  split; [lia|by apply power_of_two_max].
Qed.

Lemma fields_end_mono at_ fs :
  Forall (fun f => 0 < ct_align f /\ is_power_of_two (ct_align f) = true /\ 0 <= ct_size f) fs ->
  at_ <= fields_end at_ fs.
Proof.
  intros H. revert at_. induction H as [|f fs (Ha & _ & Hs) _ IH]; intros at_; cbn; [lia|].
  pose proof (align_up_range at_ (ct_align f) Ha). pose proof (IH (align_up at_ (ct_align f) + ct_size f)). lia.
Qed.

(** What a task that is declared and created with its macros gets: the whole stack, at
    the start of the store and aligned as its port wants, and an object behind it, aligned
    for its fields, in the store; the POSIX ports take the parameters if there is a
    function.  The c11 port does not align the stack beyond the alignment of the object. *)
Theorem task_store_layout ptr pt st lbl pri fn context :
  task_store_ok ptr pt st ->
  let p := TASK_STATIC_INIT_CREATE_PARAMS ptr pt st lbl pri fn context in
  let obj := c_struct (task_fields ptr pt) in
  p_stack p = tk_at st /\ p_stack_size p = tk_stack_size st /\
  p_stack p mod stack_alignas ptr pt = 0 /\ p_stack p mod ct_align obj = 0 /\
  p_stack p + p_stack_size p <= p_task p /\ p_task p mod ct_align obj = 0 /\
  p_task p + ct_size obj <= tk_at st + ct_size (c_struct (store_fields ptr pt (tk_stack_size st))) /\
  (fn <> 0 -> valid_params p = true).
Proof.
  intros OK p obj. destruct (stack_alignas_ok ptr pt st OK) as [Ha Hap].
  destruct (struct_align_ok _ (task_fields_ok ptr pt st OK)) as [Ho Hop]. fold obj in Ho, Hop.
  pose proof (tk_size _ _ _ OK) as Hs. destruct (tk_linked _ _ _ OK) as [Hat Hl].
  set (a := Z.max (stack_alignas ptr pt) 1) in *.
  assert (a = stack_alignas ptr pt) as Haa by (unfold a; lia).
  assert (offset_of (store_fields ptr pt (tk_stack_size st)) 0 = 0) as Ho0.
  { unfold offset_of, store_fields. cbn. apply align_up_id; [unfold a in *; lia|]. by rewrite Z.mod_0_l by lia. }
  assert (offset_of (store_fields ptr pt (tk_stack_size st)) 1 = align_up (tk_stack_size st) (ct_align obj)) as Ho1.
  { unfold offset_of, store_fields. cbn -[c_struct align_up]. fold obj. fold a.
    rewrite (align_up_id 0 a) by (try lia; by rewrite Z.mod_0_l by lia). done. }
  assert (ct_align (c_struct (store_fields ptr pt (tk_stack_size st))) = Z.max a (ct_align obj)) as Hal.
  { unfold store_fields. cbn -[c_struct]. fold obj. unfold c_struct at 1. cbn [ct_align foldr c_alignas uint8_array].
    fold a. lia. }
  pose proof (align_up_range (tk_stack_size st) (ct_align obj) Ho) as Hr.
  pose proof (align_up_multiple (tk_stack_size st) (ct_align obj) Ho) as Hm.
  rewrite Hal in Hl.
  assert (is_power_of_two (Z.max a (ct_align obj)) = true) as Hmp by (apply power_of_two_max; [by rewrite Haa|done]).
  assert (tk_at st mod a = 0) as Hata
    by (eapply mod_divide_0; [| |apply power_of_two_divides| exact Hl]; try done; try lia; by rewrite Haa).
  assert (tk_at st mod ct_align obj = 0) as Hato
    by (eapply mod_divide_0; [| |apply power_of_two_divides| exact Hl]; try done; lia).
  assert (p_stack p = tk_at st) as Hstack by (cbn; unfold store_stack; rewrite Ho0; lia).
  assert (p_task p = tk_at st + align_up (tk_stack_size st) (ct_align obj)) as Htask by (cbn; unfold store_tsk; by rewrite Ho1).
  assert (p_stack_size p = tk_stack_size st) as Hsize by (cbn; destruct pt; by rewrite ?u32_small by (unfold is_u32; lia)).
  assert (ct_size (c_struct (store_fields ptr pt (tk_stack_size st))) =
    align_up (align_up (tk_stack_size st) (ct_align obj) + ct_size obj) (Z.max a (ct_align obj))) as Hcs.
  { rewrite <- Hal. unfold store_fields. fold obj. clearbody obj. unfold c_struct. cbn -[align_up]. fold a.
    by rewrite (align_up_id 0 a) by (try lia; by rewrite Z.mod_0_l by lia). }
  pose proof (align_up_range (align_up (tk_stack_size st) (ct_align obj) + ct_size obj) (Z.max a (ct_align obj)) ltac:(lia)).
  rewrite Hstack, Hsize, Htask, <- Haa, Hcs. split_and!; try done; [lia|by apply mod_add_0|lia|].
  intros Hfn. unfold valid_params. rewrite Hstack, Hsize, Htask. change (p_func p) with fn.
  by rewrite !(proj2 (Z.eqb_neq _ 0)) by lia.
Qed.

(** ** Witness *)

(** A stack of 5001 bytes under FreeRTOS on a machine of 32 bits, with a block of 92
    bytes and stacks aligned to 8. *)
Lemma task_store_layout_witness :
  let pt := FreeRtosTasks {| ct_size := 92; ct_align := 4 |} 8 in
  let st := TASK_STATIC_STORE_DECL 5001 536870912 in
  let p := TASK_STATIC_INIT_CREATE_PARAMS 4 pt st [84] 1 77 0 in
  p_stack p = 536870912 /\ p_stack p mod 8 = 0 /\ p_task p mod 4 = 0 /\ p_task p = 536870912 + 5004 /\
  store_tcb 4 pt st = p_task p + 4 /\ valid_params p = true.
Proof.
  intros pt st p.
  destruct (task_store_layout 4 pt st [84] 1 77 0) as (H1 & _ & H2 & _ & _ & H3 & _ & H4).
  - split; [by vm_compute|by left|by split_and!|by vm_compute].
  - split_and!; [exact H1|exact H2|exact H3|reflexivity|reflexivity|by apply H4].
Defined.
